(** * Room-based dungeon shooter: a shallow embedding of the simulation core

    The repository holds several near-duplicate variants of one game:
    - [src/n.mjs]: shop per ring, boss every ten rings, no room cache;
    - [src/n.js]: probabilistic graph, treasure rooms with a key lock, cache;
    - [src/unnamed/part_000]: shop per ring, room cache;
    - [src/unnamed/part_001], first program (FREEDOM): floor graph built up
      front, shield, pierce/bounce bullets, locked treasure;
    - [src/unnamed/part_001], second program: shop, heal fountain and armory
      per ring.

    Each variant is embedded in a module of its own.  JavaScript numbers
    that hold grid coordinates and counters are [Z]; the other numbers
    (positions, timers, hit points) are exact rationals [Q], the usual
    idealisation of doubles that ignores rounding.  [Math.sqrt], [Math.cos],
    [Math.sin], [Math.atan2], [Math.pow] and the stream of values returned
    by [Math.random] are parameters of the model (class [Env]); the number
    of draws made so far is threaded through the state. *)

From Stdlib Require Import ZArith QArith Qabs Qround Lqa Lia.
From Stdlib Require Import String Ascii List Decimal DecimalString DecimalZ.
From stdpp Require Import gmap strings list.


(** ** JavaScript helpers shared by every variant *)

Module Js.

(** The four door directions, ["N"], ["S"], ["W"], ["E"] in the source. *)
Inductive Dir := dN | dS | dW | dE.

#[global] Instance Dir_eq_dec : EqDecision Dir.
Proof. solve_decision. Defined.

(** An object [{ N: _, S: _, W: _, E: _ }] of booleans. *)
Record Doors := mkDoors { atN : bool; atS : bool; atW : bool; atE : bool }.

Definition getDoor (d : Doors) (dir : Dir) : bool :=
  match dir with dN => atN d | dS => atS d | dW => atW d | dE => atE d end.

Definition setDoor (d : Doors) (dir : Dir) (b : bool) : Doors :=
  match dir with
  | dN => mkDoors b (atS d) (atW d) (atE d)
  | dS => mkDoors (atN d) b (atW d) (atE d)
  | dW => mkDoors (atN d) (atS d) b (atE d)
  | dE => mkDoors (atN d) (atS d) (atW d) b
  end.

(** All four doors alike: what [lockDoors] writes. *)
Definition allDoors (b : bool) : Doors := mkDoors b b b b.

(** *** Room ids: [roomKey] and [parseRoom] *)

(** [x + "," + y] on integers: the decimal rendering of each coordinate. *)
Definition showInt (z : Z) : string := NilZero.string_of_int (Z.to_int z).

Definition roomKey (x y : Z) : string :=
  (showInt x ++ "," ++ showInt y)%string.

Definition isDigit (c : ascii) : bool :=
  match uint_of_char c (Some Nil) with Some _ => true | None => false end.

(** The longest prefix of decimal digits, as [parseInt] reads it. *)
Fixpoint takeDigits (s : string) : string :=
  match s with
  | EmptyString => EmptyString
  | String c r => if isDigit c then String c (takeDigits r) else EmptyString
  end.

(** [parseInt(s, 10)] restricted to the shapes [roomKey] produces: an
    optional sign, then digits; trailing characters are ignored.  [None]
    stands for [NaN]. *)
Definition parseInt10 (s : string) : option Z :=
  match s with
  | String "-" r =>
      match NilEmpty.uint_of_string (takeDigits r) with
      | Some Nil | None => None
      | Some u => Some (Z.of_int (Neg u))
      end
  | String "+" r =>
      match NilEmpty.uint_of_string (takeDigits r) with
      | Some Nil | None => None
      | Some u => Some (Z.of_int (Pos u))
      end
  | _ =>
      match NilEmpty.uint_of_string (takeDigits s) with
      | Some Nil | None => None
      | Some u => Some (Z.of_int (Pos u))
      end
  end.

(** [s.split(",")]: the pieces between commas, left to right. *)
Fixpoint splitComma (s : string) : list string :=
  match s with
  | EmptyString => [EmptyString]
  | String c r =>
      if Ascii.eqb c "," then EmptyString :: splitComma r
      else
        match splitComma r with
        | p :: ps => String c p :: ps
        | [] => [String c EmptyString]
        end
  end.

(** [parseRoom(id)].  Every id the game hands to [ensureNode] is the
    literal ["0,0"] or comes out of [roomKey], so both pieces parse; a
    piece that does not (JavaScript: [NaN]) is rendered as [0] here and is
    outside what the theorems below speak about. *)
Definition parseRoom (id : string) : Z * Z :=
  let s := splitComma id in
  (default 0%Z (s !! 0%nat ≫= parseInt10),
   default 0%Z (s !! 1%nat ≫= parseInt10)).

(** *** Numbers *)

Local Open Scope Q_scope.

(** [v | 0] on a rational: truncation toward zero, then wrap to 32 bits. *)
Definition truncQ (q : Q) : Z :=
  if Qle_bool 0 q then Qfloor q else (- Qfloor (- q))%Z.

Definition toInt32 (q : Q) : Z :=
  ((truncQ q + 2 ^ 31) mod 2 ^ 32 - 2 ^ 31)%Z.

Definition Qltb (a b : Q) : bool := negb (Qle_bool b a).

Definition clamp (v a b : Q) : Q :=
  if Qltb v a then a else if Qltb b v then b else v.

Definition lerp (a b t : Q) : Q := a + (b - a) * t.

Definition dist2 (ax ay bx by_ : Q) : Q :=
  let dx := ax - bx in let dy := ay - by_ in dx * dx + dy * dy.

Definition Qmaxb (a b : Q) : Q := if Qltb a b then b else a.
Definition Qminb (a b : Q) : Q := if Qltb b a then b else a.

(** The parts of the JavaScript runtime the model does not compute:
    elementary functions and the values [Math.random()] returns, the
    [k]-th call (counted from the start of the run) yielding [random k]. *)
Class Env := {
  sqrtQ : Q -> Q;
  cosQ : Q -> Q;
  sinQ : Q -> Q;
  atan2Q : Q -> Q -> Q;
  powQ : Q -> Q -> Q;
  PI : Q;
  random : nat -> Q;
  random_unit : forall k, 0 <= random k /\ random k < 1
}.

(** *** A state monad for the imperative code *)

Definition M (S A : Type) : Type := S -> A * S.

Definition ret {S A} (a : A) : M S A := fun s => (a, s).

Definition bind {S A B} (m : M S A) (f : A -> M S B) : M S B :=
  fun s => let r := m s in f (fst r) (snd r).

Definition gets {S A} (f : S -> A) : M S A := fun s => (f s, s).
Definition modify {S} (f : S -> S) : M S unit := fun s => (tt, f s).
Definition exec {S A} (m : M S A) (s : S) : S := snd (m s).
Definition eval {S A} (m : M S A) (s : S) : A := fst (m s).

Notation "x <- m ;; k" := (bind m (fun x => k))
  (at level 100, m at next level, right associativity).
Notation "m ;;; k" := (bind m (fun _ => k))
  (at level 100, right associativity).

(** [if (b) { m }]. *)
Definition when {S} (b : bool) (m : M S unit) : M S unit :=
  if b then m else ret tt.

(** A [for] loop whose iterations are known when it starts. *)
Fixpoint forM_ {S X} (l : list X) (body : X -> M S unit) : M S unit :=
  match l with
  | [] => ret tt
  | x :: r => body x ;;; forM_ r body
  end.

(** A loop that carries a local variable through its iterations. *)
Fixpoint foldM {S X A} (l : list X) (a : A) (body : A -> X -> M S A) : M S A :=
  match l with
  | [] => ret a
  | x :: r => a' <- body a x ;; foldM r a' body
  end.

(** Array reads and writes at an integer index.  Every index the programs
    compute lies inside the array (the tile coordinates come from
    [Math.random() < 1] or from constants); a write outside, where
    JavaScript would grow the array, leaves the list as it is. *)
Definition arrGet {A} (i : Z) (g : list A) : option A :=
  if (0 <=? i)%Z then g !! Z.to_nat i else None.

Definition arrSet {A} (i : Z) (v : A) (g : list A) : list A :=
  if (0 <=? i)%Z then <[Z.to_nat i := v]> g else g.

End Js.
Export Js.

(** ** [src/unnamed/part_001], second program: shop, heal fountain, armory

    Room graph of the variant whose header reads "Added peaceful rooms:
    Shop, Heal Fountain (free heal), Armory (rare free weapon)". *)

Module Fountain.

Local Open Scope Z_scope.

(** [node.kind]: ["combat" | "shop" | "heal" | "armory" | "start"]. *)
Inductive Kind := combat | shop | heal | armory | start.

#[global] Instance Kind_eq_dec : EqDecision Kind.
Proof. solve_decision. Defined.

(** [node.flags]: per-room one-shot flags set by the fountain and the
    armory chest. *)
Record Flags := mkFlags { fountainUsed : bool; armoryOpened : bool }.

Record Node := mkNode {
  node_id : string;
  node_x : Z;
  node_y : Z;
  node_depth : Z;
  node_kind : Kind;
  node_seen : bool;
  node_cleared : bool;
  node_flags : Flags
}.

(** The object literal of [ensureNode]. *)
Definition newNode (id : string) : Node :=
  let p := parseRoom id in
  {| node_id := id;
     node_x := fst p; node_y := snd p;
     node_depth := Z.abs (fst p) + Z.abs (snd p);
     node_kind := combat;
     node_seen := false;
     node_cleared := false;
     node_flags := mkFlags false false |}.

(** [ensureNode(id)] on [state.map]: the node and the updated map. *)
Definition ensureNode (id : string) (m : gmap string Node) :
    Node * gmap string Node :=
  match m !! id with
  | Some n => (n, m)
  | None => (newNode id, <[id := newNode id]> m)
  end.

(** Shop: one per depth ring. *)
Definition isShopCoord (x y : Z) : bool :=
  let d := Z.abs x + Z.abs y in
  if d <? 1 then false
  else
    let m := Z.rem d 4 in
    if m =? 0 then (x =? d) && (y =? 0)
    else if m =? 1 then (x =? 0) && (y =? d)
    else if m =? 2 then (x =? - d) && (y =? 0)
    else (x =? 0) && (y =? - d).

(** Heal: "one per depth ring, offset from shop ring pick" says the
    comment above the function. *)
Definition isHealCoord (x y : Z) : bool :=
  let d := Z.abs x + Z.abs y in
  if d <? 2 then false
  else if (0 <=? x) && (0 <=? y) then (x =? d - 1) && (y =? 1)
  else if (x <=? 0) && (0 <=? y) then (x =? -1) && (y =? d - 1)
  else if (x <=? 0) && (y <=? 0) then (x =? - (d - 1)) && (y =? -1)
  else (x =? 1) && (y =? - (d - 1)).

(** The value [h] of [isArmoryCoord] after normalisation into [0..10]. *)
Definition armoryHash (x y : Z) : Z :=
  let d := Z.abs x + Z.abs y in
  let h := x * 31 + y * 17 + d * 13 in
  Z.rem (Z.rem h 11 + 11) 11.

(** Armory: rare rooms, by a deterministic hash. *)
Definition isArmoryCoord (x y : Z) : bool :=
  let d := Z.abs x + Z.abs y in
  if d <? 3 then false
  else if negb (armoryHash x y =? 0) then false
  else if isShopCoord x y || isHealCoord x y then false
  else true.

Definition assignRoomKind (node : Node) : Kind :=
  if String.eqb (node_id node) "0,0" then start
  else if isShopCoord (node_x node) (node_y node) then shop
  else if isHealCoord (node_x node) (node_y node) then heal
  else if isArmoryCoord (node_x node) (node_y node) then armory
  else combat.

(** The kind [loadRoom] gives the room at grid cell [(x, y)] on its first
    visit: the node is created from its key, then classified. *)
Definition classify (x y : Z) : Kind :=
  assignRoomKind (fst (ensureNode (roomKey x y) ∅)).

End Fountain.

(** ** [src/n.mjs]: shop per ring, boss every ten rings

    The whole simulation step of this variant: room graph, tile
    generation, door transitions, room population, combat, and [update]. *)

Module NMjs.

Local Open Scope Q_scope.

(** [node.kind]: ["combat" | "shop" | "start"]. *)
Inductive Kind := combat | shop | start.

(** [e.type]: ["chaser" | "shooter" | "boss"]. *)
Inductive EType := chaser | shooter | boss.

(** [b.from]: ["player" | "enemy"]. *)
Inductive Owner := fromPlayer | fromEnemy.

(** [p.t]: ["coin" | "heart"]. *)
Inductive PickupT := coin | heart.

#[global] Instance Kind_eq_dec : EqDecision Kind.
Proof. solve_decision. Defined.
#[global] Instance EType_eq_dec : EqDecision EType.
Proof. solve_decision. Defined.
#[global] Instance Owner_eq_dec : EqDecision Owner.
Proof. solve_decision. Defined.
#[global] Instance PickupT_eq_dec : EqDecision PickupT.
Proof. solve_decision. Defined.

(** A room node of [state.map] (the [flags] object of the source is never read or written). *)
Record Node := mkNode {
  node_id : string;
  node_x : Z;
  node_y : Z;
  node_depth : Z;
  node_kind : Kind;
  node_seen : bool;
  node_cleared : bool
}.

Definition set_node_id (v : string) (r : Node) : Node :=
  mkNode v (node_x r) (node_y r) (node_depth r) (node_kind r) (node_seen r)
    (node_cleared r).
Definition set_node_x (v : Z) (r : Node) : Node :=
  mkNode (node_id r) v (node_y r) (node_depth r) (node_kind r) (node_seen r)
    (node_cleared r).
Definition set_node_y (v : Z) (r : Node) : Node :=
  mkNode (node_id r) (node_x r) v (node_depth r) (node_kind r) (node_seen r)
    (node_cleared r).
Definition set_node_depth (v : Z) (r : Node) : Node :=
  mkNode (node_id r) (node_x r) (node_y r) v (node_kind r) (node_seen r)
    (node_cleared r).
Definition set_node_kind (v : Kind) (r : Node) : Node :=
  mkNode (node_id r) (node_x r) (node_y r) (node_depth r) v (node_seen r)
    (node_cleared r).
Definition set_node_seen (v : bool) (r : Node) : Node :=
  mkNode (node_id r) (node_x r) (node_y r) (node_depth r) (node_kind r) v
    (node_cleared r).
Definition set_node_cleared (v : bool) (r : Node) : Node :=
  mkNode (node_id r) (node_x r) (node_y r) (node_depth r) (node_kind r)
    (node_seen r) v.

(** A materialised room of [state.rooms]; [g], [null] until the tiles are generated, is the empty list then. *)
Record Room := mkRoom {
  room_id : string;
  room_g : list Z;
  doorsOpen : Doors;
  neighbors : Doors
}.

Definition set_room_id (v : string) (r : Room) : Room :=
  mkRoom v (room_g r) (doorsOpen r) (neighbors r).
Definition set_room_g (v : list Z) (r : Room) : Room :=
  mkRoom (room_id r) v (doorsOpen r) (neighbors r).
Definition set_doorsOpen (v : Doors) (r : Room) : Room :=
  mkRoom (room_id r) (room_g r) v (neighbors r).
Definition set_neighbors (v : Doors) (r : Room) : Room :=
  mkRoom (room_id r) (room_g r) (doorsOpen r) v.

(** An enemy.  The last four fields exist on bosses only; they are [0] and the empty string on the others, which never read them. *)
Record Enemy := mkEnemy {
  e_type : EType;
  e_x : Q;
  e_y : Q;
  e_r : Q;
  e_hp : Q;
  e_vx : Q;
  e_vy : Q;
  e_t : Q;
  e_fireCD : Q;
  e_phase : Z;
  e_patternId : Z;
  e_patternName : string;
  e_spinA : Q
}.

Definition set_e_type (v : EType) (r : Enemy) : Enemy :=
  mkEnemy v (e_x r) (e_y r) (e_r r) (e_hp r) (e_vx r) (e_vy r) (e_t r)
    (e_fireCD r) (e_phase r) (e_patternId r) (e_patternName r) (e_spinA r).
Definition set_e_x (v : Q) (r : Enemy) : Enemy :=
  mkEnemy (e_type r) v (e_y r) (e_r r) (e_hp r) (e_vx r) (e_vy r) (e_t r)
    (e_fireCD r) (e_phase r) (e_patternId r) (e_patternName r) (e_spinA r).
Definition set_e_y (v : Q) (r : Enemy) : Enemy :=
  mkEnemy (e_type r) (e_x r) v (e_r r) (e_hp r) (e_vx r) (e_vy r) (e_t r)
    (e_fireCD r) (e_phase r) (e_patternId r) (e_patternName r) (e_spinA r).
Definition set_e_r (v : Q) (r : Enemy) : Enemy :=
  mkEnemy (e_type r) (e_x r) (e_y r) v (e_hp r) (e_vx r) (e_vy r) (e_t r)
    (e_fireCD r) (e_phase r) (e_patternId r) (e_patternName r) (e_spinA r).
Definition set_e_hp (v : Q) (r : Enemy) : Enemy :=
  mkEnemy (e_type r) (e_x r) (e_y r) (e_r r) v (e_vx r) (e_vy r) (e_t r)
    (e_fireCD r) (e_phase r) (e_patternId r) (e_patternName r) (e_spinA r).
Definition set_e_vx (v : Q) (r : Enemy) : Enemy :=
  mkEnemy (e_type r) (e_x r) (e_y r) (e_r r) (e_hp r) v (e_vy r) (e_t r)
    (e_fireCD r) (e_phase r) (e_patternId r) (e_patternName r) (e_spinA r).
Definition set_e_vy (v : Q) (r : Enemy) : Enemy :=
  mkEnemy (e_type r) (e_x r) (e_y r) (e_r r) (e_hp r) (e_vx r) v (e_t r)
    (e_fireCD r) (e_phase r) (e_patternId r) (e_patternName r) (e_spinA r).
Definition set_e_t (v : Q) (r : Enemy) : Enemy :=
  mkEnemy (e_type r) (e_x r) (e_y r) (e_r r) (e_hp r) (e_vx r) (e_vy r) v
    (e_fireCD r) (e_phase r) (e_patternId r) (e_patternName r) (e_spinA r).
Definition set_e_fireCD (v : Q) (r : Enemy) : Enemy :=
  mkEnemy (e_type r) (e_x r) (e_y r) (e_r r) (e_hp r) (e_vx r) (e_vy r) (e_t
    r) v (e_phase r) (e_patternId r) (e_patternName r) (e_spinA r).
Definition set_e_phase (v : Z) (r : Enemy) : Enemy :=
  mkEnemy (e_type r) (e_x r) (e_y r) (e_r r) (e_hp r) (e_vx r) (e_vy r) (e_t
    r) (e_fireCD r) v (e_patternId r) (e_patternName r) (e_spinA r).
Definition set_e_patternId (v : Z) (r : Enemy) : Enemy :=
  mkEnemy (e_type r) (e_x r) (e_y r) (e_r r) (e_hp r) (e_vx r) (e_vy r) (e_t
    r) (e_fireCD r) (e_phase r) v (e_patternName r) (e_spinA r).
Definition set_e_patternName (v : string) (r : Enemy) : Enemy :=
  mkEnemy (e_type r) (e_x r) (e_y r) (e_r r) (e_hp r) (e_vx r) (e_vy r) (e_t
    r) (e_fireCD r) (e_phase r) (e_patternId r) v (e_spinA r).
Definition set_e_spinA (v : Q) (r : Enemy) : Enemy :=
  mkEnemy (e_type r) (e_x r) (e_y r) (e_r r) (e_hp r) (e_vx r) (e_vy r) (e_t
    r) (e_fireCD r) (e_phase r) (e_patternId r) (e_patternName r) v.

Record Bullet := mkBullet {
  b_x : Q;
  b_y : Q;
  b_vx : Q;
  b_vy : Q;
  b_r : Q;
  b_t : Q;
  b_dmg : Q;
  b_from : Owner;
  b_kind : string
}.

Definition set_b_x (v : Q) (r : Bullet) : Bullet :=
  mkBullet v (b_y r) (b_vx r) (b_vy r) (b_r r) (b_t r) (b_dmg r) (b_from r)
    (b_kind r).
Definition set_b_y (v : Q) (r : Bullet) : Bullet :=
  mkBullet (b_x r) v (b_vx r) (b_vy r) (b_r r) (b_t r) (b_dmg r) (b_from r)
    (b_kind r).
Definition set_b_vx (v : Q) (r : Bullet) : Bullet :=
  mkBullet (b_x r) (b_y r) v (b_vy r) (b_r r) (b_t r) (b_dmg r) (b_from r)
    (b_kind r).
Definition set_b_vy (v : Q) (r : Bullet) : Bullet :=
  mkBullet (b_x r) (b_y r) (b_vx r) v (b_r r) (b_t r) (b_dmg r) (b_from r)
    (b_kind r).
Definition set_b_r (v : Q) (r : Bullet) : Bullet :=
  mkBullet (b_x r) (b_y r) (b_vx r) (b_vy r) v (b_t r) (b_dmg r) (b_from r)
    (b_kind r).
Definition set_b_t (v : Q) (r : Bullet) : Bullet :=
  mkBullet (b_x r) (b_y r) (b_vx r) (b_vy r) (b_r r) v (b_dmg r) (b_from r)
    (b_kind r).
Definition set_b_dmg (v : Q) (r : Bullet) : Bullet :=
  mkBullet (b_x r) (b_y r) (b_vx r) (b_vy r) (b_r r) (b_t r) v (b_from r)
    (b_kind r).
Definition set_b_from (v : Owner) (r : Bullet) : Bullet :=
  mkBullet (b_x r) (b_y r) (b_vx r) (b_vy r) (b_r r) (b_t r) (b_dmg r) v
    (b_kind r).
Definition set_b_kind (v : string) (r : Bullet) : Bullet :=
  mkBullet (b_x r) (b_y r) (b_vx r) (b_vy r) (b_r r) (b_t r) (b_dmg r)
    (b_from r) v.

Record Pickup := mkPickup {
  p_x : Q;
  p_y : Q;
  p_t : PickupT;
  p_v : Q;
  p_r : Q
}.

Definition set_p_x (v : Q) (r : Pickup) : Pickup :=
  mkPickup v (p_y r) (p_t r) (p_v r) (p_r r).
Definition set_p_y (v : Q) (r : Pickup) : Pickup :=
  mkPickup (p_x r) v (p_t r) (p_v r) (p_r r).
Definition set_p_t (v : PickupT) (r : Pickup) : Pickup :=
  mkPickup (p_x r) (p_y r) v (p_v r) (p_r r).
Definition set_p_v (v : Q) (r : Pickup) : Pickup :=
  mkPickup (p_x r) (p_y r) (p_t r) v (p_r r).
Definition set_p_r (v : Q) (r : Pickup) : Pickup :=
  mkPickup (p_x r) (p_y r) (p_t r) (p_v r) v.

Record Fx := mkFx {
  fx_x : Q;
  fx_y : Q;
  fx_vx : Q;
  fx_vy : Q;
  fx_t : Q
}.

Definition set_fx_x (v : Q) (r : Fx) : Fx :=
  mkFx v (fx_y r) (fx_vx r) (fx_vy r) (fx_t r).
Definition set_fx_y (v : Q) (r : Fx) : Fx :=
  mkFx (fx_x r) v (fx_vx r) (fx_vy r) (fx_t r).
Definition set_fx_vx (v : Q) (r : Fx) : Fx :=
  mkFx (fx_x r) (fx_y r) v (fx_vy r) (fx_t r).
Definition set_fx_vy (v : Q) (r : Fx) : Fx :=
  mkFx (fx_x r) (fx_y r) (fx_vx r) v (fx_t r).
Definition set_fx_t (v : Q) (r : Fx) : Fx :=
  mkFx (fx_x r) (fx_y r) (fx_vx r) (fx_vy r) v.

Record Cam := mkCam {
  cam_x : Q;
  cam_y : Q;
  cam_shake : Q;
  cam_shakeT : Q
}.

Definition set_cam_x (v : Q) (r : Cam) : Cam :=
  mkCam v (cam_y r) (cam_shake r) (cam_shakeT r).
Definition set_cam_y (v : Q) (r : Cam) : Cam :=
  mkCam (cam_x r) v (cam_shake r) (cam_shakeT r).
Definition set_cam_shake (v : Q) (r : Cam) : Cam :=
  mkCam (cam_x r) (cam_y r) v (cam_shakeT r).
Definition set_cam_shakeT (v : Q) (r : Cam) : Cam :=
  mkCam (cam_x r) (cam_y r) (cam_shake r) v.

Record Player := mkPlayer {
  pl_x : Q;
  pl_y : Q;
  pl_r : Q;
  pl_hp : Q;
  pl_hpMax : Q;
  pl_invT : Q;
  pl_dashT : Q;
  pl_dashCD : Q;
  pl_vx : Q;
  pl_vy : Q;
  pl_speed : Q;
  pl_weapon : nat;
  pl_fireCD : Q;
  pl_burstQ : Z;
  pl_burstCD : Q
}.

Definition set_pl_x (v : Q) (r : Player) : Player :=
  mkPlayer v (pl_y r) (pl_r r) (pl_hp r) (pl_hpMax r) (pl_invT r) (pl_dashT
    r) (pl_dashCD r) (pl_vx r) (pl_vy r) (pl_speed r) (pl_weapon r)
    (pl_fireCD r) (pl_burstQ r) (pl_burstCD r).
Definition set_pl_y (v : Q) (r : Player) : Player :=
  mkPlayer (pl_x r) v (pl_r r) (pl_hp r) (pl_hpMax r) (pl_invT r) (pl_dashT
    r) (pl_dashCD r) (pl_vx r) (pl_vy r) (pl_speed r) (pl_weapon r)
    (pl_fireCD r) (pl_burstQ r) (pl_burstCD r).
Definition set_pl_r (v : Q) (r : Player) : Player :=
  mkPlayer (pl_x r) (pl_y r) v (pl_hp r) (pl_hpMax r) (pl_invT r) (pl_dashT
    r) (pl_dashCD r) (pl_vx r) (pl_vy r) (pl_speed r) (pl_weapon r)
    (pl_fireCD r) (pl_burstQ r) (pl_burstCD r).
Definition set_pl_hp (v : Q) (r : Player) : Player :=
  mkPlayer (pl_x r) (pl_y r) (pl_r r) v (pl_hpMax r) (pl_invT r) (pl_dashT
    r) (pl_dashCD r) (pl_vx r) (pl_vy r) (pl_speed r) (pl_weapon r)
    (pl_fireCD r) (pl_burstQ r) (pl_burstCD r).
Definition set_pl_hpMax (v : Q) (r : Player) : Player :=
  mkPlayer (pl_x r) (pl_y r) (pl_r r) (pl_hp r) v (pl_invT r) (pl_dashT r)
    (pl_dashCD r) (pl_vx r) (pl_vy r) (pl_speed r) (pl_weapon r) (pl_fireCD
    r) (pl_burstQ r) (pl_burstCD r).
Definition set_pl_invT (v : Q) (r : Player) : Player :=
  mkPlayer (pl_x r) (pl_y r) (pl_r r) (pl_hp r) (pl_hpMax r) v (pl_dashT r)
    (pl_dashCD r) (pl_vx r) (pl_vy r) (pl_speed r) (pl_weapon r) (pl_fireCD
    r) (pl_burstQ r) (pl_burstCD r).
Definition set_pl_dashT (v : Q) (r : Player) : Player :=
  mkPlayer (pl_x r) (pl_y r) (pl_r r) (pl_hp r) (pl_hpMax r) (pl_invT r) v
    (pl_dashCD r) (pl_vx r) (pl_vy r) (pl_speed r) (pl_weapon r) (pl_fireCD
    r) (pl_burstQ r) (pl_burstCD r).
Definition set_pl_dashCD (v : Q) (r : Player) : Player :=
  mkPlayer (pl_x r) (pl_y r) (pl_r r) (pl_hp r) (pl_hpMax r) (pl_invT r)
    (pl_dashT r) v (pl_vx r) (pl_vy r) (pl_speed r) (pl_weapon r) (pl_fireCD
    r) (pl_burstQ r) (pl_burstCD r).
Definition set_pl_vx (v : Q) (r : Player) : Player :=
  mkPlayer (pl_x r) (pl_y r) (pl_r r) (pl_hp r) (pl_hpMax r) (pl_invT r)
    (pl_dashT r) (pl_dashCD r) v (pl_vy r) (pl_speed r) (pl_weapon r)
    (pl_fireCD r) (pl_burstQ r) (pl_burstCD r).
Definition set_pl_vy (v : Q) (r : Player) : Player :=
  mkPlayer (pl_x r) (pl_y r) (pl_r r) (pl_hp r) (pl_hpMax r) (pl_invT r)
    (pl_dashT r) (pl_dashCD r) (pl_vx r) v (pl_speed r) (pl_weapon r)
    (pl_fireCD r) (pl_burstQ r) (pl_burstCD r).
Definition set_pl_speed (v : Q) (r : Player) : Player :=
  mkPlayer (pl_x r) (pl_y r) (pl_r r) (pl_hp r) (pl_hpMax r) (pl_invT r)
    (pl_dashT r) (pl_dashCD r) (pl_vx r) (pl_vy r) v (pl_weapon r)
    (pl_fireCD r) (pl_burstQ r) (pl_burstCD r).
Definition set_pl_weapon (v : nat) (r : Player) : Player :=
  mkPlayer (pl_x r) (pl_y r) (pl_r r) (pl_hp r) (pl_hpMax r) (pl_invT r)
    (pl_dashT r) (pl_dashCD r) (pl_vx r) (pl_vy r) (pl_speed r) v (pl_fireCD
    r) (pl_burstQ r) (pl_burstCD r).
Definition set_pl_fireCD (v : Q) (r : Player) : Player :=
  mkPlayer (pl_x r) (pl_y r) (pl_r r) (pl_hp r) (pl_hpMax r) (pl_invT r)
    (pl_dashT r) (pl_dashCD r) (pl_vx r) (pl_vy r) (pl_speed r) (pl_weapon
    r) v (pl_burstQ r) (pl_burstCD r).
Definition set_pl_burstQ (v : Z) (r : Player) : Player :=
  mkPlayer (pl_x r) (pl_y r) (pl_r r) (pl_hp r) (pl_hpMax r) (pl_invT r)
    (pl_dashT r) (pl_dashCD r) (pl_vx r) (pl_vy r) (pl_speed r) (pl_weapon
    r) (pl_fireCD r) v (pl_burstCD r).
Definition set_pl_burstCD (v : Q) (r : Player) : Player :=
  mkPlayer (pl_x r) (pl_y r) (pl_r r) (pl_hp r) (pl_hpMax r) (pl_invT r)
    (pl_dashT r) (pl_dashCD r) (pl_vx r) (pl_vy r) (pl_speed r) (pl_weapon
    r) (pl_fireCD r) (pl_burstQ r) v.

Record Weapon := mkWeapon {
  w_id : nat;
  w_name : string;
  w_unlocked : bool;
  w_dmg : Q;
  w_fire : Q;
  w_speed : Q;
  w_spread : Q;
  w_pellets : nat;
  w_burstStep : Q
}.

(** The mutable globals of the program: the fields of [state] ([state.map] is [roomMap]), [player], the unlock flags in [WEAPONS], the viewport, and the number of [Math.random()] calls made so far. *)
Record World := mkWorld {
  running : bool;
  paused : bool;
  shopOpen : bool;
  msg : string;
  msgT : Q;
  coins : Q;
  roomId : string;
  cam : Cam;
  roomMap : gmap string Node;
  rooms : gmap string Room;
  enemies : list Enemy;
  bullets : list Bullet;
  pickups : list Pickup;
  fx : list Fx;
  player : Player;
  WEAPONS : list Weapon;
  VIEW_W : Q;
  VIEW_H : Q;
  VIEW_OX : Q;
  VIEW_OY : Q;
  draws : nat
}.

Definition set_running (v : bool) (r : World) : World :=
  mkWorld v (paused r) (shopOpen r) (msg r) (msgT r) (coins r) (roomId r)
    (cam r) (roomMap r) (rooms r) (enemies r) (bullets r) (pickups r) (fx r)
    (player r) (WEAPONS r) (VIEW_W r) (VIEW_H r) (VIEW_OX r) (VIEW_OY r)
    (draws r).
Definition set_paused (v : bool) (r : World) : World :=
  mkWorld (running r) v (shopOpen r) (msg r) (msgT r) (coins r) (roomId r)
    (cam r) (roomMap r) (rooms r) (enemies r) (bullets r) (pickups r) (fx r)
    (player r) (WEAPONS r) (VIEW_W r) (VIEW_H r) (VIEW_OX r) (VIEW_OY r)
    (draws r).
Definition set_shopOpen (v : bool) (r : World) : World :=
  mkWorld (running r) (paused r) v (msg r) (msgT r) (coins r) (roomId r)
    (cam r) (roomMap r) (rooms r) (enemies r) (bullets r) (pickups r) (fx r)
    (player r) (WEAPONS r) (VIEW_W r) (VIEW_H r) (VIEW_OX r) (VIEW_OY r)
    (draws r).
Definition set_msg (v : string) (r : World) : World :=
  mkWorld (running r) (paused r) (shopOpen r) v (msgT r) (coins r) (roomId
    r) (cam r) (roomMap r) (rooms r) (enemies r) (bullets r) (pickups r) (fx
    r) (player r) (WEAPONS r) (VIEW_W r) (VIEW_H r) (VIEW_OX r) (VIEW_OY r)
    (draws r).
Definition set_msgT (v : Q) (r : World) : World :=
  mkWorld (running r) (paused r) (shopOpen r) (msg r) v (coins r) (roomId r)
    (cam r) (roomMap r) (rooms r) (enemies r) (bullets r) (pickups r) (fx r)
    (player r) (WEAPONS r) (VIEW_W r) (VIEW_H r) (VIEW_OX r) (VIEW_OY r)
    (draws r).
Definition set_coins (v : Q) (r : World) : World :=
  mkWorld (running r) (paused r) (shopOpen r) (msg r) (msgT r) v (roomId r)
    (cam r) (roomMap r) (rooms r) (enemies r) (bullets r) (pickups r) (fx r)
    (player r) (WEAPONS r) (VIEW_W r) (VIEW_H r) (VIEW_OX r) (VIEW_OY r)
    (draws r).
Definition set_roomId (v : string) (r : World) : World :=
  mkWorld (running r) (paused r) (shopOpen r) (msg r) (msgT r) (coins r) v
    (cam r) (roomMap r) (rooms r) (enemies r) (bullets r) (pickups r) (fx r)
    (player r) (WEAPONS r) (VIEW_W r) (VIEW_H r) (VIEW_OX r) (VIEW_OY r)
    (draws r).
Definition set_cam (v : Cam) (r : World) : World :=
  mkWorld (running r) (paused r) (shopOpen r) (msg r) (msgT r) (coins r)
    (roomId r) v (roomMap r) (rooms r) (enemies r) (bullets r) (pickups r)
    (fx r) (player r) (WEAPONS r) (VIEW_W r) (VIEW_H r) (VIEW_OX r) (VIEW_OY
    r) (draws r).
Definition set_roomMap (v : gmap string Node) (r : World) : World :=
  mkWorld (running r) (paused r) (shopOpen r) (msg r) (msgT r) (coins r)
    (roomId r) (cam r) v (rooms r) (enemies r) (bullets r) (pickups r) (fx
    r) (player r) (WEAPONS r) (VIEW_W r) (VIEW_H r) (VIEW_OX r) (VIEW_OY r)
    (draws r).
Definition set_rooms (v : gmap string Room) (r : World) : World :=
  mkWorld (running r) (paused r) (shopOpen r) (msg r) (msgT r) (coins r)
    (roomId r) (cam r) (roomMap r) v (enemies r) (bullets r) (pickups r) (fx
    r) (player r) (WEAPONS r) (VIEW_W r) (VIEW_H r) (VIEW_OX r) (VIEW_OY r)
    (draws r).
Definition set_enemies (v : list Enemy) (r : World) : World :=
  mkWorld (running r) (paused r) (shopOpen r) (msg r) (msgT r) (coins r)
    (roomId r) (cam r) (roomMap r) (rooms r) v (bullets r) (pickups r) (fx
    r) (player r) (WEAPONS r) (VIEW_W r) (VIEW_H r) (VIEW_OX r) (VIEW_OY r)
    (draws r).
Definition set_bullets (v : list Bullet) (r : World) : World :=
  mkWorld (running r) (paused r) (shopOpen r) (msg r) (msgT r) (coins r)
    (roomId r) (cam r) (roomMap r) (rooms r) (enemies r) v (pickups r) (fx
    r) (player r) (WEAPONS r) (VIEW_W r) (VIEW_H r) (VIEW_OX r) (VIEW_OY r)
    (draws r).
Definition set_pickups (v : list Pickup) (r : World) : World :=
  mkWorld (running r) (paused r) (shopOpen r) (msg r) (msgT r) (coins r)
    (roomId r) (cam r) (roomMap r) (rooms r) (enemies r) (bullets r) v (fx
    r) (player r) (WEAPONS r) (VIEW_W r) (VIEW_H r) (VIEW_OX r) (VIEW_OY r)
    (draws r).
Definition set_fx (v : list Fx) (r : World) : World :=
  mkWorld (running r) (paused r) (shopOpen r) (msg r) (msgT r) (coins r)
    (roomId r) (cam r) (roomMap r) (rooms r) (enemies r) (bullets r)
    (pickups r) v (player r) (WEAPONS r) (VIEW_W r) (VIEW_H r) (VIEW_OX r)
    (VIEW_OY r) (draws r).
Definition set_player (v : Player) (r : World) : World :=
  mkWorld (running r) (paused r) (shopOpen r) (msg r) (msgT r) (coins r)
    (roomId r) (cam r) (roomMap r) (rooms r) (enemies r) (bullets r)
    (pickups r) (fx r) v (WEAPONS r) (VIEW_W r) (VIEW_H r) (VIEW_OX r)
    (VIEW_OY r) (draws r).
Definition set_WEAPONS (v : list Weapon) (r : World) : World :=
  mkWorld (running r) (paused r) (shopOpen r) (msg r) (msgT r) (coins r)
    (roomId r) (cam r) (roomMap r) (rooms r) (enemies r) (bullets r)
    (pickups r) (fx r) (player r) v (VIEW_W r) (VIEW_H r) (VIEW_OX r)
    (VIEW_OY r) (draws r).
Definition set_VIEW_W (v : Q) (r : World) : World :=
  mkWorld (running r) (paused r) (shopOpen r) (msg r) (msgT r) (coins r)
    (roomId r) (cam r) (roomMap r) (rooms r) (enemies r) (bullets r)
    (pickups r) (fx r) (player r) (WEAPONS r) v (VIEW_H r) (VIEW_OX r)
    (VIEW_OY r) (draws r).
Definition set_VIEW_H (v : Q) (r : World) : World :=
  mkWorld (running r) (paused r) (shopOpen r) (msg r) (msgT r) (coins r)
    (roomId r) (cam r) (roomMap r) (rooms r) (enemies r) (bullets r)
    (pickups r) (fx r) (player r) (WEAPONS r) (VIEW_W r) v (VIEW_OX r)
    (VIEW_OY r) (draws r).
Definition set_VIEW_OX (v : Q) (r : World) : World :=
  mkWorld (running r) (paused r) (shopOpen r) (msg r) (msgT r) (coins r)
    (roomId r) (cam r) (roomMap r) (rooms r) (enemies r) (bullets r)
    (pickups r) (fx r) (player r) (WEAPONS r) (VIEW_W r) (VIEW_H r) v
    (VIEW_OY r) (draws r).
Definition set_VIEW_OY (v : Q) (r : World) : World :=
  mkWorld (running r) (paused r) (shopOpen r) (msg r) (msgT r) (coins r)
    (roomId r) (cam r) (roomMap r) (rooms r) (enemies r) (bullets r)
    (pickups r) (fx r) (player r) (WEAPONS r) (VIEW_W r) (VIEW_H r) (VIEW_OX
    r) v (draws r).
Definition set_draws (v : nat) (r : World) : World :=
  mkWorld (running r) (paused r) (shopOpen r) (msg r) (msgT r) (coins r)
    (roomId r) (cam r) (roomMap r) (rooms r) (enemies r) (bullets r)
    (pickups r) (fx r) (player r) (WEAPONS r) (VIEW_W r) (VIEW_H r) (VIEW_OX
    r) (VIEW_OY r) v.

(** What the input collaborator hands to a tick: [keys], [keysPressed]
    (by key code) and [mouse]. *)
Record Input := mkInput {
  keys : Z -> bool;
  keysPressed : Z -> bool;
  mouse_x : Q;
  mouse_y : Q;
  mouse_down : bool
}.

(** *** Constants *)

Definition TILE : Q := 40.
Definition ROOM_TW : Z := 21.
Definition ROOM_TH : Z := 13.
Definition ROOM_W : Q := Eval cbv in Qred (inject_Z ROOM_TW * TILE).
Definition ROOM_H : Q := Eval cbv in Qred (inject_Z ROOM_TH * TILE).
Definition DOOR_SPAN : Q := 44.
Definition DOOR_THICK : Q := 26.
Definition MAX_DEPTH : Z := 40.

Definition KEY_LEFT : Z := 37.
Definition KEY_UP : Z := 38.
Definition KEY_RIGHT : Z := 39.
Definition KEY_DOWN : Z := 40.
Definition KEY_A : Z := 65.
Definition KEY_W : Z := 87.
Definition KEY_D : Z := 68.
Definition KEY_S : Z := 83.
Definition KEY_SPACE : Z := 32.
Definition KEY_SHIFT : Z := 16.
Definition KEY_ESC : Z := 27.
Definition KEY_F : Z := 70.
Definition KEY_Q : Z := 81.
Definition KEY_E : Z := 69.
Definition KEY_R : Z := 82.
Definition KEY_ONE : Z := 49.
Definition KEY_TWO : Z := 50.
Definition KEY_THREE : Z := 51.
Definition KEY_FOUR : Z := 52.
Definition KEY_FIVE : Z := 53.
Definition KEY_SIX : Z := 54.
Definition KEY_SEVEN : Z := 55.

Definition mkWeapon0 (id : nat) (name : string) (unlocked : bool)
    (dmg fire speed spread : Q) (pellets : nat) : Weapon :=
  mkWeapon id name unlocked dmg fire speed spread pellets 0.

Definition WEAPONS0 : list Weapon :=
  [ mkWeapon0 0 "Pistol" true 3 0.18 520 0 1;
    mkWeapon0 1 "Shotgun" false 2 0.55 460 0.40 6;
    mkWeapon0 2 "Rifle" false 4 0.12 620 0.02 1;
    mkWeapon0 3 "SMG" false 2 0.07 560 0.08 1;
    mkWeapon0 4 "Sniper" false 10 0.65 860 0 1;
    mkWeapon 5 "Burst" false 3 0.22 640 0.03 3 0.03;
    mkWeapon0 6 "Laser" false 5 0.30 900 0 1 ].

(** [item.type]: ["unlock" | "heal"]. *)
Inductive ItemT := unlock | healItem.

Record ShopItem := mkShopItem {
  si_key : Z;
  si_label : string;
  si_cost : Q;
  si_type : ItemT;
  si_weaponId : nat;
  si_amount : Q
}.

Definition SHOP_ITEMS : list ShopItem :=
  [ mkShopItem 1 "Unlock Shotgun" 10 unlock 1 0;
    mkShopItem 2 "Unlock Rifle" 16 unlock 2 0;
    mkShopItem 3 "Unlock SMG" 18 unlock 3 0;
    mkShopItem 4 "Unlock Sniper" 22 unlock 4 0;
    mkShopItem 5 "Unlock Burst" 20 unlock 5 0;
    mkShopItem 6 "Unlock Laser" 26 unlock 6 0;
    mkShopItem 7 "Heal +3" 6 healItem 0 3 ].

(** [BOSS_PATTERNS]: the pattern ids with their names. *)
Definition BOSS_PATTERNS : list (Z * string) :=
  [ (0%Z, "Boss Shotcone"); (1%Z, "Boss Burst"); (2%Z, "Boss Spiral");
    (3%Z, "Boss LaserSweep") ].

Definition tileIndex (tx ty : Z) : Z := (ty * ROOM_TW + tx)%Z.

Section WithEnv.

Context `{Env}.

Definition TAU : Q := PI * 2.

(** *** RNG / Math *)

Definition randf : M World Q :=
  fun w => (random (draws w), set_draws (S (draws w)) w).

Definition randi (n : Q) : M World Z :=
  r <- randf ;; ret (toInt32 (r * n)).

Definition chance (p : Q) : M World bool :=
  r <- randf ;; ret (Qltb r p).

(** [norm(x, y)]: [Math.sqrt(..) || 1] replaces a zero length by [1]. *)
Definition norm (x y : Q) : Q * Q :=
  let l := sqrtQ (x * x + y * y) in
  let l := if Qeq_bool l 0 then 1 else l in
  (x / l, y / l).

(** *** Accessors for the objects held in [state] *)

Definition updNode (id : string) (f : Node -> Node) : M World unit :=
  modify (fun w => set_roomMap (alter f id (roomMap w)) w).

Definition updRoom (id : string) (f : Room -> Room) : M World unit :=
  modify (fun w => set_rooms (alter f id (rooms w)) w).

Definition updPlayer (f : Player -> Player) : M World unit :=
  modify (fun w => set_player (f (player w)) w).

Definition updCam (f : Cam -> Cam) : M World unit :=
  modify (fun w => set_cam (f (cam w)) w).

Definition updEnemy (i : nat) (f : Enemy -> Enemy) : M World unit :=
  modify (fun w => set_enemies (alter f i (enemies w)) w).

Definition say (m : string) (t : Q) : M World unit :=
  modify (fun w => set_msgT t (set_msg m w)).

(** *** Room node / room data *)

Definition newNode (id : string) : Node :=
  let p := parseRoom id in
  mkNode id (fst p) (snd p) (Z.abs (fst p) + Z.abs (snd p)) combat false false.

Definition ensureNode (id : string) : M World Node :=
  fun w =>
    match roomMap w !! id with
    | Some n => (n, w)
    | None => (newNode id, set_roomMap (<[id := newNode id]> (roomMap w)) w)
    end.

Definition newRoom (id : string) : Room :=
  mkRoom id [] (mkDoors true true true true) (mkDoors false false false false).

Definition ensureRoom (id : string) : M World Room :=
  fun w =>
    match rooms w !! id with
    | Some r => (r, w)
    | None => (newRoom id, set_rooms (<[id := newRoom id]> (rooms w)) w)
    end.

(** *** Special rooms (shop per ring) *)

Definition isShopCoord (x y : Z) : bool :=
  let d := (Z.abs x + Z.abs y)%Z in
  if (d <? 1)%Z then false
  else
    let m := Z.rem d 4 in
    if (m =? 0)%Z then (x =? d)%Z && (y =? 0)%Z
    else if (m =? 1)%Z then (x =? 0)%Z && (y =? d)%Z
    else if (m =? 2)%Z then (x =? - d)%Z && (y =? 0)%Z
    else (x =? 0)%Z && (y =? - d)%Z.

Definition assignRoomKind (node : Node) : Kind :=
  if String.eqb (node_id node) "0,0" then start
  else if isShopCoord (node_x node) (node_y node) then shop
  else combat.

(** Boss at every Manhattan depth that is a positive multiple of 10. *)
Definition shouldSpawnBoss (node : Node) : bool :=
  if negb (bool_decide (node_kind node = combat)) then false
  else if (node_depth node <=? 0)%Z then false
  else if negb (Z.rem (node_depth node) 10 =? 0)%Z then false
  else true.

(** *** Tile generation: 0 wall, 1 floor, 2 pit, 3 door marker, 4 pillar,
    5 decor *)

Definition isEdge (x y : Z) : bool :=
  (x =? 0)%Z || (y =? 0)%Z || (x =? ROOM_TW - 1)%Z || (y =? ROOM_TH - 1)%Z.

(** [new Array(ROOM_TW * ROOM_TH)] after the first pair of loops, which
    assigns every slot. *)
Definition borderAndFloor : list Z :=
  foldl (fun g y =>
           foldl (fun g x => arrSet (tileIndex x y) (if isEdge x y then 0 else 1)%Z g)
                 g (seqZ 0 ROOM_TW))
        (replicate (Z.to_nat (ROOM_TW * ROOM_TH)) 0%Z) (seqZ 0 ROOM_TH).

(** One of the scatter loops: [n] draws of a cell, each kept with
    probability [p] and then set to tile [t]. *)
Definition scatter (n : nat) (p : Q) (t : Z) (g : list Z) : M World (list Z) :=
  foldM (seq 0 n) g (fun g _ =>
    px <- randi (inject_Z (ROOM_TW - 4)) ;;
    py <- randi (inject_Z (ROOM_TH - 4)) ;;
    c <- chance p ;;
    ret (if c then arrSet (tileIndex (2 + px) (2 + py)) t g else g)).

Definition pillars (density : Q) (g : list Z) : M World (list Z) :=
  foldM (seqZ 2 (ROOM_TH - 4)) g (fun g y =>
    foldM (seqZ 2 (ROOM_TW - 4)) g (fun g x =>
      if negb (bool_decide (arrGet (tileIndex x y) g = Some 1%Z)) then ret g
      else
        c <- chance density ;;
        ret (if c then arrSet (tileIndex x y) 4%Z g else g))).

Definition clearCentre (g : list Z) : list Z :=
  let cx := toInt32 (inject_Z ROOM_TW / 2) in
  let cy := toInt32 (inject_Z ROOM_TH / 2) in
  foldl (fun g y =>
           foldl (fun g x => arrSet (tileIndex x y) 1%Z g) g (seqZ (cx - 1) 3))
        g (seqZ (cy - 1) 3).

Definition carveDoor (dir : Dir) (g : list Z) : list Z :=
  let mx := toInt32 (inject_Z ROOM_TW / 2) in
  let my := toInt32 (inject_Z ROOM_TH / 2) in
  match dir with
  | dN => arrSet (tileIndex mx 1) 3%Z (arrSet (tileIndex mx 0) 1%Z g)
  | dS => arrSet (tileIndex mx (ROOM_TH - 2)) 3%Z
            (arrSet (tileIndex mx (ROOM_TH - 1)) 1%Z g)
  | dW => arrSet (tileIndex 1 my) 3%Z (arrSet (tileIndex 0 my) 1%Z g)
  | dE => arrSet (tileIndex (ROOM_TW - 2) my) 3%Z
            (arrSet (tileIndex (ROOM_TW - 1) my) 1%Z g)
  end.

Definition genRoomTiles (node : Node) : M World unit :=
  _ <- ensureRoom (node_id node) ;;
  let isCombat := bool_decide (node_kind node = combat) in
  g <- (if isCombat then scatter 18 0.22 2%Z borderAndFloor
        else scatter 16 0.35 5%Z borderAndFloor) ;;
  g <- pillars (if isCombat then 0.045 else 0.020) g ;;
  let g := clearCentre g in
  nb <- gets (fun w => from_option neighbors (mkDoors false false false false)
                         (rooms w !! node_id node)) ;;
  let g := if atN nb then carveDoor dN g else g in
  let g := if atS nb then carveDoor dS g else g in
  let g := if atW nb then carveDoor dW g else g in
  let g := if atE nb then carveDoor dE g else g in
  updRoom (node_id node) (set_room_g g).

(** *** Collision *)

Definition isSolidAtPoint (wx wy : Q) (room : Room) : bool :=
  let tx := toInt32 (wx / TILE) in
  let ty := toInt32 (wy / TILE) in
  if (tx <? 0)%Z || (ty <? 0)%Z || (ROOM_TW <=? tx)%Z || (ROOM_TH <=? ty)%Z
  then true
  else
    match arrGet (tileIndex tx ty) (room_g room) with
    | None => false
    | Some t =>
        if (t =? 0)%Z || (t =? 2)%Z then true
        else if (t =? 4)%Z then
          let cx := inject_Z tx * TILE + TILE * 0.5 in
          let cy := inject_Z ty * TILE + TILE * 0.5 in
          let dx := wx - cx in
          let dy := wy - cy in
          let rad := TILE * 0.30 in
          Qle_bool (dx * dx + dy * dy) (rad * rad)
        else false
    end.

Definition collideCircle (x y r : Q) (room : Room) : bool :=
  existsb (fun i =>
             let a := (inject_Z (Z.of_nat i) / 14) * TAU in
             isSolidAtPoint (x + cosQ a * r) (y + sinQ a * r) room)
          (seq 0 14).

(** *** Neighbours *)

Definition link (id : string) (nx ny : Z) (dirA dirB : Dir) : M World unit :=
  if (MAX_DEPTH <? Z.abs nx + Z.abs ny)%Z then ret tt
  else
    updRoom id (fun r => set_neighbors (setDoor (neighbors r) dirA true) r) ;;;
    let nid := roomKey nx ny in
    _ <- ensureNode nid ;;
    _ <- ensureRoom nid ;;
    updRoom nid (fun r => set_neighbors (setDoor (neighbors r) dirB true) r).

(** [node.kind = assignRoomKind(node)] on the node stored under [id]. *)
Definition setKind (id : string) : M World unit :=
  updNode id (fun n => set_node_kind (assignRoomKind n) n).

Definition buildNeighborsAround (id : string) : M World unit :=
  node <- ensureNode id ;;
  _ <- ensureRoom id ;;
  let x := node_x node in
  let y := node_y node in
  link id x (y - 1) dN dS ;;;
  link id x (y + 1) dS dN ;;;
  link id (x - 1) y dW dE ;;;
  link id (x + 1) y dE dW ;;;
  setKind id ;;;
  node <- ensureNode id ;;
  genRoomTiles node.

Definition lockDoors (id : string) (locked : bool) : M World unit :=
  updRoom id (set_doorsOpen
                (mkDoors (negb locked) (negb locked) (negb locked) (negb locked))).

(** *** Entities *)

Definition pushEnemy (e : Enemy) : M World unit :=
  modify (fun w => set_enemies (enemies w ++ [e]) w).
Definition pushBullet (b : Bullet) : M World unit :=
  modify (fun w => set_bullets (bullets w ++ [b]) w).
Definition pushPickup (p : Pickup) : M World unit :=
  modify (fun w => set_pickups (pickups w ++ [p]) w).

Definition spawnEnemy (type : EType) (x y : Q) (depth : Z) : M World unit :=
  let isShooter := bool_decide (type = shooter) in
  let hpBase : Q := if isShooter then 10 else 9 in
  pushEnemy
    (mkEnemy type x y (if isShooter then 18 else 19)
       (hpBase + inject_Z (toInt32 (inject_Z depth / 3))) 0 0 0 0 0%Z 0%Z "" 0).

Definition shake (amount time : Q) : M World unit :=
  updCam (fun c => set_cam_shakeT (Qmaxb (cam_shakeT c) time)
                     (set_cam_shake (Qmaxb (cam_shake c) amount) c)).

Definition spawnBoss (x y : Q) (depth : Z) : M World unit :=
  k <- randi (inject_Z (Z.of_nat (length BOSS_PATTERNS))) ;;
  let pat := default (0%Z, EmptyString) (arrGet k BOSS_PATTERNS) in
  spin <- randf ;;
  pushEnemy (mkEnemy boss x y 30 (140 + inject_Z depth * 6) 0 0 0 0 0%Z
               (fst pat) (snd pat) (spin * TAU)) ;;;
  say ("BOSS: " +:+ snd pat) 1.2 ;;;
  shake 10 0.22.

Definition spawnBullet (x y vx vy dmg : Q) (from : Owner) (kind : string)
    (life : option Q) : M World unit :=
  let isP := bool_decide (from = fromPlayer) in
  pushBullet
    (mkBullet x y vx vy (if isP then 4 else 5)
       (match life with Some l => l | None => if isP then 1.2 else 1.8 end)
       dmg from kind).

(** *** Coins / pickups *)

Definition dropCoins (x y : Q) (amount : Z) : M World unit :=
  forM_ (seq 0 (Z.to_nat amount)) (fun _ =>
    a <- randf ;;
    let a := a * TAU in
    r <- randf ;;
    let r := 18 + r * 22 in
    pushPickup (mkPickup (x + cosQ a * r) (y + sinQ a * r) coin 1 9)).

(** *** Doors (intent-based transition) *)

Definition inDoorBand (dir : Dir) (x y : Q) : bool :=
  let cx := ROOM_W * 0.5 in
  let cy := ROOM_H * 0.5 in
  match dir with
  | dN => Qle_bool (Qabs (x - cx)) DOOR_SPAN && Qle_bool y DOOR_THICK
  | dS => Qle_bool (Qabs (x - cx)) DOOR_SPAN && Qle_bool (ROOM_H - DOOR_THICK) y
  | dW => Qle_bool (Qabs (y - cy)) DOOR_SPAN && Qle_bool x DOOR_THICK
  | dE => Qle_bool (Qabs (y - cy)) DOOR_SPAN && Qle_bool (ROOM_W - DOOR_THICK) x
  end.

Definition viewOffsets : M World unit :=
  modify (fun w =>
    set_VIEW_OY (if Qltb ROOM_H (VIEW_H w) then (VIEW_H w - ROOM_H) * 0.5 else 0)
      (set_VIEW_OX (if Qltb ROOM_W (VIEW_W w) then (VIEW_W w - ROOM_W) * 0.5 else 0)
         w)).

Definition snapCameraToPlayer : M World unit :=
  w <- gets id ;;
  let maxX := Qmaxb 0 (ROOM_W - VIEW_W w) in
  let maxY := Qmaxb 0 (ROOM_H - VIEW_H w) in
  updCam (fun c =>
    set_cam_y (clamp (pl_y (player w) - VIEW_H w / 2) 0 maxY)
      (set_cam_x (clamp (pl_x (player w) - VIEW_W w / 2) 0 maxX) c)) ;;;
  viewOffsets.

(** *** Room content *)

Definition clearLive : M World unit :=
  modify (fun w => set_fx [] (set_pickups [] (set_bullets [] (set_enemies [] w)))).

Definition spawnRoomContents (roomId_ : string) : M World unit :=
  _ <- ensureNode roomId_ ;;
  _ <- ensureRoom roomId_ ;;
  setKind roomId_ ;;;
  clearLive ;;;
  node <- ensureNode roomId_ ;;
  if bool_decide (node_kind node = start) || bool_decide (node_kind node = shop)
  then
    updNode roomId_ (set_node_cleared true) ;;;
    lockDoors roomId_ false ;;;
    when (bool_decide (node_kind node = start))
      (pushPickup (mkPickup (ROOM_W / 2 + 60) (ROOM_H / 2) coin 6 10))
  else if negb (node_cleared node) then
    (if shouldSpawnBoss node then
       spawnBoss (ROOM_W * 0.5) (ROOM_H * 0.5) (node_depth node)
     else
       r <- randi 4 ;;
       let n := (4 + r + toInt32 (inject_Z (node_depth node) / 4))%Z in
       forM_ (seq 0 (Z.to_nat n)) (fun _ =>
         px <- randf ;;
         let px := 80 + px * (ROOM_W - 160) in
         py <- randf ;;
         let py := 80 + py * (ROOM_H - 160) in
         c <- chance 0.30 ;;
         spawnEnemy (if c then shooter else chaser) px py (node_depth node))) ;;;
    lockDoors roomId_ true
  else lockDoors roomId_ false.

Definition loadRoom (roomId_ : string) : M World unit :=
  _ <- ensureNode roomId_ ;;
  setKind roomId_ ;;;
  buildNeighborsAround roomId_ ;;;
  node <- ensureNode roomId_ ;;
  genRoomTiles node ;;;
  spawnRoomContents roomId_ ;;;
  _ <- ensureNode roomId_ ;;
  updNode roomId_ (set_node_seen true) ;;;
  modify (set_shopOpen false) ;;;
  snapCameraToPlayer.

(** Where the player stands after walking through the door [dir]. *)
Definition enterFrom (dir : Dir) (p : Player) : Player :=
  match dir with
  | dN => set_pl_x (clamp (pl_x p) 24 (ROOM_W - 24)) (set_pl_y (ROOM_H - 24) p)
  | dS => set_pl_x (clamp (pl_x p) 24 (ROOM_W - 24)) (set_pl_y 24 p)
  | dW => set_pl_y (clamp (pl_y p) 24 (ROOM_H - 24)) (set_pl_x (ROOM_W - 24) p)
  | dE => set_pl_y (clamp (pl_y p) 24 (ROOM_H - 24)) (set_pl_x 24 p)
  end.

(** The second half of [tryDoorTransitionByIntent]: the door is there and
    open, the player walks into the neighbouring room. *)
Definition passDoor (dir : Dir) (node : Node) : M World unit :=
  let dx := match dir with dW => (-1)%Z | dE => 1%Z | _ => 0%Z end in
  let dy := match dir with dN => (-1)%Z | dS => 1%Z | _ => 0%Z end in
  let nid := roomKey (node_x node + dx) (node_y node + dy) in
  _ <- ensureNode nid ;;
  _ <- ensureRoom nid ;;
  modify (set_roomId nid) ;;;
  loadRoom nid ;;;
  updPlayer (enterFrom dir) ;;;
  snapCameraToPlayer.

Definition tryDoorTransitionByIntent (dir : Dir) : M World bool :=
  here <- gets roomId ;;
  node <- ensureNode here ;;
  room <- ensureRoom here ;;
  if negb (getDoor (neighbors room) dir) then ret false
  else if negb (getDoor (doorsOpen room) dir) then
    p <- gets player ;;
    when (inDoorBand dir (pl_x p) (pl_y p)) (say "DOOR LOCKED" 0.7) ;;;
    ret false
  else
    passDoor dir node ;;;
    ret true.

(** *** Shop *)

Definition nearShopCounter (w : World) : bool :=
  let cx := ROOM_W * 0.5 in
  let cy := TILE * 2.7 in
  Qltb (dist2 (pl_x (player w)) (pl_y (player w)) cx cy) (60 * 60).

Definition tryOpenShop : M World unit :=
  here <- gets roomId ;;
  node <- ensureNode here ;;
  if negb (bool_decide (node_kind node = shop)) then ret tt
  else
    near <- gets nearShopCounter ;;
    if negb near then say "STEP TO COUNTER" 0.8
    else modify (fun w => set_shopOpen (negb (shopOpen w)) w).

Definition unlockWeapon (i : nat) : M World unit :=
  modify (fun w =>
    set_WEAPONS
      (alter (fun x => mkWeapon (w_id x) (w_name x) true (w_dmg x) (w_fire x)
                         (w_speed x) (w_spread x) (w_pellets x) (w_burstStep x))
             i (WEAPONS w)) w).

Definition buyShopItem (item : ShopItem) : M World unit :=
  w <- gets id ;;
  if Qltb (coins w) (si_cost item) then
    say "NOT ENOUGH COINS" 0.8 ;;; shake 2 0.08
  else
    match si_type item with
    | unlock =>
        match WEAPONS w !! si_weaponId item with
        | None => ret tt
        | Some x =>
            if w_unlocked x then say "ALREADY OWNED" 0.7
            else
              unlockWeapon (si_weaponId item) ;;;
              modify (fun w => set_coins (coins w - si_cost item) w) ;;;
              say ("UNLOCKED: " +:+ w_name x) 1.0
        end
    | healItem =>
        if Qle_bool (pl_hpMax (player w)) (pl_hp (player w)) then say "HP FULL" 0.7
        else
          modify (fun w => set_coins (coins w - si_cost item) w) ;;;
          updPlayer (fun p =>
            set_pl_hp (clamp (pl_hp p + si_amount item) 0 (pl_hpMax p)) p) ;;;
          say "HEALED" 0.9
    end.

(** *** Combat *)

(** The aim angle [Math.atan2(n.y, n.x)] towards the mouse. *)
Definition aimAngle (inp : Input) (w : World) : Q :=
  let wx := cam_x (cam w) + (mouse_x inp - VIEW_OX w) in
  let wy := cam_y (cam w) + (mouse_y inp - VIEW_OY w) in
  let n := norm (wx - pl_x (player w)) (wy - pl_y (player w)) in
  atan2Q (snd n) (fst n).

Definition shoot (inp : Input) : M World unit :=
  w <- gets id ;;
  let p := player w in
  if Qltb 0 (pl_fireCD p) then ret tt
  else
    match WEAPONS w !! pl_weapon p with
    | None => ret tt
    | Some wp =>
        if negb (w_unlocked wp) then ret tt
        else
          let baseA := aimAngle inp w in
          if Nat.eqb (w_id wp) 5 then
            updPlayer (fun p =>
              set_pl_fireCD (w_fire wp)
                (set_pl_burstCD 0 (set_pl_burstQ (Z.of_nat (w_pellets wp)) p)))
          else if Nat.eqb (w_id wp) 6 then
            let spL := w_speed wp in
            spawnBullet (pl_x p) (pl_y p) (cosQ baseA * spL) (sinQ baseA * spL)
              (w_dmg wp) fromPlayer "pl" (Some 0.9) ;;;
            updPlayer (set_pl_fireCD (w_fire wp)) ;;;
            shake 3 0.07
          else
            forM_ (seq 0 (w_pellets wp)) (fun _ =>
              r1 <- randf ;;
              let a := baseA + w_spread wp * (r1 - 0.5) in
              r2 <- randf ;;
              let sp := w_speed wp * (0.92 + r2 * 0.16) in
              spawnBullet (pl_x p) (pl_y p) (cosQ a * sp) (sinQ a * sp)
                (w_dmg wp) fromPlayer "p" (Some 1.1)) ;;;
            updPlayer (set_pl_fireCD (w_fire wp)) ;;;
            shake (2 + (if (1 <? w_pellets wp)%nat then 2 else 0)) 0.08
    end.

Definition updateBurst (inp : Input) (dt : Q) : M World unit :=
  p <- gets player ;;
  if (pl_burstQ p <=? 0)%Z then ret tt
  else
    updPlayer (fun p => set_pl_burstCD (pl_burstCD p - dt) p) ;;;
    p <- gets player ;;
    if Qltb 0 (pl_burstCD p) then ret tt
    else
      w <- gets id ;;
      match WEAPONS w !! 5%nat with
      | None => ret tt
      | Some wp =>
          let baseA := aimAngle inp w in
          r <- randf ;;
          let a := baseA + w_spread wp * (r - 0.5) in
          spawnBullet (pl_x p) (pl_y p) (cosQ a * w_speed wp) (sinQ a * w_speed wp)
            (w_dmg wp) fromPlayer "pb" (Some 1.0) ;;;
          updPlayer (fun p =>
            set_pl_burstCD (w_burstStep wp) (set_pl_burstQ (pl_burstQ p - 1) p)) ;;;
          shake 1.5 0.04
      end.

Definition hurtPlayer (dmg : Q) : M World unit :=
  p <- gets player ;;
  if Qltb 0 (pl_invT p) then ret tt
  else
    updPlayer (fun p => set_pl_invT 0.7 (set_pl_hp (pl_hp p - dmg) p)) ;;;
    shake 9 0.18 ;;;
    p <- gets player ;;
    when (Qle_bool (pl_hp p) 0)
      (updPlayer (set_pl_hp 0) ;;;
       say "YOU DIED — PRESS R" 999 ;;;
       modify (set_paused true)).

(** *** Boss attacks; [i] is the index of the boss in [state.enemies] *)

Definition bossAttack (i : nat) (dt : Q) : M World unit :=
  updEnemy i (fun b => set_e_fireCD (e_fireCD b - dt) b) ;;;
  w <- gets id ;;
  match enemies w !! i with
  | None => ret tt
  | Some b =>
      if Qltb 0 (e_fireCD b) then ret tt
      else
        let dx := pl_x (player w) - e_x b in
        let dy := pl_y (player w) - e_y b in
        let aToP := atan2Q dy dx in
        node <- ensureNode (roomId w) ;;
        let spBase := 260 + inject_Z (node_depth node) * 3 in
        (if (e_patternId b =? 0)%Z then
           forM_ (seq 0 9) (fun k =>
             let a := aToP + 0.75 * (inject_Z (Z.of_nat k) / 8 - 0.5) in
             spawnBullet (e_x b) (e_y b) (cosQ a * spBase) (sinQ a * spBase)
               1 fromEnemy "be" (Some 2.2)) ;;;
           updEnemy i (set_e_fireCD 0.95)
         else if (e_patternId b =? 1)%Z then
           forM_ (seq 0 3) (fun _ =>
             r <- randf ;;
             let aj := aToP + 0.10 * (r - 0.5) in
             spawnBullet (e_x b) (e_y b) (cosQ aj * (spBase + 120))
               (sinQ aj * (spBase + 120)) 1 fromEnemy "be" (Some 2.0)) ;;;
           updEnemy i (set_e_fireCD 0.45)
         else if (e_patternId b =? 2)%Z then
           let spin := e_spinA b + 0.55 in
           updEnemy i (set_e_spinA spin) ;;;
           forM_ (seq 0 6) (fun k =>
             let ak := spin + inject_Z (Z.of_nat k) * (TAU / 6) in
             spawnBullet (e_x b) (e_y b) (cosQ ak * (spBase + 60))
               (sinQ ak * (spBase + 60)) 1 fromEnemy "be" (Some 2.4)) ;;;
           updEnemy i (set_e_fireCD 0.70)
         else
           let sweep := (Z.rem (e_phase b) 7 - 3)%Z in
           let al := aToP + inject_Z sweep * 0.08 in
           spawnBullet (e_x b) (e_y b) (cosQ al * (spBase + 300))
             (sinQ al * (spBase + 300)) 2 fromEnemy "beL" (Some 1.2) ;;;
           updEnemy i (fun b => set_e_fireCD 0.18 (set_e_phase (e_phase b + 1)%Z b))) ;;;
        shake 6 0.10
  end.

(** *** Updates *)

Definition wasPressed (inp : Input) (code : Z) : bool := keysPressed inp code.

(** The [while] loop of [cycleWeapon]; [count] runs from [0] to the number
    of weapons, [fuel] is what is left of that bound. *)
Fixpoint cycleLoop (fuel : nat) (dir i : Z) (ws : list Weapon) : option nat :=
  match fuel with
  | O => None
  | S fuel' =>
      let len := Z.of_nat (length ws) in
      let i := Z.rem (i + dir + len) len in
      match arrGet i ws with
      | Some x => if w_unlocked x then Some (Z.to_nat i) else cycleLoop fuel' dir i ws
      | None => cycleLoop fuel' dir i ws
      end
  end.

Definition cycleWeapon (dir : Z) : M World unit :=
  w <- gets id ;;
  match cycleLoop (length (WEAPONS w)) dir (Z.of_nat (pl_weapon (player w)))
          (WEAPONS w) with
  | Some i => updPlayer (set_pl_weapon i)
  | None => ret tt
  end.

Definition updateCamera (dt : Q) : M World unit :=
  w <- gets id ;;
  let maxX := Qmaxb 0 (ROOM_W - VIEW_W w) in
  let maxY := Qmaxb 0 (ROOM_H - VIEW_H w) in
  let tx := clamp (pl_x (player w) - VIEW_W w / 2) 0 maxX in
  let ty := clamp (pl_y (player w) - VIEW_H w / 2) 0 maxY in
  updCam (fun c => set_cam_y (lerp (cam_y c) ty (10 * dt))
                     (set_cam_x (lerp (cam_x c) tx (10 * dt)) c)) ;;;
  viewOffsets.

Definition unlockRandomWeapon : M World unit :=
  w <- gets id ;;
  let locked := filter (fun x => w_unlocked x = false) (WEAPONS w) in
  if (length locked =? 0)%nat then ret tt
  else
    k <- randi (inject_Z (Z.of_nat (length locked))) ;;
    match arrGet k locked with
    | None => ret tt
    | Some x =>
        modify (fun w =>
          set_WEAPONS
            (map (fun y => if (w_id y =? w_id x)%nat
                           then mkWeapon (w_id y) (w_name y) true (w_dmg y) (w_fire y)
                                  (w_speed y) (w_spread y) (w_pellets y) (w_burstStep y)
                           else y) (WEAPONS w)) w) ;;;
        say ("FOUND: " +:+ w_name x) 1.1
    end.

(** [state.enemies.splice(i, 1)] and its siblings. *)
Definition spliceEnemy (i : nat) : M World unit :=
  modify (fun w => set_enemies (delete i (enemies w)) w).
Definition spliceBullet (i : nat) : M World unit :=
  modify (fun w => set_bullets (delete i (bullets w)) w).
Definition splicePickup (i : nat) : M World unit :=
  modify (fun w => set_pickups (delete i (pickups w)) w).
Definition spliceFx (i : nat) : M World unit :=
  modify (fun w => set_fx (delete i (fx w)) w).

(** The room object [ensureRoom(state.roomId)] returned when the function
    started. *)
Definition roomOf (here : string) (w : World) : Room :=
  default (newRoom here) (rooms w !! here).

(** [if (!collideCircle(nx, e.y, ..)) e.x = nx; if (!collideCircle(e.x, ny, ..)) e.y = ny]. *)
Definition slideEnemy (dt : Q) (room : Room) (e : Enemy) : Enemy :=
  let nx := e_x e + e_vx e * dt in
  let ny := e_y e + e_vy e * dt in
  let e := if negb (collideCircle nx (e_y e) (e_r e) room) then set_e_x nx e else e in
  if negb (collideCircle (e_x e) ny (e_r e) room) then set_e_y ny e else e.

Definition touches (e : Enemy) (p : Player) : bool :=
  Qltb (dist2 (e_x e) (e_y e) (pl_x p) (pl_y p))
       ((e_r e + pl_r p) * (e_r e + pl_r p)).

(** One iteration of the loop of [updateEnemies], at index [i]. *)
Definition updateEnemy (dt : Q) (room : Room) (depth : Z) (i : nat) : M World unit :=
  updEnemy i (fun e => set_e_t (e_t e + dt) e) ;;;
  w <- gets id ;;
  match enemies w !! i with
  | None => ret tt
  | Some e =>
      if bool_decide (e_type e = boss) then
        let dxB := ROOM_W * 0.5 - e_x e in
        let dyB := ROOM_H * 0.5 - e_y e in
        updEnemy i (fun e =>
          slideEnemy dt room
            (set_e_vy (lerp (e_vy e) (dyB * 0.25) (1.8 * dt))
               (set_e_vx (lerp (e_vx e) (dxB * 0.25) (1.8 * dt)) e))) ;;;
        bossAttack i dt ;;;
        w <- gets id ;;
        match enemies w !! i with
        | None => ret tt
        | Some e =>
            when (touches e (player w)) (hurtPlayer 2) ;;;
            when (Qle_bool (e_hp e) 0)
              (dropCoins (e_x e) (e_y e) 30 ;;;
               c <- chance 0.80 ;;
               when c unlockRandomWeapon ;;;
               spliceEnemy i ;;;
               shake 14 0.25 ;;;
               say "BOSS DOWN!" 1.2)
        end
      else
        let dx := pl_x (player w) - e_x e in
        let dy := pl_y (player w) - e_y e in
        let d := sqrtQ (dx * dx + dy * dy) in
        let d := if Qeq_bool d 0 then 1 else d in
        (if bool_decide (e_type e = chaser) then
           let sp := 105 + inject_Z depth * 2 in
           updEnemy i (fun e => set_e_vy (dy / d * sp) (set_e_vx (dx / d * sp) e))
         else
           let sp2 := 95 + inject_Z depth * 1.5 in
           let desired := 210 in
           (if Qltb d desired then
              updEnemy i (fun e =>
                set_e_vy (- (dy / d) * sp2) (set_e_vx (- (dx / d) * sp2) e))
            else
              r1 <- randf ;;
              r2 <- randf ;;
              updEnemy i (fun e =>
                set_e_vy ((r2 - 0.5) * 40) (set_e_vx ((r1 - 0.5) * 40) e))) ;;;
           updEnemy i (fun e =>
             if Qltb 0 (e_fireCD e) then set_e_fireCD (e_fireCD e - dt) e else e) ;;;
           w <- gets id ;;
           match enemies w !! i with
           | None => ret tt
           | Some e =>
               when (Qle_bool (e_fireCD e) 0 && Qltb d 480)
                 (let n := norm dx dy in
                  spawnBullet (e_x e) (e_y e)
                    (fst n * (320 + inject_Z depth * 4))
                    (snd n * (320 + inject_Z depth * 4)) 1 fromEnemy "e" (Some 2.0) ;;;
                  r <- randf ;;
                  updEnemy i (set_e_fireCD (0.9 + r * 0.6)))
           end) ;;;
        updEnemy i (slideEnemy dt room) ;;;
        w <- gets id ;;
        match enemies w !! i with
        | None => ret tt
        | Some e =>
            when (touches e (player w)) (hurtPlayer 1) ;;;
            when (Qle_bool (e_hp e) 0)
              (r <- randi 3 ;;
               let coins_ := (2 + r + toInt32 (inject_Z depth / 4))%Z in
               dropCoins (e_x e) (e_y e) coins_ ;;;
               c <- chance 0.10 ;;
               when c (pushPickup (mkPickup (e_x e) (e_y e) heart 2 10)) ;;;
               spliceEnemy i)
        end
  end.

Definition updateEnemies (dt : Q) : M World unit :=
  here <- gets roomId ;;
  room <- ensureRoom here ;;
  node <- ensureNode here ;;
  n <- gets (fun w => length (enemies w)) ;;
  forM_ (rev (seq 0 n)) (updateEnemy dt room (node_depth node)).

(** The inner loop of [updateBullets]: the last enemy, scanning from the
    end of the array, that the bullet touches. *)
Definition firstHit (b : Bullet) (es : list Enemy) : option nat :=
  find (fun e =>
          match es !! e with
          | Some en => Qltb (dist2 (b_x b) (b_y b) (e_x en) (e_y en))
                            ((b_r b + e_r en) * (b_r b + e_r en))
          | None => false
          end)
       (rev (seq 0 (length es))).

(** One iteration of the loop of [updateBullets], at index [i]. *)
Definition updateBullet (dt : Q) (room : Room) (i : nat) : M World unit :=
  w <- gets id ;;
  match bullets w !! i with
  | None => ret tt
  | Some b =>
      let b := set_b_t (b_t b - dt) b in
      let nx := b_x b + b_vx b * dt in
      let ny := b_y b + b_vy b * dt in
      if isSolidAtPoint nx ny room then spliceBullet i
      else
        let b := set_b_y ny (set_b_x nx b) in
        modify (fun w => set_bullets (<[i := b]> (bullets w)) w) ;;;
        if bool_decide (b_from b = fromPlayer) then
          (match firstHit b (enemies w) with
           | Some e =>
               updEnemy e (fun en => set_e_hp (e_hp en - b_dmg b) en) ;;;
               shake 2 0.05 ;;;
               spliceBullet i
           | None => ret tt
           end) ;;;
          when (Qle_bool (b_t b) 0) (spliceBullet i)
        else if Qltb (dist2 (b_x b) (b_y b) (pl_x (player w)) (pl_y (player w)))
                     ((b_r b + pl_r (player w)) * (b_r b + pl_r (player w)))
        then hurtPlayer (b_dmg b) ;;; spliceBullet i
        else when (Qle_bool (b_t b) 0) (spliceBullet i)
  end.

Definition updateBullets (dt : Q) : M World unit :=
  here <- gets roomId ;;
  room <- ensureRoom here ;;
  n <- gets (fun w => length (bullets w)) ;;
  forM_ (rev (seq 0 n)) (updateBullet dt room).

Definition updatePickup (i : nat) : M World unit :=
  w <- gets id ;;
  match pickups w !! i with
  | None => ret tt
  | Some p =>
      let reach := p_r p + pl_r (player w) + 10 in
      when (Qltb (dist2 (p_x p) (p_y p) (pl_x (player w)) (pl_y (player w)))
                 (reach * reach))
        (match p_t p with
         | coin =>
             modify (fun w => set_coins (coins w + p_v p) w) ;;; say "+COIN" 0.30
         | heart =>
             updPlayer (fun q => set_pl_hp (clamp (pl_hp q + p_v p) 0 (pl_hpMax q)) q) ;;;
             say "+HP" 0.45
         end ;;;
         splicePickup i)
  end.

Definition updatePickups (dt : Q) : M World unit :=
  n <- gets (fun w => length (pickups w)) ;;
  forM_ (rev (seq 0 n)) updatePickup.

Definition updateParticle (dt : Q) (i : nat) : M World unit :=
  w <- gets id ;;
  match fx w !! i with
  | None => ret tt
  | Some p =>
      let p := set_fx_t (fx_t p - dt) p in
      let p := set_fx_x (fx_x p + fx_vx p * dt) p in
      let p := set_fx_y (fx_y p + fx_vy p * dt) p in
      let p := set_fx_vx (fx_vx p * powQ 0.002 dt) p in
      let p := set_fx_vy (fx_vy p * powQ 0.002 dt) p in
      modify (fun w => set_fx (<[i := p]> (fx w)) w) ;;;
      when (Qle_bool (fx_t p) 0) (spliceFx i)
  end.

Definition updateParticles (dt : Q) : M World unit :=
  n <- gets (fun w => length (fx w)) ;;
  forM_ (rev (seq 0 n)) (updateParticle dt).

(** *** Reset *)

Definition resetGame : M World unit :=
  modify (fun w =>
    set_shopOpen false (set_paused false (set_fx [] (set_pickups []
      (set_bullets [] (set_enemies [] (set_rooms ∅ (set_roomMap ∅
        (set_roomId "0,0" (set_coins 0 (set_msgT 0 (set_msg "" w)))))))))))) ;;;
  modify (fun w =>
    set_WEAPONS
      (map (fun y => mkWeapon (w_id y) (w_name y) (w_id y =? 0)%nat (w_dmg y)
                       (w_fire y) (w_speed y) (w_spread y) (w_pellets y)
                       (w_burstStep y)) (WEAPONS w)) w) ;;;
  updPlayer (fun p =>
    set_pl_burstCD 0 (set_pl_burstQ 0%Z (set_pl_fireCD 0 (set_pl_weapon 0%nat
      (set_pl_vy 0 (set_pl_vx 0 (set_pl_dashCD 0 (set_pl_dashT 0 (set_pl_invT 0
        (set_pl_hp 8 (set_pl_hpMax 8 (set_pl_y (ROOM_H / 2)
          (set_pl_x (ROOM_W / 2) p))))))))))))) ;;;
  _ <- ensureNode "0,0" ;;
  _ <- ensureRoom "0,0" ;;
  loadRoom "0,0" ;;;
  snapCameraToPlayer.

(** *** The tick *)

(** The timers at the head of [update]. *)
Definition tickTimers (dt : Q) : M World unit :=
  modify (fun w => if Qltb 0 (msgT w) then set_msgT (msgT w - dt) w else w) ;;;
  updPlayer (fun p => if Qltb 0 (pl_invT p) then set_pl_invT (pl_invT p - dt) p else p) ;;;
  updPlayer (fun p => if Qltb 0 (pl_fireCD p) then set_pl_fireCD (pl_fireCD p - dt) p else p) ;;;
  updPlayer (fun p => if Qltb 0 (pl_dashT p) then set_pl_dashT (pl_dashT p - dt) p else p) ;;;
  updPlayer (fun p => if Qltb 0 (pl_dashCD p) then set_pl_dashCD (pl_dashCD p - dt) p else p) ;;;
  updPlayer (fun p => if Qltb 0 (pl_burstCD p) then set_pl_burstCD (pl_burstCD p - dt) p else p) ;;;
  updCam (fun c =>
    if Qltb 0 (cam_shakeT c)
    then set_cam_shake (lerp (cam_shake c) 0 (10 * dt))
           (set_cam_shakeT (cam_shakeT c - dt) c)
    else set_cam_shake 0 c).

(** The direction held on the keyboard, each axis in [-1, 0, 1]. *)
Definition heldAxis (inp : Input) (neg1 neg2 pos1 pos2 : Z) : Q :=
  (if keys inp neg1 || keys inp neg2 then -1 else 0)
  + (if keys inp pos1 || keys inp pos2 then 1 else 0).

Definition heldX (inp : Input) : Q := heldAxis inp KEY_A KEY_LEFT KEY_D KEY_RIGHT.
Definition heldY (inp : Input) : Q := heldAxis inp KEY_W KEY_UP KEY_S KEY_DOWN.

Definition dash (inp : Input) : M World unit :=
  w <- gets id ;;
  when ((wasPressed inp KEY_SPACE || wasPressed inp KEY_SHIFT)
        && Qle_bool (pl_dashCD (player w)) 0)
    (let mx := heldX inp in
     let my := heldY inp in
     let m :=
       if Qeq_bool mx 0 && Qeq_bool my 0 then
         let awx := cam_x (cam w) + (mouse_x inp - VIEW_OX w) in
         let awy := cam_y (cam w) + (mouse_y inp - VIEW_OY w) in
         norm (awx - pl_x (player w)) (awy - pl_y (player w))
       else norm mx my in
     updPlayer (fun p =>
       set_pl_vy (snd m * 820) (set_pl_vx (fst m * 820)
         (set_pl_dashCD 0.80 (set_pl_dashT 0.14 p)))) ;;;
     shake 5 0.10).

Definition movement (inp : Input) (dt : Q) : M World unit :=
  updPlayer (fun p =>
    if Qle_bool (pl_dashT p) 0 then
      let ax := heldX inp in
      let ay := heldY inp in
      let sp := pl_speed p in
      if negb (Qeq_bool ax 0) || negb (Qeq_bool ay 0) then
        let nn := norm ax ay in
        set_pl_vy (snd nn * sp) (set_pl_vx (fst nn * sp) p)
      else
        set_pl_vy (lerp (pl_vy p) 0 (10 * dt)) (set_pl_vx (lerp (pl_vx p) 0 (10 * dt)) p)
    else
      set_pl_vy (lerp (pl_vy p) 0 (5 * dt)) (set_pl_vx (lerp (pl_vx p) 0 (5 * dt)) p)).

(** The three conjuncts of the guard of a door check.  [movingOut]: the
    velocity component points outward across the boundary of [dir]. *)
Definition movingOut (dir : Dir) (p : Player) : bool :=
  match dir with
  | dN => Qltb (pl_vy p) 0
  | dS => Qltb 0 (pl_vy p)
  | dW => Qltb (pl_vx p) 0
  | dE => Qltb 0 (pl_vx p)
  end.

(** [reachesBoundary]: the projected position [(nxp, nyp)] comes within
    two pixels of the boundary of [dir], or beyond it. *)
Definition reachesBoundary (dir : Dir) (dt : Q) (p : Player) : bool :=
  let nxp := pl_x p + pl_vx p * dt in
  let nyp := pl_y p + pl_vy p * dt in
  match dir with
  | dN => Qle_bool nyp 2
  | dS => Qle_bool (ROOM_H - 2) nyp
  | dW => Qle_bool nxp 2
  | dE => Qle_bool (ROOM_W - 2) nxp
  end.

(** The guard [player.v? .. && inDoorBand(dir, player.x, player.y) && ..]. *)
Definition pushesThrough (dir : Dir) (dt : Q) (p : Player) : bool :=
  movingOut dir p && inDoorBand dir (pl_x p) (pl_y p) && reachesBoundary dir dt p.

(** One of the four lines
    [if (guard) { if (tryDoorTransitionByIntent(dir)) return; }];
    the result says whether [update] returns there. *)
Definition doorCheck (dir : Dir) (dt : Q) (p : Player) : M World bool :=
  if pushesThrough dir dt p then tryDoorTransitionByIntent dir else ret false.

(** The four door checks, in the order N, S, W, E.  The player is not
    moved by a check that does not fire, so all four read the position and
    velocity the first one saw. *)
Definition doorChecks (dt : Q) : M World bool :=
  p <- gets player ;;
  f <- doorCheck dN dt p ;;
  if f then ret true else
  f <- doorCheck dS dt p ;;
  if f then ret true else
  f <- doorCheck dW dt p ;;
  if f then ret true else
  doorCheck dE dt p.

(** Per-axis movement of the player against the tiles. *)
Definition movePlayer (dt : Q) (here : string) : M World unit :=
  w <- gets id ;;
  let room := roomOf here w in
  let p := player w in
  let nxp := pl_x p + pl_vx p * dt in
  let nyp := pl_y p + pl_vy p * dt in
  let p := if negb (collideCircle nxp (pl_y p) (pl_r p) room)
           then set_pl_x nxp p else set_pl_vx 0 p in
  let p := if negb (collideCircle (pl_x p) nyp (pl_r p) room)
           then set_pl_y nyp p else set_pl_vy 0 p in
  updPlayer (fun _ => p).

(** The clear check that ends [update]; [here] is the id under which
    [node] and [room] were fetched. *)
Definition clearCheck (here : string) : M World unit :=
  w <- gets id ;;
  match roomMap w !! here with
  | None => ret tt
  | Some node =>
      when (negb (node_cleared node) && bool_decide (node_kind node = combat)
            && (length (enemies w) =? 0)%nat)
        (updNode here (set_node_cleared true) ;;;
         lockDoors here false ;;;
         say "CLEARED" 0.9 ;;;
         pushPickup (mkPickup (ROOM_W / 2) (ROOM_H / 2) coin 6 10))
  end.

(** From "Move + door transitions" (after the door checks) to the end. *)
Definition simulate (dt : Q) (here : string) : M World unit :=
  movePlayer dt here ;;;
  updateCamera dt ;;;
  updateEnemies dt ;;;
  updateBullets dt ;;;
  updatePickups dt ;;;
  updateParticles dt ;;;
  clearCheck here.

Definition shopKeys (inp : Input) : M World unit :=
  forM_ (zip [KEY_ONE; KEY_TWO; KEY_THREE; KEY_FOUR; KEY_FIVE; KEY_SIX; KEY_SEVEN]
             SHOP_ITEMS)
        (fun ki => when (wasPressed inp (fst ki)) (buyShopItem (snd ki))).

Definition update (inp : Input) (dt : Q) : M World unit :=
  isPaused <- gets paused ;;
  if isPaused then
    when (wasPressed inp KEY_ESC) (modify (set_paused false)) ;;;
    when (wasPressed inp KEY_R) resetGame
  else
    when (wasPressed inp KEY_ESC)
      (modify (fun w => if shopOpen w then set_shopOpen false w
                        else set_paused true w)) ;;;
    when (wasPressed inp KEY_R) resetGame ;;;
    tickTimers dt ;;;
    here <- gets roomId ;;
    node <- ensureNode here ;;
    when (wasPressed inp KEY_F && bool_decide (node_kind node = shop)) tryOpenShop ;;;
    isOpen <- gets shopOpen ;;
    if bool_decide (node_kind node = shop) && isOpen then
      shopKeys inp ;;;
      updateParticles dt
    else
      when (wasPressed inp KEY_Q) (cycleWeapon (-1)) ;;;
      when (wasPressed inp KEY_E) (cycleWeapon 1) ;;;
      dash inp ;;;
      movement inp dt ;;;
      when (mouse_down inp) (shoot inp) ;;;
      updateBurst inp dt ;;;
      _ <- ensureRoom here ;;
      fired <- doorChecks dt ;;
      if fired then ret tt else simulate dt here.
End WithEnv.

End NMjs.

(** ** [src/unnamed/part_000]: rooms that are stashed and restored

    Modelled here: the room graph ([ensureNode], [ensureRoom],
    [isShopCoord], [buildNeighborsAround]), tile generation and collision,
    room population, the room cache ([stashRoom], [loadRoom]) and the
    door transition [tryDoorTransitionByIntent]. *)

Module Part000.

Local Open Scope Q_scope.

(** [node.kind]: ["combat" | "shop" | "start"]. *)
Inductive Kind := combat | shop | start.

(** [e.type]: ["chaser" | "shooter"]. *)
Inductive EType := chaser | shooter.

(** [b.from]: ["player" | "enemy"]. *)
Inductive Owner := fromPlayer | fromEnemy.

(** [p.t]: ["coin" | "heart"]. *)
Inductive PickupT := coin | heart.

#[global] Instance Kind_eq_dec : EqDecision Kind.
Proof. solve_decision. Defined.

(** A room node of [state.map]. *)
Record Node := mkNode {
  node_id : string;
  node_x : Z;
  node_y : Z;
  node_depth : Z;
  node_kind : Kind;
  node_seen : bool;
  node_cleared : bool;
  node_locked : bool
}.

Definition set_node_kind (v : Kind) (r : Node) : Node :=
  mkNode (node_id r) (node_x r) (node_y r) (node_depth r) v (node_seen r)
    (node_cleared r) (node_locked r).
Definition set_node_seen (v : bool) (r : Node) : Node :=
  mkNode (node_id r) (node_x r) (node_y r) (node_depth r) (node_kind r) v
    (node_cleared r) (node_locked r).
Definition set_node_cleared (v : bool) (r : Node) : Node :=
  mkNode (node_id r) (node_x r) (node_y r) (node_depth r) (node_kind r)
    (node_seen r) v (node_locked r).

(** An enemy, as [spawnEnemy] lays it out. *)
Record Enemy := mkEnemy {
  e_type : EType;
  e_x : Q;
  e_y : Q;
  e_r : Q;
  e_hp : Q;
  e_vx : Q;
  e_vy : Q;
  e_t : Q;
  e_fireCD : Q
}.

Record Bullet := mkBullet {
  b_x : Q;
  b_y : Q;
  b_vx : Q;
  b_vy : Q;
  b_r : Q;
  b_t : Q;
  b_dmg : Q;
  b_from : Owner;
  b_kind : string
}.

Record Pickup := mkPickup {
  p_x : Q;
  p_y : Q;
  p_t : PickupT;
  p_v : Q;
  p_r : Q
}.

Record Fx := mkFx {
  fx_x : Q;
  fx_y : Q;
  fx_vx : Q;
  fx_vy : Q;
  fx_t : Q;
  fx_c : Z
}.

Record Decal := mkDecal {
  d_x : Q;
  d_y : Q;
  d_r : Q;
  d_t : Q;
  d_kind : string
}.

(** [room.__cache]: copies of the three live arrays. *)
Record Cache := mkCache {
  c_enemies : list Enemy;
  c_pickups : list Pickup;
  c_decals : list Decal
}.

(** A room of [state.rooms]; [g], [null] until the tiles are generated, is the empty list then, and [__cache] is [None] while it is [null]. *)
Record Room := mkRoom {
  room_id : string;
  room_g : list Z;
  doorsOpen : Doors;
  neighbors : Doors;
  cache : option Cache
}.

Definition set_room_id (v : string) (r : Room) : Room :=
  mkRoom v (room_g r) (doorsOpen r) (neighbors r) (cache r).
Definition set_room_g (v : list Z) (r : Room) : Room :=
  mkRoom (room_id r) v (doorsOpen r) (neighbors r) (cache r).
Definition set_doorsOpen (v : Doors) (r : Room) : Room :=
  mkRoom (room_id r) (room_g r) v (neighbors r) (cache r).
Definition set_neighbors (v : Doors) (r : Room) : Room :=
  mkRoom (room_id r) (room_g r) (doorsOpen r) v (cache r).
Definition set_cache (v : option Cache) (r : Room) : Room :=
  mkRoom (room_id r) (room_g r) (doorsOpen r) (neighbors r) v.

Record Cam := mkCam {
  cam_x : Q;
  cam_y : Q;
  cam_shake : Q;
  cam_shakeT : Q
}.

Record Player := mkPlayer {
  pl_x : Q;
  pl_y : Q;
  pl_r : Q;
  pl_hp : Q;
  pl_hpMax : Q;
  pl_invT : Q;
  pl_dashT : Q;
  pl_dashCD : Q;
  pl_vx : Q;
  pl_vy : Q;
  pl_speed : Q;
  pl_weapon : nat;
  pl_fireCD : Q
}.

Definition set_pl_x (v : Q) (r : Player) : Player :=
  mkPlayer v (pl_y r) (pl_r r) (pl_hp r) (pl_hpMax r) (pl_invT r) (pl_dashT
    r) (pl_dashCD r) (pl_vx r) (pl_vy r) (pl_speed r) (pl_weapon r)
    (pl_fireCD r).
Definition set_pl_y (v : Q) (r : Player) : Player :=
  mkPlayer (pl_x r) v (pl_r r) (pl_hp r) (pl_hpMax r) (pl_invT r) (pl_dashT
    r) (pl_dashCD r) (pl_vx r) (pl_vy r) (pl_speed r) (pl_weapon r)
    (pl_fireCD r).

(** The mutable globals: the fields of [state] ([state.map] is [roomMap]), [player], the viewport size, and the number of [Math.random()] calls made so far. *)
Record World := mkWorld {
  running : bool;
  paused : bool;
  shopOpen : bool;
  msg : string;
  msgT : Q;
  keys : Z;
  coins : Q;
  roomId : string;
  cam : Cam;
  roomMap : gmap string Node;
  rooms : gmap string Room;
  enemies : list Enemy;
  bullets : list Bullet;
  pickups : list Pickup;
  fx : list Fx;
  decals : list Decal;
  player : Player;
  VIEW_W : Q;
  VIEW_H : Q;
  draws : nat
}.

Definition set_shopOpen (v : bool) (r : World) : World :=
  mkWorld (running r) (paused r) v (msg r) (msgT r) (keys r) (coins r)
    (roomId r) (cam r) (roomMap r) (rooms r) (enemies r) (bullets r)
    (pickups r) (fx r) (decals r) (player r) (VIEW_W r) (VIEW_H r) (draws
    r).
Definition set_msg (v : string) (r : World) : World :=
  mkWorld (running r) (paused r) (shopOpen r) v (msgT r) (keys r) (coins r)
    (roomId r) (cam r) (roomMap r) (rooms r) (enemies r) (bullets r)
    (pickups r) (fx r) (decals r) (player r) (VIEW_W r) (VIEW_H r) (draws
    r).
Definition set_msgT (v : Q) (r : World) : World :=
  mkWorld (running r) (paused r) (shopOpen r) (msg r) v (keys r) (coins r)
    (roomId r) (cam r) (roomMap r) (rooms r) (enemies r) (bullets r)
    (pickups r) (fx r) (decals r) (player r) (VIEW_W r) (VIEW_H r) (draws
    r).
Definition set_roomId (v : string) (r : World) : World :=
  mkWorld (running r) (paused r) (shopOpen r) (msg r) (msgT r) (keys r)
    (coins r) v (cam r) (roomMap r) (rooms r) (enemies r) (bullets r)
    (pickups r) (fx r) (decals r) (player r) (VIEW_W r) (VIEW_H r) (draws
    r).
Definition set_cam (v : Cam) (r : World) : World :=
  mkWorld (running r) (paused r) (shopOpen r) (msg r) (msgT r) (keys r)
    (coins r) (roomId r) v (roomMap r) (rooms r) (enemies r) (bullets r)
    (pickups r) (fx r) (decals r) (player r) (VIEW_W r) (VIEW_H r) (draws
    r).
Definition set_roomMap (v : gmap string Node) (r : World) : World :=
  mkWorld (running r) (paused r) (shopOpen r) (msg r) (msgT r) (keys r)
    (coins r) (roomId r) (cam r) v (rooms r) (enemies r) (bullets r)
    (pickups r) (fx r) (decals r) (player r) (VIEW_W r) (VIEW_H r) (draws
    r).
Definition set_rooms (v : gmap string Room) (r : World) : World :=
  mkWorld (running r) (paused r) (shopOpen r) (msg r) (msgT r) (keys r)
    (coins r) (roomId r) (cam r) (roomMap r) v (enemies r) (bullets r)
    (pickups r) (fx r) (decals r) (player r) (VIEW_W r) (VIEW_H r) (draws
    r).
Definition set_enemies (v : list Enemy) (r : World) : World :=
  mkWorld (running r) (paused r) (shopOpen r) (msg r) (msgT r) (keys r)
    (coins r) (roomId r) (cam r) (roomMap r) (rooms r) v (bullets r)
    (pickups r) (fx r) (decals r) (player r) (VIEW_W r) (VIEW_H r) (draws
    r).
Definition set_bullets (v : list Bullet) (r : World) : World :=
  mkWorld (running r) (paused r) (shopOpen r) (msg r) (msgT r) (keys r)
    (coins r) (roomId r) (cam r) (roomMap r) (rooms r) (enemies r) v
    (pickups r) (fx r) (decals r) (player r) (VIEW_W r) (VIEW_H r) (draws
    r).
Definition set_pickups (v : list Pickup) (r : World) : World :=
  mkWorld (running r) (paused r) (shopOpen r) (msg r) (msgT r) (keys r)
    (coins r) (roomId r) (cam r) (roomMap r) (rooms r) (enemies r) (bullets
    r) v (fx r) (decals r) (player r) (VIEW_W r) (VIEW_H r) (draws r).
Definition set_fx (v : list Fx) (r : World) : World :=
  mkWorld (running r) (paused r) (shopOpen r) (msg r) (msgT r) (keys r)
    (coins r) (roomId r) (cam r) (roomMap r) (rooms r) (enemies r) (bullets
    r) (pickups r) v (decals r) (player r) (VIEW_W r) (VIEW_H r) (draws r).
Definition set_decals (v : list Decal) (r : World) : World :=
  mkWorld (running r) (paused r) (shopOpen r) (msg r) (msgT r) (keys r)
    (coins r) (roomId r) (cam r) (roomMap r) (rooms r) (enemies r) (bullets
    r) (pickups r) (fx r) v (player r) (VIEW_W r) (VIEW_H r) (draws r).
Definition set_player (v : Player) (r : World) : World :=
  mkWorld (running r) (paused r) (shopOpen r) (msg r) (msgT r) (keys r)
    (coins r) (roomId r) (cam r) (roomMap r) (rooms r) (enemies r) (bullets
    r) (pickups r) (fx r) (decals r) v (VIEW_W r) (VIEW_H r) (draws r).
Definition set_draws (v : nat) (r : World) : World :=
  mkWorld (running r) (paused r) (shopOpen r) (msg r) (msgT r) (keys r)
    (coins r) (roomId r) (cam r) (roomMap r) (rooms r) (enemies r) (bullets
    r) (pickups r) (fx r) (decals r) (player r) (VIEW_W r) (VIEW_H r) v.


Definition TILE : Q := 24.
Definition ROOM_TW : Z := 21.
Definition ROOM_TH : Z := 13.
Definition ROOM_W : Q := inject_Z ROOM_TW * TILE.
Definition ROOM_H : Q := inject_Z ROOM_TH * TILE.
Definition DOOR_SPAN : Q := 26.
Definition DOOR_THICK : Q := 18.
Definition MAX_DEPTH : Z := 10.

Definition tileIndex (tx ty : Z) : Z := (ty * ROOM_TW + tx)%Z.

(** [cloneArray(arr)]: a new array of shallow copies.  The entities hold
    numbers and strings only, so a copy is the same value, and no later
    write to the live array can reach it. *)
Definition cloneArray {A} (arr : list A) : list A := map (fun o => o) arr.

Section WithEnv.

Context `{Env}.

Definition TAU : Q := PI * 2.

Definition randf : M World Q :=
  fun w => (random (draws w), set_draws (S (draws w)) w).

Definition randi (n : Q) : M World Z :=
  r <- randf ;; ret (toInt32 (r * n)).

Definition chance (p : Q) : M World bool :=
  r <- randf ;; ret (Qltb r p).

Definition updNode (id : string) (f : Node -> Node) : M World unit :=
  modify (fun w => set_roomMap (alter f id (roomMap w)) w).

Definition updRoom (id : string) (f : Room -> Room) : M World unit :=
  modify (fun w => set_rooms (alter f id (rooms w)) w).

Definition updPlayer (f : Player -> Player) : M World unit :=
  modify (fun w => set_player (f (player w)) w).

(** *** Room node / room data *)

Definition newNode (id : string) : Node :=
  let p := parseRoom id in
  mkNode id (fst p) (snd p) (Z.abs (fst p) + Z.abs (snd p)) combat false false
    false.

Definition ensureNode (id : string) : M World Node :=
  fun w =>
    match roomMap w !! id with
    | Some n => (n, w)
    | None => (newNode id, set_roomMap (<[id := newNode id]> (roomMap w)) w)
    end.

Definition getRoomNode (id : string) : M World (option Node) :=
  gets (fun w => roomMap w !! id).

Definition newRoom (id : string) : Room :=
  mkRoom id [] (allDoors true) (allDoors false) None.

Definition ensureRoom (id : string) : M World Room :=
  fun w =>
    match rooms w !! id with
    | Some r => (r, w)
    | None => (newRoom id, set_rooms (<[id := newRoom id]> (rooms w)) w)
    end.

Definition getRoom (id : string) : M World (option Room) :=
  gets (fun w => rooms w !! id).

(** *** One shop on each depth ring *)

Definition isShopCoord (x y : Z) : bool :=
  let d := (Z.abs x + Z.abs y)%Z in
  if (d <? 1)%Z then false
  else
    let m := Z.rem d 4 in
    if (m =? 0)%Z then (x =? d)%Z && (y =? 0)%Z
    else if (m =? 1)%Z then (x =? 0)%Z && (y =? d)%Z
    else if (m =? 2)%Z then (x =? - d)%Z && (y =? 0)%Z
    else (x =? 0)%Z && (y =? - d)%Z.

(** The kind the two places that assign one agree on. *)
Definition kindAt (id : string) (node : Node) : Kind :=
  if String.eqb id "0,0" then start
  else if isShopCoord (node_x node) (node_y node) then shop
  else combat.

(** *** Tiles: 0 wall, 1 floor, 2 pit, 3 door marker, 4 small pillar *)

Definition isEdge (x y : Z) : bool :=
  (x =? 0)%Z || (y =? 0)%Z || (x =? ROOM_TW - 1)%Z || (y =? ROOM_TH - 1)%Z.

Definition borderAndFloor : list Z :=
  foldl (fun g y =>
           foldl (fun g x => arrSet (tileIndex x y) (if isEdge x y then 0 else 1)%Z g)
                 g (seqZ 0 ROOM_TW))
        (replicate (Z.to_nat (ROOM_TW * ROOM_TH)) 0%Z) (seqZ 0 ROOM_TH).

Definition pits (g : list Z) : M World (list Z) :=
  foldM (seq 0 26) g (fun g _ =>
    px <- randi (inject_Z (ROOM_TW - 4)) ;;
    py <- randi (inject_Z (ROOM_TH - 4)) ;;
    c <- chance 0.25 ;;
    ret (if c then arrSet (tileIndex (2 + px) (2 + py)) 2%Z g else g)).

Definition pillars (density : Q) (g : list Z) : M World (list Z) :=
  foldM (seqZ 2 (ROOM_TH - 4)) g (fun g y =>
    foldM (seqZ 2 (ROOM_TW - 4)) g (fun g x =>
      if negb (bool_decide (arrGet (tileIndex x y) g = Some 1%Z)) then ret g
      else
        c <- chance density ;;
        ret (if c then arrSet (tileIndex x y) 4%Z g else g))).

(** The loop bounds are [(ROOM_TH / 2 - 1) | 0] and, since [<=] binds
    tighter than [|], [y <= ROOM_TH / 2 + 1]: for the integer [y] that is
    [y <= (ROOM_TH / 2 + 1) | 0]. *)
Definition clearCentre (g : list Z) : list Z :=
  let cx := toInt32 (inject_Z ROOM_TW / 2 - 1) in
  let cy := toInt32 (inject_Z ROOM_TH / 2 - 1) in
  let ex := toInt32 (inject_Z ROOM_TW / 2 + 1) in
  let ey := toInt32 (inject_Z ROOM_TH / 2 + 1) in
  foldl (fun g y =>
           foldl (fun g x => arrSet (tileIndex x y) 1%Z g) g
                 (seqZ cx (ex - cx + 1)))
        g (seqZ cy (ey - cy + 1)).

Definition carveDoor (dir : Dir) (g : list Z) : list Z :=
  let mx := toInt32 (inject_Z ROOM_TW / 2) in
  let my := toInt32 (inject_Z ROOM_TH / 2) in
  match dir with
  | dN => arrSet (tileIndex mx 1) 3%Z (arrSet (tileIndex mx 0) 1%Z g)
  | dS => arrSet (tileIndex mx (ROOM_TH - 2)) 3%Z
            (arrSet (tileIndex mx (ROOM_TH - 1)) 1%Z g)
  | dW => arrSet (tileIndex 1 my) 3%Z (arrSet (tileIndex 0 my) 1%Z g)
  | dE => arrSet (tileIndex (ROOM_TW - 2) my) 3%Z
            (arrSet (tileIndex (ROOM_TW - 1) my) 1%Z g)
  end.

(** [genRoomTiles(node)]; the node object is the one stored under [id],
    read when the function runs. *)
Definition genRoomTiles (id : string) : M World unit :=
  node <- ensureNode id ;;
  _ <- ensureRoom (node_id node) ;;
  let isCombat := bool_decide (node_kind node = combat) in
  g <- (if bool_decide (node_kind node = shop) then ret borderAndFloor
        else if isCombat then pits borderAndFloor
        else ret borderAndFloor) ;;
  g <- pillars (if isCombat then 0.055 else 0.03) g ;;
  let g := clearCentre g in
  nb <- gets (fun w => from_option neighbors (allDoors false)
                         (rooms w !! node_id node)) ;;
  let g := if atN nb then carveDoor dN g else g in
  let g := if atS nb then carveDoor dS g else g in
  let g := if atW nb then carveDoor dW g else g in
  let g := if atE nb then carveDoor dE g else g in
  updRoom (node_id node) (set_room_g g).

(** *** Collision *)

Definition isSolidAtPoint (wx wy : Q) (room : Room) : bool :=
  let tx := toInt32 (wx / TILE) in
  let ty := toInt32 (wy / TILE) in
  if (tx <? 0)%Z || (ty <? 0)%Z || (ROOM_TW <=? tx)%Z || (ROOM_TH <=? ty)%Z
  then true
  else
    match arrGet (tileIndex tx ty) (room_g room) with
    | None => false
    | Some t =>
        if (t =? 0)%Z || (t =? 2)%Z then true
        else if (t =? 4)%Z then
          let cx := inject_Z tx * TILE + TILE * 0.5 in
          let cy := inject_Z ty * TILE + TILE * 0.5 in
          let dx := wx - cx in
          let dy := wy - cy in
          let rad := TILE * 0.28 in
          Qle_bool (dx * dx + dy * dy) (rad * rad)
        else false
    end.

Definition collideCircle (x y r : Q) (room : Room) : bool :=
  existsb (fun i =>
             let a := (inject_Z (Z.of_nat i) / 12) * TAU in
             isSolidAtPoint (x + cosQ a * r) (y + sinQ a * r) room)
          (seq 0 12).

(** *** Neighbours *)

Definition link (id : string) (nx ny : Z) (dirA dirB : Dir) : M World unit :=
  if (MAX_DEPTH <? Z.abs nx + Z.abs ny)%Z then ret tt
  else
    updRoom id (fun r => set_neighbors (setDoor (neighbors r) dirA true) r) ;;;
    let nid := roomKey nx ny in
    _ <- ensureNode nid ;;
    _ <- ensureRoom nid ;;
    updRoom nid (fun r => set_neighbors (setDoor (neighbors r) dirB true) r).

Definition buildNeighborsAround (id : string) : M World unit :=
  node <- ensureNode id ;;
  _ <- ensureRoom id ;;
  let x := node_x node in
  let y := node_y node in
  link id x (y - 1) dN dS ;;;
  link id x (y + 1) dS dN ;;;
  link id (x - 1) y dW dE ;;;
  link id (x + 1) y dE dW ;;;
  genRoomTiles id.

(** *** Content spawning *)

(** [lockDoors(room, locked)] on the room stored under [id]. *)
Definition lockDoors (id : string) (locked : bool) : M World unit :=
  updRoom id (set_doorsOpen (allDoors (negb locked))).

Definition spawnEnemy (type : EType) (x y : Q) (depth : Z) : M World unit :=
  let hpBase : Q := match type with shooter => 6 | chaser => 5 end in
  modify (fun w =>
    set_enemies
      (enemies w ++
         [mkEnemy type x y 10 (hpBase + inject_Z (toInt32 (inject_Z depth / 3)))
            0 0 0 0]) w).

(** [state.enemies.length = 0] and the four lines after it. *)
Definition clearLive : M World unit :=
  modify (fun w =>
    set_decals [] (set_fx [] (set_pickups [] (set_bullets [] (set_enemies [] w))))).

Definition spawnRoomContents (id : string) : M World unit :=
  node0 <- ensureNode id ;;
  _ <- ensureRoom id ;;
  updNode id (set_node_kind (kindAt id node0)) ;;;
  clearLive ;;;
  let kind := kindAt id node0 in
  if bool_decide (kind = shop) || bool_decide (kind = start) then
    updNode id (set_node_cleared true) ;;;
    lockDoors id false ;;;
    when (bool_decide (kind = start))
      (modify (fun w =>
         set_pickups (pickups w ++ [mkPickup (ROOM_W / 2 + 44) (ROOM_H / 2) coin 3 7]) w))
  else if negb (node_cleared node0) then
    k <- randi 4 ;;
    let n := (4 + k + (if (4 <? node_depth node0)%Z then 1 else 0))%Z in
    forM_ (seq 0 (Z.to_nat n)) (fun _ =>
      u <- randf ;;
      let px := 60 + u * (ROOM_W - 120) in
      v <- randf ;;
      let py := 60 + v * (ROOM_H - 120) in
      c <- chance 0.25 ;;
      spawnEnemy (if c then shooter else chaser) px py (node_depth node0)) ;;;
    lockDoors id true
  else lockDoors id false.

(** *** Room caching *)

Definition stashRoom (id : string) : M World unit :=
  r <- getRoom id ;;
  match r with
  | None => ret tt
  | Some _ =>
      w <- gets (fun w => w) ;;
      updRoom id (set_cache
        (Some (mkCache (cloneArray (enemies w)) (cloneArray (pickups w))
                 (cloneArray (decals w)))))
  end.

(** The kind [loadRoom] sets early: as [kindAt], but a room that is
    neither the start nor a shop keeps the kind it has. *)
Definition earlyKind (id : string) (node : Node) : Kind :=
  if String.eqb id "0,0" then start
  else if isShopCoord (node_x node) (node_y node) then shop
  else node_kind node.

Definition loadRoom (id : string) : M World unit :=
  _ <- ensureRoom id ;;
  node0 <- ensureNode id ;;
  updNode id (set_node_kind (earlyKind id node0)) ;;;
  buildNeighborsAround id ;;;
  genRoomTiles id ;;;
  clearLive ;;;
  c <- gets (fun w => rooms w !! id ≫= cache) ;;
  match c with
  | Some c =>
      modify (fun w =>
        set_decals (cloneArray (c_decals c))
          (set_pickups (cloneArray (c_pickups c))
             (set_enemies (cloneArray (c_enemies c)) w)))
  | None => spawnRoomContents id
  end ;;;
  node <- ensureNode id ;;
  (if negb (node_cleared node) && bool_decide (node_kind node = combat)
   then lockDoors id true else lockDoors id false) ;;;
  updNode id (set_node_seen true) ;;;
  modify (set_shopOpen false).

(** *** Door transition *)

Definition inDoorBand (dir : Dir) (x y : Q) : bool :=
  let cx := ROOM_W * 0.5 in
  let cy := ROOM_H * 0.5 in
  match dir with
  | dN => Qle_bool (Qabs (x - cx)) DOOR_SPAN && Qle_bool y DOOR_THICK
  | dS => Qle_bool (Qabs (x - cx)) DOOR_SPAN && Qle_bool (ROOM_H - DOOR_THICK) y
  | dW => Qle_bool (Qabs (y - cy)) DOOR_SPAN && Qle_bool x DOOR_THICK
  | dE => Qle_bool (Qabs (y - cy)) DOOR_SPAN && Qle_bool (ROOM_W - DOOR_THICK) x
  end.

(** The part of [tryDoorTransitionByIntent] after the two door tests. *)
Definition passDoor (node : Node) (dir : Dir) : M World bool :=
  let '(dx, dy) :=
    match dir with
    | dN => (0, -1) | dS => (0, 1) | dW => (-1, 0) | dE => (1, 0)
    end%Z in
  let nid := roomKey (node_x node + dx) (node_y node + dy) in
  _ <- ensureNode nid ;;
  _ <- ensureRoom nid ;;
  here <- gets roomId ;;
  stashRoom here ;;;
  modify (set_roomId nid) ;;;
  loadRoom nid ;;;
  updPlayer (fun p =>
    match dir with
    | dN => set_pl_x (clamp (pl_x p) 18 (ROOM_W - 18)) (set_pl_y (ROOM_H - 18) p)
    | dS => set_pl_x (clamp (pl_x p) 18 (ROOM_W - 18)) (set_pl_y 18 p)
    | dW => set_pl_y (clamp (pl_y p) 18 (ROOM_H - 18)) (set_pl_x (ROOM_W - 18) p)
    | dE => set_pl_y (clamp (pl_y p) 18 (ROOM_H - 18)) (set_pl_x 18 p)
    end) ;;;
  modify (fun w =>
    let p := player w in
    set_cam (mkCam (clamp (pl_x p - VIEW_W w / 2) 0 (ROOM_W - VIEW_W w))
               (clamp (pl_y p - VIEW_H w / 2) 0 (ROOM_H - VIEW_H w)) 0 0) w) ;;;
  ret true.

Definition tryDoorTransitionByIntent (dir : Dir) : M World bool :=
  here <- gets roomId ;;
  node <- ensureNode here ;;
  room <- ensureRoom here ;;
  if negb (getDoor (neighbors room) dir) then ret false
  else if negb (getDoor (doorsOpen room) dir) then
    p <- gets player ;;
    when (inDoorBand dir (pl_x p) (pl_y p))
      (modify (fun w => set_msgT 0.6 (set_msg "DOOR LOCKED" w))) ;;;
    ret false
  else passDoor node dir.

End WithEnv.
End Part000.

(** ** [src/n.js]: treasure rooms and keys

    Modelled here: the room graph, tile generation, room population, the
    room cache, the door transition [tryDoorTransition], the room-clear
    check at the end of [update], and [resetGame]. *)

Module NJs.

Local Open Scope Q_scope.

(** [node.kind]: ["combat" | "start" | "treasure" | "boss"]. *)
Inductive Kind := combat | start | treasure | boss.

(** [e.type]: ["chaser" | "shooter" | "boss"]. *)
Inductive EType := chaser | shooter | bossE.

(** [p.t]: ["heart" | "key"]. *)
Inductive PickupT := heart | key.

#[global] Instance Kind_eq_dec : EqDecision Kind.
Proof. solve_decision. Defined.

(** A room node of [state.map]. *)
Record Node := mkNode {
  node_id : string;
  node_x : Z;
  node_y : Z;
  node_kind : Kind;
  node_seen : bool;
  node_cleared : bool;
  node_locked : bool
}.

Definition set_node_kind (v : Kind) (r : Node) : Node :=
  mkNode (node_id r) (node_x r) (node_y r) v (node_seen r) (node_cleared r)
    (node_locked r).
Definition set_node_seen (v : bool) (r : Node) : Node :=
  mkNode (node_id r) (node_x r) (node_y r) (node_kind r) v (node_cleared r)
    (node_locked r).
Definition set_node_cleared (v : bool) (r : Node) : Node :=
  mkNode (node_id r) (node_x r) (node_y r) (node_kind r) (node_seen r) v
    (node_locked r).
Definition set_node_locked (v : bool) (r : Node) : Node :=
  mkNode (node_id r) (node_x r) (node_y r) (node_kind r) (node_seen r)
    (node_cleared r) v.

(** An enemy, as [spawnEnemy] lays it out. *)
Record Enemy := mkEnemy {
  e_type : EType;
  e_x : Q;
  e_y : Q;
  e_r : Q;
  e_hp : Q;
  e_vx : Q;
  e_vy : Q;
  e_t : Q;
  e_fireCD : Q
}.

Record Bullet := mkBullet {
  b_x : Q;
  b_y : Q;
  b_vx : Q;
  b_vy : Q;
  b_r : Q;
  b_t : Q;
  b_dmg : Q;
  b_kind : string
}.

Record Pickup := mkPickup {
  p_x : Q;
  p_y : Q;
  p_t : PickupT;
  p_v : Q;
  p_r : Q
}.

Record Fx := mkFx {
  fx_x : Q;
  fx_y : Q;
  fx_vx : Q;
  fx_vy : Q;
  fx_t : Q
}.

Record Decal := mkDecal {
  d_x : Q;
  d_y : Q;
  d_r : Q;
  d_t : Q
}.

(** [room.__cache]: copies of the three live arrays. *)
Record Cache := mkCache {
  c_enemies : list Enemy;
  c_pickups : list Pickup;
  c_decals : list Decal
}.

(** A room of [state.rooms]; [g], [null] until the tiles are generated, is the empty list then, and [__cache] is [None] while it is [null]. *)
Record Room := mkRoom {
  room_id : string;
  room_g : list Z;
  doorsOpen : Doors;
  neighbors : Doors;
  cache : option Cache
}.

Definition set_room_id (v : string) (r : Room) : Room :=
  mkRoom v (room_g r) (doorsOpen r) (neighbors r) (cache r).
Definition set_room_g (v : list Z) (r : Room) : Room :=
  mkRoom (room_id r) v (doorsOpen r) (neighbors r) (cache r).
Definition set_doorsOpen (v : Doors) (r : Room) : Room :=
  mkRoom (room_id r) (room_g r) v (neighbors r) (cache r).
Definition set_neighbors (v : Doors) (r : Room) : Room :=
  mkRoom (room_id r) (room_g r) (doorsOpen r) v (cache r).
Definition set_cache (v : option Cache) (r : Room) : Room :=
  mkRoom (room_id r) (room_g r) (doorsOpen r) (neighbors r) v.

Record Cam := mkCam {
  cam_x : Q;
  cam_y : Q;
  cam_shake : Q;
  cam_shakeT : Q
}.

Record Player := mkPlayer {
  pl_x : Q;
  pl_y : Q;
  pl_r : Q;
  pl_hp : Q;
  pl_hpMax : Q;
  pl_invT : Q;
  pl_dashT : Q;
  pl_dashCD : Q;
  pl_vx : Q;
  pl_vy : Q;
  pl_speed : Q;
  pl_weapon : nat;
  pl_fireCD : Q
}.

Definition set_pl_x (v : Q) (r : Player) : Player :=
  mkPlayer v (pl_y r) (pl_r r) (pl_hp r) (pl_hpMax r) (pl_invT r) (pl_dashT
    r) (pl_dashCD r) (pl_vx r) (pl_vy r) (pl_speed r) (pl_weapon r)
    (pl_fireCD r).
Definition set_pl_y (v : Q) (r : Player) : Player :=
  mkPlayer (pl_x r) v (pl_r r) (pl_hp r) (pl_hpMax r) (pl_invT r) (pl_dashT
    r) (pl_dashCD r) (pl_vx r) (pl_vy r) (pl_speed r) (pl_weapon r)
    (pl_fireCD r).

(** The mutable globals: the fields of [state] ([state.map] is [roomMap]), [player], and the number of [Math.random()] calls made so far. *)
Record World := mkWorld {
  running : bool;
  paused : bool;
  msg : string;
  msgT : Q;
  keys : Q;
  roomId : string;
  cam : Cam;
  roomMap : gmap string Node;
  rooms : gmap string Room;
  enemies : list Enemy;
  bullets : list Bullet;
  pickups : list Pickup;
  fx : list Fx;
  decals : list Decal;
  player : Player;
  draws : nat
}.

Definition set_msg (v : string) (r : World) : World :=
  mkWorld (running r) (paused r) v (msgT r) (keys r) (roomId r) (cam r)
    (roomMap r) (rooms r) (enemies r) (bullets r) (pickups r) (fx r) (decals
    r) (player r) (draws r).
Definition set_msgT (v : Q) (r : World) : World :=
  mkWorld (running r) (paused r) (msg r) v (keys r) (roomId r) (cam r)
    (roomMap r) (rooms r) (enemies r) (bullets r) (pickups r) (fx r) (decals
    r) (player r) (draws r).
Definition set_keys (v : Q) (r : World) : World :=
  mkWorld (running r) (paused r) (msg r) (msgT r) v (roomId r) (cam r)
    (roomMap r) (rooms r) (enemies r) (bullets r) (pickups r) (fx r) (decals
    r) (player r) (draws r).
Definition set_roomId (v : string) (r : World) : World :=
  mkWorld (running r) (paused r) (msg r) (msgT r) (keys r) v (cam r)
    (roomMap r) (rooms r) (enemies r) (bullets r) (pickups r) (fx r) (decals
    r) (player r) (draws r).
Definition set_cam (v : Cam) (r : World) : World :=
  mkWorld (running r) (paused r) (msg r) (msgT r) (keys r) (roomId r) v
    (roomMap r) (rooms r) (enemies r) (bullets r) (pickups r) (fx r) (decals
    r) (player r) (draws r).
Definition set_roomMap (v : gmap string Node) (r : World) : World :=
  mkWorld (running r) (paused r) (msg r) (msgT r) (keys r) (roomId r) (cam
    r) v (rooms r) (enemies r) (bullets r) (pickups r) (fx r) (decals r)
    (player r) (draws r).
Definition set_rooms (v : gmap string Room) (r : World) : World :=
  mkWorld (running r) (paused r) (msg r) (msgT r) (keys r) (roomId r) (cam
    r) (roomMap r) v (enemies r) (bullets r) (pickups r) (fx r) (decals r)
    (player r) (draws r).
Definition set_enemies (v : list Enemy) (r : World) : World :=
  mkWorld (running r) (paused r) (msg r) (msgT r) (keys r) (roomId r) (cam
    r) (roomMap r) (rooms r) v (bullets r) (pickups r) (fx r) (decals r)
    (player r) (draws r).
Definition set_bullets (v : list Bullet) (r : World) : World :=
  mkWorld (running r) (paused r) (msg r) (msgT r) (keys r) (roomId r) (cam
    r) (roomMap r) (rooms r) (enemies r) v (pickups r) (fx r) (decals r)
    (player r) (draws r).
Definition set_pickups (v : list Pickup) (r : World) : World :=
  mkWorld (running r) (paused r) (msg r) (msgT r) (keys r) (roomId r) (cam
    r) (roomMap r) (rooms r) (enemies r) (bullets r) v (fx r) (decals r)
    (player r) (draws r).
Definition set_fx (v : list Fx) (r : World) : World :=
  mkWorld (running r) (paused r) (msg r) (msgT r) (keys r) (roomId r) (cam
    r) (roomMap r) (rooms r) (enemies r) (bullets r) (pickups r) v (decals
    r) (player r) (draws r).
Definition set_decals (v : list Decal) (r : World) : World :=
  mkWorld (running r) (paused r) (msg r) (msgT r) (keys r) (roomId r) (cam
    r) (roomMap r) (rooms r) (enemies r) (bullets r) (pickups r) (fx r) v
    (player r) (draws r).
Definition set_player (v : Player) (r : World) : World :=
  mkWorld (running r) (paused r) (msg r) (msgT r) (keys r) (roomId r) (cam
    r) (roomMap r) (rooms r) (enemies r) (bullets r) (pickups r) (fx r)
    (decals r) v (draws r).
Definition set_draws (v : nat) (r : World) : World :=
  mkWorld (running r) (paused r) (msg r) (msgT r) (keys r) (roomId r) (cam
    r) (roomMap r) (rooms r) (enemies r) (bullets r) (pickups r) (fx r)
    (decals r) (player r) v.


Definition TILE : Q := 24.
Definition ROOM_TW : Z := 21.
Definition ROOM_TH : Z := 13.
Definition ROOM_W : Q := inject_Z ROOM_TW * TILE.
Definition ROOM_H : Q := inject_Z ROOM_TH * TILE.
Definition VIEW_W : Q := 960.
Definition VIEW_H : Q := 540.

Definition tileIndex (tx ty : Z) : Z := (ty * ROOM_TW + tx)%Z.

(** [cloneArray(arr)]: a new array of shallow copies of entities that hold
    numbers and strings only. *)
Definition cloneArray {A} (arr : list A) : list A := map (fun o => o) arr.

Section WithEnv.

Context `{Env}.

Definition randf : M World Q :=
  fun w => (random (draws w), set_draws (S (draws w)) w).

Definition randi (n : Q) : M World Z :=
  r <- randf ;; ret (toInt32 (r * n)).

Definition chance (p : Q) : M World bool :=
  r <- randf ;; ret (Qltb r p).

Definition updNode (id : string) (f : Node -> Node) : M World unit :=
  modify (fun w => set_roomMap (alter f id (roomMap w)) w).

Definition updRoom (id : string) (f : Room -> Room) : M World unit :=
  modify (fun w => set_rooms (alter f id (rooms w)) w).

Definition updPlayer (f : Player -> Player) : M World unit :=
  modify (fun w => set_player (f (player w)) w).

Definition say (m : string) (t : Q) : M World unit :=
  modify (fun w => set_msgT t (set_msg m w)).

Definition pushPickup (p : Pickup) : M World unit :=
  modify (fun w => set_pickups (pickups w ++ [p]) w).

(** *** Room node / room data *)

Definition newNode (id : string) : Node :=
  let p := parseRoom id in
  mkNode id (fst p) (snd p) combat false false false.

Definition ensureNode (id : string) : M World Node :=
  fun w =>
    match roomMap w !! id with
    | Some n => (n, w)
    | None => (newNode id, set_roomMap (<[id := newNode id]> (roomMap w)) w)
    end.

Definition getRoomNode (id : string) : M World (option Node) :=
  gets (fun w => roomMap w !! id).

Definition newRoom (id : string) : Room :=
  mkRoom id [] (allDoors true) (allDoors false) None.

Definition ensureRoom (id : string) : M World Room :=
  fun w =>
    match rooms w !! id with
    | Some r => (r, w)
    | None => (newRoom id, set_rooms (<[id := newRoom id]> (rooms w)) w)
    end.

Definition getRoom (id : string) : M World (option Room) :=
  gets (fun w => rooms w !! id).

(** *** Tiles: 0 wall, 1 floor, 2 pit, 3 door marker, 4 small pillar *)

Definition isEdge (x y : Z) : bool :=
  (x =? 0)%Z || (y =? 0)%Z || (x =? ROOM_TW - 1)%Z || (y =? ROOM_TH - 1)%Z.

Definition borderAndFloor : list Z :=
  foldl (fun g y =>
           foldl (fun g x => arrSet (tileIndex x y) (if isEdge x y then 0 else 1)%Z g)
                 g (seqZ 0 ROOM_TW))
        (replicate (Z.to_nat (ROOM_TW * ROOM_TH)) 0%Z) (seqZ 0 ROOM_TH).

Definition pits (g : list Z) : M World (list Z) :=
  foldM (seq 0 30) g (fun g _ =>
    px <- randi (inject_Z (ROOM_TW - 4)) ;;
    py <- randi (inject_Z (ROOM_TH - 4)) ;;
    c <- chance 0.25 ;;
    ret (if c then arrSet (tileIndex (2 + px) (2 + py)) 2%Z g else g)).

Definition pillars (density : Q) (g : list Z) : M World (list Z) :=
  foldM (seqZ 2 (ROOM_TH - 4)) g (fun g y =>
    foldM (seqZ 2 (ROOM_TW - 4)) g (fun g x =>
      if negb (bool_decide (arrGet (tileIndex x y) g = Some 1%Z)) then ret g
      else
        c <- chance density ;;
        ret (if c then arrSet (tileIndex x y) 4%Z g else g))).

(** The loop bounds are [(ROOM_TH / 2 - 1) | 0] and, since [<=] binds
    tighter than [|], [y <= ROOM_TH / 2 + 1]: for the integer [y] that is
    [y <= (ROOM_TH / 2 + 1) | 0]. *)
Definition clearCentre (g : list Z) : list Z :=
  let cx := toInt32 (inject_Z ROOM_TW / 2 - 1) in
  let cy := toInt32 (inject_Z ROOM_TH / 2 - 1) in
  let ex := toInt32 (inject_Z ROOM_TW / 2 + 1) in
  let ey := toInt32 (inject_Z ROOM_TH / 2 + 1) in
  foldl (fun g y =>
           foldl (fun g x => arrSet (tileIndex x y) 1%Z g) g
                 (seqZ cx (ex - cx + 1)))
        g (seqZ cy (ey - cy + 1)).

Definition carveDoor (dir : Dir) (g : list Z) : list Z :=
  let mx := toInt32 (inject_Z ROOM_TW / 2) in
  let my := toInt32 (inject_Z ROOM_TH / 2) in
  match dir with
  | dN => arrSet (tileIndex mx 1) 3%Z (arrSet (tileIndex mx 0) 1%Z g)
  | dS => arrSet (tileIndex mx (ROOM_TH - 2)) 3%Z
            (arrSet (tileIndex mx (ROOM_TH - 1)) 1%Z g)
  | dW => arrSet (tileIndex 1 my) 3%Z (arrSet (tileIndex 0 my) 1%Z g)
  | dE => arrSet (tileIndex (ROOM_TW - 2) my) 3%Z
            (arrSet (tileIndex (ROOM_TW - 1) my) 1%Z g)
  end.

(** [genRoomTiles(kind, node)], both read from the node stored under
    [id] when the function runs. *)
Definition genRoomTiles (id : string) : M World unit :=
  node <- ensureNode id ;;
  _ <- ensureRoom (node_id node) ;;
  let isCombat := bool_decide (node_kind node = combat) in
  g <- (if isCombat then pits borderAndFloor else ret borderAndFloor) ;;
  g <- pillars (if isCombat then 0.06 else 0.03) g ;;
  let g := clearCentre g in
  nb <- gets (fun w => from_option neighbors (allDoors false)
                         (rooms w !! node_id node)) ;;
  let g := if atN nb then carveDoor dN g else g in
  let g := if atS nb then carveDoor dS g else g in
  let g := if atW nb then carveDoor dW g else g in
  let g := if atE nb then carveDoor dE g else g in
  updRoom (node_id node) (set_room_g g).

(** *** Neighbours *)

(** The inner function [maybeMake] of [buildNeighborsAround(id)]; the
    draw of [chance(p)] is made before [id === "0,0"] is looked at. *)
Definition maybeMake (id : string) (nx ny : Z) (dirA dirB : Dir) (p : Q)
  : M World unit :=
  if (8 <? Z.abs nx + Z.abs ny)%Z then ret tt
  else
    nb <- gets (fun w => from_option neighbors (allDoors false) (rooms w !! id)) ;;
    if getDoor nb dirA then ret tt
    else
      c <- chance p ;;
      if c || String.eqb id "0,0" then
        updRoom id (fun r => set_neighbors (setDoor (neighbors r) dirA true) r) ;;;
        let nid := roomKey nx ny in
        _ <- ensureNode nid ;;
        _ <- ensureRoom nid ;;
        updRoom nid (fun r => set_neighbors (setDoor (neighbors r) dirB true) r)
      else ret tt.

Definition buildNeighborsAround (id : string) : M World unit :=
  node <- ensureNode id ;;
  _ <- ensureRoom id ;;
  let x := node_x node in
  let y := node_y node in
  let baseP : Q := if String.eqb id "0,0" then 0.9 else 0.55 in
  maybeMake id x (y - 1) dN dS baseP ;;;
  maybeMake id x (y + 1) dS dN baseP ;;;
  maybeMake id (x - 1) y dW dE baseP ;;;
  maybeMake id (x + 1) y dE dW baseP ;;;
  genRoomTiles id.

(** *** Content spawning *)

Definition lockDoors (id : string) (locked : bool) : M World unit :=
  updRoom id (set_doorsOpen (allDoors (negb locked))).

Definition spawnEnemy (type : EType) (x y : Q) : M World unit :=
  modify (fun w =>
    set_enemies
      (enemies w ++
         [mkEnemy type x y (match type with bossE => 18 | _ => 10 end)
            (match type with bossE => 30 | shooter => 6 | chaser => 5 end)
            0 0 0 0]) w).

Definition clearLive : M World unit :=
  modify (fun w =>
    set_decals [] (set_fx [] (set_pickups [] (set_bullets [] (set_enemies [] w))))).

(** The kind [spawnRoomContents] decides on for a room away from the
    start: a combat room may turn into a treasure or boss room. *)
Definition rollKind (node : Node) : M World Kind :=
  let d := (Z.abs (node_x node) + Z.abs (node_y node))%Z in
  if bool_decide (node_kind node = combat) then
    t <- (if (4 <=? d)%Z then chance 0.10 else ret false) ;;
    if t then ret treasure
    else
      b <- (if (6 <=? d)%Z then chance 0.06 else ret false) ;;
      if b then ret boss else ret combat
  else ret (node_kind node).

Definition spawnRoomContents (id : string) : M World unit :=
  node0 <- ensureNode id ;;
  _ <- ensureRoom id ;;
  kind <- (if String.eqb id "0,0" then ret start else rollKind node0) ;;
  updNode id (set_node_kind kind) ;;;
  (if bool_decide (kind = treasure) && negb (node_cleared node0) then
     l <- chance 0.45 ;; updNode id (set_node_locked l)
   else ret tt) ;;;
  clearLive ;;;
  match kind with
  | start =>
      pushPickup (mkPickup (ROOM_W / 2 + 40) (ROOM_H / 2) heart 1 7) ;;;
      updNode id (set_node_cleared true)
  | treasure =>
      pushPickup (mkPickup (ROOM_W / 2) (ROOM_H / 2) key 1 7) ;;;
      pushPickup (mkPickup (ROOM_W / 2 + 28) (ROOM_H / 2) heart 2 7) ;;;
      updNode id (set_node_cleared true)
  | boss =>
      if negb (node_cleared node0) then
        spawnEnemy bossE (ROOM_W / 2) (ROOM_H / 2 - 50) ;;;
        lockDoors id true
      else ret tt
  | combat =>
      if negb (node_cleared node0) then
        k <- randi 4 ;;
        forM_ (seq 0 (Z.to_nat (4 + k))) (fun _ =>
          u <- randf ;;
          let px := 60 + u * (ROOM_W - 120) in
          v <- randf ;;
          let py := 60 + v * (ROOM_H - 120) in
          c <- chance 0.25 ;;
          spawnEnemy (if c then shooter else chaser) px py) ;;;
        lockDoors id true
      else ret tt
  end.

(** *** Room caching *)

Definition stashRoom (id : string) : M World unit :=
  r <- getRoom id ;;
  match r with
  | None => ret tt
  | Some _ =>
      w <- gets (fun w => w) ;;
      updRoom id (set_cache
        (Some (mkCache (cloneArray (enemies w)) (cloneArray (pickups w))
                 (cloneArray (decals w)))))
  end.

Definition loadRoom (id : string) : M World unit :=
  _ <- ensureRoom id ;;
  _ <- ensureNode id ;;
  buildNeighborsAround id ;;;
  genRoomTiles id ;;;
  clearLive ;;;
  c <- gets (fun w => rooms w !! id ≫= cache) ;;
  match c with
  | Some c =>
      modify (fun w =>
        set_decals (cloneArray (c_decals c))
          (set_pickups (cloneArray (c_pickups c))
             (set_enemies (cloneArray (c_enemies c)) w)))
  | None => spawnRoomContents id
  end ;;;
  node <- ensureNode id ;;
  (if negb (node_cleared node)
      && (bool_decide (node_kind node = combat) || bool_decide (node_kind node = boss))
   then lockDoors id true else lockDoors id false) ;;;
  updNode id (set_node_seen true).

(** *** Door transition *)

Definition bounceInside (dir : Dir) : M World unit :=
  updPlayer (fun p =>
    match dir with
    | dN => set_pl_y 2 p
    | dS => set_pl_y (ROOM_H - 2) p
    | dW => set_pl_x 2 p
    | dE => set_pl_x (ROOM_W - 2) p
    end).

(** What [go] does once the door and the lock have let the player pass. *)
Definition enter (nid : string) (dirFrom : Dir) : M World unit :=
  here <- gets roomId ;;
  stashRoom here ;;;
  modify (set_roomId nid) ;;;
  loadRoom nid ;;;
  updPlayer (fun p =>
    match dirFrom with
    | dN => set_pl_x (clamp (pl_x p) 14 (ROOM_W - 14)) (set_pl_y (ROOM_H - 14) p)
    | dS => set_pl_x (clamp (pl_x p) 14 (ROOM_W - 14)) (set_pl_y 14 p)
    | dW => set_pl_y (clamp (pl_y p) 14 (ROOM_H - 14)) (set_pl_x (ROOM_W - 14) p)
    | dE => set_pl_y (clamp (pl_y p) 14 (ROOM_H - 14)) (set_pl_x 14 p)
    end) ;;;
  modify (fun w =>
    let p := player w in
    set_cam (mkCam (clamp (pl_x p - VIEW_W / 2) 0 (ROOM_W - VIEW_W))
               (clamp (pl_y p - VIEW_H / 2) 0 (ROOM_H - VIEW_H)) 0 0) w).

(** The inner function [go(dx, dy, dirFrom)]; [node] is the node of the
    current room. *)
Definition go (node : Node) (dx dy : Z) (dirFrom : Dir) : M World unit :=
  let nid := roomKey (node_x node + dx) (node_y node + dy) in
  nextNode <- ensureNode nid ;;
  _ <- ensureRoom nid ;;
  here <- gets roomId ;;
  room <- gets (fun w => rooms w !! here) ;;
  let canGo :=
    match room with
    | Some r => getDoor (neighbors r) dirFrom && getDoor (doorsOpen r) dirFrom
    | None => false
    end in
  if negb canGo then bounceInside dirFrom
  else if bool_decide (node_kind nextNode = treasure) && node_locked nextNode
          && negb (node_cleared nextNode) then
    k <- gets keys ;;
    if Qle_bool k 0 then
      say "TREASURE LOCKED — NEED KEY" 1.2 ;;;
      bounceInside dirFrom
    else
      modify (fun w => set_keys (keys w - 1) w) ;;;
      updNode nid (set_node_locked false) ;;;
      say "LOCK UNSEALED" 1.0 ;;;
      enter nid dirFrom
  else enter nid dirFrom.

Definition tryDoorTransition : M World unit :=
  here <- gets roomId ;;
  on <- getRoomNode here ;;
  match on with
  | None => ret tt
  | Some node =>
      _ <- ensureRoom here ;;
      p <- gets player ;;
      let doorSpan : Q := 22 in
      let inTopDoor := Qltb (Qabs (pl_x p - ROOM_W * 0.5)) doorSpan in
      let inLeftDoor := Qltb (Qabs (pl_y p - ROOM_H * 0.5)) doorSpan in
      if Qltb (pl_y p) 0 && inTopDoor then go node 0 (-1) dN
      else if Qltb ROOM_H (pl_y p) && inTopDoor then go node 0 1 dS
      else if Qltb (pl_x p) 0 && inLeftDoor then go node (-1) 0 dW
      else if Qltb ROOM_W (pl_x p) && inLeftDoor then go node 1 0 dE
      else ret tt
  end.

(** *** The room-clear check that ends [update] *)

Definition clearCheck : M World unit :=
  here <- gets roomId ;;
  node <- ensureNode here ;;
  if negb (node_cleared node)
     && (bool_decide (node_kind node = combat) || bool_decide (node_kind node = boss))
  then
    n <- gets (fun w => length (enemies w)) ;;
    if (n =? 0)%nat then
      updNode here (set_node_cleared true) ;;;
      lockDoors here false ;;;
      say "ROOM CLEARED" 0.9 ;;;
      c <- chance 0.25 ;;
      when c (pushPickup (mkPickup (ROOM_W / 2) (ROOM_H / 2) key 1 7))
    else ret tt
  else ret tt.

(** *** Restart *)

Definition resetGame : M World unit :=
  modify (fun w =>
    mkWorld (running w) false "" 0 0 "0,0" (cam w) ∅ ∅ [] [] [] [] []
      (mkPlayer (ROOM_W / 2) (ROOM_H / 2) (pl_r (player w)) 6 6 0 0 0 0 0
         (pl_speed (player w)) 0 0)
      (draws w)) ;;;
  _ <- ensureNode "0,0" ;;
  _ <- ensureRoom "0,0" ;;
  loadRoom "0,0" ;;;
  modify (fun w =>
    let p := player w in
    set_cam (mkCam (clamp (pl_x p - VIEW_W / 2) 0 (ROOM_W - VIEW_W))
               (clamp (pl_y p - VIEW_H / 2) 0 (ROOM_H - VIEW_H))
               (cam_shake (cam w)) (cam_shakeT (cam w))) w).

End WithEnv.
End NJs.

(** ** [src/unnamed/part_001], first program (FREEDOM): floors with keys,
    treasure rooms, piercing and bouncing bullets

    Modelled here: the entity constructors, tile lookup and room
    building, room population, [damagePlayer], [damageEnemy], explosions
    and chain lightning, the bullet loop of [update], and
    [tryDoorTransition].  The DOM side of [openGameOver] (the modal) is
    left out; its effect on the state, [state.mode], is kept. *)

Module Freedom.

Local Open Scope Q_scope.

(** [node.kind]. *)
Inductive Kind := normal | start | boss | shop | treasure | key | elite.

(** [b.owner]: ["p" | "e"]. *)
Inductive Owner := ownerP | ownerE.

(** [offer.type]. *)
Inductive OfferT := offHeal | offShield | offWeapon | offItem.

(** [pickup.type]. *)
Inductive PickupT :=
  pkCoin | pkHp | pkShield | pkAmmo | pkItem | pkPortal | pkWeapon | pkKey
| pkChest | pkShop.

(** [pickup.meta]: [null], [{item}], [{weapon}], [{opened}] or [{idx}]. *)
Inductive Meta :=
  noMeta | metaItem (id : string) | metaWeapon (id : string)
| metaOpened (b : bool) | metaIdx (i : Z).

(** [fx.kind]. *)
Inductive FxKind := hitstopFx | spark | explosion | delayedShot.

(** [enemy.kind]. *)
Inductive EKind := runner | shooter | drone | turret | brute | spitter | boss_proxy.

(** [state.mode]. *)
Inductive Mode := menu | play | pause | gameover.

#[global] Instance Kind_eq_dec : EqDecision Kind.
Proof. solve_decision. Defined.
#[global] Instance Owner_eq_dec : EqDecision Owner.
Proof. solve_decision. Defined.
#[global] Instance FxKind_eq_dec : EqDecision FxKind.
Proof. solve_decision. Defined.
#[global] Instance EKind_eq_dec : EqDecision EKind.
Proof. solve_decision. Defined.
#[global] Instance Mode_eq_dec : EqDecision Mode.
Proof. solve_decision. Defined.

(** A node of [state.map.nodes]. *)
Record Node := mkNode {
  n_x : Z;
  n_y : Z;
  n_kind : Kind;
  n_cleared : bool;
  n_seen : bool;
  n_locked : bool
}.

Definition set_n_x (v : Z) (r : Node) : Node :=
  mkNode v (n_y r) (n_kind r) (n_cleared r) (n_seen r) (n_locked r).
Definition set_n_y (v : Z) (r : Node) : Node :=
  mkNode (n_x r) v (n_kind r) (n_cleared r) (n_seen r) (n_locked r).
Definition set_n_kind (v : Kind) (r : Node) : Node :=
  mkNode (n_x r) (n_y r) v (n_cleared r) (n_seen r) (n_locked r).
Definition set_n_cleared (v : bool) (r : Node) : Node :=
  mkNode (n_x r) (n_y r) (n_kind r) v (n_seen r) (n_locked r).
Definition set_n_seen (v : bool) (r : Node) : Node :=
  mkNode (n_x r) (n_y r) (n_kind r) (n_cleared r) v (n_locked r).
Definition set_n_locked (v : bool) (r : Node) : Node :=
  mkNode (n_x r) (n_y r) (n_kind r) (n_cleared r) (n_seen r) v.

(** A shop offer; [o_ref] is the weapon or item id, empty for heal and shield. *)
Record Offer := mkOffer {
  o_type : OfferT;
  o_ref : string;
  o_price : Q;
  o_label : string
}.

(** A built room of [state.rooms]. *)
Record Room := mkRoom {
  r_kind : Kind;
  r_g : list Z;
  r_cleared : bool;
  r_locked : bool;
  r_seen : bool;
  r_neighbors : Doors;
  r_doorsOpen : Doors;
  r_doorsLocked : Doors;
  r_spawnDone : bool;
  r_shopItems : list Offer;
  r_decoSeed : Z
}.

Definition set_r_cleared (v : bool) (r : Room) : Room :=
  mkRoom (r_kind r) (r_g r) v (r_locked r) (r_seen r) (r_neighbors r)
    (r_doorsOpen r) (r_doorsLocked r) (r_spawnDone r) (r_shopItems r)
    (r_decoSeed r).
Definition set_r_doorsOpen (v : Doors) (r : Room) : Room :=
  mkRoom (r_kind r) (r_g r) (r_cleared r) (r_locked r) (r_seen r)
    (r_neighbors r) v (r_doorsLocked r) (r_spawnDone r) (r_shopItems r)
    (r_decoSeed r).
Definition set_r_doorsLocked (v : Doors) (r : Room) : Room :=
  mkRoom (r_kind r) (r_g r) (r_cleared r) (r_locked r) (r_seen r)
    (r_neighbors r) (r_doorsOpen r) v (r_spawnDone r) (r_shopItems r)
    (r_decoSeed r).
Definition set_r_spawnDone (v : bool) (r : Room) : Room :=
  mkRoom (r_kind r) (r_g r) (r_cleared r) (r_locked r) (r_seen r)
    (r_neighbors r) (r_doorsOpen r) (r_doorsLocked r) v (r_shopItems r)
    (r_decoSeed r).
Definition set_r_shopItems (v : list Offer) (r : Room) : Room :=
  mkRoom (r_kind r) (r_g r) (r_cleared r) (r_locked r) (r_seen r)
    (r_neighbors r) (r_doorsOpen r) (r_doorsLocked r) (r_spawnDone r) v
    (r_decoSeed r).

(** A bullet, as [makeBullet] lays it out. *)
Record Bullet := mkBullet {
  b_owner : Owner;
  b_x : Q;
  b_y : Q;
  b_vx : Q;
  b_vy : Q;
  b_r : Q;
  b_dmg : Q;
  b_life : Q;
  b_t : Q;
  b_pierce : Z;
  b_bounce : Z;
  b_homing : Q;
  b_color : string;
  b_chain : Z;
  b_explode : Q;
  b_slow : Q;
  b_shock : Q;
  b_fromWeapon : string
}.

Definition set_b_x (v : Q) (r : Bullet) : Bullet :=
  mkBullet (b_owner r) v (b_y r) (b_vx r) (b_vy r) (b_r r) (b_dmg r) (b_life
    r) (b_t r) (b_pierce r) (b_bounce r) (b_homing r) (b_color r) (b_chain
    r) (b_explode r) (b_slow r) (b_shock r) (b_fromWeapon r).
Definition set_b_y (v : Q) (r : Bullet) : Bullet :=
  mkBullet (b_owner r) (b_x r) v (b_vx r) (b_vy r) (b_r r) (b_dmg r) (b_life
    r) (b_t r) (b_pierce r) (b_bounce r) (b_homing r) (b_color r) (b_chain
    r) (b_explode r) (b_slow r) (b_shock r) (b_fromWeapon r).
Definition set_b_vx (v : Q) (r : Bullet) : Bullet :=
  mkBullet (b_owner r) (b_x r) (b_y r) v (b_vy r) (b_r r) (b_dmg r) (b_life
    r) (b_t r) (b_pierce r) (b_bounce r) (b_homing r) (b_color r) (b_chain
    r) (b_explode r) (b_slow r) (b_shock r) (b_fromWeapon r).
Definition set_b_vy (v : Q) (r : Bullet) : Bullet :=
  mkBullet (b_owner r) (b_x r) (b_y r) (b_vx r) v (b_r r) (b_dmg r) (b_life
    r) (b_t r) (b_pierce r) (b_bounce r) (b_homing r) (b_color r) (b_chain
    r) (b_explode r) (b_slow r) (b_shock r) (b_fromWeapon r).
Definition set_b_dmg (v : Q) (r : Bullet) : Bullet :=
  mkBullet (b_owner r) (b_x r) (b_y r) (b_vx r) (b_vy r) (b_r r) v (b_life
    r) (b_t r) (b_pierce r) (b_bounce r) (b_homing r) (b_color r) (b_chain
    r) (b_explode r) (b_slow r) (b_shock r) (b_fromWeapon r).
Definition set_b_life (v : Q) (r : Bullet) : Bullet :=
  mkBullet (b_owner r) (b_x r) (b_y r) (b_vx r) (b_vy r) (b_r r) (b_dmg r) v
    (b_t r) (b_pierce r) (b_bounce r) (b_homing r) (b_color r) (b_chain r)
    (b_explode r) (b_slow r) (b_shock r) (b_fromWeapon r).
Definition set_b_t (v : Q) (r : Bullet) : Bullet :=
  mkBullet (b_owner r) (b_x r) (b_y r) (b_vx r) (b_vy r) (b_r r) (b_dmg r)
    (b_life r) v (b_pierce r) (b_bounce r) (b_homing r) (b_color r) (b_chain
    r) (b_explode r) (b_slow r) (b_shock r) (b_fromWeapon r).
Definition set_b_pierce (v : Z) (r : Bullet) : Bullet :=
  mkBullet (b_owner r) (b_x r) (b_y r) (b_vx r) (b_vy r) (b_r r) (b_dmg r)
    (b_life r) (b_t r) v (b_bounce r) (b_homing r) (b_color r) (b_chain r)
    (b_explode r) (b_slow r) (b_shock r) (b_fromWeapon r).
Definition set_b_bounce (v : Z) (r : Bullet) : Bullet :=
  mkBullet (b_owner r) (b_x r) (b_y r) (b_vx r) (b_vy r) (b_r r) (b_dmg r)
    (b_life r) (b_t r) (b_pierce r) v (b_homing r) (b_color r) (b_chain r)
    (b_explode r) (b_slow r) (b_shock r) (b_fromWeapon r).

(** The [opts] argument of [makeBullet]; a property that is absent is [0] or the empty string, which [||] treats alike. *)
Record Opts := mkOpts {
  o_pierce : Z;
  o_bounce : Z;
  o_homing : Q;
  o_color : string;
  o_chain : Z;
  o_explode : Q;
  o_slow : Q;
  o_shock : Q;
  o_fromWeapon : string
}.

Record Pickup := mkPickup {
  p_type : PickupT;
  p_x : Q;
  p_y : Q;
  p_r : Q;
  p_t : Q;
  p_amt : Q;
  p_meta : Meta
}.

Record Fx := mkFx {
  fx_kind : FxKind;
  fx_x : Q;
  fx_y : Q;
  fx_a : Q;
  fx_b : Q;
  fx_c : Q;
  fx_t : Q
}.

Record Decal := mkDecal {
  d_x : Q;
  d_y : Q;
  d_t : Q;
  d_c : string
}.

(** An enemy.  The properties that only some archetypes carry are options; [e_ai] is empty where the source leaves [ai] undefined. *)
Record Enemy := mkEnemy {
  e_kind : EKind;
  e_x : Q;
  e_y : Q;
  e_vx : Q;
  e_vy : Q;
  e_r : Q;
  e_hp : Q;
  e_hpMax : Q;
  e_spd : Q;
  e_t : Q;
  e_alive : bool;
  e_fireCD : Q;
  e_hitT : Q;
  e_tier : Q;
  e_frozenT : Q;
  e_shockedT : Q;
  e_elite : bool;
  e_knockX : Q;
  e_knockY : Q;
  e_knockT : Q;
  e_touch : option Q;
  e_shot : option Q;
  e_rate : option Q;
  e_score : option Q;
  e_ai : string;
  e_armor : option Q;
  e_phase : option Z
}.

Definition set_e_r (v : Q) (r : Enemy) : Enemy :=
  mkEnemy (e_kind r) (e_x r) (e_y r) (e_vx r) (e_vy r) v (e_hp r) (e_hpMax
    r) (e_spd r) (e_t r) (e_alive r) (e_fireCD r) (e_hitT r) (e_tier r)
    (e_frozenT r) (e_shockedT r) (e_elite r) (e_knockX r) (e_knockY r)
    (e_knockT r) (e_touch r) (e_shot r) (e_rate r) (e_score r) (e_ai r)
    (e_armor r) (e_phase r).
Definition set_e_hp (v : Q) (r : Enemy) : Enemy :=
  mkEnemy (e_kind r) (e_x r) (e_y r) (e_vx r) (e_vy r) (e_r r) v (e_hpMax r)
    (e_spd r) (e_t r) (e_alive r) (e_fireCD r) (e_hitT r) (e_tier r)
    (e_frozenT r) (e_shockedT r) (e_elite r) (e_knockX r) (e_knockY r)
    (e_knockT r) (e_touch r) (e_shot r) (e_rate r) (e_score r) (e_ai r)
    (e_armor r) (e_phase r).
Definition set_e_hpMax (v : Q) (r : Enemy) : Enemy :=
  mkEnemy (e_kind r) (e_x r) (e_y r) (e_vx r) (e_vy r) (e_r r) (e_hp r) v
    (e_spd r) (e_t r) (e_alive r) (e_fireCD r) (e_hitT r) (e_tier r)
    (e_frozenT r) (e_shockedT r) (e_elite r) (e_knockX r) (e_knockY r)
    (e_knockT r) (e_touch r) (e_shot r) (e_rate r) (e_score r) (e_ai r)
    (e_armor r) (e_phase r).
Definition set_e_spd (v : Q) (r : Enemy) : Enemy :=
  mkEnemy (e_kind r) (e_x r) (e_y r) (e_vx r) (e_vy r) (e_r r) (e_hp r)
    (e_hpMax r) v (e_t r) (e_alive r) (e_fireCD r) (e_hitT r) (e_tier r)
    (e_frozenT r) (e_shockedT r) (e_elite r) (e_knockX r) (e_knockY r)
    (e_knockT r) (e_touch r) (e_shot r) (e_rate r) (e_score r) (e_ai r)
    (e_armor r) (e_phase r).
Definition set_e_alive (v : bool) (r : Enemy) : Enemy :=
  mkEnemy (e_kind r) (e_x r) (e_y r) (e_vx r) (e_vy r) (e_r r) (e_hp r)
    (e_hpMax r) (e_spd r) (e_t r) v (e_fireCD r) (e_hitT r) (e_tier r)
    (e_frozenT r) (e_shockedT r) (e_elite r) (e_knockX r) (e_knockY r)
    (e_knockT r) (e_touch r) (e_shot r) (e_rate r) (e_score r) (e_ai r)
    (e_armor r) (e_phase r).
Definition set_e_hitT (v : Q) (r : Enemy) : Enemy :=
  mkEnemy (e_kind r) (e_x r) (e_y r) (e_vx r) (e_vy r) (e_r r) (e_hp r)
    (e_hpMax r) (e_spd r) (e_t r) (e_alive r) (e_fireCD r) v (e_tier r)
    (e_frozenT r) (e_shockedT r) (e_elite r) (e_knockX r) (e_knockY r)
    (e_knockT r) (e_touch r) (e_shot r) (e_rate r) (e_score r) (e_ai r)
    (e_armor r) (e_phase r).
Definition set_e_frozenT (v : Q) (r : Enemy) : Enemy :=
  mkEnemy (e_kind r) (e_x r) (e_y r) (e_vx r) (e_vy r) (e_r r) (e_hp r)
    (e_hpMax r) (e_spd r) (e_t r) (e_alive r) (e_fireCD r) (e_hitT r)
    (e_tier r) v (e_shockedT r) (e_elite r) (e_knockX r) (e_knockY r)
    (e_knockT r) (e_touch r) (e_shot r) (e_rate r) (e_score r) (e_ai r)
    (e_armor r) (e_phase r).
Definition set_e_shockedT (v : Q) (r : Enemy) : Enemy :=
  mkEnemy (e_kind r) (e_x r) (e_y r) (e_vx r) (e_vy r) (e_r r) (e_hp r)
    (e_hpMax r) (e_spd r) (e_t r) (e_alive r) (e_fireCD r) (e_hitT r)
    (e_tier r) (e_frozenT r) v (e_elite r) (e_knockX r) (e_knockY r)
    (e_knockT r) (e_touch r) (e_shot r) (e_rate r) (e_score r) (e_ai r)
    (e_armor r) (e_phase r).
Definition set_e_elite (v : bool) (r : Enemy) : Enemy :=
  mkEnemy (e_kind r) (e_x r) (e_y r) (e_vx r) (e_vy r) (e_r r) (e_hp r)
    (e_hpMax r) (e_spd r) (e_t r) (e_alive r) (e_fireCD r) (e_hitT r)
    (e_tier r) (e_frozenT r) (e_shockedT r) v (e_knockX r) (e_knockY r)
    (e_knockT r) (e_touch r) (e_shot r) (e_rate r) (e_score r) (e_ai r)
    (e_armor r) (e_phase r).
Definition set_e_knockX (v : Q) (r : Enemy) : Enemy :=
  mkEnemy (e_kind r) (e_x r) (e_y r) (e_vx r) (e_vy r) (e_r r) (e_hp r)
    (e_hpMax r) (e_spd r) (e_t r) (e_alive r) (e_fireCD r) (e_hitT r)
    (e_tier r) (e_frozenT r) (e_shockedT r) (e_elite r) v (e_knockY r)
    (e_knockT r) (e_touch r) (e_shot r) (e_rate r) (e_score r) (e_ai r)
    (e_armor r) (e_phase r).
Definition set_e_knockY (v : Q) (r : Enemy) : Enemy :=
  mkEnemy (e_kind r) (e_x r) (e_y r) (e_vx r) (e_vy r) (e_r r) (e_hp r)
    (e_hpMax r) (e_spd r) (e_t r) (e_alive r) (e_fireCD r) (e_hitT r)
    (e_tier r) (e_frozenT r) (e_shockedT r) (e_elite r) (e_knockX r) v
    (e_knockT r) (e_touch r) (e_shot r) (e_rate r) (e_score r) (e_ai r)
    (e_armor r) (e_phase r).
Definition set_e_knockT (v : Q) (r : Enemy) : Enemy :=
  mkEnemy (e_kind r) (e_x r) (e_y r) (e_vx r) (e_vy r) (e_r r) (e_hp r)
    (e_hpMax r) (e_spd r) (e_t r) (e_alive r) (e_fireCD r) (e_hitT r)
    (e_tier r) (e_frozenT r) (e_shockedT r) (e_elite r) (e_knockX r)
    (e_knockY r) v (e_touch r) (e_shot r) (e_rate r) (e_score r) (e_ai r)
    (e_armor r) (e_phase r).
Definition set_e_touch (v : option Q) (r : Enemy) : Enemy :=
  mkEnemy (e_kind r) (e_x r) (e_y r) (e_vx r) (e_vy r) (e_r r) (e_hp r)
    (e_hpMax r) (e_spd r) (e_t r) (e_alive r) (e_fireCD r) (e_hitT r)
    (e_tier r) (e_frozenT r) (e_shockedT r) (e_elite r) (e_knockX r)
    (e_knockY r) (e_knockT r) v (e_shot r) (e_rate r) (e_score r) (e_ai r)
    (e_armor r) (e_phase r).
Definition set_e_shot (v : option Q) (r : Enemy) : Enemy :=
  mkEnemy (e_kind r) (e_x r) (e_y r) (e_vx r) (e_vy r) (e_r r) (e_hp r)
    (e_hpMax r) (e_spd r) (e_t r) (e_alive r) (e_fireCD r) (e_hitT r)
    (e_tier r) (e_frozenT r) (e_shockedT r) (e_elite r) (e_knockX r)
    (e_knockY r) (e_knockT r) (e_touch r) v (e_rate r) (e_score r) (e_ai r)
    (e_armor r) (e_phase r).
Definition set_e_score (v : option Q) (r : Enemy) : Enemy :=
  mkEnemy (e_kind r) (e_x r) (e_y r) (e_vx r) (e_vy r) (e_r r) (e_hp r)
    (e_hpMax r) (e_spd r) (e_t r) (e_alive r) (e_fireCD r) (e_hitT r)
    (e_tier r) (e_frozenT r) (e_shockedT r) (e_elite r) (e_knockX r)
    (e_knockY r) (e_knockT r) (e_touch r) (e_shot r) (e_rate r) v (e_ai r)
    (e_armor r) (e_phase r).

Record Cam := mkCam {
  cam_x : Q;
  cam_y : Q;
  cam_shake : Q;
  cam_shakeT : Q
}.

Definition set_cam_shake (v : Q) (r : Cam) : Cam :=
  mkCam (cam_x r) (cam_y r) v (cam_shakeT r).
Definition set_cam_shakeT (v : Q) (r : Cam) : Cam :=
  mkCam (cam_x r) (cam_y r) (cam_shake r) v.

(** The player object of [makePlayer] ([weaponObj] is looked up from [pl_weapon]; [discovered] is never used). *)
Record Player := mkPlayer {
  pl_x : Q;
  pl_y : Q;
  pl_vx : Q;
  pl_vy : Q;
  pl_r : Q;
  pl_hp : Q;
  pl_hpMax : Q;
  pl_shield : Q;
  pl_shieldMax : Q;
  pl_shieldDelay : Q;
  pl_invT : Q;
  pl_dashCD : Q;
  pl_dashT : Q;
  pl_rollIframes : Q;
  pl_speed : Q;
  pl_friction : Q;
  pl_weapon : string;
  pl_fireCD : Q;
  pl_reloadT : Q;
  pl_ammo : Q;
  pl_clip : Q;
  pl_clipMax : Q;
  pl_crit : Q;
  pl_luck : Q;
  pl_dmgMul : Q;
  pl_shotSpeedMul : Q;
  pl_rangeMul : Q;
  pl_moveMul : Q;
  pl_pickupRadius : Q;
  pl_knockResist : Q;
  pl_lifeSteal : Q;
  pl_thorns : Q;
  pl_onHitFreeze : Q;
  pl_onHitShock : Q;
  pl_homing : Q;
  pl_pierce : Z;
  pl_bounce : Z;
  pl_multishot : Q;
  pl_bulletsPerShotAdd : Q;
  pl_spreadMul : Q;
  pl_recoil : Q;
  pl_aimX : Q;
  pl_aimY : Q;
  pl_items : list string
}.

Definition set_pl_x (v : Q) (r : Player) : Player :=
  mkPlayer v (pl_y r) (pl_vx r) (pl_vy r) (pl_r r) (pl_hp r) (pl_hpMax r)
    (pl_shield r) (pl_shieldMax r) (pl_shieldDelay r) (pl_invT r) (pl_dashCD
    r) (pl_dashT r) (pl_rollIframes r) (pl_speed r) (pl_friction r)
    (pl_weapon r) (pl_fireCD r) (pl_reloadT r) (pl_ammo r) (pl_clip r)
    (pl_clipMax r) (pl_crit r) (pl_luck r) (pl_dmgMul r) (pl_shotSpeedMul r)
    (pl_rangeMul r) (pl_moveMul r) (pl_pickupRadius r) (pl_knockResist r)
    (pl_lifeSteal r) (pl_thorns r) (pl_onHitFreeze r) (pl_onHitShock r)
    (pl_homing r) (pl_pierce r) (pl_bounce r) (pl_multishot r)
    (pl_bulletsPerShotAdd r) (pl_spreadMul r) (pl_recoil r) (pl_aimX r)
    (pl_aimY r) (pl_items r).
Definition set_pl_y (v : Q) (r : Player) : Player :=
  mkPlayer (pl_x r) v (pl_vx r) (pl_vy r) (pl_r r) (pl_hp r) (pl_hpMax r)
    (pl_shield r) (pl_shieldMax r) (pl_shieldDelay r) (pl_invT r) (pl_dashCD
    r) (pl_dashT r) (pl_rollIframes r) (pl_speed r) (pl_friction r)
    (pl_weapon r) (pl_fireCD r) (pl_reloadT r) (pl_ammo r) (pl_clip r)
    (pl_clipMax r) (pl_crit r) (pl_luck r) (pl_dmgMul r) (pl_shotSpeedMul r)
    (pl_rangeMul r) (pl_moveMul r) (pl_pickupRadius r) (pl_knockResist r)
    (pl_lifeSteal r) (pl_thorns r) (pl_onHitFreeze r) (pl_onHitShock r)
    (pl_homing r) (pl_pierce r) (pl_bounce r) (pl_multishot r)
    (pl_bulletsPerShotAdd r) (pl_spreadMul r) (pl_recoil r) (pl_aimX r)
    (pl_aimY r) (pl_items r).
Definition set_pl_vx (v : Q) (r : Player) : Player :=
  mkPlayer (pl_x r) (pl_y r) v (pl_vy r) (pl_r r) (pl_hp r) (pl_hpMax r)
    (pl_shield r) (pl_shieldMax r) (pl_shieldDelay r) (pl_invT r) (pl_dashCD
    r) (pl_dashT r) (pl_rollIframes r) (pl_speed r) (pl_friction r)
    (pl_weapon r) (pl_fireCD r) (pl_reloadT r) (pl_ammo r) (pl_clip r)
    (pl_clipMax r) (pl_crit r) (pl_luck r) (pl_dmgMul r) (pl_shotSpeedMul r)
    (pl_rangeMul r) (pl_moveMul r) (pl_pickupRadius r) (pl_knockResist r)
    (pl_lifeSteal r) (pl_thorns r) (pl_onHitFreeze r) (pl_onHitShock r)
    (pl_homing r) (pl_pierce r) (pl_bounce r) (pl_multishot r)
    (pl_bulletsPerShotAdd r) (pl_spreadMul r) (pl_recoil r) (pl_aimX r)
    (pl_aimY r) (pl_items r).
Definition set_pl_vy (v : Q) (r : Player) : Player :=
  mkPlayer (pl_x r) (pl_y r) (pl_vx r) v (pl_r r) (pl_hp r) (pl_hpMax r)
    (pl_shield r) (pl_shieldMax r) (pl_shieldDelay r) (pl_invT r) (pl_dashCD
    r) (pl_dashT r) (pl_rollIframes r) (pl_speed r) (pl_friction r)
    (pl_weapon r) (pl_fireCD r) (pl_reloadT r) (pl_ammo r) (pl_clip r)
    (pl_clipMax r) (pl_crit r) (pl_luck r) (pl_dmgMul r) (pl_shotSpeedMul r)
    (pl_rangeMul r) (pl_moveMul r) (pl_pickupRadius r) (pl_knockResist r)
    (pl_lifeSteal r) (pl_thorns r) (pl_onHitFreeze r) (pl_onHitShock r)
    (pl_homing r) (pl_pierce r) (pl_bounce r) (pl_multishot r)
    (pl_bulletsPerShotAdd r) (pl_spreadMul r) (pl_recoil r) (pl_aimX r)
    (pl_aimY r) (pl_items r).
Definition set_pl_hp (v : Q) (r : Player) : Player :=
  mkPlayer (pl_x r) (pl_y r) (pl_vx r) (pl_vy r) (pl_r r) v (pl_hpMax r)
    (pl_shield r) (pl_shieldMax r) (pl_shieldDelay r) (pl_invT r) (pl_dashCD
    r) (pl_dashT r) (pl_rollIframes r) (pl_speed r) (pl_friction r)
    (pl_weapon r) (pl_fireCD r) (pl_reloadT r) (pl_ammo r) (pl_clip r)
    (pl_clipMax r) (pl_crit r) (pl_luck r) (pl_dmgMul r) (pl_shotSpeedMul r)
    (pl_rangeMul r) (pl_moveMul r) (pl_pickupRadius r) (pl_knockResist r)
    (pl_lifeSteal r) (pl_thorns r) (pl_onHitFreeze r) (pl_onHitShock r)
    (pl_homing r) (pl_pierce r) (pl_bounce r) (pl_multishot r)
    (pl_bulletsPerShotAdd r) (pl_spreadMul r) (pl_recoil r) (pl_aimX r)
    (pl_aimY r) (pl_items r).
Definition set_pl_shield (v : Q) (r : Player) : Player :=
  mkPlayer (pl_x r) (pl_y r) (pl_vx r) (pl_vy r) (pl_r r) (pl_hp r)
    (pl_hpMax r) v (pl_shieldMax r) (pl_shieldDelay r) (pl_invT r)
    (pl_dashCD r) (pl_dashT r) (pl_rollIframes r) (pl_speed r) (pl_friction
    r) (pl_weapon r) (pl_fireCD r) (pl_reloadT r) (pl_ammo r) (pl_clip r)
    (pl_clipMax r) (pl_crit r) (pl_luck r) (pl_dmgMul r) (pl_shotSpeedMul r)
    (pl_rangeMul r) (pl_moveMul r) (pl_pickupRadius r) (pl_knockResist r)
    (pl_lifeSteal r) (pl_thorns r) (pl_onHitFreeze r) (pl_onHitShock r)
    (pl_homing r) (pl_pierce r) (pl_bounce r) (pl_multishot r)
    (pl_bulletsPerShotAdd r) (pl_spreadMul r) (pl_recoil r) (pl_aimX r)
    (pl_aimY r) (pl_items r).
Definition set_pl_shieldDelay (v : Q) (r : Player) : Player :=
  mkPlayer (pl_x r) (pl_y r) (pl_vx r) (pl_vy r) (pl_r r) (pl_hp r)
    (pl_hpMax r) (pl_shield r) (pl_shieldMax r) v (pl_invT r) (pl_dashCD r)
    (pl_dashT r) (pl_rollIframes r) (pl_speed r) (pl_friction r) (pl_weapon
    r) (pl_fireCD r) (pl_reloadT r) (pl_ammo r) (pl_clip r) (pl_clipMax r)
    (pl_crit r) (pl_luck r) (pl_dmgMul r) (pl_shotSpeedMul r) (pl_rangeMul
    r) (pl_moveMul r) (pl_pickupRadius r) (pl_knockResist r) (pl_lifeSteal
    r) (pl_thorns r) (pl_onHitFreeze r) (pl_onHitShock r) (pl_homing r)
    (pl_pierce r) (pl_bounce r) (pl_multishot r) (pl_bulletsPerShotAdd r)
    (pl_spreadMul r) (pl_recoil r) (pl_aimX r) (pl_aimY r) (pl_items r).
Definition set_pl_invT (v : Q) (r : Player) : Player :=
  mkPlayer (pl_x r) (pl_y r) (pl_vx r) (pl_vy r) (pl_r r) (pl_hp r)
    (pl_hpMax r) (pl_shield r) (pl_shieldMax r) (pl_shieldDelay r) v
    (pl_dashCD r) (pl_dashT r) (pl_rollIframes r) (pl_speed r) (pl_friction
    r) (pl_weapon r) (pl_fireCD r) (pl_reloadT r) (pl_ammo r) (pl_clip r)
    (pl_clipMax r) (pl_crit r) (pl_luck r) (pl_dmgMul r) (pl_shotSpeedMul r)
    (pl_rangeMul r) (pl_moveMul r) (pl_pickupRadius r) (pl_knockResist r)
    (pl_lifeSteal r) (pl_thorns r) (pl_onHitFreeze r) (pl_onHitShock r)
    (pl_homing r) (pl_pierce r) (pl_bounce r) (pl_multishot r)
    (pl_bulletsPerShotAdd r) (pl_spreadMul r) (pl_recoil r) (pl_aimX r)
    (pl_aimY r) (pl_items r).

(** The mutable globals: the fields of [state] ([state.map] is [nodes] and [edges]), the [player] object, and the number of [Math.random()] calls made so far. *)
Record State := mkState {
  mode : Mode;
  st_t : Q;
  floor : Z;
  score : Q;
  money : Q;
  keys : Z;
  roomId : string;
  nodes : gmap string Node;
  edges : gmap string (gset string);
  rooms : gmap string Room;
  enemies : list Enemy;
  bullets : list Bullet;
  pickups : list Pickup;
  fx : list Fx;
  decals : list Decal;
  cam : Cam;
  msg : string;
  msgT : Q;
  showMap : bool;
  bossAlive : bool;
  shopOpen : bool;
  player : Player;
  draws : nat
}.

Definition set_mode (v : Mode) (r : State) : State :=
  mkState v (st_t r) (floor r) (score r) (money r) (keys r) (roomId r)
    (nodes r) (edges r) (rooms r) (enemies r) (bullets r) (pickups r) (fx r)
    (decals r) (cam r) (msg r) (msgT r) (showMap r) (bossAlive r) (shopOpen
    r) (player r) (draws r).
Definition set_score (v : Q) (r : State) : State :=
  mkState (mode r) (st_t r) (floor r) v (money r) (keys r) (roomId r) (nodes
    r) (edges r) (rooms r) (enemies r) (bullets r) (pickups r) (fx r)
    (decals r) (cam r) (msg r) (msgT r) (showMap r) (bossAlive r) (shopOpen
    r) (player r) (draws r).
Definition set_money (v : Q) (r : State) : State :=
  mkState (mode r) (st_t r) (floor r) (score r) v (keys r) (roomId r) (nodes
    r) (edges r) (rooms r) (enemies r) (bullets r) (pickups r) (fx r)
    (decals r) (cam r) (msg r) (msgT r) (showMap r) (bossAlive r) (shopOpen
    r) (player r) (draws r).
Definition set_keys (v : Z) (r : State) : State :=
  mkState (mode r) (st_t r) (floor r) (score r) (money r) v (roomId r)
    (nodes r) (edges r) (rooms r) (enemies r) (bullets r) (pickups r) (fx r)
    (decals r) (cam r) (msg r) (msgT r) (showMap r) (bossAlive r) (shopOpen
    r) (player r) (draws r).
Definition set_roomId (v : string) (r : State) : State :=
  mkState (mode r) (st_t r) (floor r) (score r) (money r) (keys r) v (nodes
    r) (edges r) (rooms r) (enemies r) (bullets r) (pickups r) (fx r)
    (decals r) (cam r) (msg r) (msgT r) (showMap r) (bossAlive r) (shopOpen
    r) (player r) (draws r).
Definition set_nodes (v : gmap string Node) (r : State) : State :=
  mkState (mode r) (st_t r) (floor r) (score r) (money r) (keys r) (roomId
    r) v (edges r) (rooms r) (enemies r) (bullets r) (pickups r) (fx r)
    (decals r) (cam r) (msg r) (msgT r) (showMap r) (bossAlive r) (shopOpen
    r) (player r) (draws r).
Definition set_rooms (v : gmap string Room) (r : State) : State :=
  mkState (mode r) (st_t r) (floor r) (score r) (money r) (keys r) (roomId
    r) (nodes r) (edges r) v (enemies r) (bullets r) (pickups r) (fx r)
    (decals r) (cam r) (msg r) (msgT r) (showMap r) (bossAlive r) (shopOpen
    r) (player r) (draws r).
Definition set_enemies (v : list Enemy) (r : State) : State :=
  mkState (mode r) (st_t r) (floor r) (score r) (money r) (keys r) (roomId
    r) (nodes r) (edges r) (rooms r) v (bullets r) (pickups r) (fx r)
    (decals r) (cam r) (msg r) (msgT r) (showMap r) (bossAlive r) (shopOpen
    r) (player r) (draws r).
Definition set_bullets (v : list Bullet) (r : State) : State :=
  mkState (mode r) (st_t r) (floor r) (score r) (money r) (keys r) (roomId
    r) (nodes r) (edges r) (rooms r) (enemies r) v (pickups r) (fx r)
    (decals r) (cam r) (msg r) (msgT r) (showMap r) (bossAlive r) (shopOpen
    r) (player r) (draws r).
Definition set_pickups (v : list Pickup) (r : State) : State :=
  mkState (mode r) (st_t r) (floor r) (score r) (money r) (keys r) (roomId
    r) (nodes r) (edges r) (rooms r) (enemies r) (bullets r) v (fx r)
    (decals r) (cam r) (msg r) (msgT r) (showMap r) (bossAlive r) (shopOpen
    r) (player r) (draws r).
Definition set_fx (v : list Fx) (r : State) : State :=
  mkState (mode r) (st_t r) (floor r) (score r) (money r) (keys r) (roomId
    r) (nodes r) (edges r) (rooms r) (enemies r) (bullets r) (pickups r) v
    (decals r) (cam r) (msg r) (msgT r) (showMap r) (bossAlive r) (shopOpen
    r) (player r) (draws r).
Definition set_decals (v : list Decal) (r : State) : State :=
  mkState (mode r) (st_t r) (floor r) (score r) (money r) (keys r) (roomId
    r) (nodes r) (edges r) (rooms r) (enemies r) (bullets r) (pickups r) (fx
    r) v (cam r) (msg r) (msgT r) (showMap r) (bossAlive r) (shopOpen r)
    (player r) (draws r).
Definition set_cam (v : Cam) (r : State) : State :=
  mkState (mode r) (st_t r) (floor r) (score r) (money r) (keys r) (roomId
    r) (nodes r) (edges r) (rooms r) (enemies r) (bullets r) (pickups r) (fx
    r) (decals r) v (msg r) (msgT r) (showMap r) (bossAlive r) (shopOpen r)
    (player r) (draws r).
Definition set_msg (v : string) (r : State) : State :=
  mkState (mode r) (st_t r) (floor r) (score r) (money r) (keys r) (roomId
    r) (nodes r) (edges r) (rooms r) (enemies r) (bullets r) (pickups r) (fx
    r) (decals r) (cam r) v (msgT r) (showMap r) (bossAlive r) (shopOpen r)
    (player r) (draws r).
Definition set_msgT (v : Q) (r : State) : State :=
  mkState (mode r) (st_t r) (floor r) (score r) (money r) (keys r) (roomId
    r) (nodes r) (edges r) (rooms r) (enemies r) (bullets r) (pickups r) (fx
    r) (decals r) (cam r) (msg r) v (showMap r) (bossAlive r) (shopOpen r)
    (player r) (draws r).
Definition set_bossAlive (v : bool) (r : State) : State :=
  mkState (mode r) (st_t r) (floor r) (score r) (money r) (keys r) (roomId
    r) (nodes r) (edges r) (rooms r) (enemies r) (bullets r) (pickups r) (fx
    r) (decals r) (cam r) (msg r) (msgT r) (showMap r) v (shopOpen r)
    (player r) (draws r).
Definition set_player (v : Player) (r : State) : State :=
  mkState (mode r) (st_t r) (floor r) (score r) (money r) (keys r) (roomId
    r) (nodes r) (edges r) (rooms r) (enemies r) (bullets r) (pickups r) (fx
    r) (decals r) (cam r) (msg r) (msgT r) (showMap r) (bossAlive r)
    (shopOpen r) v (draws r).
Definition set_draws (v : nat) (r : State) : State :=
  mkState (mode r) (st_t r) (floor r) (score r) (money r) (keys r) (roomId
    r) (nodes r) (edges r) (rooms r) (enemies r) (bullets r) (pickups r) (fx
    r) (decals r) (cam r) (msg r) (msgT r) (showMap r) (bossAlive r)
    (shopOpen r) (player r) v.


Definition TILE : Q := 12.
Definition ROOM_TW : Z := 17.
Definition ROOM_TH : Z := 13.
Definition ROOM_W : Q := inject_Z ROOM_TW * TILE.
Definition ROOM_H : Q := inject_Z ROOM_TH * TILE.

Definition neonA : string := "#7c5cff".
Definition neonC : string := "#ff3bd4".

(** [Weapons], in the order of the object literal: id and tier. *)
Definition Weapons : list (string * Q) :=
  [("starter_pistol", 1); ("smg", 2); ("shotgun", 2); ("rail", 3);
   ("tesla", 3); ("bloom", 4); ("voidLauncher", 4)]%string.

(** [Items]: id and tier. *)
Definition Items : list (string * Q) :=
  [("glass_heart", 2); ("neon_lungs", 1); ("ion_cap", 2); ("crit_implant", 2);
   ("lucky_coin", 1); ("mag_coil", 2); ("phase_boots", 3); ("vamp_wires", 3);
   ("spike_jacket", 2); ("cryoshard", 3); ("shocknode", 3); ("homing_sig", 4);
   ("pierce_pin", 3); ("ricochet", 2); ("split_core", 4)]%string.

Definition noOpts : Opts := mkOpts 0 0 0 "" 0 0 0 0 "".

Definition makeBullet (owner : Owner) (x y vx vy dmg life : Q) (opts : Opts)
  : Bullet :=
  mkBullet owner x y vx vy 1.8 dmg life 0
    (o_pierce opts) (o_bounce opts) (o_homing opts)
    (if String.eqb (o_color opts) "" then "rgba(255,255,255,0.9)"%string
     else o_color opts)
    (o_chain opts) (o_explode opts) (o_slow opts) (o_shock opts)
    (o_fromWeapon opts).

Definition makePickup (type : PickupT) (x y amt : Q) (meta : Meta) : Pickup :=
  mkPickup type x y 6 0 (if Qeq_bool amt 0 then 1 else amt) meta.

Definition makeFX (kind : FxKind) (x y a b c : Q) : Fx :=
  mkFx kind x y a b c 0.

Definition tileIndex (x y : Z) : Z := (x + y * ROOM_TW)%Z.

(** [tileAtWorld]; a tile outside the array cannot be asked for after the
    bounds test, [0] stands for it. *)
Definition tileAtWorld (wx wy : Q) (room : Room) : Z :=
  let tx := toInt32 (wx / TILE) in
  let ty := toInt32 (wy / TILE) in
  if (tx <? 0)%Z || (ty <? 0)%Z || (ROOM_TW <=? tx)%Z || (ROOM_TH <=? ty)%Z
  then 0%Z
  else default 0%Z (arrGet (tileIndex tx ty) (r_g room)).

(** Wall, pit or block. *)
Definition solidTile (t : Z) : bool :=
  (t =? 0)%Z || (t =? 2)%Z || (t =? 4)%Z.

Definition isWalkable (wx wy : Q) (room : Room) : bool :=
  let t := tileAtWorld wx wy room in (t =? 1)%Z || (t =? 3)%Z || (t =? 5)%Z.

(** [makeElite(e)]. *)
Definition makeElite (e : Enemy) : Enemy :=
  let hpMax := inject_Z (toInt32 (e_hpMax e * 1.75)) in
  set_e_score (Some (inject_Z (toInt32 (default 0 (e_score e) * 1.8))))
    (set_e_touch (Some (default 0 (e_touch e) * 1.25))
      (set_e_shot (Some (default 0 (e_shot e) * 1.25))
        (set_e_r (e_r e * 1.06)
          (set_e_spd (e_spd e * 1.08)
            (set_e_hp hpMax (set_e_hpMax hpMax (set_e_elite true e))))))).

(** [makePlayer()]. *)
Definition makePlayer : Player :=
  mkPlayer (ROOM_W * 0.5) (ROOM_H * 0.65) 0 0 5.2 100 100 35 35 0 0 0 0 0.12
    95 0.82 "starter_pistol" 0 0 999 10 10 0.07 0.0 1.0 1.0 1.0 1.0 20 0.0
    0.0 0.0 0.0 0.0 0.0 0 0 0 0 1.0 0 (ROOM_W * 0.5 + 40) (ROOM_H * 0.5) [].

(** The [state] literal, with an empty map where the source has [null]. *)
Definition state0 : State :=
  mkState menu 0 1 0 0 0 "0,0" ∅ ∅ ∅ [] [] [] [] [] (mkCam 0 0 0 0) "" 0
    false false false makePlayer 0.

Section WithEnv.
Context `{Env}.

Definition TAU : Q := PI * 2.

(** [Math.random()]: the next value of the stream. *)
Definition randf : M State Q :=
  fun s => (random (draws s), set_draws (S (draws s)) s).

Definition rand (a b : Q) : M State Q := u <- randf ;; ret (a + u * (b - a)).

Definition randi (a b : Q) : M State Z :=
  u <- randf ;; ret (toInt32 (a + u * (b - a + 1))).

Definition chance (p : Q) : M State bool := u <- randf ;; ret (Qltb u p).

Definition len (x y : Q) : Q := sqrtQ (x * x + y * y).

(** [norm(x, y)]: the unit vector and the length ([1] for a zero length). *)
Definition norm (x y : Q) : Q * Q * Q :=
  let l0 := sqrtQ (x * x + y * y) in
  let l := if Qeq_bool l0 0 then 1 else l0 in
  (x / l, y / l, l).

Definition updPlayer (f : Player -> Player) : M State unit :=
  modify (fun s => set_player (f (player s)) s).

Definition updCam (f : Cam -> Cam) : M State unit :=
  modify (fun s => set_cam (f (cam s)) s).

Definition updEnemy (i : nat) (f : Enemy -> Enemy) : M State unit :=
  modify (fun s => set_enemies (alter f i (enemies s)) s).

Definition updNode (id : string) (f : Node -> Node) : M State unit :=
  modify (fun s => set_nodes (alter f id (nodes s)) s).

Definition updRoom (id : string) (f : Room -> Room) : M State unit :=
  modify (fun s => set_rooms (alter f id (rooms s)) s).

Definition pushFx (f : Fx) : M State unit :=
  modify (fun s => set_fx (fx s ++ [f]) s).

Definition pushPickup (p : Pickup) : M State unit :=
  modify (fun s => set_pickups (pickups s ++ [p]) s).

Definition pushEnemy (e : Enemy) : M State unit :=
  modify (fun s => set_enemies (enemies s ++ [e]) s).

Definition say (m : string) (t : Q) : M State unit :=
  modify (fun s => set_msgT t (set_msg m s)).

(** [makeEnemy(kind, x, y, tier)]: the object literal draws [fireCD]
    before the archetype is applied. *)
Definition makeEnemy (kind : EKind) (x y tier0 : Q) : M State Enemy :=
  let tier := if Qeq_bool tier0 0 then 1 else tier0 in
  cd <- rand 0.2 1.0 ;;
  let mk hp spd r cd' touch shot rate score ai armor phase :=
    mkEnemy kind x y 0 0 r hp hp spd 0 true cd' 0 tier 0 0 false 0 0 0
      touch shot rate score ai armor phase in
  ret match kind with
      | runner =>
          mk (26 + tier * 6) (64 + tier * 6) 5.6 cd (Some (10 + tier * 2)) None
            None (Some (20 + tier * 5)) "chase"%string None None
      | shooter =>
          mk (22 + tier * 7) (40 + tier * 3) 6.0 cd None (Some (10 + tier * 2))
            (Some (1.10 - tier * 0.04)) (Some (26 + tier * 7)) "kite"%string
            None None
      | drone =>
          mk (18 + tier * 6) (58 + tier * 4) 5.2 cd None (Some (8 + tier * 2))
            (Some (0.85 - tier * 0.03)) (Some (28 + tier * 7)) "orbit"%string
            None None
      | turret =>
          mk (34 + tier * 10) 0 7.2 cd None (Some (12 + tier * 3))
            (Some (0.70 - tier * 0.02)) (Some (35 + tier * 10)) "turret"%string
            None None
      | brute =>
          mk (60 + tier * 12) (34 + tier * 2) 8.2 cd (Some (18 + tier * 3)) None
            None (Some (50 + tier * 14)) "chase"%string (Some 0.20) None
      | spitter =>
          mk (26 + tier * 8) (38 + tier * 2) 6.2 cd None (Some (9 + tier * 2))
            (Some (0.9 - tier * 0.03)) (Some (32 + tier * 8)) "lob"%string
            None None
      | boss_proxy =>
          mk (520 + tier * 140) (38 + tier * 2) 13.0 0.8 None None None
            (Some 500) "boss"%string None (Some 1%Z)
      end.

(** *** Tiles *)

Definition setTile (x y v : Z) (g : list Z) : list Z := arrSet (tileIndex x y) v g.

Definition zrange (a b : Z) : list Z :=
  map (fun i => (a + Z.of_nat i)%Z) (seq 0 (Z.to_nat (b - a))).

Definition walls (g : list Z) : list Z :=
  let w := ROOM_TW in let h := ROOM_TH in
  let g1 := fold_left (fun g x => setTile x (h - 1) 0 (setTile x 0 0 g)) (zrange 0 w) g in
  fold_left (fun g y => setTile (w - 1) y 0 (setTile 0 y 0 g)) (zrange 0 h) g1.

Definition carveDoor (d : Dir) (g : list Z) : list Z :=
  let w := ROOM_TW in let h := ROOM_TH in
  let dx := toInt32 (inject_Z w / 2) in
  let dy := toInt32 (inject_Z h / 2) in
  match d with
  | dN => setTile (dx + 1) 0 5 (setTile (dx - 1) 0 5 (setTile dx 0 1 g))
  | dS => setTile (dx + 1) (h - 1) 5 (setTile (dx - 1) (h - 1) 5 (setTile dx (h - 1) 1 g))
  | dW => setTile 0 (dy + 1) 5 (setTile 0 (dy - 1) 5 (setTile 0 dy 1 g))
  | dE => setTile (w - 1) (dy + 1) 5 (setTile (w - 1) (dy - 1) 5 (setTile (w - 1) dy 1 g))
  end.

(** One of the 120 tries of [genRoomTiles]. *)
Definition placeBlock (density pits : Q) (g : list Z) : M State (list Z) :=
  x <- randi 2 (inject_Z ROOM_TW - 3) ;;
  y <- randi 2 (inject_Z ROOM_TH - 3) ;;
  c1 <- chance density ;;
  let g1 := if c1 then setTile x y 4 g else g in
  c2 <- chance pits ;;
  let g2 := if c2 then setTile x y 2 g1 else g1 in
  c3 <- chance 0.05 ;;
  ret (if c3 then setTile x y 3 g2 else g2).

Definition clearCentre (g : list Z) : list Z :=
  fold_left (fun g y => fold_left (fun g x => setTile x y 1 g) (zrange 7 10) g)
    (zrange 5 8) g.

Definition shopDecor (g : list Z) : M State (list Z) :=
  x <- randi 2 (inject_Z ROOM_TW - 3) ;;
  y <- randi 2 (inject_Z ROOM_TH - 3) ;;
  c <- chance 0.6 ;;
  ret (if c then setTile x y 3 g else g).

Definition genRoomTiles (kind : Kind) : M State (list Z) :=
  let g0 := replicate (Z.to_nat (ROOM_TW * ROOM_TH)) 1%Z in
  let g1 := carveDoor dE (carveDoor dW (carveDoor dS (carveDoor dN (walls g0)))) in
  let density :=
    match kind with boss => 0.10 | elite => 0.18 | treasure => 0.10 | _ => 0.16 end in
  let pits := match kind with shop | treasure => 0.05 | _ => 0.10 end in
  g2 <- foldM (seq 0 120) g1 (fun g _ => placeBlock density pits g) ;;
  let g3 := clearCentre g2 in
  match kind with
  | shop =>
      let g4 := map (fun t => if (t =? 2)%Z || (t =? 3)%Z then 1%Z else t) g3 in
      foldM (seq 0 25) g4 (fun g _ => shopDecor g)
  | _ => ret g3
  end.

(** *** Rooms *)

(** [pool[randi(0, pool.length - 1)]]. *)
Definition pick (pool : list string) : M State string :=
  i <- randi 0 (inject_Z (Z.of_nat (length pool)) - 1) ;;
  ret (default ""%string (arrGet i pool)).

Definition rollWeaponId (minTier : Q) : M State string :=
  let pool :=
    map fst (filter (fun w => Qle_bool minTier (snd w)
                              && negb (String.eqb (fst w) "starter_pistol"))
               Weapons) in
  match pool with [] => ret "smg"%string | _ => pick pool end.

Definition rollItemId (minTier : Q) : M State string :=
  let pool := map fst (filter (fun i => Qle_bool minTier (snd i)) Items) in
  match pool with [] => pick (map fst Items) | _ => pick pool end.

Definition getRoomNode (id : string) : M State (option Node) :=
  gets (fun s => nodes s !! id).

Definition getNeighbors (id : string) : M State Doors :=
  on <- getRoomNode id ;;
  match on with
  | None => ret (allDoors false)
  | Some node =>
      oe <- gets (fun s => edges s !! id) ;;
      let has x y :=
        match oe with
        | Some e => bool_decide (roomKey x y ∈ e)
        | None => false
        end in
      ret (mkDoors (has (n_x node) (n_y node - 1)%Z) (has (n_x node) (n_y node + 1)%Z)
             (has (n_x node - 1)%Z (n_y node)) (has (n_x node + 1)%Z (n_y node)))
  end.

Definition isCombat (k : Kind) : bool :=
  match k with normal | elite | boss => true | _ => false end.

(** The shop's four offers, in the order the draws are made. *)
Definition shopOffers : M State (list Offer) :=
  fl <- gets (fun s => inject_Z (floor s)) ;;
  let heal := mkOffer offHeal "" (18 + fl * 4) "Medkit (+35 HP)" in
  let shield := mkOffer offShield "" (16 + fl * 4) "Shield Cell (+25 SH)" in
  let up (n : Q) : Q := if Qltb n fl then 1 else 0 in
  c1 <- chance 0.55 ;;
  third <-
    (if c1 then w <- rollWeaponId (2 + up 2) ;;
                ret (mkOffer offWeapon w (36 + fl * 8) "")
     else i <- rollItemId (2 + up 2) ;;
          ret (mkOffer offItem i (42 + fl * 8) "")) ;;
  c2 <- chance 0.5 ;;
  fourth <-
    (if c2 then w <- rollWeaponId (2 + up 3) ;;
                ret (mkOffer offWeapon w (48 + fl * 10) "")
     else i <- rollItemId (3 + up 3) ;;
          ret (mkOffer offItem i (56 + fl * 10) "")) ;;
  ret [heal; shield; third; fourth].

(** [buildRoom(node, neighbors)].  Every branch that opens doors sets
    [doorsOpen[d] = !!neighbors[d]], so the four flags are [neighbors]. *)
Definition buildRoom (node : Node) (nb : Doors) : M State Room :=
  let kind := n_kind node in
  g <- genRoomTiles kind ;;
  seed <- randi 0 1000000000 ;;
  let cleared := n_cleared node in
  let open1 := if negb (isCombat kind) || cleared then nb else allDoors false in
  let bossShut := bool_decide (kind = boss) && negb cleared in
  let locked1 := if bossShut then nb else allDoors false in
  let open2 :=
    if bossShut then
      mkDoors (atN open1 && negb (atN nb)) (atS open1 && negb (atS nb))
        (atW open1 && negb (atW nb)) (atE open1 && negb (atE nb))
    else open1 in
  items <- (if bool_decide (kind = shop) then shopOffers else ret []) ;;
  let open3 :=
    match kind with shop | treasure | key => nb | _ => open2 end in
  ret (mkRoom kind g cleared (n_locked node) (n_seen node) nb open3 locked1
         false items seed).

Definition getRoom (id : string) : M State (option Room) :=
  have <- gets (fun s => rooms s !! id) ;;
  match have with
  | Some r => ret (Some r)
  | None =>
      on <- getRoomNode id ;;
      match on with
      | None => ret None
      | Some node =>
          nb <- getNeighbors id ;;
          room <- buildRoom node nb ;;
          modify (fun s => set_rooms (<[id := room]> (rooms s)) s) ;;;
          ret (Some room)
      end
  end.

(** [for (const d of ...) room.doorsOpen[d] = !!room.neighbors[d]]. *)
Definition openToNeighbors (id : string) : M State unit :=
  updRoom id (fun r => set_r_doorsOpen (r_neighbors r) r).

Definition decorate : M State unit :=
  x <- rand 18 (ROOM_W - 18) ;;
  y <- rand 18 (ROOM_H - 18) ;;
  c <- chance 0.6 ;;
  if c then
    a <- chance 0.5 ;;
    modify (fun s => set_decals (decals s ++ [mkDecal x y 0 (if a then neonA else neonC)]) s)
  else ret tt.

Definition spawnOne (kind : Kind) (baseTier : Q) : M State unit :=
  x <- rand 40 (ROOM_W - 40) ;;
  y <- rand 30 (ROOM_H - 30) ;;
  fl <- gets floor ;;
  let kinds :=
    [runner; shooter; drone; spitter; turret] ++ (if (2 <=? fl)%Z then [brute] else []) in
  i <- randi 0 (inject_Z (Z.of_nat (length kinds)) - 1) ;;
  e <- makeEnemy (default runner (arrGet i kinds)) x y baseTier ;;
  e' <- (if bool_decide (kind = elite) then
           c <- chance 0.35 ;; ret (if c then makeElite e else e)
         else ret e) ;;
  pushEnemy e'.

Definition spawnRoomContents (id : string) : M State unit :=
  on <- getRoomNode id ;;
  oroom <- getRoom id ;;
  match on, oroom with
  | Some node, Some room =>
      if r_spawnDone room then ret tt else
      updRoom id (set_r_spawnDone true) ;;;
      extra <- randi 0 10 ;;
      forM_ (seq 0 (Z.to_nat (8 + extra))) (fun _ => decorate) ;;;
      let kind := n_kind node in
      if bool_decide (kind = key) && negb (n_cleared node) then
        pushPickup (makePickup pkKey (ROOM_W * 0.5) (ROOM_H * 0.5) 1 noMeta) ;;;
        updNode id (set_n_cleared true) ;;;
        updRoom id (set_r_cleared true) ;;;
        openToNeighbors id
      else if bool_decide (kind = treasure) && negb (n_cleared node) then
        pushPickup (makePickup pkChest (ROOM_W * 0.5) (ROOM_H * 0.5) 1 (metaOpened false)) ;;;
        openToNeighbors id
      else if bool_decide (kind = shop) && negb (n_cleared node) then
        forM_ (seq 0 (length (r_shopItems room))) (fun i =>
          pushPickup (makePickup pkShop
                        (ROOM_W * 0.5 + (inject_Z (Z.of_nat i) - 1) * 44)
                        (ROOM_H * 0.5 + 10) 1 (metaIdx (Z.of_nat i)))) ;;;
        openToNeighbors id ;;;
        updNode id (set_n_cleared true) ;;;
        updRoom id (set_r_cleared true)
      else if negb (isCombat kind) || n_cleared node then
        openToNeighbors id
      else
        updRoom id (set_r_doorsOpen (allDoors false)) ;;;
        fl <- gets (fun s => inject_Z (floor s)) ;;
        let baseTier := 1 + inject_Z (Qfloor ((fl - 1) * 0.45)) in
        let count :=
          match kind with
          | boss => 1
          | elite => 7 + fl * 2
          | _ => 5 + fl * 2
          end in
        if bool_decide (kind = boss) then
          b <- makeEnemy boss_proxy (ROOM_W * 0.5) (ROOM_H * 0.45) baseTier ;;
          pushEnemy b ;;;
          modify (set_bossAlive true) ;;;
          say "BOSS: MIRROR EXECUTOR" 1.6
        else
          forM_ (seq 0 (Z.to_nat (Qceiling count))) (fun _ => spawnOne kind baseTier) ;;;
          say (if bool_decide (kind = elite) then "ELITE SECTOR" else "CLEAR THE ROOM") 1.2
  | _, _ => ret tt
  end.

(** *** Damage *)

Definition shake (amount time : Q) : M State unit :=
  updCam (fun c => set_cam_shakeT (Qmaxb (cam_shakeT c) time)
                     (set_cam_shake (Qmaxb (cam_shake c) amount) c)).

Definition hitstop (t : Q) : M State unit := pushFx (makeFX hitstopFx 0 0 t 0 0).

Definition sparkAt (x y range c : Q) : M State unit :=
  a <- rand (- range) range ;;
  b <- rand (- range) range ;;
  pushFx (makeFX spark x y a b c).

(** [openGameOver()], its state part. *)
Definition openGameOver : M State unit := modify (set_mode gameover).

(** [damagePlayer(dmg, srcX, srcY)]; [src] is [None] when the caller
    passes no source position. *)
Definition damagePlayer (dmg : Q) (src : option (Q * Q)) : M State unit :=
  p <- gets player ;;
  if Qltb 0 (pl_invT p) then ret tt else
  remaining <-
    (if Qltb 0 (pl_shield p) then
       let take := Qminb (pl_shield p) dmg in
       updPlayer (fun p => set_pl_shieldDelay 1.8 (set_pl_shield (pl_shield p - take) p)) ;;;
       ret (dmg - take)
     else ret dmg) ;;
  if Qltb 0 remaining then
    updPlayer (fun p =>
      set_pl_shieldDelay 2.2
        (set_pl_invT (pl_rollIframes p) (set_pl_hp (pl_hp p - remaining) p))) ;;;
    match src with
    | Some (sx, sy) =>
        updPlayer (fun p =>
          let '(nx, ny, _) := norm (pl_x p - sx) (pl_y p - sy) in
          set_pl_vy (pl_vy p + ny * 120) (set_pl_vx (pl_vx p + nx * 120) p))
    | None => ret tt
    end ;;;
    shake 5 0.12 ;;;
    hitstop 0.05 ;;;
    forM_ (seq 0 10) (fun _ =>
      p <- gets player ;; sparkAt (pl_x p) (pl_y p) 120 0.22) ;;;
    p <- gets player ;;
    if Qle_bool (pl_hp p) 0 then
      updPlayer (set_pl_hp 0) ;;;
      modify (set_mode gameover) ;;;
      openGameOver
    else ret tt
  else ret tt.

(** [v || 15] on a score that may be missing. *)
Definition scoreOf (e : Enemy) : Q :=
  match e_score e with
  | Some v => if Qeq_bool v 0 then 15 else v
  | None => 15
  end.

Definition dropNear (type : PickupT) (e : Enemy) (amt : Q) : M State unit :=
  dx <- rand (-8) 8 ;;
  dy <- rand (-8) 8 ;;
  pushPickup (makePickup type (e_x e + dx) (e_y e + dy) amt noMeta).

(** What [damageEnemy] does once the enemy's hit points are used up. *)
Definition killEnemy (i : nat) (e : Enemy) : M State unit :=
  updEnemy i (set_e_alive false) ;;;
  modify (fun s => set_score (score s + scoreOf e) s) ;;;
  m <- randi 2 6 ;;
  modify (fun s => set_money (money s + (inject_Z m + (if e_elite e then 10 else 0))) s) ;;;
  luck <- gets (fun s => pl_luck (player s)) ;;
  c1 <- chance (0.18 + luck * 0.10) ;;
  (if c1 then n <- randi 4 10 ;;
              pushPickup (makePickup pkCoin (e_x e) (e_y e) (inject_Z n) noMeta)
   else ret tt) ;;;
  c2 <- chance (0.10 + luck * 0.08) ;;
  when c2 (dropNear pkHp e 18) ;;;
  c3 <- chance (0.09 + luck * 0.06) ;;
  when c3 (dropNear pkShield e 16) ;;;
  c4 <- chance (0.06 + luck * 0.06) ;;
  when c4 (dropNear pkAmmo e 22) ;;;
  (if e_elite e then
     c5 <- chance 0.85 ;;
     if c5 then it <- rollItemId 2 ;;
                pushPickup (makePickup pkItem (e_x e) (e_y e) 1 (metaItem it))
     else ret tt
   else ret tt) ;;;
  (if bool_decide (e_kind e = boss_proxy) then
     modify (set_bossAlive false) ;;;
     pushPickup (makePickup pkPortal (ROOM_W * 0.5) (ROOM_H * 0.45) 1 noMeta) ;;;
     it <- rollItemId 3 ;;
     pushPickup (makePickup pkItem (e_x e) (e_y e) 1 (metaItem it)) ;;;
     wp <- rollWeaponId 3 ;;
     pushPickup (makePickup pkWeapon (e_x e + 18) (e_y e) 1 (metaWeapon wp)) ;;;
     shake 10 0.25 ;;;
     hitstop 0.08 ;;;
     say "BOSS DEFEATED — PORTAL OPEN" 2.0
   else ret tt) ;;;
  forM_ (seq 0 16) (fun _ => sparkAt (e_x e) (e_y e) 160 0.35) ;;;
  shake 3.5 0.10.

(** [damageEnemy(e, dmg, fromBullet)], [e] being [state.enemies[i]]. *)
Definition damageEnemy (i : nat) (dmg : Q) (fromBullet : option Bullet)
  : M State unit :=
  oe <- gets (fun s => enemies s !! i) ;;
  match oe with
  | None => ret tt
  | Some e0 =>
      if negb (e_alive e0) then ret tt else
      let finalDmg := dmg * (1 - default 0 (e_armor e0)) in
      updEnemy i (fun e => set_e_hitT 0.12 (set_e_hp (e_hp e - finalDmg) e)) ;;;
      p <- gets player ;;
      when (Qltb 0 (pl_lifeSteal p) && Qltb 0 finalDmg)
        (updPlayer (fun p =>
           set_pl_hp (Qminb (pl_hpMax p) (pl_hp p + finalDmg * pl_lifeSteal p)) p)) ;;;
      match fromBullet with
      | Some b =>
          let freeze v := updEnemy i (fun e => set_e_frozenT (Qmaxb (e_frozenT e) v) e) in
          let shock v := updEnemy i (fun e => set_e_shockedT (Qmaxb (e_shockedT e) v) e) in
          when (Qltb 0 (b_slow b)) (freeze (b_slow b)) ;;;
          when (Qltb 0 (b_shock b)) (shock (b_shock b)) ;;;
          (if Qltb 0 (pl_onHitFreeze p) then
             c <- chance (pl_onHitFreeze p) ;; when c (freeze 1.2)
           else ret tt) ;;;
          (if Qltb 0 (pl_onHitShock p) then
             c <- chance (pl_onHitShock p) ;; when c (shock 1.1)
           else ret tt) ;;;
          updEnemy i (fun e =>
            let '(nx, ny, _) := norm (e_x e - b_x b) (e_y e - b_y b) in
            let kb := 0.9 * (1 - pl_knockResist p) in
            set_e_knockT 0.10 (set_e_knockY (ny * kb) (set_e_knockX (nx * kb) e)))
      | None => ret tt
      end ;;;
      oe' <- gets (fun s => enemies s !! i) ;;
      match oe' with
      | Some e => if Qle_bool (e_hp e) 0 then killEnemy i e else ret tt
      | None => ret tt
      end
  end.

Definition doExplosion (x y radius dmg : Q) : M State unit :=
  pushFx (mkFx explosion x y radius 0 0.35 0) ;;;
  shake 6 0.14 ;;;
  hitstop 0.04 ;;;
  n <- gets (fun s => length (enemies s)) ;;
  forM_ (seq 0 n) (fun j =>
    oe <- gets (fun s => enemies s !! j) ;;
    match oe with
    | Some e =>
        if negb (e_alive e) then ret tt else
        let d := sqrtQ (dist2 x y (e_x e) (e_y e)) in
        if Qltb d radius then
          damageEnemy j (dmg * (0.55 + 0.45 * (1 - d / radius))) None
        else ret tt
    | None => ret tt
    end).

(** The inner search of [chainShock]: the living enemy other than [last]
    that is nearest to it, within 110 units. *)
Definition nearestOther (last : nat) (lx ly : Q) (es : list Enemy) : option nat :=
  fst (fold_left
         (fun (acc : option nat * Q) (je : nat * Enemy) =>
            let '(j, e) := je in
            if negb (e_alive e) || (j =? last)%nat then acc else
            let d := dist2 lx ly (e_x e) (e_y e) in
            if Qltb d (snd acc) && Qltb d (110 * 110) then (Some j, d) else acc)
         (imap pair es) (None, 1000000000000000000)).

(** [chainShock(originEnemy, dmg, chains)]; the loop variable is
    [(last, dmg)], [None] once the loop has hit [break]. *)
Definition chainShock (origin : nat) (dmg : Q) (chains : Z) : M State unit :=
  foldM (seq 0 (Z.to_nat chains)) (Some (origin, dmg))
    (fun (acc : option (nat * Q)) _ =>
       match acc with
       | None => ret None
       | Some (last, dmg) =>
           es <- gets enemies ;;
           match es !! last with
           | None => ret None
           | Some l =>
               match nearestOther last (e_x l) (e_y l) es with
               | None => ret None
               | Some best =>
                   damageEnemy best dmg None ;;;
                   es' <- gets enemies ;;
                   match es' !! last, es' !! best with
                   | Some l', Some b' =>
                       a <- rand (-60) 60 ;;
                       b <- rand (-60) 60 ;;
                       pushFx (makeFX spark ((e_x l' + e_x b') / 2)
                                 ((e_y l' + e_y b') / 2) a b 0.25)
                   | _, _ => ret tt
                   end ;;;
                   ret (Some (best, dmg * 0.75))
               end
           end
       end) ;;;
  ret tt.

(** *** The bullet loop of [update] *)

(** The homing search: the nearest living enemy. *)
Definition nearestAlive (b : Bullet) (es : list Enemy) : option Enemy :=
  fst (fold_left
         (fun (acc : option Enemy * Q) e =>
            if negb (e_alive e) then acc else
            let d := dist2 (b_x b) (b_y b) (e_x e) (e_y e) in
            if Qltb d (snd acc) then (Some e, d) else acc)
         es (None, 1000000000000000000)).

Definition homeIn (b : Bullet) (es : list Enemy) : Bullet :=
  match nearestAlive b es with
  | Some e =>
      let '(ax, ay, _) := norm (e_x e - b_x b) (e_y e - b_y b) in
      let vx := lerp (b_vx b) (ax * len (b_vx b) (b_vy b)) (b_homing b * 0.06) in
      let vy := lerp (b_vy b) (ay * len vx (b_vy b)) (b_homing b * 0.06) in
      set_b_vy vy (set_b_vx vx b)
  | None => b
  end.

(** The hit test of a player bullet: the first living enemy, in array
    order, whose circle (widened by 3) contains the bullet. *)
Definition inReach (b : Bullet) (e : Enemy) : bool :=
  e_alive e
  && Qltb (dist2 (b_x b) (b_y b) (e_x e) (e_y e)) ((e_r e + 3) * (e_r e + 3)).

Fixpoint firstHitFrom (i : nat) (b : Bullet) (es : list Enemy) : option nat :=
  match es with
  | [] => None
  | e :: r => if inReach b e then Some i else firstHitFrom (S i) b r
  end.

Definition firstHit (b : Bullet) (es : list Enemy) : option nat :=
  firstHitFrom 0 b es.

(** The bullet after its clock has advanced. *)
Definition aged (dt : Q) (b : Bullet) : Bullet :=
  set_b_life (b_life b - dt) (set_b_t (b_t b + dt) b).

(** One pass of the loop body over the bullet [b = state.bullets[i]]:
    [Some b'] is the bullet as the body leaves it in the array, [None]
    says that the body has spliced it out.  Nothing the body calls reads
    or writes [state.bullets]. *)
Definition stepBullet (dt : Q) (room : Room) (b : Bullet)
  : M State (option Bullet) :=
  let b1 := aged dt b in
  if Qle_bool (b_life b1) 0 then ret None else
  es <- gets enemies ;;
  let b2 :=
    if bool_decide (b_owner b1 = ownerP) && Qltb 0 (b_homing b1)
    then homeIn b1 es else b1 in
  let nx := b_x b2 + b_vx b2 * dt in
  let ny := b_y b2 + b_vy b2 * dt in
  if solidTile (tileAtWorld nx ny room) then
    if bool_decide (b_owner b2 = ownerP) && (0 <? b_bounce b2)%Z then
      let b3 :=
        set_b_life (b_life b2 * 0.85)
          (set_b_vy (b_vy b2 * -0.8)
            (set_b_vx (b_vx b2 * -0.8) (set_b_bounce (b_bounce b2 - 1)%Z b2))) in
      sparkAt (b_x b3) (b_y b3) 90 0.22 ;;;
      ret (Some b3)
    else
      when (Qltb 0 (b_explode b2))
        (doExplosion (b_x b2) (b_y b2) (b_explode b2) (b_dmg b2 * 0.75)) ;;;
      sparkAt (b_x b2) (b_y b2) 90 0.22 ;;;
      ret None
  else
    let b3 := set_b_y ny (set_b_x nx b2) in
    match b_owner b3 with
    | ownerE =>
        p <- gets player ;;
        if Qltb (dist2 (b_x b3) (b_y b3) (pl_x p) (pl_y p))
             ((pl_r p + 3) * (pl_r p + 3))
        then damagePlayer (b_dmg b3) (Some (b_x b3, b_y b3)) ;;; ret None
        else ret (Some b3)
    | ownerP =>
        es' <- gets enemies ;;
        match firstHit b3 es' with
        | None => ret (Some b3)
        | Some ei =>
            damageEnemy ei (b_dmg b3) (Some b3) ;;;
            when (0 <? b_chain b3)%Z
              (chainShock ei (b_dmg b3 * 0.55) (b_chain b3)) ;;;
            when (Qltb 0 (b_explode b3))
              (doExplosion (b_x b3) (b_y b3) (b_explode b3) (b_dmg b3 * 0.70)) ;;;
            if (0 <? b_pierce b3)%Z then
              ret (Some (set_b_dmg (b_dmg b3 * 0.78)
                           (set_b_pierce (b_pierce b3 - 1)%Z b3)))
            else ret None
        end
    end.

Definition bulletAt (dt : Q) (room : Room) (i : nat) : M State unit :=
  ob <- gets (fun s => bullets s !! i) ;;
  match ob with
  | None => ret tt
  | Some b =>
      r <- stepBullet dt room b ;;
      modify (fun s =>
        set_bullets
          match r with
          | Some b' => <[i := b']> (bullets s)
          | None => delete i (bullets s)
          end s)
  end.

(** [for (let i = state.bullets.length - 1; i >= 0; i--) ...]. *)
Definition updateBullets (dt : Q) (room : Room) : M State unit :=
  n <- gets (fun s => length (bullets s)) ;;
  forM_ (rev (seq 0 n)) (bulletAt dt room).

(** *** Room transitions *)

Definition lockedTreasure (n : Node) : bool :=
  bool_decide (n_kind n = treasure) && n_locked n && negb (n_cleared n).

Definition enter (nid : string) (dirFrom : Dir) : M State unit :=
  modify (set_roomId nid) ;;;
  updNode nid (set_n_seen true) ;;;
  updPlayer (fun p =>
    match dirFrom with
    | dN => set_pl_y (ROOM_H - 14) p
    | dS => set_pl_y 14 p
    | dW => set_pl_x (ROOM_W - 14) p
    | dE => set_pl_x 14 p
    end) ;;;
  modify (set_bullets []) ;;;
  here <- gets roomId ;;
  spawnRoomContents here.

(** The inner function [go(dx, dy, dirFrom)]. *)
Definition go (node : Node) (dx dy : Z) (dirFrom : Dir) : M State unit :=
  let nid := roomKey (n_x node + dx) (n_y node + dy) in
  onext <- getRoomNode nid ;;
  match onext with
  | None => ret tt
  | Some nextNode =>
      if lockedTreasure nextNode then
        k <- gets keys ;;
        if (k <=? 0)%Z then say "TREASURE LOCKED — NEED KEY" 1.0
        else
          modify (fun s => set_keys (keys s - 1)%Z s) ;;;
          updNode nid (set_n_locked false) ;;;
          say "LOCK UNSEALED" 1.0 ;;;
          enter nid dirFrom
      else enter nid dirFrom
  end.

(** [tryDoorTransition(room)]; [update] passes the room object of the
    current room, which is [state.rooms] at [state.roomId]. *)
Definition tryDoorTransition : M State unit :=
  here <- gets roomId ;;
  on <- getRoomNode here ;;
  oroom <- gets (fun s => rooms s !! here) ;;
  match on, oroom with
  | Some node, Some room =>
      p <- gets player ;;
      let nearTop := Qltb (pl_y p) 8 && Qltb (Qabs (pl_x p - ROOM_W * 0.5)) 18 in
      let nearBot := Qltb (ROOM_H - 8) (pl_y p) && Qltb (Qabs (pl_x p - ROOM_W * 0.5)) 18 in
      let nearLeft := Qltb (pl_x p) 8 && Qltb (Qabs (pl_y p - ROOM_H * 0.5)) 18 in
      let nearRight := Qltb (ROOM_W - 8) (pl_x p) && Qltb (Qabs (pl_y p - ROOM_H * 0.5)) 18 in
      let through d := getDoor (r_neighbors room) d && getDoor (r_doorsOpen room) d in
      if nearTop && through dN then go node 0 (-1) dN
      else if nearBot && through dS then go node 0 1 dS
      else if nearLeft && through dW then go node (-1) 0 dW
      else if nearRight && through dE then go node 1 0 dE
      else ret tt
  | _, _ => ret tt
  end.

End WithEnv.
End Freedom.

(** * Example worlds *)

Module NMjsExamples.
Import NMjs.
Local Open Scope Q_scope.

(** A runtime for running the model on examples: every [Math.random()]
    returns one half, and the elementary functions are crude stand-ins. *)
Definition halfRandom (k : nat) : Q := 0.5.

Lemma halfRandom_unit k : 0 <= halfRandom k /\ halfRandom k < 1.
Proof. split; [discriminate | reflexivity]. Qed.

Definition demoEnv : Env :=
  {| sqrtQ := fun q => q; cosQ := fun _ => 1; sinQ := fun _ => 0;
     atan2Q := fun _ _ => 0; powQ := fun _ _ => 1; PI := 3.14;
     random := halfRandom; random_unit := halfRandom_unit |}.

(** The globals as the script initialises them, before [Game.create]. *)
Definition initWorld : World :=
  mkWorld false false false "" 0 0 "0,0" (mkCam 0 0 0 0) ∅ ∅ [] [] [] []
    (mkPlayer (ROOM_W / 2) (ROOM_H / 2) 13 8 8 0 0 0 0 0 190 0 0 0%Z 0)
    WEAPONS0 960 540 0 0 0.

(** The world after [resetGame()]: the player stands in the start room. *)
Definition startWorld : World :=
  Eval vm_compute in exec (resetGame (H:=demoEnv)) initWorld.

(** The room north of the start room, as [passDoor] populates it. *)
Definition northWorld : World :=
  Eval vm_compute in
    exec (loadRoom (H:=demoEnv) "0,-1") (set_roomId "0,-1" startWorld).

Definition noInput : Input := mkInput (fun _ => false) (fun _ => false) 0 0 false.

(** The same room with one enemy left, already at zero hit points. *)
Definition lastEnemyWorld : World :=
  Eval vm_compute in set_enemies [mkEnemy chaser 100 100 19 0 0 0 0 0 0%Z 0%Z "" 0] northWorld.

(** The player two pixels below the north wall of the start room, in the
    middle of the doorway. *)
Definition atNorthDoor : World :=
  Eval vm_compute in
    set_player (set_pl_y 5 (set_pl_x 420 (player startWorld))) startWorld.

Definition holdW : Input :=
  mkInput (fun k => (k =? KEY_W)%Z) (fun _ => false) 0 0 false.

End NMjsExamples.

Module FreedomExamples.
Import Freedom.
Local Open Scope Q_scope.

Definition demoEnv : Env := NMjsExamples.demoEnv.

(** An open floor, one sturdy enemy standing on the bullet's path. *)
Definition openRoom : Room :=
  mkRoom normal (replicate 221 1%Z) false false true (allDoors false)
    (allDoors false) (allDoors false) true [] 0.

Definition dummy : Enemy :=
  mkEnemy turret 100 100 0 0 7.2 1000 1000 0 0 true 0 0 1 0 0 false 0 0 0
    None (Some 15) (Some 0.68) (Some 45) "turret" None None.

Definition arena : State := set_enemies [dummy] (set_mode play state0).

Definition railShot : Bullet :=
  makeBullet ownerP 100 100 0 0 32 1.5 (mkOpts 1 0 0 "" 0 0 0 0 "rail").

Definition railShot1 : Bullet :=
  Eval vm_compute in
    default railShot
      (eval (stepBullet (H:=demoEnv) (1 # 60) openRoom railShot) arena).

(** A floor of two rooms: the start room and, north of it, a locked
    treasure room; the player holds one key. *)
Definition startNode : Node := mkNode 0 0 start true true false.
Definition vaultNode : Node := mkNode 0 (-1) treasure false false true.

Definition twoRooms : State :=
  set_keys 1
    (set_nodes (<["0,-1"%string := vaultNode]> (<["0,0"%string := startNode]> ∅))
       (set_mode play state0)).

(** The player in the middle of a hit's invulnerability frames. *)
Definition flashing : State :=
  set_player (set_pl_invT 0.1 makePlayer) (set_mode play state0).

End FreedomExamples.

Module Part000Examples.
Import Part000.
Local Open Scope Q_scope.

Definition demoEnv : Env := NMjsExamples.demoEnv.

(** The globals as the script initialises them. *)
Definition initWorld : World :=
  mkWorld false false false "" 0 0 0 "0,0" (mkCam 0 0 0 0) ∅ ∅ [] [] [] [] []
    (mkPlayer (ROOM_W / 2) (ROOM_H / 2) 8 6 6 0 0 0 0 0 150 0 0) 960 540 0.

(** The start room loaded, as [resetGame] does. *)
Definition startWorld : World :=
  Eval vm_compute in exec (loadRoom (H:=demoEnv) "0,0") initWorld.

(** The shop south of the start room, entered through the south door. *)
Definition shopWorld : World :=
  Eval vm_compute in exec (tryDoorTransitionByIntent (H:=demoEnv) dS) startWorld.

End Part000Examples.

Module NJsExamples.
Import NJs.
Local Open Scope Q_scope.

Definition demoEnv : Env := NMjsExamples.demoEnv.

(** The globals as the script initialises them. *)
Definition initWorld : World :=
  mkWorld false false "" 0 0 "0,0" (mkCam 0 0 0 0) ∅ ∅ [] [] [] [] []
    (mkPlayer (ROOM_W / 2) (ROOM_H / 2) 8 6 6 0 0 0 0 0 140 0 0) 0.

Definition startWorld : World :=
  Eval vm_compute in exec (resetGame (H:=demoEnv)) initWorld.

(** The room east of the start has been visited and has turned out to be
    a locked treasure room; the player, one key in hand, steps over the
    east edge of the start room through the doorway. *)
Definition vault : Node := mkNode "1,0" 1 0 treasure true true true.

Definition atVaultDoor : World :=
  Eval vm_compute in
    set_keys 1
      (set_player (set_pl_x (ROOM_W + 1) (player startWorld))
         (set_roomMap (<["1,0"%string := vault]> (roomMap startWorld)) startWorld)).

End NJsExamples.
(** * Properties *)

(** ** Room ids *)

Section RoomIds.

Lemma string_app_cons c (s r : string) : (String c s ++ r = String c (s ++ r))%string.
Proof. reflexivity. Qed.
Lemma string_app_nil_l (r : string) : ("" ++ r = r)%string.
Proof. reflexivity. Qed.

Lemma takeDigits_string_of_uint u r :
  takeDigits (NilEmpty.string_of_uint u ++ r) = (NilEmpty.string_of_uint u ++ takeDigits r)%string.
Proof.
  induction u; simpl; rewrite ?string_app_cons, ?string_app_nil_l; simpl;
    try rewrite IHu; reflexivity.
Qed.

Lemma splitComma_string_of_uint u r :
  splitComma (NilEmpty.string_of_uint u ++ String "," r)
  = NilEmpty.string_of_uint u :: splitComma r.
Proof.
  induction u; simpl; rewrite ?string_app_cons, ?string_app_nil_l; simpl;
    try rewrite IHu; reflexivity.
Qed.

Lemma splitComma_string_of_uint_end u :
  splitComma (NilEmpty.string_of_uint u) = [NilEmpty.string_of_uint u].
Proof.
  induction u; simpl; rewrite ?string_app_cons, ?string_app_nil_l; simpl;
    try rewrite IHu; reflexivity.
Qed.

Lemma string_app_nil_r (s : string) : (s ++ "")%string = s.
Proof. induction s as [|c s IH]; [reflexivity|]. rewrite string_app_cons, IH. reflexivity. Qed.

Lemma takeDigits_whole u :
  NilEmpty.uint_of_string (takeDigits (NilEmpty.string_of_uint u)) = Some u.
Proof.
  rewrite <- (string_app_nil_r (NilEmpty.string_of_uint u)).
  rewrite takeDigits_string_of_uint. simpl. rewrite string_app_nil_r.
  apply NilEmpty.usu.
Qed.

Lemma parseInt10_unsigned u :
  u <> Nil ->
  parseInt10 (NilEmpty.string_of_uint u) = Some (Z.of_int (Pos u)).
Proof.
  intros Hu.
  pose proof (takeDigits_whole u) as H.
  destruct u; try congruence; cbn [NilEmpty.string_of_uint parseInt10] in *;
    rewrite H; reflexivity.
Qed.

Lemma string_of_uint_nonnil u :
  u <> Nil -> NilZero.string_of_uint u = NilEmpty.string_of_uint u.
Proof. destruct u; [congruence | reflexivity ..]. Qed.

Lemma parseInt10_showInt z : parseInt10 (showInt z) = Some z.
Proof.
  unfold showInt. destruct z as [|p|p]; [reflexivity| |].
  - unfold Z.to_int, NilZero.string_of_int.
    pose proof (DecimalPos.Unsigned.to_uint_nonnil p) as Hn.
    rewrite string_of_uint_nonnil by assumption.
    rewrite parseInt10_unsigned by assumption.
    f_equal. exact (DecimalZ.of_to (Z.pos p)).
  - unfold Z.to_int, NilZero.string_of_int.
    pose proof (DecimalPos.Unsigned.to_uint_nonnil p) as Hn.
    rewrite string_of_uint_nonnil by assumption.
    unfold parseInt10. rewrite takeDigits_whole.
    destruct (Pos.to_uint p) eqn:E; try congruence;
      rewrite <- E; f_equal; exact (DecimalZ.of_to (Z.neg p)).
Qed.

(** every rendering is "-"? digits *)
Lemma showInt_shape z : exists u, showInt z = NilEmpty.string_of_uint u \/ showInt z = String "-" (NilEmpty.string_of_uint u).
Proof.
  unfold showInt. destruct z as [|p|p].
  - exists (D0 Nil). left; reflexivity.
  - exists (Pos.to_uint p). left. unfold Z.to_int, NilZero.string_of_int.
    apply string_of_uint_nonnil, DecimalPos.Unsigned.to_uint_nonnil.
  - exists (Pos.to_uint p). right. unfold Z.to_int, NilZero.string_of_int.
    f_equal. apply string_of_uint_nonnil, DecimalPos.Unsigned.to_uint_nonnil.
Qed.

Lemma splitComma_roomKey x y : splitComma (roomKey x y) = [showInt x; showInt y].
Proof.
  unfold roomKey.
  destruct (showInt_shape x) as [u [-> | ->]], (showInt_shape y) as [v [-> | ->]];
    rewrite ?string_app_cons; cbn [splitComma Ascii.eqb Bool.eqb];
    rewrite ?splitComma_string_of_uint; rewrite ?string_app_cons, ?string_app_nil_l;
    cbn [splitComma Ascii.eqb Bool.eqb];
    rewrite ?splitComma_string_of_uint_end; reflexivity.
Qed.

Lemma parseRoom_roomKey x y : parseRoom (roomKey x y) = (x, y).
Proof.
  unfold parseRoom. rewrite splitComma_roomKey. simpl.
  now rewrite !parseInt10_showInt.
Qed.

Lemma roomKey_inj x y x' y' : roomKey x y = roomKey x' y' -> x = x' /\ y = y'.
Proof.
  intros H. apply (f_equal parseRoom) in H. rewrite !parseRoom_roomKey in H.
  now inversion H.
Qed.

Lemma roomKey_origin x y : roomKey x y = "0,0"%string <-> x = 0%Z /\ y = 0%Z.
Proof.
  split.
  - intros H. apply (roomKey_inj x y 0 0). exact H.
  - intros [-> ->]. reflexivity.
Qed.

End RoomIds.

(** ** Classification of rooms ([Fountain]) *)

Section FountainProps.

Import Fountain.
Local Open Scope Z_scope.

Lemma ensureNode_fresh x y :
  let n := fst (ensureNode (roomKey x y) ∅) in
  node_id n = roomKey x y /\ node_x n = x /\ node_y n = y
  /\ node_depth n = Z.abs x + Z.abs y.
Proof.
  unfold ensureNode. rewrite lookup_empty. cbn [fst newNode node_id node_x node_y node_depth].
  rewrite parseRoom_roomKey. auto.
Qed.

Lemma classify_unfold x y :
  classify x y =
    if String.eqb (roomKey x y) "0,0" then start
    else if isShopCoord x y then shop
    else if isHealCoord x y then heal
    else if isArmoryCoord x y then armory
    else combat.
Proof.
  unfold classify, assignRoomKind.
  destruct (ensureNode_fresh x y) as (-> & -> & -> & _). reflexivity.
Qed.

Lemma roomKey_eqb_origin x y :
  String.eqb (roomKey x y) "0,0" = true <-> x = 0 /\ y = 0.
Proof. rewrite String.eqb_eq. apply roomKey_origin. Qed.

Lemma classify_start x y : classify x y = start <-> x = 0 /\ y = 0.
Proof.
  rewrite classify_unfold, <- roomKey_eqb_origin.
  destruct (String.eqb (roomKey x y) "0,0"); [tauto|].
  destruct (isShopCoord x y), (isHealCoord x y), (isArmoryCoord x y);
    split; intros; congruence.
Qed.

Lemma isShopCoord_spec x y :
  isShopCoord x y = true <->
  let d := Z.abs x + Z.abs y in
  1 <= d /\
  ((d mod 4 = 0 /\ x = d /\ y = 0) \/ (d mod 4 = 1 /\ x = 0 /\ y = d) \/
   (d mod 4 = 2 /\ x = - d /\ y = 0) \/ (d mod 4 = 3 /\ x = 0 /\ y = - d)).
Proof.
  unfold isShopCoord. cbv zeta.
  assert (Hr : Z.rem (Z.abs x + Z.abs y) 4 = (Z.abs x + Z.abs y) mod 4)
    by (apply Z.rem_mod_nonneg; lia).
  rewrite Hr.
  pose proof (Z.mod_pos_bound (Z.abs x + Z.abs y) 4 ltac:(lia)) as Hb.
  destruct (Z.ltb_spec (Z.abs x + Z.abs y) 1); [split; [discriminate | lia]|].
  repeat match goal with
  | |- context [?a =? ?b] => destruct (Z.eqb_spec a b)
  end; cbn [andb]; split; try discriminate; try reflexivity; intros; lia.
Qed.

Lemma shop_unique_on_ring x y x' y' :
  classify x y = shop -> classify x' y' = shop ->
  Z.abs x + Z.abs y = Z.abs x' + Z.abs y' ->
  x = x' /\ y = y'.
Proof.
  rewrite !classify_unfold.
  destruct (String.eqb (roomKey x y) "0,0"); [discriminate|].
  destruct (String.eqb (roomKey x' y') "0,0"); [discriminate|].
  destruct (isShopCoord x y) eqn:H1; [|destruct (isHealCoord x y), (isArmoryCoord x y); discriminate].
  destruct (isShopCoord x' y') eqn:H2; [|destruct (isHealCoord x' y'), (isArmoryCoord x' y'); discriminate].
  intros _ _ Hd. apply isShopCoord_spec in H1, H2. cbv zeta in *.
  rewrite <- Hd in H2. destruct H1 as [? H1], H2 as [? H2]. lia.
Qed.

Lemma isHealCoord_spec x y :
  isHealCoord x y = true <->
  let d := Z.abs x + Z.abs y in
  2 <= d /\
  ((x = d - 1 /\ y = 1) \/ (x = -1 /\ y = d - 1) \/
   (x = - (d - 1) /\ y = -1) \/ (x = 1 /\ y = - (d - 1))).
Proof.
  unfold isHealCoord. cbv zeta.
  destruct (Z.ltb_spec (Z.abs x + Z.abs y) 2); [split; [discriminate | lia]|].
  repeat match goal with
  | |- context [?a <=? ?b] => destruct (Z.leb_spec a b)
  end; cbn [andb];
  repeat match goal with
  | |- context [?a =? ?b] => destruct (Z.eqb_spec a b)
  end; cbn [andb]; split; try discriminate; try reflexivity; intros; lia.
Qed.

Lemma armoryHash_mod x y :
  armoryHash x y = (31 * x + 17 * y + 13 * (Z.abs x + Z.abs y)) mod 11.
Proof.
  unfold armoryHash. cbv zeta.
  set (h := x * 31 + y * 17 + (Z.abs x + Z.abs y) * 13).
  replace (31 * x + 17 * y + 13 * (Z.abs x + Z.abs y)) with h by (unfold h; lia).
  pose proof (Z.rem_bound_abs h 11 ltac:(lia)).
  assert (Hq : h = 11 * (h ÷ 11) + Z.rem h 11) by (apply Z.quot_rem'; lia).
  rewrite Z.rem_mod_nonneg by lia.
  rewrite Hq at 2.
  replace (11 * (h ÷ 11) + Z.rem h 11) with (Z.rem h 11 + 11 + (h ÷ 11 - 1) * 11) by lia.
  rewrite Z.mod_add by lia. reflexivity.
Qed.

Lemma classify_heal_iff x y :
  classify x y = heal <-> isHealCoord x y = true.
Proof.
  rewrite classify_unfold. split.
  - destruct (String.eqb (roomKey x y) "0,0"); [discriminate|].
    destruct (isShopCoord x y); [discriminate|].
    destruct (isHealCoord x y); [reflexivity|].
    destruct (isArmoryCoord x y); discriminate.
  - intros H. pose proof H as H'. apply isHealCoord_spec in H'. cbv zeta in H'.
    destruct (String.eqb (roomKey x y) "0,0") eqn:E.
    { apply roomKey_eqb_origin in E. lia. }
    destruct (isShopCoord x y) eqn:Es.
    { apply isShopCoord_spec in Es. cbv zeta in Es. lia. }
    now rewrite H.
Qed.

(** Every ring of depth [d >= 2] holds four heal rooms, one per quadrant. *)
Lemma four_heal_rooms_per_ring d :
  2 <= d ->
  classify (d - 1) 1 = heal /\ classify (-1) (d - 1) = heal /\
  classify (- (d - 1)) (-1) = heal /\ classify 1 (- (d - 1)) = heal.
Proof.
  intros Hd. rewrite !classify_heal_iff, !isHealCoord_spec. cbv zeta.
  repeat split; lia.
Qed.

(** C7 (the code departs from it).  Shop and start are placed as the claim
    says ([shop_unique_on_ring], [classify_start]), but the ring of depth 2
    already holds two different rooms classified Heal: [(1, 1)] and
    [(-1, 1)].  The quadrant tests of [isHealCoord] accept one cell in each
    quadrant where its comment announces one per ring. *)
Theorem C7_two_heal_rooms_on_ring_2 :
  classify 1 1 = heal /\ classify (-1) 1 = heal /\
  Z.abs 1 + Z.abs 1 = 2 /\ Z.abs (-1) + Z.abs 1 = 2 /\
  (1, 1) <> (-1, 1).
Proof.
  destruct (four_heal_rooms_per_ring 2 ltac:(lia)) as (H1 & H2 & _).
  repeat split; try assumption; try reflexivity. discriminate.
Qed.



End FountainProps.

Local Open Scope Q_scope.

(** ** The state monad: invariants carried through a computation *)

Section Preserves.

Context {S : Type}.

(** [m] keeps the property [P] of the state. *)
Definition preserves {A} (P : S -> Prop) (m : M S A) : Prop :=
  forall s, P s -> P (snd (m s)).

Lemma preserves_ret {A} P (a : A) : preserves P (ret a).
Proof. intros s Hs. exact Hs. Qed.

Lemma preserves_gets {A} P (f : S -> A) : preserves P (gets f).
Proof. intros s Hs. exact Hs. Qed.

Lemma preserves_modify P (f : S -> S) :
  (forall s, P s -> P (f s)) -> preserves P (modify f).
Proof. intros Hf s Hs. apply Hf, Hs. Qed.

Lemma preserves_bind {A B} P (m : M S A) (f : A -> M S B) :
  preserves P m -> (forall a, preserves P (f a)) -> preserves P (bind m f).
Proof. intros Hm Hf s Hs. unfold bind. cbv zeta. apply Hf, Hm, Hs. Qed.

(** A value read from the state comes from a state that satisfies [P]. *)
Lemma preserves_bind_gets {A B} P (f : S -> A) (k : A -> M S B) :
  (forall s0, P s0 -> preserves P (k (f s0))) -> preserves P (bind (gets f) k).
Proof. intros Hk s Hs. unfold bind, gets. cbn. apply (Hk s Hs s Hs). Qed.

Lemma preserves_when P (b : bool) (m : M S unit) :
  preserves P m -> preserves P (when b m).
Proof. intros Hm. destruct b; [exact Hm | apply preserves_ret]. Qed.

Lemma preserves_forM {X} P (l : list X) (body : X -> M S unit) :
  (forall x, preserves P (body x)) -> preserves P (forM_ l body).
Proof.
  intros Hb. induction l as [|x l IH]; cbn [forM_].
  - apply preserves_ret.
  - apply preserves_bind; [apply Hb | intros _; exact IH].
Qed.

Lemma preserves_foldM {X A} P (l : list X) (a : A) (body : A -> X -> M S A) :
  (forall a x, preserves P (body a x)) -> preserves P (foldM l a body).
Proof.
  intros Hb. revert a. induction l as [|x l IH]; intros a; cbn [foldM].
  - apply preserves_ret.
  - apply preserves_bind; [apply Hb | intros a'; apply IH].
Qed.

Lemma preserves_exec {A} P (m : M S A) s : preserves P m -> P s -> P (exec m s).
Proof. intros Hm Hs. apply Hm, Hs. Qed.

(** From a state in [P], [m] ends in a state in [Q]. *)
Definition ensures {A} (P : S -> Prop) (m : M S A) (Q : S -> Prop) : Prop :=
  forall s, P s -> Q (snd (m s)).

Lemma ensures_bind {A B} P P' Q (m : M S A) (k : A -> M S B) :
  ensures P m P' -> (forall a, ensures P' (k a) Q) -> ensures P (bind m k) Q.
Proof. intros Hm Hk s Hs. unfold bind. cbv zeta. apply Hk, Hm, Hs. Qed.

(** The same, keeping what is known of the value [m] returns. *)
Lemma ensures_bind_val {A B} P P' (R : A -> Prop) Q (m : M S A) (k : A -> M S B) :
  (forall s, P s -> P' (snd (m s)) /\ R (fst (m s))) ->
  (forall a, R a -> ensures P' (k a) Q) ->
  ensures P (bind m k) Q.
Proof.
  intros Hm Hk s Hs. unfold bind. cbv zeta.
  destruct (Hm s Hs) as [H1 H2]. apply (Hk _ H2), H1.
Qed.

Lemma ensures_weaken {A} (P P' Q Q' : S -> Prop) (m : M S A) :
  (forall s, P s -> P' s) -> (forall s, Q' s -> Q s) ->
  ensures P' m Q' -> ensures P m Q.
Proof. intros HP HQ Hm s Hs. apply HQ, Hm, HP, Hs. Qed.

Lemma ensures_bind_gets {A B} P Q (f : S -> A) (k : A -> M S B) :
  (forall s0, P s0 -> ensures P (k (f s0)) Q) -> ensures P (bind (gets f) k) Q.
Proof. intros Hk s Hs. unfold bind, gets. cbn. apply (Hk s Hs s Hs). Qed.

Lemma preserves_ensures {A} P (m : M S A) : preserves P m -> ensures P m P.
Proof. intros Hm. exact Hm. Qed.

End Preserves.

(** Breaks a goal [preserves P m] down along the structure of [m]. *)
Ltac pres_step :=
  lazymatch goal with
  | |- preserves _ (bind (gets _) _) => apply preserves_bind_gets; intros ? ?
  | |- preserves _ (bind _ _) => apply preserves_bind; [| intros ?]
  | |- preserves _ (ret _) => apply preserves_ret
  | |- preserves _ (gets _) => apply preserves_gets
  | |- preserves _ (when _ _) => apply preserves_when
  | |- preserves _ (forM_ _ _) => apply preserves_forM; intros ?
  | |- preserves _ (foldM _ _ _) => apply preserves_foldM; intros ? ?
  | |- preserves _ (if ?b then _ else _) => destruct b
  | |- preserves _ (match ?x with _ => _ end) => destruct x
  | |- preserves _ (let _ := _ in _) => cbv zeta
  end.

Ltac pres := repeat pres_step.


(** ** Rewriting under [bind], comparisons, and [| 0] *)

Lemma bind_gets {S A B} (f : S -> A) (k : A -> M S B) (s : S) :
  bind (gets f) k s = k (f s) s.
Proof. reflexivity. Qed.

Lemma bind_modify {S B} (f : S -> S) (k : unit -> M S B) (s : S) :
  bind (modify f) k s = k tt (f s).
Proof. reflexivity. Qed.

Lemma bind_run {S A B} (m : M S A) (k : A -> M S B) s a s' :
  m s = (a, s') -> bind m k s = k a s'.
Proof. intros E. unfold bind. rewrite E. reflexivity. Qed.

Lemma ensures_conj {S A} (P Q1 Q2 : S -> Prop) (m : M S A) :
  ensures P m Q1 -> ensures P m Q2 -> ensures P m (fun s => Q1 s /\ Q2 s).
Proof. intros H1 H2 s Hs. split; [apply H1 | apply H2]; exact Hs. Qed.

Lemma Qltb_lt' a b : a < b -> Qltb a b = true.
Proof.
  intros Hlt. unfold Qltb. destruct (Qle_bool b a) eqn:E; [|reflexivity].
  apply Qle_bool_iff in E. exfalso. apply (Qlt_not_le _ _ Hlt E).
Qed.

Lemma Qltb_ge a b : b <= a -> Qltb a b = false.
Proof.
  intros Hle. unfold Qltb. apply Qle_bool_iff in Hle. rewrite Hle. reflexivity.
Qed.

Lemma Qltb_true_lt a b : Qltb a b = true -> a < b.
Proof.
  unfold Qltb. intros Hb. apply Qnot_le_lt. intros Hle.
  apply Qle_bool_iff in Hle. rewrite Hle in Hb. discriminate Hb.
Qed.

Lemma Qltb_false_ge a b : Qltb a b = false -> b <= a.
Proof.
  unfold Qltb. intros Hb. apply Qle_bool_iff.
  destruct (Qle_bool b a); [reflexivity | discriminate Hb].
Qed.

Lemma Qminb_le_r a b : b <= a -> Qminb a b == b.
Proof.
  intros Hle. unfold Qminb. destruct (Qltb b a) eqn:E; [reflexivity|].
  apply Qltb_false_ge in E. apply Qle_antisym; assumption.
Qed.

Section Numbers.

Lemma truncQ_nonneg q : 0 <= q -> truncQ q = Qfloor q.
Proof.
  intros Hq. unfold truncQ. apply Qle_bool_iff in Hq. rewrite Hq. reflexivity.
Qed.

Lemma toInt32_small z : (- 2 ^ 31 <= z < 2 ^ 31)%Z -> 
  ((z + 2 ^ 31) mod 2 ^ 32 - 2 ^ 31 = z)%Z.
Proof. intros Hz. rewrite Z.mod_small by lia. lia. Qed.

Lemma Qfloor_lt_Z q (z : Z) : q < inject_Z z -> (Qfloor q < z)%Z.
Proof.
  intros Hq. rewrite Zlt_Qlt. eapply Qle_lt_trans; [apply Qfloor_le | exact Hq].
Qed.

Lemma Qfloor_ge_Z q (z : Z) : inject_Z z <= q -> (z <= Qfloor q)%Z.
Proof.
  intros Hq. rewrite <- (Qfloor_Z z). apply Qfloor_resp_le, Hq.
Qed.

(** [(a + u * (b - a + 1)) | 0] for [0 <= u < 1] and integers
    [0 <= a <= b < 2^31] lies in [[a, b]]. *)
Lemma toInt32_scaled (a b : Z) (u : Q) :
  0 <= u -> u < 1 -> (0 <= a)%Z -> (a <= b)%Z -> (b < 2 ^ 31)%Z ->
  (a <= toInt32 (inject_Z a + u * (inject_Z b - inject_Z a + 1)) <= b)%Z.
Proof.
  intros Hu0 Hu1 Ha Hab Hb.
  assert (Ha' : 0 <= inject_Z a).
  { change 0 with (inject_Z 0). rewrite <- Zle_Qle. exact Ha. }
  assert (Hab' : inject_Z a <= inject_Z b) by (rewrite <- Zle_Qle; exact Hab).
  set (q := inject_Z a + u * (inject_Z b - inject_Z a + 1)).
  assert (Hlo : inject_Z a <= q) by (unfold q; nra).
  assert (Hhi : q < inject_Z (b + 1)).
  { unfold q. rewrite inject_Z_plus. change (inject_Z 1) with 1. nra. }
  unfold toInt32. rewrite truncQ_nonneg by lra.
  apply Qfloor_ge_Z in Hlo. apply Qfloor_lt_Z in Hhi.
  rewrite toInt32_small by lia. lia.
Qed.

Lemma toInt32_times (n : Z) (u : Q) :
  0 <= u -> u < 1 -> (1 <= n < 2 ^ 31)%Z ->
  (0 <= toInt32 (u * inject_Z n) < n)%Z.
Proof.
  intros Hu0 Hu1 Hn.
  assert (Hn' : 1 <= inject_Z n).
  { change 1 with (inject_Z 1). rewrite <- Zle_Qle. lia. }
  assert (Hlo : inject_Z 0 <= u * inject_Z n) by (change (inject_Z 0) with 0; nra).
  assert (Hhi : u * inject_Z n < inject_Z n) by nra.
  unfold toInt32. rewrite truncQ_nonneg by (change (inject_Z 0) with 0 in Hlo; exact Hlo).
  apply Qfloor_ge_Z in Hlo. apply Qfloor_lt_Z in Hhi.
  rewrite toInt32_small by lia. lia.
Qed.

End Numbers.


(** * [src/n.mjs] *)

Module NMjsProps.
Import NMjs NMjsExamples.
Local Open Scope Q_scope.

(** ** [src/n.mjs]: what a tick inside one room leaves alone *)

Create HintDb frame.

Section NMjsFrames.

Context `{Env}.

(** A property of the world that depends only on which room is current,
    on the node map and on the room table, and that fetching the current
    node or room does not disturb. *)
Variable P : World -> Prop.

Hypothesis P_ext : forall w w',
  roomId w' = roomId w -> roomMap w' = roomMap w -> rooms w' = rooms w ->
  P w -> P w'.
Hypothesis P_node : forall w0, P w0 -> preserves P (ensureNode (roomId w0)).
Hypothesis P_room : forall w0, P w0 -> preserves P (ensureRoom (roomId w0)).

Ltac frame_modify :=
  apply preserves_modify; intros ? ?;
  repeat match goal with |- context [if ?b then _ else _] => destruct b end;
  (eapply P_ext; [| | | eassumption]; reflexivity).

Lemma randf_frame : preserves P randf.
Proof. intros w Hw. eapply P_ext; [| | | exact Hw]; reflexivity. Qed.

#[local] Hint Resolve randf_frame P_node P_room : frame.

Ltac frame :=
  pres;
  first [ frame_modify
        | solve [eauto with frame]
        | idtac ].

Lemma randi_frame n : preserves P (randi n).
Proof. unfold randi. frame. Qed.
Lemma chance_frame p : preserves P (chance p).
Proof. unfold chance. frame. Qed.
#[local] Hint Resolve randi_frame chance_frame : frame.

Lemma shake_frame a t : preserves P (shake a t).
Proof. unfold shake, updCam. frame. Qed.
Lemma say_frame s t : preserves P (say s t).
Proof. unfold say. frame. Qed.
Lemma updPlayer_frame f : preserves P (updPlayer f).
Proof. unfold updPlayer. frame. Qed.
Lemma updCam_frame f : preserves P (updCam f).
Proof. unfold updCam. frame. Qed.
Lemma updEnemy_frame i f : preserves P (updEnemy i f).
Proof. unfold updEnemy. frame. Qed.
Lemma pushEnemy_frame e : preserves P (pushEnemy e).
Proof. unfold pushEnemy. frame. Qed.
Lemma pushBullet_frame e : preserves P (pushBullet e).
Proof. unfold pushBullet. frame. Qed.
Lemma pushPickup_frame e : preserves P (pushPickup e).
Proof. unfold pushPickup. frame. Qed.
Lemma spliceEnemy_frame i : preserves P (spliceEnemy i).
Proof. unfold spliceEnemy. frame. Qed.
Lemma spliceBullet_frame i : preserves P (spliceBullet i).
Proof. unfold spliceBullet. frame. Qed.
Lemma splicePickup_frame i : preserves P (splicePickup i).
Proof. unfold splicePickup. frame. Qed.
Lemma spliceFx_frame i : preserves P (spliceFx i).
Proof. unfold spliceFx. frame. Qed.
#[local] Hint Resolve shake_frame say_frame updPlayer_frame updCam_frame
  updEnemy_frame pushEnemy_frame pushBullet_frame pushPickup_frame
  spliceEnemy_frame spliceBullet_frame splicePickup_frame spliceFx_frame : frame.

Lemma spawnBullet_frame x y vx vy d f k l :
  preserves P (spawnBullet x y vx vy d f k l).
Proof. unfold spawnBullet. frame. Qed.
Lemma hurtPlayer_frame d : preserves P (hurtPlayer d).
Proof. unfold hurtPlayer. frame. Qed.
Lemma dropCoins_frame x y n : preserves P (dropCoins x y n).
Proof. unfold dropCoins. frame. Qed.
Lemma viewOffsets_frame : preserves P viewOffsets.
Proof. unfold viewOffsets. frame. Qed.
Lemma unlockWeapon_frame i : preserves P (unlockWeapon i).
Proof. unfold unlockWeapon. frame. Qed.
#[local] Hint Resolve spawnBullet_frame hurtPlayer_frame dropCoins_frame
  viewOffsets_frame unlockWeapon_frame : frame.

Lemma unlockRandomWeapon_frame : preserves P unlockRandomWeapon.
Proof. unfold unlockRandomWeapon. frame. Qed.
#[local] Hint Resolve unlockRandomWeapon_frame : frame.

Lemma bossAttack_frame i dt : preserves P (bossAttack i dt).
Proof. unfold bossAttack. frame. Qed.
#[local] Hint Resolve bossAttack_frame : frame.

Lemma updateEnemy_frame dt rm depth i : preserves P (updateEnemy dt rm depth i).
Proof. unfold updateEnemy. frame. Qed.
#[local] Hint Resolve updateEnemy_frame : frame.

Lemma updateEnemies_frame dt : preserves P (updateEnemies dt).
Proof. unfold updateEnemies. frame. Qed.

Lemma updateBullet_frame dt rm i : preserves P (updateBullet dt rm i).
Proof. unfold updateBullet. frame. Qed.
#[local] Hint Resolve updateBullet_frame : frame.

Lemma updateBullets_frame dt : preserves P (updateBullets dt).
Proof. unfold updateBullets. frame. Qed.

Lemma updatePickups_frame dt : preserves P (updatePickups dt).
Proof. unfold updatePickups, updatePickup. frame. Qed.

Lemma updateParticles_frame dt : preserves P (updateParticles dt).
Proof. unfold updateParticles, updateParticle. frame. Qed.

Lemma movePlayer_frame dt here : preserves P (movePlayer dt here).
Proof. unfold movePlayer. frame. Qed.

Lemma updateCamera_frame dt : preserves P (updateCamera dt).
Proof. unfold updateCamera. frame. Qed.

Lemma cycleWeapon_frame d : preserves P (cycleWeapon d).
Proof. unfold cycleWeapon. frame. Qed.
Lemma dash_frame inp : preserves P (dash inp).
Proof. unfold dash. frame. Qed.
Lemma movement_frame inp dt : preserves P (movement inp dt).
Proof. unfold movement. frame. Qed.
Lemma shoot_frame inp : preserves P (shoot inp).
Proof. unfold shoot. frame. Qed.
Lemma updateBurst_frame inp dt : preserves P (updateBurst inp dt).
Proof. unfold updateBurst. frame. Qed.
Lemma tickTimers_frame dt : preserves P (tickTimers dt).
Proof. unfold tickTimers. frame. Qed.
Lemma tryOpenShop_frame : preserves P tryOpenShop.
Proof. unfold tryOpenShop. frame. Qed.
Lemma buyShopItem_frame item : preserves P (buyShopItem item).
Proof. unfold buyShopItem. frame. Qed.
#[local] Hint Resolve buyShopItem_frame : frame.
Lemma shopKeys_frame inp : preserves P (shopKeys inp).
Proof. unfold shopKeys. frame. Qed.

(** The simulation proper, without the clear check that ends it. *)
Lemma simulate_prefix_frame dt here (Q : World -> Prop) :
  ensures P (clearCheck here) Q -> ensures P (simulate dt here) Q.
Proof.
  intros Hc. unfold simulate.
  repeat (eapply ensures_bind;
          [apply preserves_ensures;
           first [apply movePlayer_frame | apply updateCamera_frame
                 | apply updateEnemies_frame | apply updateBullets_frame
                 | apply updatePickups_frame | apply updateParticles_frame]
          | intros _]).
  exact Hc.
Qed.

End NMjsFrames.

(** ** [src/n.mjs]: doors shut after population, open on clear *)

Section NMjsClear.

Context `{Env}.

(** The part of the world a tick spent inside one room must not touch:
    which room is current, the node map and the room table. *)
Definition sameGraph (here : string) (m : gmap string Node) (r : gmap string Room)
    (w : World) : Prop :=
  roomId w = here /\ roomMap w = m /\ rooms w = r.

Variables (here : string) (m : gmap string Node) (r : gmap string Room).
Variables (node : Node) (room : Room).
Hypothesis Hnode : m !! here = Some node.
Hypothesis Hroom : r !! here = Some room.

#[local] Abbreviation G := (sameGraph here m r).

Lemma G_ext w w' :
  roomId w' = roomId w -> roomMap w' = roomMap w -> rooms w' = rooms w ->
  G w -> G w'.
Proof. intros E1 E2 E3 Hw. unfold sameGraph. rewrite E1, E2, E3. exact Hw. Qed.

Lemma G_node w0 : G w0 -> preserves G (ensureNode (roomId w0)).
Proof.
  intros (-> & _) w (H1 & H2 & H3). unfold ensureNode. rewrite H2, Hnode.
  repeat split; assumption.
Qed.

Lemma G_room w0 : G w0 -> preserves G (ensureRoom (roomId w0)).
Proof.
  intros (-> & _) w (H1 & H2 & H3). unfold ensureRoom. rewrite H3, Hroom.
  repeat split; assumption.
Qed.

Ltac gframe :=
  first [exact G_ext | exact G_node | exact G_room].

Lemma ensureNode_graph : preserves G (ensureNode here).
Proof.
  intros w Hw. pose proof (G_node w Hw w Hw) as Hn.
  destruct Hw as (E & _). rewrite E in Hn. exact Hn.
Qed.

Lemma ensureRoom_graph : preserves G (ensureRoom here).
Proof.
  intros w Hw. pose proof (G_room w Hw w Hw) as Hn.
  destruct Hw as (E & _). rewrite E in Hn. exact Hn.
Qed.

(** *** Doors closed: no check fires *)

Hypothesis Hclosed : doorsOpen room = allDoors false.

Lemma ensureNode_some id n w : roomMap w !! id = Some n -> ensureNode id w = (n, w).
Proof. intros E. unfold ensureNode. rewrite E. reflexivity. Qed.

Lemma ensureRoom_some id x w : rooms w !! id = Some x -> ensureRoom id w = (x, w).
Proof. intros E. unfold ensureRoom. rewrite E. reflexivity. Qed.

Lemma tryDoor_closed dir w :
  G w ->
  fst (tryDoorTransitionByIntent dir w) = false /\
  G (snd (tryDoorTransitionByIntent dir w)).
Proof.
  intros (H1 & H2 & H3).
  assert (Hn : roomMap w !! here = Some node) by (rewrite H2; exact Hnode).
  assert (Hr : rooms w !! here = Some room) by (rewrite H3; exact Hroom).
  unfold tryDoorTransitionByIntent, bind, gets. cbv beta zeta. cbn [fst snd].
  rewrite H1, (ensureNode_some _ _ _ Hn). cbn [fst snd].
  rewrite (ensureRoom_some _ _ _ Hr). cbn [fst snd].
  destruct (getDoor (neighbors room) dir); cbn [negb];
    [|split; [reflexivity | repeat split; assumption]].
  rewrite Hclosed.
  assert (Hd : getDoor (allDoors false) dir = false) by (destruct dir; reflexivity).
  rewrite Hd. cbn [negb]. unfold ret. cbn [fst snd].
  split; [reflexivity|].
  destruct (inDoorBand dir (pl_x (player w)) (pl_y (player w))); cbn [when].
  - unfold say, modify. cbn [snd]. repeat split; cbn; assumption.
  - unfold ret. cbn [snd]. repeat split; assumption.
Qed.

Lemma doorCheck_closed dir dt p w :
  G w ->
  fst (doorCheck dir dt p w) = false /\ G (snd (doorCheck dir dt p w)).
Proof.
  intros Hw. unfold doorCheck. destruct (pushesThrough dir dt p).
  - apply tryDoor_closed, Hw.
  - split; [reflexivity | exact Hw].
Qed.

Lemma doorChecks_closed dt w :
  G w -> fst (doorChecks dt w) = false /\ G (snd (doorChecks dt w)).
Proof.
  intros Hw. unfold doorChecks, bind, gets. cbn.
  destruct (doorCheck_closed dN dt (player w) w Hw) as [-> Hw1].
  destruct (doorCheck_closed dS dt (player w) _ Hw1) as [-> Hw2].
  destruct (doorCheck_closed dW dt (player w) _ Hw2) as [-> Hw3].
  apply doorCheck_closed, Hw3.
Qed.

(** *** The clear check *)

Hypothesis Hcombat : node_kind node = combat.
Hypothesis Huncleared : node_cleared node = false.

(** What a tick leaves behind in a combat room that was not cleared: the
    room is still current, and if no enemy is left the node is cleared
    and the four doors are open. *)
Definition clearedWhenEmpty (w : World) : Prop :=
  roomId w = here /\
  (enemies w = [] ->
   roomMap w !! here = Some (set_node_cleared true node) /\
   rooms w !! here = Some (set_doorsOpen (allDoors true) room)).

Lemma clearCheck_spec : ensures G (clearCheck here) clearedWhenEmpty.
Proof.
  intros w (H1 & H2 & H3). unfold clearCheck, bind, gets. cbv beta zeta. cbn [fst snd id].
  rewrite H2, Hnode, Hcombat, Huncleared.
  rewrite bool_decide_eq_true_2 by reflexivity. cbn [negb andb].
  destruct (enemies w) as [|e es] eqn:E; cbn [length Nat.eqb when].
  - unfold clearedWhenEmpty, updNode, lockDoors, updRoom, say, pushPickup, modify, bind.
    cbn. split; [assumption|]. intros _. rewrite ?H2, ?H3.
    rewrite !lookup_alter_eq, Hnode, Hroom. cbn. split; reflexivity.
  - unfold clearedWhenEmpty, ret. cbn [snd]. split; [assumption|].
    rewrite E. discriminate.
Qed.

Lemma simulate_spec dt : ensures G (simulate dt here) clearedWhenEmpty.
Proof.
  apply simulate_prefix_frame; [gframe .. | apply clearCheck_spec].
Qed.

Lemma update_combat_spec inp dt :
  wasPressed inp KEY_R = false ->
  ensures (fun w => G w /\ paused w = false) (update inp dt) clearedWhenEmpty.
Proof.
  intros HR. unfold update.
  apply ensures_bind_gets. intros s0 [_ ->].
  rewrite HR. cbn [when].
  eapply ensures_bind with (P' := G).
  { intros w [Hw _]. revert w Hw. apply preserves_when.
    apply preserves_modify. intros w (? & ? & ?).
    destruct (shopOpen w); repeat split; cbn; assumption. }
  intros _.
  eapply ensures_bind; [apply preserves_ensures, preserves_ret | intros _].
  eapply ensures_bind; [apply preserves_ensures, tickTimers_frame; gframe | intros _].
  apply ensures_bind_gets. intros s1 (-> & _ & _).
  eapply ensures_bind_val with (P' := G) (R := fun a => a = node).
  { intros w Hw. split; [apply ensureNode_graph, Hw|].
    destruct Hw as (_ & Hm & _). unfold ensureNode. rewrite Hm, Hnode. reflexivity. }
  intros ? ->. rewrite Hcombat.
  rewrite bool_decide_eq_false_2 by discriminate.
  rewrite andb_false_r. cbn [when andb].
  eapply ensures_bind; [apply preserves_ensures, preserves_ret | intros _].
  apply ensures_bind_gets. intros s2 _.
  eapply ensures_bind; [apply preserves_ensures, preserves_when, cycleWeapon_frame; gframe | intros _].
  eapply ensures_bind; [apply preserves_ensures, preserves_when, cycleWeapon_frame; gframe | intros _].
  eapply ensures_bind; [apply preserves_ensures, dash_frame; gframe | intros _].
  eapply ensures_bind; [apply preserves_ensures, movement_frame; gframe | intros _].
  eapply ensures_bind; [apply preserves_ensures, preserves_when, shoot_frame; gframe | intros _].
  eapply ensures_bind; [apply preserves_ensures, updateBurst_frame; gframe | intros _].
  eapply ensures_bind; [apply preserves_ensures, ensureRoom_graph | intros _].
  eapply ensures_bind_val with (P' := G) (R := fun a => a = false).
  { intros w Hw. destruct (doorChecks_closed dt w Hw). split; assumption. }
  intros ? ->. apply simulate_spec.
Qed.

End NMjsClear.

Section NMjsPopulate.

Context `{Env}.

Variable rid : string.

(** The room [rid] exists and no enemy is alive. *)
Definition hasRoom (w : World) : Prop := is_Some (rooms w !! rid).
Definition quiet (w : World) : Prop := enemies w = [].

(** What population guarantees: a room with enemies has its doors shut. *)
Definition shutIfHostile (w : World) : Prop :=
  enemies w <> [] ->
  exists r, rooms w !! rid = Some r /\ doorsOpen r = allDoors false.

Ltac room_modify :=
  apply preserves_modify; intros ? ?; unfold hasRoom in *; cbn; assumption.

Lemma ensureNode_hasRoom i : preserves hasRoom (ensureNode i).
Proof.
  intros w Hw. unfold ensureNode. destruct (roomMap w !! i); cbn; exact Hw.
Qed.

Lemma randf_hasRoom : preserves hasRoom randf.
Proof. intros w Hw. exact Hw. Qed.

Lemma lockDoors_hasRoom i b : preserves hasRoom (lockDoors i b).
Proof.
  unfold lockDoors, updRoom. apply preserves_modify. intros w Hw.
  unfold hasRoom in *. cbn. rewrite lookup_alter. destruct (decide (i = rid)) as [->|]; [|assumption].
  destruct Hw as [x ->]. eexists; reflexivity.
Qed.

Lemma spawnBoss_hasRoom x y d : preserves hasRoom (spawnBoss x y d).
Proof.
  unfold spawnBoss, randi, say, shake, pushEnemy, updCam. pres;
    first [room_modify | apply randf_hasRoom].
Qed.

Lemma spawnEnemy_hasRoom t x y d : preserves hasRoom (spawnEnemy t x y d).
Proof. unfold spawnEnemy, pushEnemy. room_modify. Qed.

Lemma quiet_modify_nodes i f : preserves quiet (updNode i f).
Proof. apply preserves_modify. intros w Hw. exact Hw. Qed.

Lemma quiet_lockDoors i b : preserves quiet (lockDoors i b).
Proof. apply preserves_modify. intros w Hw. exact Hw. Qed.

Lemma quiet_shut w : quiet w -> shutIfHostile w.
Proof. intros Hq Hne. contradiction. Qed.

Lemma lockDoors_shut : ensures hasRoom (lockDoors rid true) shutIfHostile.
Proof.
  intros w [r Hr] _. unfold lockDoors, updRoom, modify. cbn.
  rewrite lookup_alter_eq, Hr. cbn. eexists. split; reflexivity.
Qed.

Lemma spawnRoomContents_shut :
  ensures (fun _ => True) (spawnRoomContents rid) shutIfHostile.
Proof.
  unfold spawnRoomContents.
  eapply ensures_bind with (P' := fun _ => True); [intros ? ?; exact I | intros _].
  eapply ensures_bind with (P' := hasRoom).
  { intros w _. unfold ensureRoom, hasRoom.
    destruct (rooms w !! rid) eqn:E; cbn; [rewrite E; eauto|].
    rewrite lookup_insert_eq. eauto. }
  intros _.
  eapply ensures_bind with (P' := hasRoom).
  { apply preserves_ensures. unfold setKind, updNode. room_modify. }
  intros _.
  eapply ensures_bind with (P' := fun w => hasRoom w /\ quiet w).
  { intros w Hw. split; [exact Hw | reflexivity]. }
  intros _.
  eapply ensures_bind with (P' := fun w => hasRoom w /\ quiet w).
  { intros w [Hw Hq]. unfold ensureNode. destruct (roomMap w !! rid); cbn; split; assumption. }
  intros node.
  destruct (bool_decide (node_kind node = start) || bool_decide (node_kind node = shop)).
  - eapply ensures_weaken with (P' := quiet) (Q' := quiet);
      [intros ? [_ ?]; assumption | apply quiet_shut |].
    apply preserves_ensures.
    unfold pushPickup. pres;
      first [apply quiet_modify_nodes | apply quiet_lockDoors
            | apply preserves_modify; intros ? ?; exact H0 ].
  - destruct (negb (node_cleared node)).
    + eapply ensures_bind with (P' := hasRoom); [|intros _; apply lockDoors_shut].
      eapply ensures_weaken with (P' := hasRoom) (Q' := hasRoom);
        [intros ? [? _]; assumption | auto |].
      apply preserves_ensures. unfold randi, chance. pres;
        first [apply spawnBoss_hasRoom | apply spawnEnemy_hasRoom | apply randf_hasRoom].
    + eapply ensures_weaken with (P' := quiet) (Q' := quiet);
        [intros ? [_ ?]; assumption | apply quiet_shut |].
      apply preserves_ensures, quiet_lockDoors.
Qed.

Lemma loadRoom_shut : ensures (fun _ => True) (loadRoom rid) shutIfHostile.
Proof.
  unfold loadRoom.
  do 5 (eapply ensures_bind with (P' := fun _ => True); [intros ? ?; exact I | intros ?]).
  eapply ensures_bind; [apply spawnRoomContents_shut | intros _].
  apply preserves_ensures.
  assert (Hfix : forall f : World -> World,
            (forall w, enemies (f w) = enemies w /\ rooms (f w) = rooms w) ->
            preserves shutIfHostile (modify f)).
  { intros f Hf. apply preserves_modify. intros w Hw. unfold shutIfHostile in *.
    destruct (Hf w) as [-> ->]. exact Hw. }
  unfold snapCameraToPlayer, viewOffsets, updCam, updNode.
  pres; try (apply Hfix; intros; split; reflexivity).
  intros w Hw. unfold ensureNode. destruct (roomMap w !! rid); cbn; exact Hw.
Qed.

End NMjsPopulate.

Lemma Qltb_lt a b : Qltb a b = true <-> a < b.
Proof.
  unfold Qltb. rewrite negb_true_iff. split.
  - intros Hb. apply Qnot_le_lt. intros Hle. apply Qle_bool_iff in Hle. congruence.
  - intros Hlt. destruct (Qle_bool b a) eqn:E; [|reflexivity].
    apply Qle_bool_iff in E. exfalso. exact (Qlt_not_le _ _ Hlt E).
Qed.

(** ** [src/n.mjs]: door transitions *)

Section NMjsDoors.

Context `{Env}.

(** The four trigger bands do not overlap. *)
Lemma inDoorBand_unique d d' x y :
  inDoorBand d x y = true -> inDoorBand d' x y = true -> d = d'.
Proof.
  unfold inDoorBand, ROOM_W, ROOM_H, DOOR_SPAN, DOOR_THICK.
  destruct d, d'; try reflexivity; cbv zeta;
    rewrite !andb_true_iff, !Qle_bool_iff;
    intros [Ha Hb] [Hc Hd];
    apply Qabs_Qle_condition in Ha; apply Qabs_Qle_condition in Hc;
    exfalso; lra.
Qed.

Lemma pushesThrough_band d dt p :
  pushesThrough d dt p = true -> inDoorBand d (pl_x p) (pl_y p) = true.
Proof. unfold pushesThrough. rewrite !andb_true_iff. tauto. Qed.

(** What one call of [tryDoorTransitionByIntent] does, by the state of the
    door: absent or closed, it returns [false] and switches nothing; it
    returns [true] only through a door that exists and is open. *)
Lemma tryDoor_spec dir w r :
  rooms w !! roomId w = Some r ->
  let res := tryDoorTransitionByIntent dir w in
  (fst res = true /\ getDoor (neighbors r) dir = true /\
   getDoor (doorsOpen r) dir = true) \/
  (fst res = false /\ roomId (snd res) = roomId w /\
   player (snd res) = player w /\ rooms (snd res) = rooms w /\
   (getDoor (neighbors r) dir = true ->
    inDoorBand dir (pl_x (player w)) (pl_y (player w)) = true ->
    msg (snd res) = "DOOR LOCKED"%string /\ msgT (snd res) = 0.7)).
Proof.
  intros Hr. cbv zeta.
  unfold tryDoorTransitionByIntent, bind, gets. cbv beta zeta. cbn [fst snd].
  assert (He : forall w1, rooms w1 = rooms w ->
                 ensureRoom (roomId w) w1 = (r, w1)).
  { intros w1 E. apply ensureRoom_some. rewrite E. exact Hr. }
  assert (Hn : rooms (snd (ensureNode (roomId w) w)) = rooms w
               /\ roomId (snd (ensureNode (roomId w) w)) = roomId w
               /\ player (snd (ensureNode (roomId w) w)) = player w).
  { unfold ensureNode. destruct (roomMap w !! roomId w); cbn; auto. }
  destruct Hn as (Hn1 & Hn2 & Hn3).
  rewrite (He _ Hn1). cbn [fst snd].
  destruct (getDoor (neighbors r) dir); cbn [negb].
  - destruct (getDoor (doorsOpen r) dir); cbn [negb].
    + left. unfold ret. cbn [fst]. auto.
    + right. unfold ret. cbn [fst snd]. rewrite Hn3.
      destruct (inDoorBand dir (pl_x (player w)) (pl_y (player w))); cbn [when].
      * unfold say, modify. cbn. repeat split; auto.
      * unfold ret. cbn [snd]. repeat split; auto; intros; discriminate.
  - right. unfold ret. cbn [fst snd]. repeat split; auto; intros; discriminate.
Qed.

Lemma doorCheck_spec dir dt p w r :
  rooms w !! roomId w = Some r ->
  let res := doorCheck dir dt p w in
  (fst res = true /\ pushesThrough dir dt p = true /\
   getDoor (neighbors r) dir = true /\ getDoor (doorsOpen r) dir = true) \/
  (fst res = false /\ roomId (snd res) = roomId w /\
   player (snd res) = player w /\ rooms (snd res) = rooms w).
Proof.
  intros Hr. cbv zeta. unfold doorCheck.
  destruct (pushesThrough dir dt p).
  - destruct (tryDoor_spec dir w r Hr) as [(E & Hn & Ho) | (E & H1 & H2 & H3 & _)].
    + left. auto.
    + right. auto.
  - right. unfold ret. cbn. auto.
Qed.

(** The door phase of a tick.  It reports a transition only for a
    direction whose guard held and whose door exists and is open;
    otherwise the room, the player and the room table are as before. *)
Lemma doorChecks_spec dt w r :
  rooms w !! roomId w = Some r ->
  let res := doorChecks dt w in
  (fst res = true /\
   exists dir, pushesThrough dir dt (player w) = true /\
               getDoor (neighbors r) dir = true /\
               getDoor (doorsOpen r) dir = true) \/
  (fst res = false /\ roomId (snd res) = roomId w /\
   player (snd res) = player w /\ rooms (snd res) = rooms w).
Proof.
  intros Hr. cbv zeta. unfold doorChecks, bind, gets. cbv beta zeta. cbn [fst snd].
  set (p := player w).
  destruct (doorCheck_spec dN dt p w r Hr) as [(E & Hp & Hn & Ho) | (E & H1 & H2 & H3)];
    rewrite E; cbv iota beta; [left; unfold ret; cbn [fst]; eauto |].
  set (w1 := snd (doorCheck dN dt p w)) in *.
  assert (Hr1 : rooms w1 !! roomId w1 = Some r) by (rewrite H1, H3; exact Hr).
  destruct (doorCheck_spec dS dt p w1 r Hr1) as [(E1 & Hp & Hn & Ho) | (E1 & H4 & H5 & H6)];
    rewrite E1; cbv iota beta; [left; unfold ret; cbn [fst]; eauto |].
  set (w2 := snd (doorCheck dS dt p w1)) in *.
  assert (Hr2 : rooms w2 !! roomId w2 = Some r) by (rewrite H4, H6; exact Hr1).
  destruct (doorCheck_spec dW dt p w2 r Hr2) as [(E2 & Hp & Hn & Ho) | (E2 & H7 & H8 & H9)];
    rewrite E2; cbv iota beta; [left; unfold ret; cbn [fst]; eauto |].
  set (w3 := snd (doorCheck dW dt p w2)) in *.
  assert (Hr3 : rooms w3 !! roomId w3 = Some r) by (rewrite H7, H9; exact Hr2).
  destruct (doorCheck_spec dE dt p w3 r Hr3) as [(E3 & Hp & Hn & Ho) | (E3 & Ha & Hb & Hc)].
  - left. split; [exact E3 | eauto].
  - right. split; [exact E3|].
    rewrite Ha, Hb, Hc, H7, H8, H9, H4, H5, H6, H1, H2, H3. auto.
Qed.

(** Pushing through the doorway of a closed door: no check fires, the
    locked-door message is set, and neither the room nor the player
    changes. *)
Lemma doorChecks_closed_door dir dt w r :
  rooms w !! roomId w = Some r ->
  getDoor (neighbors r) dir = true ->
  getDoor (doorsOpen r) dir = false ->
  pushesThrough dir dt (player w) = true ->
  let res := doorChecks dt w in
  fst res = false /\ msg (snd res) = "DOOR LOCKED"%string /\
  msgT (snd res) = 0.7 /\ roomId (snd res) = roomId w /\
  player (snd res) = player w.
Proof.
  intros Hr Hn Hc Hp. cbv zeta.
  assert (Hoth : forall d', d' <> dir -> forall w', doorCheck d' dt (player w) w' = (false, w')).
  { intros d' Hne w'. unfold doorCheck.
    destruct (pushesThrough d' dt (player w)) eqn:E; [|reflexivity].
    exfalso. apply Hne.
    exact (inDoorBand_unique _ _ _ _ (pushesThrough_band _ _ _ E)
             (pushesThrough_band _ _ _ Hp)). }
  assert (Hme : doorCheck dir dt (player w) w = tryDoorTransitionByIntent dir w).
  { unfold doorCheck. rewrite Hp. reflexivity. }
  destruct (tryDoor_spec dir w r Hr) as [(_ & _ & Ho) | (E & H1 & H2 & H3 & Hm)];
    [congruence|].
  destruct (Hm Hn (pushesThrough_band _ _ _ Hp)) as [Hm1 Hm2].
  unfold doorChecks, bind, gets. cbv beta zeta. cbn [fst snd].
  destruct dir;
    repeat first
      [ rewrite Hme, E; cbn [fst snd]
      | rewrite Hoth by discriminate; cbn [fst snd] ];
    unfold ret; cbn [fst snd]; auto.
Qed.

End NMjsDoors.

(** ** [src/n.mjs]: a tick switches room only through an open door *)

Section NMjsTick.

Context `{Env}.

Variables (here : string) (r : Room) (x0 y0 : Q).

(** Up to the door checks a tick keeps the current room, its entry in the
    room table and the position of the player. *)
Definition atDoor (w : World) : Prop :=
  roomId w = here /\ rooms w !! here = Some r /\
  pl_x (player w) = x0 /\ pl_y (player w) = y0.

Ltac pos_leaf :=
  unfold updPlayer, updCam, updNode, say, pushBullet, modify, randf;
  intros ? (? & ? & ? & ?); cbn [snd];
  repeat match goal with |- context [if ?b then _ else _] => destruct b end;
  repeat split; cbn; assumption.

Ltac pos := pres; try pos_leaf.

Lemma randf_atDoor : preserves atDoor randf.
Proof. pos_leaf. Qed.
Lemma shake_atDoor a t : preserves atDoor (shake a t).
Proof. unfold shake. pos_leaf. Qed.
Lemma say_atDoor s t : preserves atDoor (say s t).
Proof. pos_leaf. Qed.
Lemma spawnBullet_atDoor x y vx vy d f k l :
  preserves atDoor (spawnBullet x y vx vy d f k l).
Proof. unfold spawnBullet. pos_leaf. Qed.
Lemma ensureNode_atDoor i : preserves atDoor (ensureNode i).
Proof. intros w Hw. unfold ensureNode. destruct (roomMap w !! i); cbn; exact Hw. Qed.
Lemma ensureRoom_atDoor : preserves atDoor (ensureRoom here).
Proof.
  intros w Hw. pose proof Hw as (_ & Hr & _). unfold ensureRoom. rewrite Hr. exact Hw.
Qed.

Ltac pos_call :=
  first [ apply randf_atDoor | apply shake_atDoor | apply say_atDoor
        | apply spawnBullet_atDoor | apply ensureNode_atDoor
        | apply ensureRoom_atDoor | pos_leaf ].

Lemma tickTimers_atDoor dt : preserves atDoor (tickTimers dt).
Proof. unfold tickTimers. pres; pos_call. Qed.
Lemma tryOpenShop_atDoor : preserves atDoor tryOpenShop.
Proof. unfold tryOpenShop. pres; pos_call. Qed.
Lemma cycleWeapon_atDoor d : preserves atDoor (cycleWeapon d).
Proof. unfold cycleWeapon. pres; pos_call. Qed.
Lemma dash_atDoor inp : preserves atDoor (dash inp).
Proof. unfold dash. pres; pos_call. Qed.
Lemma movement_atDoor inp dt : preserves atDoor (movement inp dt).
Proof. unfold movement. pres; pos_call. Qed.
Lemma shoot_atDoor inp : preserves atDoor (shoot inp).
Proof. unfold shoot. pres; pos_call. Qed.
Lemma updateBurst_atDoor inp dt : preserves atDoor (updateBurst inp dt).
Proof. unfold updateBurst. pres; pos_call. Qed.

(** The current room is [here]. *)
Definition inRoom (w : World) : Prop := roomId w = here.

Lemma inRoom_ext w w' :
  roomId w' = roomId w -> roomMap w' = roomMap w -> rooms w' = rooms w ->
  inRoom w -> inRoom w'.
Proof. unfold inRoom. congruence. Qed.

Lemma inRoom_node i : preserves inRoom (ensureNode i).
Proof. intros w Hw. unfold ensureNode. destruct (roomMap w !! i); exact Hw. Qed.

Lemma inRoom_room i : preserves inRoom (ensureRoom i).
Proof. intros w Hw. unfold ensureRoom. destruct (rooms w !! i); exact Hw. Qed.

Ltac rframe :=
  first [exact inRoom_ext | intros; apply inRoom_node | intros; apply inRoom_room].

Lemma clearCheck_inRoom : preserves inRoom (clearCheck here).
Proof.
  unfold clearCheck, lockDoors, updRoom, updNode, say, pushPickup.
  pres; try (apply preserves_modify; intros ? ?; assumption).
Qed.

(** What the end of a tick shows of a room switch: either the room is
    the same, or the door checks fired for a direction whose guard the
    player satisfied from where the tick found them, through a door that
    exists and is open. *)
Definition switchedByPush (dt : Q) (w : World) : Prop :=
  roomId w = here \/
  exists dir p,
    pl_x p = x0 /\ pl_y p = y0 /\ pushesThrough dir dt p = true /\
    getDoor (neighbors r) dir = true /\ getDoor (doorsOpen r) dir = true.

Lemma update_switch_spec inp dt :
  wasPressed inp KEY_R = false ->
  ensures atDoor (update inp dt) (switchedByPush dt).
Proof.
  intros HR. unfold update.
  apply ensures_bind_gets. intros s0 _. rewrite HR. cbn [when].
  destruct (paused s0).
  { eapply ensures_weaken with (P' := inRoom) (Q' := inRoom);
      [intros ? (? & _); assumption | intros ? ?; left; assumption |].
    apply preserves_ensures. pres.
    apply preserves_modify. intros ? ?. assumption. }
  eapply ensures_bind with (P' := atDoor); [apply preserves_ensures; pres; pos_leaf | intros _].
  eapply ensures_bind; [apply preserves_ensures, preserves_ret | intros _].
  eapply ensures_bind; [apply preserves_ensures, tickTimers_atDoor | intros _].
  apply ensures_bind_gets. intros s1 (-> & _).
  eapply ensures_bind; [apply preserves_ensures, ensureNode_atDoor | intros node].
  eapply ensures_bind; [apply preserves_ensures, preserves_when, tryOpenShop_atDoor | intros _].
  apply ensures_bind_gets. intros s2 _.
  destruct (bool_decide (node_kind node = shop) && shopOpen s2).
  { eapply ensures_weaken with (P' := inRoom) (Q' := inRoom);
      [intros ? (? & _); assumption | intros ? ?; left; assumption |].
    apply preserves_ensures. apply preserves_bind; [|intros _].
    - apply shopKeys_frame; rframe.
    - apply updateParticles_frame; rframe. }
  eapply ensures_bind; [apply preserves_ensures, preserves_when, cycleWeapon_atDoor | intros _].
  eapply ensures_bind; [apply preserves_ensures, preserves_when, cycleWeapon_atDoor | intros _].
  eapply ensures_bind; [apply preserves_ensures, dash_atDoor | intros _].
  eapply ensures_bind; [apply preserves_ensures, movement_atDoor | intros _].
  eapply ensures_bind; [apply preserves_ensures, preserves_when, shoot_atDoor | intros _].
  eapply ensures_bind; [apply preserves_ensures, updateBurst_atDoor | intros _].
  eapply ensures_bind; [apply preserves_ensures, ensureRoom_atDoor | intros _].
  intros w (H1 & H2 & H3 & H4). unfold bind. cbv zeta.
  assert (Hr : rooms w !! roomId w = Some r) by (rewrite H1; exact H2).
  destruct (doorChecks_spec dt w r Hr) as [(E & dir & Hp & Hn & Ho) | (E & Ha & Hb & Hc)];
    rewrite E.
  - right. exists dir, (player w). auto.
  - left. apply (simulate_prefix_frame inRoom); try rframe.
    + apply preserves_ensures, clearCheck_inRoom.
    + unfold inRoom. congruence.
Qed.

End NMjsTick.

Example north_has_enemies : length (enemies northWorld) = 6%nat.
Proof. vm_compute. reflexivity. Qed.

Section Final.
Context `{Env}.

End Final.


(** C1 as stated fails at room creation: a room that has just been
    created has all four doors open and no neighbour. *)
Lemma C1_new_room_open_without_neighbor :
  ~ (forall (id : string) (w : World) (d : Dir) (r : Room),
       rooms (exec (ensureRoom id) w) !! id = Some r ->
       getDoor (doorsOpen r) d = true -> getDoor (neighbors r) d = true).
Proof.
  intros Hc.
  specialize (Hc "0,0"%string initWorld dN (newRoom "0,0") eq_refl eq_refl).
  discriminate Hc.
Qed.

Section Final2.
Context `{Env}.

Theorem C1_doors_open_flags_gated_at_transition :
  (forall id w, rooms w !! id = None ->
     rooms (exec (ensureRoom id) w) !! id
     = Some (mkRoom id [] (allDoors true) (allDoors false)))
  /\
  (forall id locked w r, rooms w !! id = Some r ->
     rooms (exec (lockDoors id locked) w) !! id
     = Some (set_doorsOpen (allDoors (negb locked)) r))
  /\
  (forall dir w r, rooms w !! roomId w = Some r ->
     eval (tryDoorTransitionByIntent dir) w = true ->
     getDoor (neighbors r) dir = true /\ getDoor (doorsOpen r) dir = true).
Proof.
  split; [|split].
  - intros id w Hn. unfold exec, ensureRoom. rewrite Hn. cbn.
    apply lookup_insert_eq.
  - intros id locked w r Hr. unfold exec, lockDoors, updRoom, modify. cbn.
    rewrite lookup_alter_eq, Hr. reflexivity.
  - intros dir w r Hr. unfold eval. intros Ht.
    destruct (tryDoor_spec dir w r Hr) as [(_ & Hn & Ho) | (E & _)]; [auto | congruence].
Qed.


(** C10, [hurtPlayer] of [src/n.mjs]. *)
Lemma hurtPlayer_invulnerable dmg w :
  0 < pl_invT (player w) -> hurtPlayer dmg w = (tt, w).
Proof.
  intros Hi. unfold hurtPlayer, bind, gets. cbv beta zeta. cbn [fst snd].
  apply Qltb_lt in Hi. rewrite Hi. reflexivity.
Qed.

End Final2.


Lemma C1_witness :
  rooms (exec (lockDoors "0,0" true) startWorld) !! "0,0"%string
  = (set_doorsOpen (allDoors false)) <$> (rooms startWorld !! "0,0"%string).
Proof.
  destruct (rooms startWorld !! "0,0"%string) as [r|] eqn:E; [|vm_compute in E; discriminate E].
  rewrite (proj1 (proj2 (C1_doors_open_flags_gated_at_transition (H:=demoEnv)))
             "0,0"%string true startWorld r E).
  reflexivity.
Defined.

End NMjsProps.

(** * FREEDOM ([src/unnamed/part_001], first program) *)

Module FreedomProps.
Import Freedom FreedomExamples.
Local Open Scope Q_scope.

Section FreedomBullets.
Context `{Env}.

(** The conditions the loop body tests, as functions of the bullet and
    the state the pass starts in. *)
Definition expires (dt : Q) (b : Bullet) : bool :=
  Qle_bool (b_life (aged dt b)) 0.

Definition steered (dt : Q) (b : Bullet) (s : State) : Bullet :=
  if bool_decide (b_owner (aged dt b) = ownerP) && Qltb 0 (b_homing (aged dt b))
  then homeIn (aged dt b) (enemies s) else aged dt b.

Definition blocked (dt : Q) (room : Room) (b : Bullet) (s : State) : bool :=
  solidTile
    (tileAtWorld (b_x (steered dt b s) + b_vx (steered dt b s) * dt)
       (b_y (steered dt b s) + b_vy (steered dt b s) * dt) room).

Definition advanced (dt : Q) (b : Bullet) (s : State) : Bullet :=
  set_b_y (b_y (steered dt b s) + b_vy (steered dt b s) * dt)
    (set_b_x (b_x (steered dt b s) + b_vx (steered dt b s) * dt) (steered dt b s)).

(** The pass reaches the hit test and finds an enemy: [damageEnemy] is
    called for this bullet. *)
Definition hits (dt : Q) (room : Room) (b : Bullet) (s : State) : bool :=
  negb (expires dt b) && negb (blocked dt room b s)
  && bool_decide (is_Some (firstHit (advanced dt b s) (enemies s))).

Lemma homeIn_keeps b es :
  b_owner (homeIn b es) = b_owner b /\ b_pierce (homeIn b es) = b_pierce b
  /\ b_bounce (homeIn b es) = b_bounce b.
Proof.
  unfold homeIn. destruct (nearestAlive b es); [|auto].
  destruct (norm _ _) as [[ax ay] l]. auto.
Qed.

Lemma steered_keeps dt b s :
  b_owner (steered dt b s) = b_owner b /\ b_pierce (steered dt b s) = b_pierce b
  /\ b_bounce (steered dt b s) = b_bounce b.
Proof.
  unfold steered. destruct (_ && _); [|auto].
  destruct (homeIn_keeps (aged dt b) (enemies s)) as (-> & -> & ->). auto.
Qed.

Lemma advanced_keeps dt b s :
  b_owner (advanced dt b s) = b_owner b /\ b_pierce (advanced dt b s) = b_pierce b
  /\ b_bounce (advanced dt b s) = b_bounce b.
Proof. unfold advanced. cbn. apply steered_keeps. Qed.

(** What one pass does to a player bullet. *)
Lemma stepBullet_player dt room b s :
  b_owner b = ownerP ->
  let r := eval (stepBullet dt room b) s in
  if expires dt b then r = None
  else if blocked dt room b s then
    if (0 <? b_bounce b)%Z then
      exists b', r = Some b' /\ b_owner b' = ownerP /\ b_pierce b' = b_pierce b
                 /\ b_bounce b' = (b_bounce b - 1)%Z
    else r = None
  else if hits dt room b s then
    if (0 <? b_pierce b)%Z then
      exists b', r = Some b' /\ b_owner b' = ownerP
                 /\ b_pierce b' = (b_pierce b - 1)%Z /\ b_bounce b' = b_bounce b
    else r = None
  else
    exists b', r = Some b' /\ b_owner b' = ownerP /\ b_pierce b' = b_pierce b
               /\ b_bounce b' = b_bounce b.
Proof.
  intros Ho. cbv zeta. unfold hits.
  unfold eval, stepBullet, bind, gets. cbv beta zeta. cbn [fst snd].
  fold (expires dt b). destruct (expires dt b) eqn:Ex; [reflexivity|].
  fold (steered dt b s). fold (blocked dt room b s).
  destruct (steered_keeps dt b s) as (So & Sp & Sb).
  destruct (advanced_keeps dt b s) as (Ao & Ap & Ab).
  destruct (blocked dt room b s) eqn:Bl.
  - rewrite So, Sb, Ho. rewrite bool_decide_eq_true_2 by reflexivity. cbn [andb negb].
    destruct (0 <? b_bounce b)%Z.
    + eexists. split; [reflexivity|].
      cbn [b_owner b_pierce b_bounce set_b_life set_b_vx set_b_vy set_b_bounce].
      rewrite ?So, ?Sp, ?Sb, ?Ho. auto.
    + destruct (Qltb 0 (b_explode (steered dt b s))); reflexivity.
  - cbn [negb andb]. fold (advanced dt b s). rewrite Ao, Ho.
    destruct (firstHit (advanced dt b s) (enemies s)) as [ei|] eqn:Fh.
    + rewrite bool_decide_eq_true_2 by eauto. rewrite Ap.
      destruct (0 <? b_pierce b)%Z.
      * eexists. split; [reflexivity|].
        cbn [b_owner b_pierce b_bounce set_b_dmg set_b_pierce].
        rewrite ?Ao, ?Ap, ?Ab, ?Ho. auto.
      * reflexivity.
    + rewrite bool_decide_eq_false_2 by (intros [? ?]; discriminate).
      eexists. split; [reflexivity|]. rewrite Ao, Ap, Ab. auto.
Qed.

(** The history of one bullet: [flight b h b'] says that the bullet
    created as [b] has, after some passes of the loop body (each in an
    arbitrary state, with an arbitrary time step), been left in the array
    as [b'], having hit enemies [h] times on the way. *)
Inductive flight : Bullet -> nat -> Bullet -> Prop :=
| flight_start b : flight b 0 b
| flight_pass b h b1 dt room s b2 :
    flight b h b1 ->
    eval (stepBullet dt room b1) s = Some b2 ->
    flight b (h + (if hits dt room b1 s then 1 else 0)) b2.

Lemma flight_pierce b h b1 :
  flight b h b1 -> b_owner b = ownerP ->
  b_owner b1 = ownerP /\ b_pierce b1 = (b_pierce b - Z.of_nat h)%Z
  /\ (h = 0%nat \/ (0 <= b_pierce b1)%Z).
Proof.
  induction 1 as [b | b h b1 dt room s b2 Hf IH Hs]; intros Ho.
  - split; [exact Ho|]. split; [lia | left; reflexivity].
  - destruct (IH Ho) as (Ho1 & Hp1 & Hh).
    pose proof (stepBullet_player dt room b1 s Ho1) as Hc. cbv zeta in Hc.
    rewrite Hs in Hc.
    destruct (expires dt b1); [discriminate Hc|].
    destruct (blocked dt room b1 s) eqn:Bl.
    + assert (Hn : hits dt room b1 s = false).
      { unfold hits. rewrite Bl, andb_false_r. reflexivity. }
      rewrite Hn, Nat.add_0_r.
      destruct (0 <? b_bounce b1)%Z; [|discriminate Hc].
      destruct Hc as (b' & E & Ho' & Hp' & _). inversion E; subst b'.
      rewrite Ho', Hp'. auto.
    + destruct (hits dt room b1 s).
      * destruct (0 <? b_pierce b1)%Z eqn:Pz; [|discriminate Hc].
        destruct Hc as (b' & E & Ho' & Hp' & _). inversion E; subst b'.
        apply Z.ltb_lt in Pz. rewrite Ho', Hp'.
        split; [reflexivity|]. split; [lia | right; lia].
      * rewrite Nat.add_0_r.
        destruct Hc as (b' & E & Ho' & Hp' & _). inversion E; subst b'.
        rewrite Ho', Hp'. auto.
Qed.

(** A player bullet created with [pierce = n >= 0] that is still in
    the array has hit at most [n] enemies; a pass that hits an enemy
    destroys it exactly when that hit is number [n + 1]; and a pass that
    destroys it without a hit does so because its lifetime ran out or
    because it met a solid tile with no bounce left. *)
Theorem bullet_destroyed_on_hit_after_pierce :
  forall b h b1 dt room s,
    b_owner b = ownerP -> (0 <= b_pierce b)%Z ->
    flight b h b1 ->
    let gone := eval (stepBullet dt room b1) s = None in
    (Z.of_nat h <= b_pierce b)%Z
    /\ (hits dt room b1 s = true -> (gone <-> Z.of_nat h = b_pierce b))
    /\ (hits dt room b1 s = false -> gone ->
        expires dt b1 = true
        \/ (blocked dt room b1 s = true /\ (b_bounce b1 <= 0)%Z)).
Proof.
  intros b h b1 dt room s Ho Hn Hf. cbv zeta.
  destruct (flight_pierce b h b1 Hf Ho) as (Ho1 & Hp1 & Hh).
  assert (Hle : (Z.of_nat h <= b_pierce b)%Z) by (destruct Hh; lia).
  pose proof (stepBullet_player dt room b1 s Ho1) as Hc. cbv zeta in Hc.
  split; [exact Hle|]. split.
  - intros Hit. rewrite Hit in Hc.
    assert (Ex : expires dt b1 = false).
    { unfold hits in Hit. destruct (expires dt b1); [discriminate Hit | reflexivity]. }
    assert (Bl : blocked dt room b1 s = false).
    { unfold hits in Hit. rewrite Ex in Hit.
      destruct (blocked dt room b1 s); [discriminate Hit | reflexivity]. }
    rewrite Ex, Bl in Hc.
    destruct (0 <? b_pierce b1)%Z eqn:Pz.
    + apply Z.ltb_lt in Pz. destruct Hc as (b' & E & _). rewrite E.
      split; [discriminate | lia].
    + apply Z.ltb_ge in Pz. split; [lia | intros _; exact Hc].
  - intros Hit Hg. rewrite Hit, Hg in Hc.
    destruct (expires dt b1); [left; reflexivity|].
    destruct (blocked dt room b1 s).
    + destruct (0 <? b_bounce b1)%Z eqn:Bz.
      * destruct Hc as (b' & E & _). discriminate E.
      * apply Z.ltb_ge in Bz. right. auto.
    + destruct Hc as (b' & E & _). discriminate E.
Qed.

End FreedomBullets.

Section FreedomDamage.
Context `{Env}.

Lemma damagePlayer_invulnerable dmg src s :
  0 < pl_invT (player s) -> damagePlayer dmg src s = (tt, s).
Proof.
  intros Hi. unfold damagePlayer. rewrite bind_gets.
  rewrite (Qltb_lt' _ _ Hi). reflexivity.
Qed.

(** [go] toward a locked treasure room without a key: only the message
    changes. *)
Lemma go_need_key node dx dy dir s next :
  nodes s !! roomKey (n_x node + dx) (n_y node + dy) = Some next ->
  lockedTreasure next = true -> (keys s <= 0)%Z ->
  go node dx dy dir s
  = (tt, set_msgT 1.0 (set_msg "TREASURE LOCKED — NEED KEY" s)).
Proof.
  intros Hn Hl Hk. unfold go, getRoomNode. rewrite bind_gets, Hn, Hl.
  rewrite bind_gets. apply Z.leb_le in Hk. rewrite Hk. reflexivity.
Qed.

End FreedomDamage.


Create HintDb fframe.

Section FreedomFrames.
Context `{Env}.

(** A property of the state that looks only at the key count, the current
    room id and the node map, and that survives a change of a node's
    [seen] or [cleared] flag. *)
Variable P : State -> Prop.

Hypothesis P_ext : forall s s',
  keys s' = keys s -> roomId s' = roomId s -> nodes s' = nodes s -> P s -> P s'.
Hypothesis P_node : forall id f s,
  (forall n, n_locked (f n) = n_locked n /\ n_kind (f n) = n_kind n) ->
  P s -> P (set_nodes (alter f id (nodes s)) s).

Ltac fmodify :=
  apply preserves_modify; intros ? ?;
  repeat match goal with |- context [if ?b then _ else _] => destruct b end;
  (eapply P_ext; [| | | eassumption]; reflexivity).

Lemma randf_keeps : preserves P randf.
Proof. intros s Hs. eapply P_ext; [| | | exact Hs]; reflexivity. Qed.
#[local] Hint Resolve randf_keeps : fframe.

Ltac fframe :=
  pres;
  first [ fmodify
        | solve [eauto with fframe]
        | idtac ].

Lemma rand_keeps a b : preserves P (rand a b).
Proof. unfold rand. fframe. Qed.
Lemma randi_keeps a b : preserves P (randi a b).
Proof. unfold randi. fframe. Qed.
Lemma chance_keeps p : preserves P (chance p).
Proof. unfold chance. fframe. Qed.
#[local] Hint Resolve rand_keeps randi_keeps chance_keeps : fframe.

Lemma updPlayer_keeps f : preserves P (updPlayer f).
Proof. unfold updPlayer. fframe. Qed.
Lemma updCam_keeps f : preserves P (updCam f).
Proof. unfold updCam. fframe. Qed.
Lemma updEnemy_keeps i f : preserves P (updEnemy i f).
Proof. unfold updEnemy. fframe. Qed.
Lemma updRoom_keeps id f : preserves P (updRoom id f).
Proof. unfold updRoom. fframe. Qed.
Lemma pushFx_keeps f : preserves P (pushFx f).
Proof. unfold pushFx. fframe. Qed.
Lemma pushPickup_keeps p : preserves P (pushPickup p).
Proof. unfold pushPickup. fframe. Qed.
Lemma pushEnemy_keeps e : preserves P (pushEnemy e).
Proof. unfold pushEnemy. fframe. Qed.
Lemma say_keeps m t : preserves P (say m t).
Proof. unfold say. fframe. Qed.
#[local] Hint Resolve updPlayer_keeps updCam_keeps updEnemy_keeps updRoom_keeps
  pushFx_keeps pushPickup_keeps pushEnemy_keeps say_keeps : fframe.

Lemma makeEnemy_keeps k x y t : preserves P (makeEnemy k x y t).
Proof. unfold makeEnemy. fframe. Qed.
Lemma placeBlock_keeps d p g : preserves P (placeBlock d p g).
Proof. unfold placeBlock. fframe. Qed.
Lemma shopDecor_keeps g : preserves P (shopDecor g).
Proof. unfold shopDecor. fframe. Qed.
#[local] Hint Resolve makeEnemy_keeps placeBlock_keeps shopDecor_keeps : fframe.

Lemma genRoomTiles_keeps k : preserves P (genRoomTiles k).
Proof. unfold genRoomTiles. fframe. Qed.
Lemma pick_keeps l : preserves P (pick l).
Proof. unfold pick. fframe. Qed.
#[local] Hint Resolve genRoomTiles_keeps pick_keeps : fframe.

Lemma rollWeaponId_keeps t : preserves P (rollWeaponId t).
Proof. unfold rollWeaponId. fframe. Qed.
Lemma rollItemId_keeps t : preserves P (rollItemId t).
Proof. unfold rollItemId. fframe. Qed.
#[local] Hint Resolve rollWeaponId_keeps rollItemId_keeps : fframe.

Lemma getRoomNode_keeps id : preserves P (getRoomNode id).
Proof. unfold getRoomNode. fframe. Qed.
#[local] Hint Resolve getRoomNode_keeps : fframe.

Lemma getNeighbors_keeps id : preserves P (getNeighbors id).
Proof. unfold getNeighbors. fframe. Qed.
Lemma shopOffers_keeps : preserves P shopOffers.
Proof. unfold shopOffers. fframe. Qed.
#[local] Hint Resolve getNeighbors_keeps shopOffers_keeps : fframe.

Lemma buildRoom_keeps n nb : preserves P (buildRoom n nb).
Proof. unfold buildRoom. fframe. Qed.
#[local] Hint Resolve buildRoom_keeps : fframe.

Lemma getRoom_keeps id : preserves P (getRoom id).
Proof. unfold getRoom. fframe. Qed.
Lemma openToNeighbors_keeps id : preserves P (openToNeighbors id).
Proof. unfold openToNeighbors. fframe. Qed.
Lemma decorate_keeps : preserves P decorate.
Proof. unfold decorate. fframe. Qed.
Lemma spawnOne_keeps k t : preserves P (spawnOne k t).
Proof. unfold spawnOne. fframe. Qed.
Lemma markCleared_keeps id : preserves P (updNode id (set_n_cleared true)).
Proof.
  unfold updNode. apply preserves_modify. intros s Hs.
  apply P_node; [|exact Hs]. intros n. split; reflexivity.
Qed.
Lemma markSeen_keeps id : preserves P (updNode id (set_n_seen true)).
Proof.
  unfold updNode. apply preserves_modify. intros s Hs.
  apply P_node; [|exact Hs]. intros n. split; reflexivity.
Qed.
#[local] Hint Resolve getRoom_keeps openToNeighbors_keeps decorate_keeps
  spawnOne_keeps markCleared_keeps markSeen_keeps : fframe.

Lemma spawnRoomContents_keeps id : preserves P (spawnRoomContents id).
Proof. unfold spawnRoomContents. fframe. Qed.

End FreedomFrames.

Section FreedomTreasure.
Context `{Env}.

(** The player is in room [nid] holding [k] keys, and the node of [nid]
    is unlocked. *)
Definition unlockedAt (nid : string) (k : Z) (s : State) : Prop :=
  keys s = k /\ roomId s = nid
  /\ exists n, nodes s !! nid = Some n /\ n_locked n = false.

Lemma unlockedAt_ext nid k s s' :
  keys s' = keys s -> roomId s' = roomId s -> nodes s' = nodes s ->
  unlockedAt nid k s -> unlockedAt nid k s'.
Proof. unfold unlockedAt. intros -> -> ->. auto. Qed.

Lemma unlockedAt_node nid k id f s :
  (forall n, n_locked (f n) = n_locked n /\ n_kind (f n) = n_kind n) ->
  unlockedAt nid k s -> unlockedAt nid k (set_nodes (alter f id (nodes s)) s).
Proof.
  intros Hf (Hk & Hr & n & Hn & Hl). split; [exact Hk|]. split; [exact Hr|].
  cbn. destruct (decide (id = nid)) as [->|Hne].
  - exists (f n). rewrite lookup_alter_eq, Hn. split; [reflexivity|].
    rewrite (proj1 (Hf n)). exact Hl.
  - exists n. rewrite lookup_alter_ne by exact Hne. auto.
Qed.

Lemma enter_rest_keeps nid k dir :
  preserves (unlockedAt nid k)
    (updNode nid (set_n_seen true) ;;;
     updPlayer (fun p =>
       match dir with
       | dN => set_pl_y (ROOM_H - 14) p
       | dS => set_pl_y 14 p
       | dW => set_pl_x (ROOM_W - 14) p
       | dE => set_pl_x 14 p
       end) ;;;
     modify (set_bullets []) ;;;
     here <- gets roomId ;;
     spawnRoomContents here).
Proof.
  pose proof (unlockedAt_ext nid k) as Hext.
  pose proof (unlockedAt_node nid k) as Hnode.
  apply preserves_bind; [apply markSeen_keeps; assumption | intros _].
  apply preserves_bind; [apply updPlayer_keeps; assumption | intros _].
  apply preserves_bind.
  { apply preserves_modify. intros s Hs. eapply Hext; [| | | exact Hs]; reflexivity. }
  intros _. apply preserves_bind_gets. intros s0 _.
  apply spawnRoomContents_keeps; assumption.
Qed.

(** [go] toward a locked, uncleared treasure room.  Without a key only
    the message changes; with one, the key is spent, the node is unlocked
    and the player is in the treasure room when [go] returns. *)
Theorem treasure_door_takes_a_key :
  forall node dx dy dir s next,
    nodes s !! roomKey (n_x node + dx) (n_y node + dy) = Some next ->
    lockedTreasure next = true ->
    let s' := exec (go node dx dy dir) s in
    if (keys s <=? 0)%Z then
      s' = set_msgT 1.0 (set_msg "TREASURE LOCKED — NEED KEY" s)
    else
      unlockedAt (roomKey (n_x node + dx) (n_y node + dy)) (keys s - 1) s'.
Proof.
  intros node dx dy dir s next Hn Hl. cbv zeta.
  destruct (keys s <=? 0)%Z eqn:Hk.
  - unfold exec. rewrite (go_need_key node dx dy dir s next Hn Hl); [reflexivity|].
    apply Z.leb_le, Hk.
  - unfold exec, go, getRoomNode. rewrite bind_gets, Hn, Hl, bind_gets, Hk.
    unfold updNode at 1. unfold say at 1. rewrite !bind_modify.
    unfold enter. rewrite bind_modify.
    apply enter_rest_keeps.
    split; [reflexivity|]. split; [reflexivity|].
    exists (set_n_locked false next). cbn.
    rewrite lookup_alter_eq, Hn. split; reflexivity.
Qed.

End FreedomTreasure.

Section FreedomShield.
Context `{Env}.

(** A hit the shield can take whole: the shield pays, and nothing else
    happens (no loss of hit points, no invulnerability frames, no shake). *)
Theorem shield_absorbs_whole_hit :
  forall dmg src s,
    pl_invT (player s) <= 0 -> 0 < dmg -> dmg <= pl_shield (player s) ->
    let take := Qminb (pl_shield (player s)) dmg in
    take == dmg
    /\ exec (damagePlayer dmg src) s
       = set_player (set_pl_shieldDelay 1.8
                       (set_pl_shield (pl_shield (player s) - take) (player s))) s.
Proof.
  intros dmg src s Hi Hd Hs. cbv zeta.
  assert (Ht : Qminb (pl_shield (player s)) dmg == dmg) by (apply Qminb_le_r, Hs).
  split; [exact Ht|].
  unfold exec, damagePlayer. rewrite bind_gets.
  rewrite (Qltb_ge _ _ Hi).
  rewrite (Qltb_lt' 0 (pl_shield (player s))) by (eapply Qlt_le_trans; eassumption).
  unfold bind at 1. unfold bind at 1. unfold updPlayer at 1.
  unfold modify at 1. unfold ret at 1. cbv beta zeta. cbn [fst snd].
  rewrite Qltb_ge; [reflexivity|].
  rewrite Ht. lra.
Qed.

End FreedomShield.

Section FreedomHp.
Context `{Env}.

(** Hit points are not negative, and if they are used up now, the game is
    over. *)
Definition hpFloor (h0 : Q) (s : State) : Prop :=
  0 <= pl_hp (player s)
  /\ (pl_hp (player s) <= 0 -> 0 < h0 -> mode s = gameover).

Lemma death_check_floor h0 :
  ensures (fun _ : State => True)
    (p <- gets player ;;
     if Qle_bool (pl_hp p) 0 then
       updPlayer (set_pl_hp 0) ;;;
       modify (set_mode gameover) ;;;
       openGameOver
     else ret tt)
    (hpFloor h0).
Proof.
  intros s _. rewrite bind_gets.
  destruct (Qle_bool (pl_hp (player s)) 0) eqn:E.
  - split; [cbn; apply Qle_refl | intros _ _; reflexivity].
  - assert (Hpos : 0 < pl_hp (player s)).
    { apply Qnot_le_lt. intros Hle. apply Qle_bool_iff in Hle. congruence. }
    split; [apply Qlt_le_weak, Hpos|].
    intros Hle. exfalso. apply (Qlt_not_le _ _ Hpos Hle).
Qed.

(** After [damagePlayer] the player's hit points are not negative
    (provided they were not before), and a call that takes the last of
    them leaves the game in mode [gameover]. *)
Theorem damagePlayer_hp_floor :
  forall dmg src s,
    0 <= pl_hp (player s) ->
    let s' := exec (damagePlayer dmg src) s in
    0 <= pl_hp (player s')
    /\ (pl_hp (player s') <= 0 -> 0 < pl_hp (player s) -> mode s' = gameover).
Proof.
  intros dmg src s H0. cbv zeta.
  assert (Hsame : forall s1, pl_hp (player s1) = pl_hp (player s) ->
                    hpFloor (pl_hp (player s)) s1).
  { intros s1 E. split; rewrite E; [exact H0|].
    intros Hle Hpos. exfalso. apply (Qlt_not_le _ _ Hpos Hle). }
  change (hpFloor (pl_hp (player s)) (exec (damagePlayer dmg src) s)).
  unfold exec, damagePlayer. rewrite bind_gets.
  destruct (Qltb 0 (pl_invT (player s))); [apply Hsame; reflexivity|].
  assert (Htail : forall rem s1,
            pl_hp (player s1) = pl_hp (player s) ->
            hpFloor (pl_hp (player s))
              (snd ((if Qltb 0 rem then
                       updPlayer (fun p =>
                         set_pl_shieldDelay 2.2
                           (set_pl_invT (pl_rollIframes p)
                              (set_pl_hp (pl_hp p - rem) p))) ;;;
                       match src with
                       | Some (sx, sy) =>
                           updPlayer (fun p =>
                             let '(nx, ny, _) := norm (pl_x p - sx) (pl_y p - sy) in
                             set_pl_vy (pl_vy p + ny * 120)
                               (set_pl_vx (pl_vx p + nx * 120) p))
                       | None => ret tt
                       end ;;;
                       shake 5 0.12 ;;;
                       hitstop 0.05 ;;;
                       forM_ (seq 0 10) (fun _ =>
                         p <- gets player ;; sparkAt (pl_x p) (pl_y p) 120 0.22) ;;;
                       p <- gets player ;;
                       if Qle_bool (pl_hp p) 0 then
                         updPlayer (set_pl_hp 0) ;;;
                         modify (set_mode gameover) ;;;
                         openGameOver
                       else ret tt
                     else ret tt) s1))).
  { intros rem s1 E. destruct (Qltb 0 rem); [|apply Hsame, E].
    assert (Hgo : ensures (fun _ : State => True)
              (updPlayer (fun p =>
                 set_pl_shieldDelay 2.2
                   (set_pl_invT (pl_rollIframes p) (set_pl_hp (pl_hp p - rem) p))) ;;;
               match src with
               | Some (sx, sy) =>
                   updPlayer (fun p =>
                     let '(nx, ny, _) := norm (pl_x p - sx) (pl_y p - sy) in
                     set_pl_vy (pl_vy p + ny * 120) (set_pl_vx (pl_vx p + nx * 120) p))
               | None => ret tt
               end ;;;
               shake 5 0.12 ;;;
               hitstop 0.05 ;;;
               forM_ (seq 0 10) (fun _ =>
                 p <- gets player ;; sparkAt (pl_x p) (pl_y p) 120 0.22) ;;;
               p <- gets player ;;
               if Qle_bool (pl_hp p) 0 then
                 updPlayer (set_pl_hp 0) ;;;
                 modify (set_mode gameover) ;;;
                 openGameOver
               else ret tt)
              (hpFloor (pl_hp (player s)))).
    { do 5 (eapply ensures_bind with (P' := fun _ => True);
            [intros ? ?; exact I | intros _]).
      apply death_check_floor. }
    apply Hgo. exact I. }
  destruct (Qltb 0 (pl_shield (player s))).
  - unfold bind at 1. unfold bind at 1. unfold updPlayer at 1.
    unfold modify at 1. unfold ret at 1. cbv beta zeta. cbn [fst snd].
    apply Htail. reflexivity.
  - unfold bind at 1. unfold ret at 1. cbv beta zeta. cbn [fst snd].
    apply Htail. reflexivity.
Qed.

End FreedomHp.

Section FreedomRolls.
Context `{Env}.

(** [pick] returns an element of a list that is not empty. *)
Lemma pick_elem (pool : list string) s :
  pool <> [] -> (Z.of_nat (length pool) < 2 ^ 31)%Z -> eval (pick pool) s ∈ pool.
Proof.
  intros Hne Hlt. unfold eval, pick, bind, ret. cbn [fst snd].
  assert (Hlen : (1 <= Z.of_nat (length pool))%Z) by (destruct pool; [congruence | cbn; lia]).
  set (i := fst (randi 0 (inject_Z (Z.of_nat (length pool)) - 1) s)).
  assert (Hr : (0 <= i < Z.of_nat (length pool))%Z).
  { unfold i, randi, randf, bind, ret. cbn [fst snd].
    destruct (random_unit (draws s)) as [H0 H1].
    set (u := random (draws s)) in *.
    set (n := Z.of_nat (length pool)) in *.
    assert (Hn' : 1 <= inject_Z n).
    { change 1 with (inject_Z 1). rewrite <- Zle_Qle. exact Hlen. }
    set (q := 0 + u * (inject_Z n - 1 - 0 + 1)).
    assert (Hlo : inject_Z 0 <= q) by (unfold q; change (inject_Z 0) with 0; nra).
    assert (Hhi : q < inject_Z n) by (unfold q; nra).
    unfold toInt32. rewrite truncQ_nonneg by (unfold q; nra).
    apply Qfloor_ge_Z in Hlo. apply Qfloor_lt_Z in Hhi.
    rewrite toInt32_small by lia. lia. }
  unfold arrGet. destruct (0 <=? i)%Z eqn:E; [|lia].
  destruct (lookup_lt_is_Some_2 pool (Z.to_nat i)) as [x Hx]; [lia|].
  rewrite Hx. cbn. eapply list_elem_of_lookup_2, Hx.
Qed.


End FreedomRolls.

Lemma bullet_pierce_witness :
  hits (H:=demoEnv) (1 # 60) openRoom railShot1 arena = true
  /\ eval (stepBullet (H:=demoEnv) (1 # 60) openRoom railShot1) arena = None.
Proof.
  assert (Hf : flight (H:=demoEnv) railShot 1 railShot1).
  { change 1%nat with
      (0 + (if hits (H:=demoEnv) (1 # 60) openRoom railShot arena
            then 1 else 0))%nat.
    apply flight_pass with (b1 := railShot); [apply flight_start|].
    vm_compute. reflexivity. }
  assert (Hh : hits (H:=demoEnv) (1 # 60) openRoom railShot1 arena = true)
    by (vm_compute; reflexivity).
  split; [exact Hh|].
  destruct (bullet_destroyed_on_hit_after_pierce (H:=demoEnv)
              railShot 1 railShot1 (1 # 60) openRoom arena eq_refl
              ltac:(vm_compute; discriminate) Hf) as (_ & Hgone & _).
  apply (Hgone Hh). reflexivity.
Defined.

Lemma treasure_door_witness :
  unlockedAt "0,-1" 0 (exec (go (H:=demoEnv) startNode 0 (-1) dN) twoRooms).
Proof.
  exact (treasure_door_takes_a_key (H:=demoEnv) startNode 0 (-1) dN twoRooms
           vaultNode eq_refl eq_refl).
Defined.

Lemma shield_absorbs_witness :
  pl_hp (player (exec (damagePlayer (H:=demoEnv) 10 None) state0)) = 100
  /\ pl_shield (player (exec (damagePlayer (H:=demoEnv) 10 None) state0)) == 25.
Proof.
  destruct (shield_absorbs_whole_hit (H:=demoEnv) 10 None state0) as [_ E];
    [vm_compute; discriminate | reflexivity | vm_compute; discriminate |].
  rewrite E. split; reflexivity.
Defined.

Lemma hp_floor_witness :
  mode (exec (damagePlayer (H:=demoEnv) 500 None) state0) = gameover.
Proof.
  destruct (damagePlayer_hp_floor (H:=demoEnv) 500 None state0) as [_ Hd];
    [vm_compute; discriminate|].
  apply Hd; [vm_compute; discriminate | reflexivity].
Defined.

End FreedomProps.

(** * FREEDOM ([src/unnamed/part_001]): what a kill pays *)

Module FreedomKills.
Import Freedom.
Local Open Scope Q_scope.


Create HintDb tally discriminated.

Section FreedomKill.
Context `{Env}.

(** The drops and effects of a kill: [killEnemy] after the enemy has been
    marked dead and score and money have been paid out. *)
Definition afterKill (e : Enemy) : M State unit :=
  luck <- gets (fun s => pl_luck (player s)) ;;
  c1 <- chance (0.18 + luck * 0.10) ;;
  (if c1 then n <- randi 4 10 ;;
              pushPickup (makePickup pkCoin (e_x e) (e_y e) (inject_Z n) noMeta)
   else ret tt) ;;;
  c2 <- chance (0.10 + luck * 0.08) ;;
  when c2 (dropNear pkHp e 18) ;;;
  c3 <- chance (0.09 + luck * 0.06) ;;
  when c3 (dropNear pkShield e 16) ;;;
  c4 <- chance (0.06 + luck * 0.06) ;;
  when c4 (dropNear pkAmmo e 22) ;;;
  (if e_elite e then
     c5 <- chance 0.85 ;;
     if c5 then it <- rollItemId 2 ;;
                pushPickup (makePickup pkItem (e_x e) (e_y e) 1 (metaItem it))
     else ret tt
   else ret tt) ;;;
  (if bool_decide (e_kind e = boss_proxy) then
     modify (set_bossAlive false) ;;;
     pushPickup (makePickup pkPortal (ROOM_W * 0.5) (ROOM_H * 0.45) 1 noMeta) ;;;
     it <- rollItemId 3 ;;
     pushPickup (makePickup pkItem (e_x e) (e_y e) 1 (metaItem it)) ;;;
     wp <- rollWeaponId 3 ;;
     pushPickup (makePickup pkWeapon (e_x e + 18) (e_y e) 1 (metaWeapon wp)) ;;;
     shake 10 0.25 ;;;
     hitstop 0.08 ;;;
     say "BOSS DEFEATED — PORTAL OPEN" 2.0
   else ret tt) ;;;
  forM_ (seq 0 16) (fun _ => sparkAt (e_x e) (e_y e) 160 0.35) ;;;
  shake 3.5 0.10.

Lemma killEnemy_unfold i e :
  killEnemy i e
  = (updEnemy i (set_e_alive false) ;;;
     modify (fun s => set_score (score s + scoreOf e) s) ;;;
     m <- randi 2 6 ;;
     modify (fun s => set_money (money s + (inject_Z m + (if e_elite e then 10 else 0))) s) ;;;
     afterKill e).
Proof. reflexivity. Qed.

(** A property of the state that looks only at the score, the money and
    the enemies. *)
Variable P : State -> Prop.
Hypothesis P_ext : forall s s',
  score s' = score s -> money s' = money s -> enemies s' = enemies s ->
  P s -> P s'.

Ltac leaf :=
  pres;
  lazymatch goal with
  | |- preserves _ (modify _) =>
      apply preserves_modify; intros ? ?;
      (eapply P_ext; [| | | eassumption]; reflexivity)
  | |- _ => solve [eauto with tally]
  end.

Lemma randf_tally : preserves P randf.
Proof. intros s Hs. eapply P_ext; [| | | exact Hs]; reflexivity. Qed.
#[local] Hint Resolve randf_tally : tally.

Lemma rand_tally a b : preserves P (rand a b).
Proof. unfold rand. leaf. Qed.
Lemma randi_tally a b : preserves P (randi a b).
Proof. unfold randi. leaf. Qed.
Lemma chance_tally p : preserves P (chance p).
Proof. unfold chance. leaf. Qed.
#[local] Hint Resolve rand_tally randi_tally chance_tally : tally.

Lemma pushPickup_tally p : preserves P (pushPickup p).
Proof. unfold pushPickup. leaf. Qed.
Lemma pushFx_tally f : preserves P (pushFx f).
Proof. unfold pushFx. leaf. Qed.
Lemma say_tally m t : preserves P (say m t).
Proof. unfold say. leaf. Qed.
Lemma shake_tally a t : preserves P (shake a t).
Proof. unfold shake, updCam. leaf. Qed.
Lemma updPlayer_tally f : preserves P (updPlayer f).
Proof. unfold updPlayer. leaf. Qed.
#[local] Hint Resolve pushPickup_tally pushFx_tally say_tally shake_tally
  updPlayer_tally : tally.

Lemma hitstop_tally t : preserves P (hitstop t).
Proof. unfold hitstop. leaf. Qed.
Lemma sparkAt_tally x y r c : preserves P (sparkAt x y r c).
Proof. unfold sparkAt. leaf. Qed.
Lemma dropNear_tally t e a : preserves P (dropNear t e a).
Proof. unfold dropNear. leaf. Qed.
Lemma pick_tally pool : preserves P (pick pool).
Proof. unfold pick. leaf. Qed.
#[local] Hint Resolve hitstop_tally sparkAt_tally dropNear_tally pick_tally : tally.

Lemma rollItemId_tally t : preserves P (rollItemId t).
Proof. unfold rollItemId. leaf. Qed.
Lemma rollWeaponId_tally t : preserves P (rollWeaponId t).
Proof. unfold rollWeaponId. leaf. Qed.

#[local] Hint Resolve rollItemId_tally rollWeaponId_tally : tally.

Lemma afterKill_tally e : preserves P (afterKill e).
Proof. unfold afterKill. leaf. Qed.

End FreedomKill.

Section FreedomKillCount.
Context `{Env}.

Definition tally (sc mo : Q) (es : list Enemy) (s : State) : Prop :=
  score s = sc /\ money s = mo /\ enemies s = es.

Lemma tally_ext sc mo es s s' :
  score s' = score s -> money s' = money s -> enemies s' = enemies s ->
  tally sc mo es s -> tally sc mo es s'.
Proof. unfold tally. intros -> -> ->. auto. Qed.

Lemma randi_2_6 s :
  (2 <= fst (randi 2 6 s) <= 6)%Z
  /\ score (snd (randi 2 6 s)) = score s
  /\ money (snd (randi 2 6 s)) = money s
  /\ enemies (snd (randi 2 6 s)) = enemies s.
Proof.
  split; [| repeat split; reflexivity].
  unfold randi, randf, bind, ret. cbn [fst snd].
  destruct (random_unit (draws s)) as [H0 H1].
  apply (toInt32_scaled 2 6); try assumption; lia.
Qed.

(** A kill pays the enemy's score once and between 2 and 6 coins, ten
    more for an elite, and marks the enemy dead. *)
Lemma killEnemy_spec i e s :
  exists m, (2 <= m <= 6)%Z
    /\ score (snd (killEnemy i e s)) = score s + scoreOf e
    /\ money (snd (killEnemy i e s))
       = money s + (inject_Z m + (if e_elite e then 10 else 0))
    /\ enemies (snd (killEnemy i e s)) = alter (set_e_alive false) i (enemies s).
Proof.
  rewrite killEnemy_unfold. unfold updEnemy. rewrite !bind_modify. cbv beta.
  set (s2 := set_score _ _).
  destruct (randi_2_6 s2) as (Hm & R1 & R2 & R3).
  destruct (randi 2 6 s2) as [m s3] eqn:E.
  rewrite (bind_run _ _ _ _ _ E). cbn [fst snd] in *.
  rewrite bind_modify. cbv beta.
  set (s4 := set_money _ s3).
  pose proof (afterKill_tally _ (tally_ext (score s4) (money s4) (enemies s4)) e s4
                (conj eq_refl (conj eq_refl eq_refl))) as (T1 & T2 & T3).
  exists m. split; [exact Hm|].
  rewrite T1, T2, T3. unfold s4. cbn [score money enemies set_money].
  rewrite R1, R2, R3. unfold s2. cbn [score money enemies set_score set_enemies].
  auto.
Qed.

(** The enemy in slot [i] has been hit but is still marked alive; score
    and money are as before the hit. *)
Definition wounded (i : nat) (e : Enemy) (hp : Q) (sc mo : Q) (s : State) : Prop :=
  score s = sc /\ money s = mo
  /\ exists e1, enemies s !! i = Some e1
       /\ e_alive e1 = true /\ e_hp e1 = hp
       /\ e_score e1 = e_score e /\ e_elite e1 = e_elite e.

Lemma wounded_ext i e hp sc mo s s' :
  score s' = score s -> money s' = money s -> enemies s' = enemies s ->
  wounded i e hp sc mo s -> wounded i e hp sc mo s'.
Proof. unfold wounded. intros -> -> ->. auto. Qed.

Lemma wounded_upd i e hp sc mo f :
  (forall x, e_alive (f x) = e_alive x /\ e_hp (f x) = e_hp x
             /\ e_score (f x) = e_score x /\ e_elite (f x) = e_elite x) ->
  preserves (wounded i e hp sc mo) (updEnemy i f).
Proof.
  intros Hf s (Hs & Hm & e1 & He & Ha & Hh & Hsc & Hel).
  unfold updEnemy, modify. cbn [snd].
  split; [exact Hs|]. split; [exact Hm|].
  exists (f e1). cbn [enemies set_enemies].
  rewrite list_lookup_alter_eq, He. cbn.
  destruct (Hf e1) as (F1 & F2 & F3 & F4).
  rewrite F1, F2, F3, F4. auto.
Qed.

Ltac wound :=
  pres;
  first [ apply wounded_upd; intros ?; repeat split; reflexivity
        | apply (chance_tally _ (wounded_ext _ _ _ _ _))
        | apply (updPlayer_tally _ (wounded_ext _ _ _ _ _)) ].

Lemma dead_is_ignored i d fb s e :
  enemies s !! i = Some e -> e_alive e = false ->
  damageEnemy i d fb s = (tt, s).
Proof.
  intros He Ha. unfold damageEnemy. rewrite bind_gets, He, Ha. reflexivity.
Qed.

(** A hit on a living enemy takes [dmg * (1 - armor)] off its hit points.
    If that uses them up the enemy is marked dead, its score is paid once
    and between 2 and 6 coins (ten more for an elite) are added, and every
    later hit on it is ignored; otherwise it stays alive and score and
    money are untouched. *)
Theorem kill_is_paid_once :
  forall i dmg fb s e,
    enemies s !! i = Some e -> e_alive e = true ->
    let hp' := e_hp e - dmg * (1 - default 0 (e_armor e)) in
    let s' := exec (damageEnemy i dmg fb) s in
    exists e',
      enemies s' !! i = Some e' /\ e_hp e' = hp'
      /\ if Qle_bool hp' 0 then
           e_alive e' = false
           /\ score s' = score s + scoreOf e
           /\ (exists m, (2 <= m <= 6)%Z
                 /\ money s' = money s + (inject_Z m + (if e_elite e then 10 else 0)))
           /\ forall d2 fb2, damageEnemy i d2 fb2 s' = (tt, s')
         else e_alive e' = true /\ score s' = score s /\ money s' = money s.
Proof.
  intros i dmg fb s e He Ha hp' s'.
  assert (Hpost : ensures (fun s0 => s0 = s) (damageEnemy i dmg fb)
            (fun s' => exists e',
               enemies s' !! i = Some e' /\ e_hp e' = hp'
               /\ if Qle_bool hp' 0 then
                    e_alive e' = false
                    /\ score s' = score s + scoreOf e
                    /\ (exists m, (2 <= m <= 6)%Z
                          /\ money s' = money s
                                         + (inject_Z m + (if e_elite e then 10 else 0)))
                  else e_alive e' = true /\ score s' = score s /\ money s' = money s)).
  { unfold damageEnemy.
    apply ensures_bind_gets. intros s0 ->. rewrite He, Ha. cbn [negb]. cbv zeta.
    fold hp'.
    apply ensures_bind with (P' := wounded i e hp' (score s) (money s)).
    { intros s0 ->. unfold updEnemy, modify. cbn [snd].
      split; [reflexivity|]. split; [reflexivity|].
      eexists. cbn [enemies set_enemies].
      rewrite list_lookup_alter_eq, He. cbn. split; [reflexivity|].
      repeat split; try reflexivity. exact Ha. }
    intros _. apply ensures_bind_gets. intros s0 _.
    apply ensures_bind with (P' := wounded i e hp' (score s) (money s)).
    { apply preserves_ensures. wound. }
    intros _.
    apply ensures_bind with (P' := wounded i e hp' (score s) (money s)).
    { apply preserves_ensures. destruct fb as [b|]; [| apply preserves_ret].
      cbv zeta. wound. }
    intros _. intros s1 (Hs & Hm & e1 & He1 & Ha1 & Hh1 & Hsc1 & Hel1).
    rewrite bind_gets, He1, Hh1.
    assert (Hso : scoreOf e1 = scoreOf e) by (unfold scoreOf; rewrite Hsc1; reflexivity).
    destruct (Qle_bool hp' 0) eqn:Ehp.
    - destruct (killEnemy_spec i e1 s1) as (m & Hm6 & K1 & K2 & K3).
      exists (set_e_alive false e1).
      rewrite K3, list_lookup_alter_eq, He1. cbn [fmap option_fmap option_map].
      split; [reflexivity|]. split; [exact Hh1|].
      split; [reflexivity|]. rewrite K1, K2, Hs, Hm, Hso, Hel1.
      split; [reflexivity|]. exists m. auto.
    - exists e1. unfold ret. cbn [snd]. auto. }
  destruct (Hpost s eq_refl) as (e' & Hl & Hh & Hrest).
  exists e'. split; [exact Hl|]. split; [exact Hh|].
  fold s' in Hrest. destruct (Qle_bool hp' 0); [| exact Hrest].
  destruct Hrest as (Hd & Hs & Hm). repeat split; try assumption.
  intros d2 fb2. apply (dead_is_ignored i d2 fb2 _ e'); assumption.
Qed.

End FreedomKillCount.

Lemma kill_witness :
  enemies FreedomExamples.arena !! 0%nat = Some FreedomExamples.dummy
  /\ e_alive FreedomExamples.dummy = true
  /\ exists e',
       enemies (exec (damageEnemy (H:=FreedomExamples.demoEnv) 0 5000 None)
                  FreedomExamples.arena) !! 0%nat = Some e'
       /\ e_alive e' = false
       /\ score (exec (damageEnemy (H:=FreedomExamples.demoEnv) 0 5000 None)
                   FreedomExamples.arena)
          = score FreedomExamples.arena + 45.
Proof.
  split; [reflexivity|]. split; [reflexivity|].
  destruct (kill_is_paid_once (H:=FreedomExamples.demoEnv) 0 5000 None
              FreedomExamples.arena FreedomExamples.dummy eq_refl eq_refl)
    as (e' & Hl & _ & Hk).
  exists e'. split; [exact Hl|].
  change (Qle_bool (e_hp FreedomExamples.dummy
                    - 5000 * (1 - default 0 (e_armor FreedomExamples.dummy))) 0)
    with true in Hk.
  destruct Hk as (Hd & Hs & _). split; [exact Hd | exact Hs].
Defined.

End FreedomKills.

(** * FREEDOM ([src/unnamed/part_001]): a room is stocked once *)

Module FreedomSpawns.
Import Freedom.
Local Open Scope Q_scope.


Create HintDb spawn discriminated.

Section FreedomSpawnFrame.
Context `{Env}.

(** A property of the state that looks only at the enemies, the rooms,
    the nodes and the floor number. *)
Variable P : State -> Prop.
Hypothesis P_ext : forall s s',
  enemies s' = enemies s -> rooms s' = rooms s -> nodes s' = nodes s ->
  floor s' = floor s -> P s -> P s'.

Ltac leaf :=
  pres;
  lazymatch goal with
  | |- preserves _ (modify _) =>
      apply preserves_modify; intros ? ?;
      (eapply P_ext; [| | | | eassumption]; reflexivity)
  | |- _ => solve [eauto with spawn]
  end.

Lemma randf_spawn : preserves P randf.
Proof. intros s Hs. eapply P_ext; [| | | | exact Hs]; reflexivity. Qed.
#[local] Hint Resolve randf_spawn : spawn.

Lemma rand_spawn a b : preserves P (rand a b).
Proof. unfold rand. leaf. Qed.
Lemma randi_spawn a b : preserves P (randi a b).
Proof. unfold randi. leaf. Qed.
Lemma chance_spawn p : preserves P (chance p).
Proof. unfold chance. leaf. Qed.
#[local] Hint Resolve rand_spawn randi_spawn chance_spawn : spawn.

Lemma decorate_spawn : preserves P decorate.
Proof. unfold decorate. leaf. Qed.
Lemma pushPickup_spawn p : preserves P (pushPickup p).
Proof. unfold pushPickup. leaf. Qed.
Lemma say_spawn m t : preserves P (say m t).
Proof. unfold say. leaf. Qed.
Lemma makeEnemy_spawn k x y t : preserves P (makeEnemy k x y t).
Proof. unfold makeEnemy. leaf. Qed.
Lemma bossAlive_spawn b : preserves P (modify (set_bossAlive b)).
Proof. leaf. Qed.

End FreedomSpawnFrame.

Section FreedomSpawn.
Context `{Env}.
Variable id : string.

(** The room [id] has its node, is marked as spawned, its door flags
    satisfy [D] and the enemies are [E]. *)
Definition spawnedWith (E : list Enemy) (D : Doors -> Prop) (s : State) : Prop :=
  enemies s = E /\ is_Some (nodes s !! id)
  /\ exists r, rooms s !! id = Some r /\ r_spawnDone r = true /\ D (r_doorsOpen r).

Lemma spawnedWith_ext E D s s' :
  enemies s' = enemies s -> rooms s' = rooms s -> nodes s' = nodes s ->
  floor s' = floor s -> spawnedWith E D s -> spawnedWith E D s'.
Proof. unfold spawnedWith. intros -> -> -> _. auto. Qed.

Lemma updRoom_spawnedWith E D D' f :
  (forall r, r_spawnDone (f r) = r_spawnDone r) ->
  (forall r, D (r_doorsOpen r) -> D' (r_doorsOpen (f r))) ->
  ensures (spawnedWith E D) (updRoom id f) (spawnedWith E D').
Proof.
  intros Hf Hd s (He & Hn & r & Hr & Hs & HD). unfold updRoom, modify. cbn [snd].
  split; [exact He|]. split; [exact Hn|].
  exists (f r). cbn [rooms set_rooms]. rewrite lookup_alter_eq, Hr.
  split; [reflexivity|]. rewrite Hf. auto.
Qed.

Lemma updNode_spawnedWith E D f : preserves (spawnedWith E D) (updNode id f).
Proof.
  intros s (He & Hn & Hr). unfold updNode, modify. cbn [snd].
  split; [exact He|]. split; [| exact Hr].
  cbn [nodes set_nodes]. rewrite lookup_alter_eq. apply fmap_is_Some, Hn.
Qed.

Lemma openToNeighbors_spawnedWith E D :
  ensures (spawnedWith E D) (openToNeighbors id) (spawnedWith E (fun _ => True)).
Proof.
  unfold openToNeighbors. apply updRoom_spawnedWith; [reflexivity | auto].
Qed.

Lemma pushEnemy_spawnedWith E D e :
  ensures (spawnedWith E D) (pushEnemy e) (spawnedWith (E ++ [e]) D).
Proof.
  intros s (He & Hn & Hr). unfold pushEnemy, modify. cbn [snd].
  split; [cbn; rewrite He; reflexivity|]. split; assumption.
Qed.

Ltac quiet :=
  apply preserves_ensures;
  first [ apply rand_spawn | apply randi_spawn | apply chance_spawn
        | apply makeEnemy_spawn | apply say_spawn | apply pushPickup_spawn
        | apply bossAlive_spawn | apply decorate_spawn ];
  apply spawnedWith_ext.

Lemma spawnOne_spawnedWith E D kind t :
  ensures (spawnedWith E D) (spawnOne kind t)
    (fun s' => exists e, spawnedWith (E ++ [e]) D s').
Proof.
  unfold spawnOne.
  apply ensures_bind with (P' := spawnedWith E D); [quiet | intros x].
  apply ensures_bind with (P' := spawnedWith E D); [quiet | intros y].
  apply ensures_bind_gets. intros s0 _. cbv zeta.
  apply ensures_bind with (P' := spawnedWith E D); [quiet | intros i].
  apply ensures_bind with (P' := spawnedWith E D); [quiet | intros e].
  apply ensures_bind with (P' := spawnedWith E D).
  { destruct (bool_decide (kind = elite)); [| apply preserves_ensures, preserves_ret].
    apply ensures_bind with (P' := spawnedWith E D); [quiet | intros c].
    apply preserves_ensures, preserves_ret. }
  intros e' s Hs. exists e'. apply pushEnemy_spawnedWith, Hs.
Qed.

Lemma spawnLoop_spawnedWith D kind t (l : list nat) :
  forall E,
    ensures (spawnedWith E D) (forM_ l (fun _ => spawnOne kind t))
      (fun s' => exists es, length es = length l /\ spawnedWith (E ++ es) D s').
Proof.
  induction l as [|x l IH]; intros E; cbn [forM_].
  - intros s Hs. exists []. rewrite app_nil_r. split; [reflexivity | exact Hs].
  - intros s Hs. unfold bind. cbv zeta.
    destruct (spawnOne_spawnedWith E D kind t s Hs) as (e & He).
    destruct (IH (E ++ [e]) _ He) as (es & Hl & Hes).
    exists (e :: es). split; [cbn; rewrite Hl; reflexivity|].
    rewrite <- app_assoc in Hes. exact Hes.
Qed.

Lemma getRoom_have r s : rooms s !! id = Some r -> getRoom id s = (Some r, s).
Proof. intros Hr. unfold getRoom. rewrite bind_gets, Hr. reflexivity. Qed.

Lemma spawned_again E D s :
  spawnedWith E D s -> spawnRoomContents id s = (tt, s).
Proof.
  intros (_ & [n Hn] & r & Hr & Hs & _). unfold spawnRoomContents, getRoomNode.
  rewrite bind_gets, Hn, (bind_run _ _ _ _ _ (getRoom_have r s Hr)), Hs.
  reflexivity.
Qed.

Lemma Qceiling_count (a f : Z) :
  Qceiling (inject_Z a + inject_Z f * 2) = (a + f * 2)%Z.
Proof.
  rewrite <- (Qceiling_Z (a + f * 2)). apply Qceiling_comp.
  rewrite inject_Z_plus, inject_Z_mult. reflexivity.
Qed.

Lemma Qceiling_five f : Qceiling (5 + inject_Z f * 2) = (5 + f * 2)%Z.
Proof. exact (Qceiling_count 5 f). Qed.

Lemma Qceiling_seven f : Qceiling (7 + inject_Z f * 2) = (7 + f * 2)%Z.
Proof. exact (Qceiling_count 7 f). Qed.

(** How many enemies an uncleared combat room of the given kind gets on
    floor [fl]. *)
Definition headcount (kind : Kind) (fl : Z) : nat :=
  match kind with
  | boss => 1
  | elite => Z.to_nat (7 + fl * 2)
  | _ => Z.to_nat (5 + fl * 2)
  end.

(** The part of [spawnRoomContents] that follows the decals. *)
Definition stock (node : Node) (room : Room) : M State unit :=
  let kind := n_kind node in
  if bool_decide (kind = key) && negb (n_cleared node) then
    pushPickup (makePickup pkKey (ROOM_W * 0.5) (ROOM_H * 0.5) 1 noMeta) ;;;
    updNode id (set_n_cleared true) ;;;
    updRoom id (set_r_cleared true) ;;;
    openToNeighbors id
  else if bool_decide (kind = treasure) && negb (n_cleared node) then
    pushPickup (makePickup pkChest (ROOM_W * 0.5) (ROOM_H * 0.5) 1 (metaOpened false)) ;;;
    openToNeighbors id
  else if bool_decide (kind = shop) && negb (n_cleared node) then
    forM_ (seq 0 (length (r_shopItems room))) (fun i =>
      pushPickup (makePickup pkShop
                    (ROOM_W * 0.5 + (inject_Z (Z.of_nat i) - 1) * 44)
                    (ROOM_H * 0.5 + 10) 1 (metaIdx (Z.of_nat i)))) ;;;
    openToNeighbors id ;;;
    updNode id (set_n_cleared true) ;;;
    updRoom id (set_r_cleared true)
  else if negb (isCombat kind) || n_cleared node then
    openToNeighbors id
  else
    updRoom id (set_r_doorsOpen (allDoors false)) ;;;
    fl <- gets (fun s => inject_Z (floor s)) ;;
    let baseTier := 1 + inject_Z (Qfloor ((fl - 1) * 0.45)) in
    let count :=
      match kind with
      | boss => 1
      | elite => 7 + fl * 2
      | _ => 5 + fl * 2
      end in
    if bool_decide (kind = boss) then
      b <- makeEnemy boss_proxy (ROOM_W * 0.5) (ROOM_H * 0.45) baseTier ;;
      pushEnemy b ;;;
      modify (set_bossAlive true) ;;;
      say "BOSS: MIRROR EXECUTOR" 1.6
    else
      forM_ (seq 0 (Z.to_nat (Qceiling count))) (fun _ => spawnOne kind baseTier) ;;;
      say (if bool_decide (kind = elite) then "ELITE SECTOR" else "CLEAR THE ROOM") 1.2.

(** What [stock] leaves: the room still marked as spawned; in an
    uncleared combat room all doors shut and [headcount] more enemies, in
    any other room the enemies as they were. *)
Definition stocked (node : Node) (E : list Enemy) (fl : Z) (s' : State) : Prop :=
  if isCombat (n_kind node) && negb (n_cleared node)
  then exists es, length es = headcount (n_kind node) fl
                  /\ spawnedWith (E ++ es) (fun d => d = allDoors false) s'
  else spawnedWith E (fun _ => True) s'.

Lemma stock_quiet node E (m : M State unit) :
  isCombat (n_kind node) && negb (n_cleared node) = false ->
  ensures (spawnedWith E (fun _ => True)) m (spawnedWith E (fun _ => True)) ->
  forall fl s, spawnedWith E (fun _ => True) s -> stocked node E fl (snd (m s)).
Proof. intros Hc Hm fl s Hs. unfold stocked. rewrite Hc. apply Hm, Hs. Qed.

Ltac calm :=
  first [ apply (updNode_spawnedWith _ (fun _ => True))
        | apply (openToNeighbors_spawnedWith _ (fun _ => True))
        | apply (updRoom_spawnedWith _ (fun _ => True) (fun _ => True));
          [reflexivity | auto]
        | quiet ].

Lemma stock_spec node room E s :
  spawnedWith E (fun _ => True) s ->
  stocked node E (floor s) (snd (stock node room s)).
Proof.
  intros Hs. unfold stock. cbv zeta.
  destruct (bool_decide (n_kind node = key) && negb (n_cleared node)) eqn:B1.
  { apply (stock_quiet node); [| | exact Hs].
    - apply andb_true_iff in B1 as [B1 _]. apply bool_decide_eq_true in B1.
      rewrite B1. reflexivity.
    - repeat (apply ensures_bind with (P' := spawnedWith E (fun _ => True));
              [calm | intros _]). calm. }
  destruct (bool_decide (n_kind node = treasure) && negb (n_cleared node)) eqn:B2.
  { apply (stock_quiet node); [| | exact Hs].
    - apply andb_true_iff in B2 as [B2 _]. apply bool_decide_eq_true in B2.
      rewrite B2. reflexivity.
    - repeat (apply ensures_bind with (P' := spawnedWith E (fun _ => True));
              [calm | intros _]). calm. }
  destruct (bool_decide (n_kind node = shop) && negb (n_cleared node)) eqn:B3.
  { apply (stock_quiet node); [| | exact Hs].
    - apply andb_true_iff in B3 as [B3 _]. apply bool_decide_eq_true in B3.
      rewrite B3. reflexivity.
    - apply ensures_bind with (P' := spawnedWith E (fun _ => True)).
      { apply preserves_ensures, preserves_forM. intros i.
        apply pushPickup_spawn, spawnedWith_ext. }
      intros _.
      repeat (apply ensures_bind with (P' := spawnedWith E (fun _ => True));
              [calm | intros _]). calm. }
  destruct (negb (isCombat (n_kind node)) || n_cleared node) eqn:B4.
  { apply (stock_quiet node); [| calm | exact Hs].
    destruct (isCombat (n_kind node)), (n_cleared node); try reflexivity.
    discriminate B4. }
  assert (Hc : isCombat (n_kind node) && negb (n_cleared node) = true).
  { destruct (isCombat (n_kind node)), (n_cleared node); try reflexivity;
      discriminate B4. }
  unfold stocked. rewrite Hc.
  assert (Hs1 : spawnedWith E (fun d => d = allDoors false)
                  (snd (updRoom id (set_r_doorsOpen (allDoors false)) s))).
  { apply (updRoom_spawnedWith E (fun _ => True)); [reflexivity | | exact Hs].
    intros r _. reflexivity. }
  unfold bind at 1. cbv zeta.
  set (s1 := snd (updRoom id (set_r_doorsOpen (allDoors false)) s)) in *.
  rewrite bind_gets.
  assert (Hfl : floor s1 = floor s) by reflexivity. rewrite Hfl.
  destruct (bool_decide (n_kind node = boss)) eqn:Bb.
  - apply bool_decide_eq_true in Bb.
    unfold bind at 1. cbv zeta.
    match goal with
    | |- context [makeEnemy ?k ?x ?y ?t s1] =>
        pose proof (makeEnemy_spawn _ (spawnedWith_ext _ _) k x y t s1 Hs1) as Hs2;
        set (b := fst (makeEnemy k x y t s1)) in *;
        set (s2 := snd (makeEnemy k x y t s1)) in *
    end.
    exists [b]. split; [rewrite Bb; reflexivity|].
    assert (Hrest : ensures (spawnedWith E (fun d => d = allDoors false))
              (pushEnemy b ;;; modify (set_bossAlive true) ;;;
               say "BOSS: MIRROR EXECUTOR" 1.6)
              (spawnedWith (E ++ [b]) (fun d => d = allDoors false))).
    { apply ensures_bind with (P' := spawnedWith (E ++ [b]) (fun d => d = allDoors false));
        [apply pushEnemy_spawnedWith | intros _].
      apply ensures_bind with (P' := spawnedWith (E ++ [b]) (fun d => d = allDoors false));
        [quiet | intros _]. quiet. }
    exact (Hrest s2 Hs2).
  - apply bool_decide_eq_false in Bb.
    unfold bind at 1. cbv zeta.
    match goal with
    | |- context [forM_ ?l (fun _ => spawnOne ?k ?t) s1] =>
        destruct (spawnLoop_spawnedWith (fun d => d = allDoors false) k t l E s1 Hs1)
          as (es & Hl & Hes);
        set (s2 := snd (forM_ l (fun _ => spawnOne k t) s1)) in *
    end.
    exists es. split.
    + rewrite Hl, length_seq. unfold headcount.
      destruct (n_kind node); try congruence;
        rewrite ?Qceiling_five, ?Qceiling_seven; reflexivity.
    + revert Hes. generalize s2. 
      apply (say_spawn _ (spawnedWith_ext _ _)).
Qed.

End FreedomSpawn.

Section FreedomSpawnOnce.
Context `{Env}.

Lemma spawnRoomContents_steps id s node room :
  nodes s !! id = Some node -> rooms s !! id = Some room ->
  r_spawnDone room = false ->
  spawnRoomContents id s
  = (updRoom id (set_r_spawnDone true) ;;;
     extra <- randi 0 10 ;;
     forM_ (seq 0 (Z.to_nat (8 + extra))) (fun _ => decorate) ;;;
     stock id node room) s.
Proof.
  intros Hn Hr Hs. unfold spawnRoomContents, getRoomNode.
  rewrite bind_gets, Hn, (bind_run _ _ _ _ _ (getRoom_have id room s Hr)), Hs.
  reflexivity.
Qed.

(** The state is ready for [stock]: the room is marked, the floor number
    is [fl]. *)
Definition marked (id : string) (E : list Enemy) (fl : Z) (s : State) : Prop :=
  spawnedWith id E (fun _ => True) s /\ floor s = fl.

Lemma marked_ext id E fl s s' :
  enemies s' = enemies s -> rooms s' = rooms s -> nodes s' = nodes s ->
  floor s' = floor s -> marked id E fl s -> marked id E fl s'.
Proof.
  intros He Hr Hn Hf [Hs Hfl]. split; [| congruence].
  exact (spawnedWith_ext id E _ s s' He Hr Hn Hf Hs).
Qed.

Lemma spawnRoomContents_stocked id s node room :
  nodes s !! id = Some node -> rooms s !! id = Some room ->
  r_spawnDone room = false ->
  stocked id node (enemies s) (floor s) (exec (spawnRoomContents id) s).
Proof.
  intros Hn Hr Hs. unfold exec.
  rewrite (spawnRoomContents_steps id s node room Hn Hr Hs).
  unfold updRoom at 1. rewrite bind_modify. cbv beta.
  set (s1 := set_rooms _ s).
  assert (H1 : marked id (enemies s) (floor s) s1).
  { split; [| reflexivity]. split; [reflexivity|]. split; [exists node; exact Hn|].
    exists (set_r_spawnDone true room). unfold s1. cbn [rooms set_rooms].
    rewrite lookup_alter_eq, Hr. auto. }
  pose proof (randi_spawn _ (marked_ext id (enemies s) (floor s)) 0 10 s1 H1) as H2.
  destruct (randi 0 10 s1) as [extra s2] eqn:E2.
  rewrite (bind_run _ _ _ _ _ E2). cbn [snd] in H2.
  assert (H3 : marked id (enemies s) (floor s)
                 (snd (forM_ (seq 0 (Z.to_nat (8 + extra))) (fun _ => decorate) s2))).
  { apply (preserves_forM (marked id (enemies s) (floor s))); [| exact H2].
    intros _. apply decorate_spawn, marked_ext. }
  unfold bind at 1. cbv zeta.
  destruct H3 as [H3 Hfl]. rewrite <- Hfl.
  apply stock_spec, H3.
Qed.

(** A room's contents are spawned once.  The first [spawnRoomContents] for
    a room marks it; in an uncleared combat room it shuts all doors and
    adds one boss, or 5 + 2 * floor enemies, or 7 + 2 * floor in an elite
    room; in any other room it adds no enemy.  A second call changes
    nothing. *)
Theorem room_contents_are_spawned_once :
  forall id s node room,
    nodes s !! id = Some node -> rooms s !! id = Some room ->
    r_spawnDone room = false ->
    let s' := exec (spawnRoomContents id) s in
    (exists room',
       rooms s' !! id = Some room' /\ r_spawnDone room' = true
       /\ (isCombat (n_kind node) && negb (n_cleared node) = true ->
           r_doorsOpen room' = allDoors false))
    /\ (if isCombat (n_kind node) && negb (n_cleared node)
        then exists es, enemies s' = enemies s ++ es
                        /\ length es = headcount (n_kind node) (floor s)
        else enemies s' = enemies s)
    /\ spawnRoomContents id s' = (tt, s').
Proof.
  intros id s node room Hn Hr Hs s'.
  pose proof (spawnRoomContents_stocked id s node room Hn Hr Hs) as Hst.
  fold s' in Hst. unfold stocked in Hst.
  destruct (isCombat (n_kind node) && negb (n_cleared node)).
  - destruct Hst as (es & Hl & Hsp).
    pose proof (spawned_again id _ _ _ Hsp) as Hagain.
    destruct Hsp as (He & _ & r & Hr' & Hd & Hdo).
    split; [exists r; auto|]. split; [exists es; auto | exact Hagain].
  - pose proof (spawned_again id _ _ _ Hst) as Hagain.
    destruct Hst as (He & _ & r & Hr' & Hd & _).
    split; [exists r; split; [exact Hr'|]; split; [exact Hd | discriminate]|].
    split; [exact He | exact Hagain].
Qed.

End FreedomSpawnOnce.

Definition eliteNode : Node := mkNode 1 0 elite false false false.
Definition eliteRoom : Room :=
  mkRoom elite (replicate 221 1%Z) false false false (allDoors true)
    (allDoors true) (allDoors false) false [] 0.
Definition eliteFloor : State :=
  set_rooms (<["1,0"%string := eliteRoom]> ∅)
    (set_nodes (<["1,0"%string := eliteNode]> ∅) (set_mode play state0)).

Lemma spawn_once_witness :
  nodes eliteFloor !! "1,0"%string = Some eliteNode
  /\ rooms eliteFloor !! "1,0"%string = Some eliteRoom
  /\ r_spawnDone eliteRoom = false
  /\ (exists es,
        enemies (exec (spawnRoomContents (H:=FreedomExamples.demoEnv) "1,0") eliteFloor)
        = enemies eliteFloor ++ es
        /\ length es = 9%nat)
  /\ spawnRoomContents (H:=FreedomExamples.demoEnv) "1,0"
       (exec (spawnRoomContents (H:=FreedomExamples.demoEnv) "1,0") eliteFloor)
     = (tt, exec (spawnRoomContents (H:=FreedomExamples.demoEnv) "1,0") eliteFloor).
Proof.
  assert (Hn : nodes eliteFloor !! "1,0"%string = Some eliteNode) by reflexivity.
  assert (Hr : rooms eliteFloor !! "1,0"%string = Some eliteRoom) by reflexivity.
  destruct (room_contents_are_spawned_once (H:=FreedomExamples.demoEnv)
              "1,0"%string eliteFloor eliteNode eliteRoom Hn Hr eq_refl)
    as (_ & Hes & Hagain).
  exact (conj Hn (conj Hr (conj eq_refl (conj Hes Hagain)))).
Defined.

End FreedomSpawns.

(** * [src/unnamed/part_000]: the room cache *)

Module Part000Props.
Import Part000 Part000Examples.
Local Open Scope Q_scope.


Create HintDb cframe discriminated.
#[global] Hint Constants Opaque : cframe.

Section Part000Cache.
Context `{Env}.

Lemma cloneArray_id {A} (l : list A) : cloneArray l = l.
Proof. unfold cloneArray. apply map_id. Qed.

(** What room [a] holds in its cache. *)
Definition cacheOf (a : string) (w : World) : option Cache :=
  rooms w !! a ≫= cache.

Section Keeps.
Variables (a : string) (c : option Cache) (here : string).

(** Room [a] holds the cache [c], and the current room is [here]. *)
Abbreviation K := (fun w => cacheOf a w = c /\ roomId w = here).

Ltac kmodify :=
  lazymatch goal with
  | |- preserves _ (modify _) => apply preserves_modify; intros ? Hw; exact Hw
  end.

Lemma updRoom_keeps_cache id f :
  (forall r, cache (f r) = cache r) -> preserves K (updRoom id f).
Proof.
  intros Hf. unfold updRoom. apply preserves_modify. intros w [Hw Hr].
  split; [|exact Hr]. unfold cacheOf in *. cbn.
  destruct (decide (id = a)) as [->|Hne].
  - rewrite lookup_alter_eq. destruct (rooms w !! a) as [r|]; cbn in *; [|exact Hw].
    rewrite Hf. exact Hw.
  - rewrite lookup_alter_ne by exact Hne. exact Hw.
Qed.

Lemma ensureRoom_keeps id : preserves K (ensureRoom id).
Proof.
  intros w Hw. unfold ensureRoom. destruct (rooms w !! id) eqn:E; [exact Hw|].
  destruct Hw as [Hw Hr]. split; [|exact Hr]. unfold cacheOf in *. cbn.
  destruct (decide (id = a)) as [->|Hne].
  - rewrite lookup_insert_eq. rewrite E in Hw. exact Hw.
  - rewrite lookup_insert_ne by exact Hne. exact Hw.
Qed.

Lemma ensureNode_keeps id : preserves K (ensureNode id).
Proof.
  intros w Hw. unfold ensureNode. destruct (roomMap w !! id); exact Hw.
Qed.

Lemma randf_keeps_cache : preserves K randf.
Proof. intros w Hw. exact Hw. Qed.

#[local] Hint Resolve ensureRoom_keeps ensureNode_keeps randf_keeps_cache : cframe.

Ltac cframe :=
  pres;
  lazymatch goal with
  | |- preserves _ (modify _) => kmodify
  | |- preserves _ (updRoom _ _) =>
      first [ solve [apply updRoom_keeps_cache; intros ?; reflexivity] | idtac ]
  | |- _ => first [ solve [eauto with cframe] | idtac ]
  end.

Lemma randi_keeps_cache n : preserves K (randi n).
Proof. unfold randi. cframe. Qed.
Lemma chance_keeps_cache p : preserves K (chance p).
Proof. unfold chance. cframe. Qed.
Lemma updNode_keeps id f : preserves K (updNode id f).
Proof. unfold updNode. cframe. Qed.
Lemma updPlayer_keeps_cache f : preserves K (updPlayer f).
Proof. unfold updPlayer. cframe. Qed.
#[local] Hint Resolve randi_keeps_cache chance_keeps_cache updNode_keeps updPlayer_keeps_cache : cframe.

Lemma pits_keeps g : preserves K (pits g).
Proof. unfold pits. cframe. Qed.
Lemma pillars_keeps d g : preserves K (pillars d g).
Proof. unfold pillars. cframe. Qed.
#[local] Hint Resolve pits_keeps pillars_keeps : cframe.

Lemma genRoomTiles_keeps_cache id : preserves K (genRoomTiles id).
Proof. unfold genRoomTiles. cframe. Qed.
Lemma link_keeps id nx ny da db : preserves K (link id nx ny da db).
Proof. unfold link. cframe. Qed.
#[local] Hint Resolve genRoomTiles_keeps_cache link_keeps : cframe.

Lemma buildNeighborsAround_keeps id : preserves K (buildNeighborsAround id).
Proof. unfold buildNeighborsAround. cframe. Qed.
Lemma lockDoors_keeps id b : preserves K (lockDoors id b).
Proof. unfold lockDoors. cframe. Qed.
Lemma spawnEnemy_keeps t x y d : preserves K (spawnEnemy t x y d).
Proof. unfold spawnEnemy. cframe. Qed.
Lemma clearLive_keeps : preserves K clearLive.
Proof. unfold clearLive. cframe. Qed.
#[local] Hint Resolve buildNeighborsAround_keeps lockDoors_keeps spawnEnemy_keeps
  clearLive_keeps : cframe.

Lemma spawnRoomContents_keeps_cache id : preserves K (spawnRoomContents id).
Proof. unfold spawnRoomContents. cframe. Qed.
#[local] Hint Resolve spawnRoomContents_keeps_cache : cframe.

(** [loadRoom] never writes a cache. *)
Lemma loadRoom_keeps id : preserves K (loadRoom id).
Proof. unfold loadRoom. cframe. Qed.

(** [stashRoom] writes the cache of its own room only. *)
Lemma stashRoom_keeps id : id <> a -> preserves K (stashRoom id).
Proof.
  intros Hne. unfold stashRoom, getRoom. cframe.
  unfold updRoom. apply preserves_modify. intros w [Hw Hr].
  split; [|exact Hr].
  unfold cacheOf in *. cbn. rewrite lookup_alter_ne by exact Hne. exact Hw.
Qed.

End Keeps.
End Part000Cache.


Section Part000RoundTrip.
Context `{Env}.

(** The three live arrays a cache records. *)
Definition liveIs (c : Cache) (w : World) : Prop :=
  enemies w = c_enemies c /\ pickups w = c_pickups c /\ decals w = c_decals c.

Lemma liveIs_ext c w w' :
  enemies w' = enemies w -> pickups w' = pickups w -> decals w' = decals w ->
  liveIs c w -> liveIs c w'.
Proof. unfold liveIs. intros -> -> ->. auto. Qed.

Lemma ensureNode_live c id : preserves (liveIs c) (ensureNode id).
Proof.
  intros w Hw. unfold ensureNode. destruct (roomMap w !! id); [exact Hw|].
  eapply liveIs_ext; [| | | exact Hw]; reflexivity.
Qed.

Lemma lockDoors_live c id b : preserves (liveIs c) (lockDoors id b).
Proof.
  unfold lockDoors, updRoom. apply preserves_modify. intros w Hw.
  eapply liveIs_ext; [| | | exact Hw]; reflexivity.
Qed.

Lemma updNode_live c id f : preserves (liveIs c) (updNode id f).
Proof.
  unfold updNode. apply preserves_modify. intros w Hw.
  eapply liveIs_ext; [| | | exact Hw]; reflexivity.
Qed.

(** [stashRoom] records the live arrays in the room's cache. *)
Lemma stashRoom_records a w :
  is_Some (rooms w !! a) ->
  cacheOf a (exec (stashRoom a) w)
  = Some (mkCache (enemies w) (pickups w) (decals w)).
Proof.
  intros [r Hr]. unfold exec, stashRoom, getRoom. rewrite bind_gets, Hr, bind_gets.
  unfold updRoom, modify, cacheOf. cbn.
  rewrite lookup_alter_eq, Hr. cbn. rewrite !cloneArray_id. reflexivity.
Qed.

(** [loadRoom] on a room with a cache makes the cached arrays the live
    ones. *)
Lemma loadRoom_restores a c w :
  cacheOf a w = Some c -> liveIs c (exec (loadRoom a) w).
Proof.
  intros Hc.
  assert (Hgo : ensures (fun w0 => cacheOf a w0 = Some c /\ roomId w0 = roomId w)
                  (loadRoom a) (liveIs c)); [|apply Hgo; auto].
  clear Hc. unfold loadRoom.
  eapply ensures_bind; [apply preserves_ensures, ensureRoom_keeps | intros _].
  eapply ensures_bind; [apply preserves_ensures, ensureNode_keeps | intros node0].
  eapply ensures_bind; [apply preserves_ensures, updNode_keeps | intros _].
  eapply ensures_bind; [apply preserves_ensures, buildNeighborsAround_keeps | intros _].
  eapply ensures_bind; [apply preserves_ensures, genRoomTiles_keeps_cache | intros _].
  eapply ensures_bind; [apply preserves_ensures, clearLive_keeps | intros _].
  apply ensures_bind_gets. intros s0 [Hs0 _].
  unfold cacheOf in Hs0. rewrite Hs0.
  eapply ensures_bind with (P' := liveIs c).
  { intros w0 _. cbn. rewrite !cloneArray_id. repeat split. }
  intros _. apply preserves_ensures.
  apply preserves_bind; [apply ensureNode_live | intros node].
  apply preserves_bind.
  { destruct (_ && _); apply lockDoors_live. }
  intros _. apply preserves_bind; [apply updNode_live | intros _].
  apply preserves_modify. intros w0 Hw.
  eapply liveIs_ext; [| | | exact Hw]; reflexivity.
Qed.

(** Stash a room, do anything that leaves its cache alone, load it again:
    enemies, pickups and decals are back exactly as they were. *)
Theorem stash_then_load_restores_room :
  forall a w w1,
    is_Some (rooms w !! a) ->
    cacheOf a w1 = cacheOf a (exec (stashRoom a) w) ->
    let w' := exec (loadRoom a) w1 in
    enemies w' = enemies w /\ pickups w' = pickups w /\ decals w' = decals w.
Proof.
  intros a w w1 Hr Hc. cbv zeta.
  rewrite (stashRoom_records a w Hr) in Hc.
  exact (loadRoom_restores a _ w1 Hc).
Qed.

(** A room's cache is written by [stashRoom] of that room and by nothing
    else among the room functions: loading any room, stashing another
    one, and the door test all leave it as it is. *)
Theorem cache_written_by_own_stash_only :
  forall a b w,
    cacheOf a (exec (loadRoom b) w) = cacheOf a w
    /\ (b <> a -> cacheOf a (exec (stashRoom b) w) = cacheOf a w)
    /\ cacheOf a (exec (spawnRoomContents b) w) = cacheOf a w
    /\ cacheOf a (exec (buildNeighborsAround b) w) = cacheOf a w.
Proof.
  intros a b w. unfold exec. split; [|split; [|split]].
  - pose proof (loadRoom_keeps a (cacheOf a w) (roomId w) b w (conj eq_refl eq_refl)) as Hk.
    cbv beta in Hk. exact (proj1 Hk).
  - intros Hne.
    pose proof (stashRoom_keeps a (cacheOf a w) (roomId w) b Hne w (conj eq_refl eq_refl)) as Hk.
    cbv beta in Hk. exact (proj1 Hk).
  - pose proof (spawnRoomContents_keeps_cache a (cacheOf a w) (roomId w) b w (conj eq_refl eq_refl)) as Hk.
    cbv beta in Hk. exact (proj1 Hk).
  - pose proof (buildNeighborsAround_keeps a (cacheOf a w) (roomId w) b w (conj eq_refl eq_refl)) as Hk.
    cbv beta in Hk. exact (proj1 Hk).
Qed.

End Part000RoundTrip.


Definition opposite (d : Dir) : Dir :=
  match d with dN => dS | dS => dN | dW => dE | dE => dW end.

(** The cell a door leads to. *)
Definition beyond (d : Dir) (x y : Z) : Z * Z :=
  match d with
  | dN => (x, y - 1) | dS => (x, y + 1) | dW => (x - 1, y) | dE => (x + 1, y)
  end%Z.

Section Part000Doors.
Context `{Env}.

Lemma ensureNode_found id n w : roomMap w !! id = Some n -> ensureNode id w = (n, w).
Proof. intros E. unfold ensureNode. rewrite E. reflexivity. Qed.

Lemma ensureRoom_found id r w : rooms w !! id = Some r -> ensureRoom id w = (r, w).
Proof. intros E. unfold ensureRoom. rewrite E. reflexivity. Qed.

(** A successful door test is [passDoor], and both flags were set. *)
Lemma tryDoor_true dir w node room :
  roomMap w !! roomId w = Some node -> rooms w !! roomId w = Some room ->
  eval (tryDoorTransitionByIntent dir) w = true ->
  tryDoorTransitionByIntent dir w = passDoor node dir w
  /\ getDoor (neighbors room) dir = true /\ getDoor (doorsOpen room) dir = true.
Proof.
  intros Hn Hr. unfold eval, tryDoorTransitionByIntent.
  rewrite bind_gets.
  rewrite (bind_run _ _ _ _ _ (ensureNode_found _ _ _ Hn)).
  rewrite (bind_run _ _ _ _ _ (ensureRoom_found _ _ _ Hr)).
  destruct (getDoor (neighbors room) dir); [|discriminate].
  destruct (getDoor (doorsOpen room) dir).
  - intros _. auto.
  - cbn [negb]. rewrite bind_gets.
    destruct (inDoorBand dir (pl_x (player w)) (pl_y (player w))); discriminate.
Qed.

Lemma passDoor_unfold node dir :
  passDoor node dir =
  (let nid := roomKey (fst (beyond dir (node_x node) (node_y node)))
                (snd (beyond dir (node_x node) (node_y node))) in
   _ <- ensureNode nid ;;
   _ <- ensureRoom nid ;;
   here <- gets roomId ;;
   stashRoom here ;;;
   modify (set_roomId nid) ;;;
   loadRoom nid ;;;
   updPlayer (fun p =>
     match dir with
     | dN => set_pl_x (clamp (pl_x p) 18 (ROOM_W - 18)) (set_pl_y (ROOM_H - 18) p)
     | dS => set_pl_x (clamp (pl_x p) 18 (ROOM_W - 18)) (set_pl_y 18 p)
     | dW => set_pl_y (clamp (pl_y p) 18 (ROOM_H - 18)) (set_pl_x (ROOM_W - 18) p)
     | dE => set_pl_y (clamp (pl_y p) 18 (ROOM_H - 18)) (set_pl_x 18 p)
     end) ;;;
   modify (fun w =>
     let p := player w in
     set_cam (mkCam (clamp (pl_x p - VIEW_W w / 2) 0 (ROOM_W - VIEW_W w))
                (clamp (pl_y p - VIEW_H w / 2) 0 (ROOM_H - VIEW_H w)) 0 0) w) ;;;
   ret true).
Proof.
  unfold passDoor, beyond. destruct dir; cbn [fst snd];
    rewrite ?Z.add_0_r; reflexivity.
Qed.

Lemma updPlayer_live c f : preserves (liveIs c) (updPlayer f).
Proof.
  unfold updPlayer. apply preserves_modify. intros w Hw.
  eapply liveIs_ext; [| | | exact Hw]; reflexivity.
Qed.

(** Going through a door stashes the room that is left. *)
Lemma passDoor_leaves node dir w :
  is_Some (rooms w !! roomId w) ->
  let w1 := exec (passDoor node dir) w in
  let nid := roomKey (fst (beyond dir (node_x node) (node_y node)))
               (snd (beyond dir (node_x node) (node_y node))) in
  cacheOf (roomId w) w1 = Some (mkCache (enemies w) (pickups w) (decals w))
  /\ roomId w1 = nid.
Proof.
  intros Hr. cbv zeta.
  set (a := roomId w).
  set (c := mkCache (enemies w) (pickups w) (decals w)).
  set (nid := roomKey _ _).
  assert (Hgo : ensures
            (fun w0 => roomId w0 = a /\ is_Some (rooms w0 !! a) /\ liveIs c w0)
            (passDoor node dir)
            (fun w1 => cacheOf a w1 = Some c /\ roomId w1 = nid)).
  2:{ apply Hgo. split; [reflexivity|]. split; [exact Hr|]. repeat split. }
  rewrite passDoor_unfold. cbv zeta. fold nid.
  eapply ensures_bind with (P' := fun w0 => roomId w0 = a /\ is_Some (rooms w0 !! a) /\ liveIs c w0).
  { intros w0 (H1 & H2 & H3). unfold ensureNode.
    destruct (roomMap w0 !! nid); cbn; (split; [exact H1|]; split; [exact H2 | exact H3]). }
  intros _. eapply ensures_bind with (P' := fun w0 => roomId w0 = a /\ is_Some (rooms w0 !! a) /\ liveIs c w0).
  { intros w0 (H1 & [r H2] & H3). unfold ensureRoom.
    destruct (rooms w0 !! nid) eqn:E; cbn; (split; [exact H1|]; split; [|exact H3]).
    - eauto.
    - destruct (decide (nid = a)) as [->|Hne]; [congruence|].
      rewrite lookup_insert_ne by exact Hne. eauto. }
  intros _. apply ensures_bind_gets. intros s0 (Hs0 & _ & _). rewrite Hs0.
  eapply ensures_bind with (P' := fun w0 => cacheOf a w0 = Some c).
  { intros w0 (H1 & H2 & (E1 & E2 & E3)).
    pose proof (stashRoom_records a w0 H2) as Hs. unfold exec in Hs.
    rewrite Hs. unfold c. cbn in E1, E2, E3. rewrite E1, E2, E3. reflexivity. }
  intros _. eapply ensures_bind with (P' := fun w0 => cacheOf a w0 = Some c /\ roomId w0 = nid).
  { intros w0 Hc. split; [exact Hc | reflexivity]. }
  intros _. apply preserves_ensures.
  apply preserves_bind; [apply loadRoom_keeps | intros _].
  apply preserves_bind; [apply updPlayer_keeps_cache | intros _].
  apply preserves_bind; [|intros _; apply preserves_ret].
  apply preserves_modify. intros w0 Hw. exact Hw.
Qed.

(** Going through a door into a room that has a cache restores it. *)
Lemma passDoor_returns node dir c w :
  let nid := roomKey (fst (beyond dir (node_x node) (node_y node)))
               (snd (beyond dir (node_x node) (node_y node))) in
  cacheOf nid w = Some c -> roomId w <> nid ->
  let w1 := exec (passDoor node dir) w in
  roomId w1 = nid /\ liveIs c w1.
Proof.
  cbv zeta. set (nid := roomKey _ _). intros Hc Hne.
  set (b := roomId w) in *.
  assert (Hgo : ensures
            (fun w0 => cacheOf nid w0 = Some c /\ roomId w0 = b)
            (passDoor node dir)
            (fun w1 => roomId w1 = nid /\ liveIs c w1)).
  2:{ apply Hgo. split; [exact Hc | reflexivity]. }
  rewrite passDoor_unfold. cbv zeta. fold nid.
  eapply ensures_bind; [apply preserves_ensures, ensureNode_keeps | intros _].
  eapply ensures_bind; [apply preserves_ensures, ensureRoom_keeps | intros _].
  apply ensures_bind_gets. intros s0 [_ Hs0]. rewrite Hs0.
  eapply ensures_bind; [apply preserves_ensures, stashRoom_keeps; exact Hne | intros _].
  eapply ensures_bind with (P' := fun w0 => cacheOf nid w0 = Some c /\ roomId w0 = nid).
  { intros w0 [H1 _]. split; [exact H1 | reflexivity]. }
  intros _.
  eapply ensures_bind with (P' := fun w0 => roomId w0 = nid /\ liveIs c w0).
  { apply ensures_conj.
    - intros w0 Hw. apply (loadRoom_keeps nid (Some c) nid nid w0 Hw).
    - intros w0 [Hw _]. pose proof (loadRoom_restores nid c w0 Hw) as Hl.
      unfold exec in Hl. exact Hl. }
  intros _. apply preserves_ensures.
  apply preserves_bind.
  { unfold updPlayer. apply preserves_modify. intros w0 [H1 H2].
    split; [exact H1|]. eapply liveIs_ext; [| | | exact H2]; reflexivity. }
  intros _. apply preserves_bind; [|intros _; apply preserves_ret].
  apply preserves_modify. intros w0 [H1 H2].
  split; [exact H1|]. eapply liveIs_ext; [| | | exact H2]; reflexivity.
Qed.

Lemma beyond_opposite dir x y :
  beyond (opposite dir) (fst (beyond dir x y)) (snd (beyond dir x y)) = (x, y).
Proof. destruct dir; cbn; f_equal; lia. Qed.

Lemma beyond_moves dir x y : beyond dir x y <> (x, y).
Proof. destruct dir; cbn; intros E; inversion E; lia. Qed.

(** Leave a room through an open door and come back through the same
    doorway, whatever happened in between in the other room as long as
    the cache of the first was not touched: enemies, pickups and decals of
    the first room are exactly as they were when it was left. *)
Theorem leave_and_return_restores_room :
  forall dir w w2 nodeA roomA nodeB roomB,
    roomMap w !! roomId w = Some nodeA -> rooms w !! roomId w = Some roomA ->
    roomId w = roomKey (node_x nodeA) (node_y nodeA) ->
    eval (tryDoorTransitionByIntent dir) w = true ->
    let w1 := exec (tryDoorTransitionByIntent dir) w in
    roomId w2 = roomId w1 -> cacheOf (roomId w) w2 = cacheOf (roomId w) w1 ->
    roomMap w2 !! roomId w2 = Some nodeB -> rooms w2 !! roomId w2 = Some roomB ->
    roomId w2 = roomKey (node_x nodeB) (node_y nodeB) ->
    eval (tryDoorTransitionByIntent (opposite dir)) w2 = true ->
    let w3 := exec (tryDoorTransitionByIntent (opposite dir)) w2 in
    roomId w3 = roomId w
    /\ enemies w3 = enemies w /\ pickups w3 = pickups w /\ decals w3 = decals w.
Proof.
  intros dir w w2 nodeA roomA nodeB roomB HnA HrA HkA Ht1. cbv zeta.
  intros Hid2 Hc2 HnB HrB HkB Ht2.
  destruct (tryDoor_true dir w nodeA roomA HnA HrA Ht1) as [E1 _].
  destruct (tryDoor_true (opposite dir) w2 nodeB roomB HnB HrB Ht2) as [E2 _].
  unfold exec in *. rewrite E1 in Hid2, Hc2. rewrite E2.
  destruct (passDoor_leaves nodeA dir w ltac:(eauto)) as [Hc1 Hr1].
  unfold exec in Hc1, Hr1. rewrite Hc1 in Hc2. rewrite Hr1 in Hid2.
  (* the node of the second room sits where the door led *)
  rewrite Hid2 in HkB. apply roomKey_inj in HkB. destruct HkB as [Hx Hy].
  assert (Hback : roomKey (fst (beyond (opposite dir) (node_x nodeB) (node_y nodeB)))
                    (snd (beyond (opposite dir) (node_x nodeB) (node_y nodeB)))
                  = roomId w).
  { rewrite <- Hx, <- Hy, beyond_opposite. cbn [fst snd]. symmetry. exact HkA. }
  assert (Hne : roomId w2 <> roomId w).
  { rewrite Hid2, HkA. intros E. apply roomKey_inj in E.
    apply (beyond_moves dir (node_x nodeA) (node_y nodeA)).
    destruct (beyond dir (node_x nodeA) (node_y nodeA)) as [bx by_]; cbn [fst snd] in E.
    destruct E as [-> ->]. reflexivity. }
  pose proof (passDoor_returns nodeB (opposite dir)
                (mkCache (enemies w) (pickups w) (decals w)) w2) as Hret.
  cbv zeta in Hret. rewrite Hback in Hret.
  destruct (Hret Hc2 Hne) as [R1 (R2 & R3 & R4)].
  unfold exec in R1, R2, R3, R4. auto.
Qed.

End Part000Doors.

Lemma leave_and_return_witness :
  roomId (exec (tryDoorTransitionByIntent (H:=demoEnv) dN) shopWorld) = "0,0"%string
  /\ pickups (exec (tryDoorTransitionByIntent (H:=demoEnv) dN) shopWorld)
     = pickups startWorld.
Proof.
  destruct (roomMap startWorld !! roomId startWorld) as [nodeA|] eqn:EA;
    [|vm_compute in EA; discriminate EA].
  destruct (rooms startWorld !! roomId startWorld) as [roomA|] eqn:RA;
    [|vm_compute in RA; discriminate RA].
  destruct (roomMap shopWorld !! roomId shopWorld) as [nodeB|] eqn:EB;
    [|vm_compute in EB; discriminate EB].
  destruct (rooms shopWorld !! roomId shopWorld) as [roomB|] eqn:RB;
    [|vm_compute in RB; discriminate RB].
  destruct (leave_and_return_restores_room (H:=demoEnv) dS startWorld shopWorld
              nodeA roomA nodeB roomB EA RA) as (H1 & _ & H3 & _).
  - vm_compute in EA. injection EA as <-. vm_compute. reflexivity.
  - vm_compute. reflexivity.
  - vm_compute. reflexivity.
  - vm_compute. reflexivity.
  - exact EB.
  - exact RB.
  - vm_compute in EB. injection EB as <-. vm_compute. reflexivity.
  - vm_compute. reflexivity.
  - split; [exact H1 | exact H3].
Defined.

Lemma stash_then_load_witness :
  pickups (exec (loadRoom (H:=demoEnv) "0,0")
             (exec (stashRoom "0,0") startWorld))
  = pickups startWorld.
Proof.
  destruct (stash_then_load_restores_room (H:=demoEnv) "0,0" startWorld
              (exec (stashRoom "0,0") startWorld))
    as (_ & Hp & _); [vm_compute; eauto | reflexivity | exact Hp].
Defined.

End Part000Props.

(** * [src/n.js]: treasure rooms and keys *)

Module NJsProps.
Import NJs NJsExamples.
Local Open Scope Q_scope.


Create HintDb jframe discriminated.

Section NJsFrames.
Context `{Env}.

(** A property of the key count and the node map that adding a fresh
    node does not disturb. *)
Variable P : World -> Prop.

Hypothesis P_ext : forall w w',
  keys w' = keys w -> roomMap w' = roomMap w -> P w -> P w'.
Hypothesis P_fresh : forall id w,
  roomMap w !! id = None ->
  P w -> P (set_roomMap (<[id := newNode id]> (roomMap w)) w).

Ltac jmodify :=
  apply preserves_modify; intros ? ?;
  (eapply P_ext; [| | eassumption]; reflexivity).

Lemma randf_keeps_keys : preserves P randf.
Proof. intros w Hw. eapply P_ext; [| | exact Hw]; reflexivity. Qed.

Lemma ensureNode_keeps_keys id : preserves P (ensureNode id).
Proof.
  intros w Hw. unfold ensureNode. destruct (roomMap w !! id) eqn:E; [exact Hw|].
  apply P_fresh; assumption.
Qed.

Lemma ensureRoom_keeps_keys id : preserves P (ensureRoom id).
Proof.
  intros w Hw. unfold ensureRoom. destruct (rooms w !! id); [exact Hw|].
  eapply P_ext; [| | exact Hw]; reflexivity.
Qed.

Lemma updRoom_keeps_keys id f : preserves P (updRoom id f).
Proof. unfold updRoom. jmodify. Qed.

#[local] Hint Resolve randf_keeps_keys ensureNode_keeps_keys ensureRoom_keeps_keys
  updRoom_keeps_keys : jframe.

Ltac jframe :=
  pres;
  lazymatch goal with
  | |- preserves _ (modify _) => jmodify
  | |- _ => first [ solve [eauto with jframe] | idtac ]
  end.

Lemma randi_keeps_keys n : preserves P (randi n).
Proof. unfold randi. jframe. Qed.
Lemma chance_keeps_keys p : preserves P (chance p).
Proof. unfold chance. jframe. Qed.
Lemma updPlayer_keeps_keys f : preserves P (updPlayer f).
Proof. unfold updPlayer. jframe. Qed.
Lemma say_keeps_keys m t : preserves P (say m t).
Proof. unfold say. jframe. Qed.
Lemma pushPickup_keeps_keys p : preserves P (pushPickup p).
Proof. unfold pushPickup. jframe. Qed.
#[local] Hint Resolve randi_keeps_keys chance_keeps_keys updPlayer_keeps_keys
  say_keeps_keys pushPickup_keeps_keys : jframe.

Lemma pits_keeps_keys g : preserves P (pits g).
Proof. unfold pits. jframe. Qed.
Lemma pillars_keeps_keys d g : preserves P (pillars d g).
Proof. unfold pillars. jframe. Qed.
#[local] Hint Resolve pits_keeps_keys pillars_keeps_keys : jframe.

Lemma genRoomTiles_keeps_keys id : preserves P (genRoomTiles id).
Proof. unfold genRoomTiles. jframe. Qed.
Lemma maybeMake_keeps_keys id nx ny da db p : preserves P (maybeMake id nx ny da db p).
Proof. unfold maybeMake. jframe. Qed.
#[local] Hint Resolve genRoomTiles_keeps_keys maybeMake_keeps_keys : jframe.

Lemma buildNeighborsAround_keeps_keys id : preserves P (buildNeighborsAround id).
Proof. unfold buildNeighborsAround. jframe. Qed.
Lemma lockDoors_keeps_keys id b : preserves P (lockDoors id b).
Proof. unfold lockDoors. jframe. Qed.
Lemma spawnEnemy_keeps_keys t x y : preserves P (spawnEnemy t x y).
Proof. unfold spawnEnemy. jframe. Qed.
Lemma clearLive_keeps_keys : preserves P clearLive.
Proof. unfold clearLive. jframe. Qed.
Lemma stashRoom_keeps_keys id : preserves P (stashRoom id).
Proof. unfold stashRoom, getRoom. jframe. Qed.
Lemma bounceInside_keeps_keys d : preserves P (bounceInside d).
Proof. unfold bounceInside. jframe. Qed.
Lemma rollKind_keeps_keys n : preserves P (rollKind n).
Proof. unfold rollKind. jframe. Qed.

End NJsFrames.


Section NJsTreasure.
Context `{Env}.

(** Every treasure node is cleared. *)
Definition treasuresCleared (w : World) : Prop :=
  forall id n, roomMap w !! id = Some n ->
    node_kind n = treasure -> node_cleared n = true.

(** ... and the player holds [k] keys. *)
Definition T (k : Q) (w : World) : Prop := keys w = k /\ treasuresCleared w.

(** The same with the node [i] left out, whose kind is [kd]. *)
Definition Tx (i : string) (kd : Kind) (k : Q) (w : World) : Prop :=
  keys w = k
  /\ (forall id n, id <> i -> roomMap w !! id = Some n ->
        node_kind n = treasure -> node_cleared n = true)
  /\ exists n, roomMap w !! i = Some n /\ node_kind n = kd.

Lemma T_ext k w w' :
  keys w' = keys w -> roomMap w' = roomMap w -> T k w -> T k w'.
Proof. unfold T, treasuresCleared. intros -> ->. auto. Qed.

Lemma T_fresh k id w :
  roomMap w !! id = None -> T k w ->
  T k (set_roomMap (<[id := newNode id]> (roomMap w)) w).
Proof.
  intros Hn [Hk Ht]. split; [exact Hk|]. intros id' n. cbn.
  destruct (decide (id' = id)) as [->|Hne].
  - rewrite lookup_insert_eq. intros [= <-]. discriminate.
  - rewrite lookup_insert_ne by congruence. apply Ht.
Qed.

Lemma Tx_ext i kd k w w' :
  keys w' = keys w -> roomMap w' = roomMap w -> Tx i kd k w -> Tx i kd k w'.
Proof. unfold Tx. intros -> ->. auto. Qed.

(** Changing the node [i] in any way that keeps its kind keeps [Tx i]. *)
Lemma Tx_upd i kd k f :
  (forall n, node_kind (f n) = node_kind n) ->
  preserves (Tx i kd k) (updNode i f).
Proof.
  intros Hf. unfold updNode. apply preserves_modify.
  intros w (Hk & Ht & n & Hn & Hkd). split; [exact Hk|]. split.
  - intros id n' Hne. cbn. rewrite lookup_alter_ne by congruence. apply Ht, Hne.
  - exists (f n). cbn. rewrite lookup_alter_eq, Hn. split; [reflexivity|].
    rewrite Hf. exact Hkd.
Qed.

(** Marking a node cleared, or seen, keeps [T]. *)
Lemma T_upd k id f :
  (forall n, node_kind (f n) = node_kind n) ->
  (forall n, node_cleared n = true -> node_cleared (f n) = true) ->
  preserves (T k) (updNode id f).
Proof.
  intros Hkd Hcl. unfold updNode. apply preserves_modify.
  intros w [Hk Ht]. split; [exact Hk|]. intros id' n'. cbn.
  destruct (decide (id = id')) as [->|Hne].
  - rewrite lookup_alter_eq. destruct (roomMap w !! id') as [n|] eqn:E; [|discriminate].
    intros [= <-]. rewrite Hkd. intros Htr. apply Hcl, (Ht id' n E Htr).
  - rewrite lookup_alter_ne by exact Hne. apply Ht.
Qed.

(** From [Tx i] back to [T], once the node [i] is cleared or is no
    treasure room. *)
Lemma Tx_done i kd k w :
  Tx i kd k w ->
  (kd = treasure -> forall n, roomMap w !! i = Some n -> node_cleared n = true) ->
  T k w.
Proof.
  intros (Hk & Ht & n & Hn & Hkd) Hc. split; [exact Hk|].
  intros id n' Hn' Htr. destruct (decide (id = i)) as [->|Hne].
  - apply Hc; [|exact Hn']. rewrite Hn in Hn'. injection Hn' as <-. congruence.
  - exact (Ht id n' Hne Hn' Htr).
Qed.

Lemma Tx_cleared i kd k :
  ensures (Tx i kd k) (updNode i (set_node_cleared true)) (T k).
Proof.
  intros w Hw.
  pose proof (Tx_upd i kd k (set_node_cleared true) (fun _ => eq_refl) w Hw) as Hx.
  apply (Tx_done i kd k _ Hx). intros _ n. cbn.
  destruct Hw as (_ & _ & n0 & Hn0 & _).
  rewrite lookup_alter_eq, Hn0. intros [= <-]. reflexivity.
Qed.

Lemma Tx_rest i kd k (m : M World unit) :
  kd <> treasure -> preserves (Tx i kd k) m -> ensures (Tx i kd k) m (T k).
Proof.
  intros Hkd Hm w Hw. apply (Tx_done i kd k _ (Hm w Hw)). congruence.
Qed.

(** [spawnRoomContents] may turn a room into a treasure room, and then
    it marks it cleared before it returns. *)
Lemma spawnRoomContents_T k id : preserves (T k) (spawnRoomContents id).
Proof.
  pose proof (T_ext k) as Hext. pose proof (T_fresh k) as Hfresh.
  set (T' := fun w => T k w /\ is_Some (roomMap w !! id)).
  assert (Hext' : forall w w', keys w' = keys w -> roomMap w' = roomMap w -> T' w -> T' w').
  { intros w w' E1 E2 [H1 H2]. split; [eapply Hext; eassumption | rewrite E2; exact H2]. }
  apply preserves_ensures. unfold spawnRoomContents.
  eapply ensures_bind with (P' := T').
  { intros w Hw. unfold ensureNode. destruct (roomMap w !! id) eqn:E.
    - split; [exact Hw | cbn; rewrite E; eauto].
    - split; [apply Hfresh; assumption | cbn; rewrite lookup_insert_eq; eauto]. }
  intros node0.
  eapply ensures_bind with (P' := T').
  { intros w Hw. unfold ensureRoom. destruct (rooms w !! id); [exact Hw|].
    eapply Hext'; [| | exact Hw]; reflexivity. }
  intros _.
  eapply ensures_bind with (P' := T').
  { apply preserves_ensures. destruct (String.eqb id "0,0"); [apply preserves_ret|].
    apply rollKind_keeps_keys. exact Hext'. }
  intros kind.
  pose proof (Tx_ext id kind k) as Hxext.
  eapply ensures_bind with (P' := Tx id kind k).
  { unfold updNode. intros w [[Hk Ht] [n Hn]]. split; [exact Hk|]. split.
    - intros id' n' Hne. cbn. rewrite lookup_alter_ne by congruence. apply Ht.
    - exists (set_node_kind kind n). cbn. rewrite lookup_alter_eq, Hn.
      split; reflexivity. }
  intros _.
  eapply ensures_bind with (P' := Tx id kind k).
  { apply preserves_ensures. destruct (_ && _); [|apply preserves_ret].
    apply preserves_bind; [apply chance_keeps_keys; exact Hxext | intros l].
    apply Tx_upd. reflexivity. }
  intros _.
  eapply ensures_bind with (P' := Tx id kind k).
  { apply preserves_ensures, clearLive_keeps_keys. exact Hxext. }
  intros _. destruct kind.
  - (* combat *)
    apply Tx_rest; [discriminate|].
    destruct (negb (node_cleared node0)); [|apply preserves_ret].
    apply preserves_bind; [apply randi_keeps_keys; exact Hxext | intros n].
    apply preserves_bind; [|intros _; apply lockDoors_keeps_keys; exact Hxext].
    apply preserves_forM. intros _.
    apply preserves_bind; [apply randf_keeps_keys; exact Hxext | intros u].
    apply preserves_bind; [apply randf_keeps_keys; exact Hxext | intros v].
    apply preserves_bind; [apply chance_keeps_keys; exact Hxext | intros c].
    apply spawnEnemy_keeps_keys; exact Hxext.
  - (* start *)
    eapply ensures_bind;
      [apply preserves_ensures, pushPickup_keeps_keys; exact Hxext | intros _].
    apply Tx_cleared.
  - (* treasure *)
    eapply ensures_bind;
      [apply preserves_ensures, pushPickup_keeps_keys; exact Hxext | intros _].
    eapply ensures_bind;
      [apply preserves_ensures, pushPickup_keeps_keys; exact Hxext | intros _].
    apply Tx_cleared.
  - (* boss *)
    apply Tx_rest; [discriminate|].
    destruct (negb (node_cleared node0)); [|apply preserves_ret].
    apply preserves_bind; [apply spawnEnemy_keeps_keys; exact Hxext | intros _].
    apply lockDoors_keeps_keys; exact Hxext.
Qed.

Lemma loadRoom_T k id : preserves (T k) (loadRoom id).
Proof.
  pose proof (T_ext k) as Hext. pose proof (T_fresh k) as Hfresh.
  unfold loadRoom.
  apply preserves_bind; [apply ensureRoom_keeps_keys; exact Hext | intros _].
  apply preserves_bind; [apply ensureNode_keeps_keys; assumption | intros _].
  apply preserves_bind; [apply buildNeighborsAround_keeps_keys; assumption | intros _].
  apply preserves_bind; [apply genRoomTiles_keeps_keys; assumption | intros _].
  apply preserves_bind; [apply clearLive_keeps_keys; exact Hext | intros _].
  apply preserves_bind_gets. intros s0 _.
  apply preserves_bind.
  { destruct (rooms s0 !! id ≫= cache); [|apply spawnRoomContents_T].
    apply preserves_modify. intros w Hw. eapply Hext; [| | exact Hw]; reflexivity. }
  intros _.
  apply preserves_bind; [apply ensureNode_keeps_keys; assumption | intros node].
  apply preserves_bind.
  { destruct (_ && _); apply lockDoors_keeps_keys; exact Hext. }
  intros _. apply T_upd; intros n; [reflexivity | cbn; auto].
Qed.

Lemma enter_T k nid dir : preserves (T k) (enter nid dir).
Proof.
  pose proof (T_ext k) as Hext.
  unfold enter.
  apply preserves_bind_gets. intros s0 _.
  apply preserves_bind; [apply stashRoom_keeps_keys; exact Hext | intros _].
  apply preserves_bind.
  { apply preserves_modify. intros w Hw. eapply Hext; [| | exact Hw]; reflexivity. }
  intros _.
  apply preserves_bind; [apply loadRoom_T | intros _].
  apply preserves_bind; [apply updPlayer_keeps_keys; exact Hext | intros _].
  apply preserves_modify. intros w Hw. eapply Hext; [| | exact Hw]; reflexivity.
Qed.

End NJsTreasure.


Section NJsDoors.
Context `{Env}.

(** [go] with the treasure test taken out. *)
Definition goNoLock (node : Node) (dx dy : Z) (dirFrom : Dir) : M World unit :=
  let nid := roomKey (node_x node + dx) (node_y node + dy) in
  _ <- ensureNode nid ;;
  _ <- ensureRoom nid ;;
  here <- gets roomId ;;
  room <- gets (fun w => rooms w !! here) ;;
  let canGo :=
    match room with
    | Some r => getDoor (neighbors r) dirFrom && getDoor (doorsOpen r) dirFrom
    | None => false
    end in
  if negb canGo then bounceInside dirFrom else enter nid dirFrom.

(** The node [ensureNode] hands out in a state where every treasure room
    is cleared is no uncleared treasure room. *)
Lemma ensureNode_no_lock id w :
  treasuresCleared w ->
  let n := fst (ensureNode id w) in
  bool_decide (node_kind n = treasure) && node_locked n && negb (node_cleared n)
  = false.
Proof.
  intros Ht. cbv zeta. unfold ensureNode.
  destruct (roomMap w !! id) as [n|] eqn:E; cbn [fst].
  - destruct (bool_decide (node_kind n = treasure)) eqn:Ek; [|reflexivity].
    apply bool_decide_eq_true in Ek. rewrite (Ht id n E Ek).
    destruct (node_locked n); reflexivity.
  - reflexivity.
Qed.

Lemma go_lock_dead node dx dy dir w :
  treasuresCleared w -> go node dx dy dir w = goNoLock node dx dy dir w.
Proof.
  intros Ht. unfold go, goNoLock. cbv zeta.
  set (nid := roomKey _ _).
  pose proof (ensureNode_no_lock nid w Ht) as Hn. cbv zeta in Hn.
  destruct (ensureNode nid w) as [n w1] eqn:E1. cbn [fst] in Hn.
  rewrite !(bind_run _ _ _ _ _ E1).
  destruct (ensureRoom nid w1) as [r w2] eqn:E2.
  rewrite !(bind_run _ _ _ _ _ E2).
  rewrite !bind_gets. rewrite Hn. reflexivity.
Qed.

Lemma goNoLock_T k node dx dy dir : preserves (T k) (goNoLock node dx dy dir).
Proof.
  pose proof (T_ext k) as Hext. pose proof (T_fresh k) as Hfresh.
  unfold goNoLock. cbv zeta.
  apply preserves_bind; [apply ensureNode_keeps_keys; assumption | intros _].
  apply preserves_bind; [apply ensureRoom_keeps_keys; exact Hext | intros _].
  apply preserves_bind_gets. intros s0 _.
  apply preserves_bind_gets. intros s1 _.
  destruct (negb _); [apply bounceInside_keeps_keys; exact Hext | apply enter_T].
Qed.

Lemma go_T k node dx dy dir : preserves (T k) (go node dx dy dir).
Proof.
  intros w Hw. rewrite (go_lock_dead node dx dy dir w (proj2 Hw)).
  apply goNoLock_T, Hw.
Qed.

Lemma tryDoorTransition_T k : preserves (T k) tryDoorTransition.
Proof.
  pose proof (T_ext k) as Hext.
  unfold tryDoorTransition, getRoomNode.
  apply preserves_bind_gets. intros s0 _.
  apply preserves_bind_gets. intros s1 _.
  destruct (roomMap s1 !! roomId s0); [|apply preserves_ret].
  apply preserves_bind; [apply ensureRoom_keeps_keys; exact Hext | intros _].
  apply preserves_bind_gets. intros s2 _. cbv zeta.
  repeat match goal with |- preserves _ (if ?b then _ else _) => destruct b end;
    first [apply go_T | apply preserves_ret].
Qed.

Lemma clearCheck_T k : preserves (T k) clearCheck.
Proof.
  pose proof (T_ext k) as Hext. pose proof (T_fresh k) as Hfresh.
  unfold clearCheck.
  apply preserves_bind_gets. intros s0 _.
  apply preserves_bind; [apply ensureNode_keeps_keys; assumption | intros node].
  destruct (_ && _); [|apply preserves_ret].
  apply preserves_bind_gets. intros s1 _.
  destruct (_ =? _)%nat; [|apply preserves_ret].
  apply preserves_bind; [apply T_upd; intros n; [reflexivity | cbn; auto] | intros _].
  apply preserves_bind; [apply lockDoors_keeps_keys; exact Hext | intros _].
  apply preserves_bind; [apply say_keeps_keys; exact Hext | intros _].
  apply preserves_bind; [apply chance_keeps_keys; exact Hext | intros c].
  apply preserves_when, pushPickup_keeps_keys. exact Hext.
Qed.

Lemma resetGame_T w : treasuresCleared (exec resetGame w).
Proof.
  assert (Hgo : ensures (fun _ : World => True) resetGame (T 0)); [|apply (Hgo w I)].
  pose proof (T_ext 0) as Hext. pose proof (T_fresh 0) as Hfresh.
  unfold resetGame.
  eapply ensures_bind with (P' := T 0).
  { intros w0 _. split; [reflexivity|]. intros id n. cbn. rewrite lookup_empty. discriminate. }
  intros _. apply preserves_ensures.
  apply preserves_bind; [apply ensureNode_keeps_keys; assumption | intros _].
  apply preserves_bind; [apply ensureRoom_keeps_keys; exact Hext | intros _].
  apply preserves_bind; [apply loadRoom_T | intros _].
  apply preserves_modify. intros w0 Hw. eapply Hext; [| | exact Hw]; reflexivity.
Qed.

(** In [src/n.js] a room becomes a treasure room only inside
    [spawnRoomContents], which marks it cleared in the same call.  So
    every treasure node is cleared: that holds after [resetGame] and is
    kept by population, loading, the door transition and the clear
    check. *)
Theorem treasure_rooms_are_born_cleared :
  (forall w, treasuresCleared (exec resetGame w))
  /\ (forall w id, treasuresCleared w ->
        treasuresCleared (exec (spawnRoomContents id) w)
        /\ treasuresCleared (exec (loadRoom id) w))
  /\ (forall w, treasuresCleared w ->
        treasuresCleared (exec tryDoorTransition w)
        /\ treasuresCleared (exec clearCheck w)).
Proof.
  split; [exact resetGame_T|]. split.
  - intros w id Ht. unfold exec. split.
    + exact (proj2 (spawnRoomContents_T (keys w) id w (conj eq_refl Ht))).
    + exact (proj2 (loadRoom_T (keys w) id w (conj eq_refl Ht))).
  - intros w Ht. unfold exec. split.
    + exact (proj2 (tryDoorTransition_T (keys w) w (conj eq_refl Ht))).
    + exact (proj2 (clearCheck_T (keys w) w (conj eq_refl Ht))).
Qed.

(** Hence the treasure test of [go] never fires: [go] behaves as if the
    test were not there, and a door transition never takes a key. *)
Theorem treasure_lock_is_dead_code :
  forall w,
    treasuresCleared w ->
    (forall node dx dy dir, go node dx dy dir w = goNoLock node dx dy dir w)
    /\ keys (exec tryDoorTransition w) = keys w.
Proof.
  intros w Ht. split.
  - intros node dx dy dir. apply go_lock_dead, Ht.
  - unfold exec. exact (proj1 (tryDoorTransition_T (keys w) w (conj eq_refl Ht))).
Qed.

End NJsDoors.

Lemma treasuresCleared_decide w :
  bool_decide (map_Forall (fun (_ : string) n =>
                 node_kind n = treasure -> node_cleared n = true) (roomMap w)) = true ->
  treasuresCleared w.
Proof. intros Hb. apply bool_decide_eq_true_1 in Hb. exact Hb. Qed.

Lemma treasure_lock_witness :
  keys (exec (tryDoorTransition (H:=demoEnv)) atVaultDoor) = 1
  /\ roomId (exec (tryDoorTransition (H:=demoEnv)) atVaultDoor) = "1,0"%string
  /\ (node_locked <$> roomMap (exec (tryDoorTransition (H:=demoEnv)) atVaultDoor)
                        !! "1,0"%string) = Some true.
Proof.
  split.
  - apply (proj2 (treasure_lock_is_dead_code (H:=demoEnv) atVaultDoor
                    (treasuresCleared_decide atVaultDoor
                       ltac:(vm_compute; reflexivity)))).
  - split; vm_compute; reflexivity.
Defined.

End NJsProps.

(** * [src/n.mjs]: pause, death, shop and weapons *)

Module NMjsMore.
Import NMjs.
Local Open Scope Q_scope.


Section NMjsPause.
Context `{Env}.

(** A paused game is frozen: [update] changes nothing unless ESC or R
    was pressed; ESC alone clears the pause flag and nothing else (also
    after the pause that follows the player's death). *)
Theorem paused_game_is_frozen :
  forall inp dt w,
    paused w = true -> wasPressed inp KEY_R = false ->
    exec (update inp dt) w
    = (if wasPressed inp KEY_ESC then set_paused false w else w).
Proof.
  intros inp dt w Hp HR. unfold exec, update. rewrite bind_gets, Hp, HR.
  destruct (wasPressed inp KEY_ESC); reflexivity.
Qed.

(** A hit on a player whose invulnerability timer is not running sets
    the timer to 0.7; if it uses up the hit points they are set to 0, the
    death message is shown and the game is paused. *)
Theorem lethal_hit_pauses_the_game :
  forall dmg w,
    pl_invT (player w) <= 0 ->
    let w' := exec (hurtPlayer dmg) w in
    pl_invT (player w') = 0.7
    /\ (if Qle_bool (pl_hp (player w) - dmg) 0
        then pl_hp (player w') = 0 /\ paused w' = true
             /\ msg w' = "YOU DIED — PRESS R"%string
        else pl_hp (player w') = pl_hp (player w) - dmg
             /\ paused w' = paused w /\ msg w' = msg w).
Proof.
  intros dmg w Hi. cbv zeta. unfold exec.
  remember (snd (hurtPlayer dmg w)) as w' eqn:E.
  unfold hurtPlayer in E.
  rewrite bind_gets, (Qltb_ge _ _ Hi) in E.
  unfold updPlayer at 1 in E. rewrite bind_modify in E.
  unfold shake at 1 in E. unfold updCam at 1 in E. rewrite bind_modify, bind_gets in E.
  cbn [player set_player set_cam pl_hp set_pl_invT set_pl_hp] in E.
  destruct (Qle_bool (pl_hp (player w) - dmg) 0); subst w'; cbn;
    repeat split; reflexivity.
Qed.

(** [buyShopItem] never leaves the coin count negative, and with fewer
    coins than the price nothing is bought: coins, weapons and player
    stay as they are. *)
Theorem shop_never_sells_on_credit :
  forall item w,
    let w' := exec (buyShopItem item) w in
    (0 <= coins w -> 0 <= coins w')
    /\ (coins w < si_cost item ->
        coins w' = coins w /\ WEAPONS w' = WEAPONS w /\ player w' = player w).
Proof.
  intros item w. cbv zeta. unfold exec.
  remember (snd (buyShopItem item w)) as w' eqn:E.
  unfold buyShopItem in E. rewrite bind_gets in E. unfold id in E.
  destruct (Qltb (coins w) (si_cost item)) eqn:Ec.
  - subst w'. cbn. split; [intros H0; exact H0 | intros _; repeat split].
  - apply Qltb_false_ge in Ec. split.
    + intros H0. destruct (si_type item).
      * destruct (WEAPONS w !! si_weaponId item) as [x|]; [|subst w'; exact H0].
        destruct (w_unlocked x); subst w'; cbn; [exact H0 | lra].
      * destruct (Qle_bool _ _); subst w'; cbn; [exact H0 | lra].
    + intros Hlt. exfalso. apply (Qlt_not_le _ _ Hlt Ec).
Qed.

Lemma cycleLoop_unlocked fuel dir i ws k :
  cycleLoop fuel dir i ws = Some k ->
  exists x, ws !! k = Some x /\ w_unlocked x = true.
Proof.
  revert i. induction fuel as [|fuel IH]; intros i; cbn [cycleLoop]; [discriminate|].
  cbv zeta. set (j := Z.rem _ _).
  destruct (arrGet j ws) as [x|] eqn:E; [|apply IH].
  destruct (w_unlocked x) eqn:U; [|apply IH].
  intros [= <-]. exists x. split; [|exact U].
  unfold arrGet in E. destruct (0 <=? j)%Z; [exact E | discriminate E].
Qed.

(** [cycleWeapon] either leaves everything as it is or selects a weapon
    that is unlocked; it changes nothing but the selection. *)
Theorem cycleWeapon_selects_unlocked :
  forall dir w,
    let w' := exec (cycleWeapon dir) w in
    w' = w
    \/ (w' = set_player (set_pl_weapon (pl_weapon (player w')) (player w)) w
        /\ exists x, WEAPONS w !! pl_weapon (player w') = Some x
                     /\ w_unlocked x = true).
Proof.
  intros dir w. cbv zeta. unfold exec.
  remember (snd (cycleWeapon dir w)) as w' eqn:E.
  unfold cycleWeapon in E. rewrite bind_gets in E. unfold id in E.
  destruct (cycleLoop _ _ _ _) as [k|] eqn:Ek; subst w'; [|left; reflexivity].
  right. cbn. split; [reflexivity|]. exact (cycleLoop_unlocked _ _ _ _ _ Ek).
Qed.

End NMjsPause.

Lemma paused_witness :
  exec (update (H:=NMjsExamples.demoEnv) NMjsExamples.noInput (1 # 30))
    (set_paused true NMjsExamples.startWorld)
  = set_paused true NMjsExamples.startWorld.
Proof.
  exact (paused_game_is_frozen (H:=NMjsExamples.demoEnv) NMjsExamples.noInput (1 # 30)
           (set_paused true NMjsExamples.startWorld) eq_refl eq_refl).
Defined.

Lemma lethal_hit_witness :
  paused (exec (hurtPlayer 100) NMjsExamples.startWorld) = true.
Proof.
  destruct (lethal_hit_pauses_the_game 100 NMjsExamples.startWorld) as [_ Hd];
    [vm_compute; discriminate|].
  replace (Qle_bool (pl_hp (player NMjsExamples.startWorld) - 100) 0) with true in Hd
    by (vm_compute; reflexivity).
  exact (proj1 (proj2 Hd)).
Defined.

End NMjsMore.

(** * [src/n.mjs]: the generated rooms and their doors *)

Module NMjsRooms.
Import NMjs.
Local Open Scope Q_scope.


Section NMjsTiles.
Context `{Env}.
Local Open Scope Z_scope.

(** A cell of the room grid, and a cell of the part of it that the
    scatter and pillar loops can reach. *)
Definition cell (x y : Z) : Prop := 0 <= x < ROOM_TW /\ 0 <= y < ROOM_TH.
Definition inner (x y : Z) : Prop :=
  2 <= x <= ROOM_TW - 3 /\ 2 <= y <= ROOM_TH - 3.

(** What [genRoomTiles] leaves on the two outermost rings of a room whose
    neighbour flags are [nb]: an opening (floor) in the middle of each wall
    that has a neighbour, with a door marker just inside it; wall on the
    rest of the border; floor on the rest of the ring inside the border. *)
Definition shellTile (nb : Doors) (x y : Z) : Z :=
  if atE nb && (x =? 19) && (y =? 6) then 3
  else if atE nb && (x =? 20) && (y =? 6) then 1
  else if atW nb && (x =? 1) && (y =? 6) then 3
  else if atW nb && (x =? 0) && (y =? 6) then 1
  else if atS nb && (x =? 10) && (y =? 11) then 3
  else if atS nb && (x =? 10) && (y =? 12) then 1
  else if atN nb && (x =? 10) && (y =? 1) then 3
  else if atN nb && (x =? 10) && (y =? 0) then 1
  else if isEdge x y then 0 else 1.

(** The tile array is whole, its shell is as generated by the first loop,
    possibly with the centre already cleared. *)
Definition shell0 (g : list Z) : Prop :=
  length g = 273%nat
  /\ forall x y, cell x y -> ~ inner x y ->
       arrGet (tileIndex x y) g = Some (if isEdge x y then 0 else 1).

Definition centred (g : list Z) : Prop :=
  forall x y, 9 <= x <= 11 -> 5 <= y <= 7 -> arrGet (tileIndex x y) g = Some 1.

Lemma arrSet_length {A} i (v : A) g : length (arrSet i v g) = length g.
Proof. unfold arrSet. destruct (0 <=? i); [apply length_insert | reflexivity]. Qed.

Lemma arrGet_arrSet x y a b v (g : list Z) :
  cell x y -> cell a b -> length g = 273%nat ->
  arrGet (tileIndex x y) (arrSet (tileIndex a b) v g)
  = if (x =? a) && (y =? b) then Some v else arrGet (tileIndex x y) g.
Proof.
  unfold cell, tileIndex, ROOM_TW, ROOM_TH. intros Hx Ha Hg.
  unfold arrGet, arrSet.
  replace (0 <=? y * 21 + x) with true by (symmetry; apply Z.leb_le; lia).
  replace (0 <=? b * 21 + a) with true by (symmetry; apply Z.leb_le; lia).
  destruct ((x =? a) && (y =? b)) eqn:E.
  - apply andb_true_iff in E as [E1 E2].
    apply Z.eqb_eq in E1, E2. subst a b.
    apply list_lookup_insert_eq. lia.
  - apply list_lookup_insert_ne. intros Hn.
    apply andb_false_iff in E as [E | E]; apply Z.eqb_neq in E; lia.
Qed.

Lemma shell0_set a b v g : inner a b -> shell0 g -> shell0 (arrSet (tileIndex a b) v g).
Proof.
  intros Hi [Hl Hg]. split; [rewrite arrSet_length; exact Hl|].
  intros x y Hc Hn. rewrite arrGet_arrSet; [| exact Hc | | exact Hl].
  - destruct ((x =? a) && (y =? b)) eqn:E; [| apply Hg; assumption].
    apply andb_true_iff in E as [E1 E2]. apply Z.eqb_eq in E1, E2. subst a b.
    contradiction.
  - unfold inner, cell, ROOM_TW, ROOM_TH in *. lia.
Qed.

Lemma shell0_border : shell0 borderAndFloor.
Proof.
  split; [reflexivity|].
  assert (Hall : forallb (fun y => forallb (fun x =>
            bool_decide (arrGet (tileIndex x y) borderAndFloor
                         = Some (if isEdge x y then 0 else 1)))
            (seqZ 0 ROOM_TW)) (seqZ 0 ROOM_TH) = true) by (vm_compute; reflexivity).
  intros x y [Hx Hy] _.
  rewrite forallb_forall in Hall.
  assert (Hy' : In y (seqZ 0 ROOM_TH)).
  { apply list_elem_of_In, elem_of_seqZ. lia. }
  specialize (Hall y Hy'). rewrite forallb_forall in Hall.
  assert (Hx' : In x (seqZ 0 ROOM_TW)).
  { apply list_elem_of_In, elem_of_seqZ. lia. }
  specialize (Hall x Hx'). apply bool_decide_eq_true in Hall. exact Hall.
Qed.

(** A loop keeps what each of its iterations keeps of the carried value. *)
Lemma foldM_value {S X A} (I : A -> Prop) (l : list X) (body : A -> X -> M S A) :
  (forall a x s, In x l -> I a -> I (fst (body a x s))) ->
  forall a s, I a -> I (fst (foldM l a body s)).
Proof.
  induction l as [|x l IH]; intros Hb a s Ha; cbn [foldM].
  - exact Ha.
  - unfold bind. cbv zeta. apply IH.
    + intros a' x' s' Hx'. apply Hb. right. exact Hx'.
    + apply Hb; [left; reflexivity | exact Ha].
Qed.

Lemma randi_bounds (n : Z) w :
  1 <= n < 2 ^ 31 -> 0 <= fst (randi (inject_Z n) w) < n.
Proof.
  intros Hn. unfold randi, randf, bind, ret. cbn [fst snd].
  destruct (random_unit (draws w)) as [H0 H1].
  apply toInt32_times; assumption.
Qed.

Lemma scatter_shell n p t g w : shell0 g -> shell0 (fst (scatter n p t g w)).
Proof.
  unfold scatter. apply foldM_value. clear g w.
  intros g _ w _ Hg.
  unfold bind at 1. cbv zeta.
  pose proof (randi_bounds (ROOM_TW - 4) w ltac:(unfold ROOM_TW; lia)) as Hpx.
  set (px := fst (randi (inject_Z (ROOM_TW - 4)) w)) in *.
  set (w1 := snd (randi (inject_Z (ROOM_TW - 4)) w)).
  unfold bind at 1. cbv zeta.
  pose proof (randi_bounds (ROOM_TH - 4) w1 ltac:(unfold ROOM_TH; lia)) as Hpy.
  set (py := fst (randi (inject_Z (ROOM_TH - 4)) w1)) in *.
  set (w2 := snd (randi (inject_Z (ROOM_TH - 4)) w1)).
  unfold bind at 1. cbv zeta. unfold ret. cbn [fst].
  destruct (fst (chance p w2)); [| exact Hg].
  apply shell0_set; [| exact Hg].
  unfold inner, ROOM_TW, ROOM_TH in *. lia.
Qed.

Lemma pillars_shell d g w : shell0 g -> shell0 (fst (pillars d g w)).
Proof.
  unfold pillars. apply foldM_value. clear g w.
  intros g y w Hy Hg. apply foldM_value; [| exact Hg]. clear g w Hg.
  intros g x w Hx Hg.
  apply list_elem_of_In, elem_of_seqZ in Hx, Hy.
  destruct (negb (bool_decide (arrGet (tileIndex x y) g = Some 1))); [exact Hg|].
  unfold bind, ret. cbn [fst]. destruct (fst (chance d w)); [| exact Hg].
  apply shell0_set; [| exact Hg].
  unfold inner, ROOM_TW, ROOM_TH in *. lia.
Qed.

Lemma clearCentre_unfold g :
  clearCentre g
  = foldl (fun g p => arrSet (tileIndex (fst p) (snd p)) 1 g) g
      [(9, 5); (10, 5); (11, 5); (9, 6); (10, 6); (11, 6); (9, 7); (10, 7); (11, 7)].
Proof. reflexivity. Qed.

Lemma clearCentre_shell g : shell0 g -> shell0 (clearCentre g) /\ centred (clearCentre g).
Proof.
  intros Hg. rewrite clearCentre_unfold. cbn [foldl fst snd].
  split.
  - repeat (apply shell0_set; [unfold inner, ROOM_TW, ROOM_TH; lia|]). exact Hg.
  - destruct Hg as [Hl _]. intros x y Hx Hy.
    assert (Hc : cell x y) by (unfold cell, ROOM_TW, ROOM_TH; lia).
    repeat (rewrite arrGet_arrSet;
            [| exact Hc | unfold cell, ROOM_TW, ROOM_TH; lia
             | rewrite ?arrSet_length; exact Hl]).
    repeat match goal with
           | |- context [(?a =? ?b)] => destruct (Z.eqb_spec a b)
           end; cbn [andb]; try reflexivity; lia.
Qed.

Lemma carveDoor_unfold dir g :
  carveDoor dir g
  = match dir with
    | dN => arrSet (tileIndex 10 1) 3 (arrSet (tileIndex 10 0) 1 g)
    | dS => arrSet (tileIndex 10 11) 3 (arrSet (tileIndex 10 12) 1 g)
    | dW => arrSet (tileIndex 1 6) 3 (arrSet (tileIndex 0 6) 1 g)
    | dE => arrSet (tileIndex 19 6) 3 (arrSet (tileIndex 20 6) 1 g)
    end.
Proof. destruct dir; reflexivity. Qed.

(** The four [if (room.neighbors.X) carveDoor("X")] of [genRoomTiles]. *)
Definition carved (nb : Doors) (g : list Z) : list Z :=
  let g := if atN nb then carveDoor dN g else g in
  let g := if atS nb then carveDoor dS g else g in
  let g := if atW nb then carveDoor dW g else g in
  if atE nb then carveDoor dE g else g.

Definition finished (nb : Doors) (g : list Z) : Prop :=
  length g = 273%nat
  /\ (forall x y, cell x y -> ~ inner x y ->
        arrGet (tileIndex x y) g = Some (shellTile nb x y))
  /\ centred g.

Ltac cells := unfold cell, ROOM_TW, ROOM_TH; lia.

Lemma carved_finished nb g : shell0 g -> centred g -> finished nb (carved nb g).
Proof.
  intros [Hl Hg] Hc. unfold carved. cbv zeta. rewrite !carveDoor_unfold.
  split; [| split].
  - destruct nb as [[] [] [] []]; cbn [atN atS atW atE];
      rewrite ?arrSet_length; exact Hl.
  - intros x y Hxy Hn. unfold shellTile.
    destruct nb as [[] [] [] []]; cbn [atN atS atW atE andb];
      repeat (rewrite arrGet_arrSet;
              [| exact Hxy | cells | rewrite ?arrSet_length; exact Hl]);
      rewrite (Hg x y Hxy Hn);
      repeat lazymatch goal with
             | |- (if ?c then _ else _) = _ => destruct c; [reflexivity|]
             end;
      reflexivity.
  - intros x y Hx Hy.
    assert (Hxy : cell x y) by cells.
    destruct nb as [[] [] [] []]; cbn [atN atS atW atE];
      repeat (rewrite arrGet_arrSet;
              [| exact Hxy | cells | rewrite ?arrSet_length; exact Hl]);
      repeat match goal with
             | |- context [(x =? ?a) && (y =? ?b)] =>
                 replace ((x =? a) && (y =? b)) with false
                   by (symmetry; apply andb_false_iff; rewrite !Z.eqb_neq; lia)
             end;
      apply Hc; assumption.
Qed.

(** *** The state around the tile loops *)

Lemma randf_keeps_rooms R : preserves (fun s => rooms s = R) randf.
Proof. intros s Hs. exact Hs. Qed.

Lemma randi_keeps_rooms R n : preserves (fun s => rooms s = R) (randi n).
Proof. unfold randi. pres. apply randf_keeps_rooms. Qed.

Lemma chance_keeps_rooms R p : preserves (fun s => rooms s = R) (chance p).
Proof. unfold chance. pres. apply randf_keeps_rooms. Qed.

Lemma scatter_keeps_rooms R n p t g :
  preserves (fun s => rooms s = R) (scatter n p t g).
Proof.
  unfold scatter. pres;
    first [apply randi_keeps_rooms | apply chance_keeps_rooms].
Qed.

Lemma pillars_keeps_rooms R d g : preserves (fun s => rooms s = R) (pillars d g).
Proof. unfold pillars. pres. apply chance_keeps_rooms. Qed.

Definition noDoors : Doors := mkDoors false false false false.

(** The neighbour flags [genRoomTiles] reads for the room [id]. *)
Definition flagsOf (id : string) (w : World) : Doors :=
  from_option neighbors noDoors (rooms w !! id).

Lemma ensureRoom_flags id w :
  exists r, rooms (snd (ensureRoom id w)) !! id = Some r
            /\ neighbors r = flagsOf id w.
Proof.
  unfold ensureRoom, flagsOf. destruct (rooms w !! id) as [r|] eqn:E; cbn.
  - exists r. split; [exact E | reflexivity].
  - exists (newRoom id). split; [apply lookup_insert_eq | reflexivity].
Qed.

Lemma ensureRoom_others id i w :
  i <> id -> rooms (snd (ensureRoom id w)) !! i = rooms w !! i.
Proof.
  intros Hi. unfold ensureRoom. destruct (rooms w !! id); cbn; [reflexivity|].
  apply lookup_insert_ne. congruence.
Qed.

Lemma genRoomTiles_others node w i :
  i <> node_id node ->
  rooms (exec (genRoomTiles node) w) !! i = rooms w !! i.
Proof.
  intros Hi. unfold exec, genRoomTiles.
  pose proof (ensureRoom_others (node_id node) i w Hi) as H1.
  destruct (ensureRoom (node_id node) w) as [r0 w1] eqn:E1.
  rewrite (bind_run _ _ _ _ _ E1). cbn [snd] in H1.
  lazymatch goal with
  | |- context [bind ?m _ w1] =>
      assert (Hm2 : rooms (snd (m w1)) = rooms w1)
        by (destruct (bool_decide (node_kind node = combat));
            apply (scatter_keeps_rooms (rooms w1)); reflexivity);
      destruct (m w1) as [g1 w2] eqn:E2
  end.
  rewrite (bind_run _ _ _ _ _ E2). cbn [fst snd] in Hm2.
  lazymatch goal with
  | |- context [bind (pillars ?d g1) _ w2] =>
      pose proof (pillars_keeps_rooms (rooms w2) d g1 w2 eq_refl) as Hw3;
      destruct (pillars d g1 w2) as [g2 w3] eqn:E3
  end.
  rewrite (bind_run _ _ _ _ _ E3). cbn [fst snd] in Hw3.
  rewrite bind_gets. unfold updRoom, modify. cbn [snd rooms set_rooms].
  rewrite lookup_alter_ne by congruence. rewrite Hw3, Hm2. exact H1.
Qed.

Lemma genRoomTiles_spec node w :
  exists r,
    rooms (exec (genRoomTiles node) w) !! node_id node = Some r
    /\ neighbors r = flagsOf (node_id node) w
    /\ finished (flagsOf (node_id node) w) (room_g r).
Proof.
  unfold exec, genRoomTiles.
  destruct (ensureRoom_flags (node_id node) w) as (r1 & Hr1 & Hnb).
  destruct (ensureRoom (node_id node) w) as [r0 w1] eqn:E1.
  rewrite (bind_run _ _ _ _ _ E1). cbn [snd] in Hr1.
  lazymatch goal with
  | |- context [bind ?m _ w1] =>
      assert (Hm1 : shell0 (fst (m w1)))
        by (destruct (bool_decide (node_kind node = combat));
            apply scatter_shell, shell0_border);
      assert (Hm2 : rooms (snd (m w1)) = rooms w1)
        by (destruct (bool_decide (node_kind node = combat));
            apply (scatter_keeps_rooms (rooms w1)); reflexivity);
      destruct (m w1) as [g1 w2] eqn:E2
  end.
  rewrite (bind_run _ _ _ _ _ E2). cbn [fst snd] in Hm1, Hm2.
  lazymatch goal with
  | |- context [bind (pillars ?d g1) _ w2] =>
      pose proof (pillars_shell d g1 w2 Hm1) as Hg2;
      pose proof (pillars_keeps_rooms (rooms w2) d g1 w2 eq_refl) as Hw3;
      destruct (pillars d g1 w2) as [g2 w3] eqn:E3
  end.
  rewrite (bind_run _ _ _ _ _ E3). cbn [fst snd] in Hg2, Hw3.
  rewrite bind_gets.
  destruct (clearCentre_shell g2 Hg2) as [Hs Hc].
  assert (Hfl : from_option neighbors (mkDoors false false false false)
                  (rooms w3 !! node_id node)
                = flagsOf (node_id node) w).
  { rewrite Hw3, Hm2, Hr1. exact Hnb. }
  rewrite Hfl.
  pose proof (carved_finished (flagsOf (node_id node) w) _ Hs Hc) as Hfin.
  unfold carved in Hfin.
  exists (set_room_g (carved (flagsOf (node_id node) w) (clearCentre g2)) r1).
  split; [| split].
  - unfold updRoom, modify. cbn [snd rooms set_rooms].
    rewrite lookup_alter_eq, Hw3, Hm2, Hr1. reflexivity.
  - exact Hnb.
  - exact Hfin.
Qed.

(** [genRoomTiles] always leaves the room enclosed: the tile array has
    21 x 13 entries, its border is wall except for a one-tile opening in
    the middle of every side that has a neighbour, the ring inside the
    border is floor except for the door marker behind each opening, and
    the 3 x 3 centre where the player enters is floor, whatever the random
    draws were. *)
Theorem generated_room_is_enclosed :
  forall node w,
    exists r,
      rooms (exec (genRoomTiles node) w) !! node_id node = Some r
      /\ neighbors r = flagsOf (node_id node) w
      /\ length (room_g r) = 273%nat
      /\ (forall x y, cell x y -> ~ inner x y ->
            arrGet (tileIndex x y) (room_g r) = Some (shellTile (neighbors r) x y))
      /\ (forall x y, 9 <= x <= 11 -> 5 <= y <= 7 ->
            arrGet (tileIndex x y) (room_g r) = Some 1).
Proof.
  intros node w.
  destruct (genRoomTiles_spec node w) as (r & Hr & Hnb & Hl & Hs & Hc).
  exists r. rewrite Hnb. repeat split; assumption.
Qed.

Lemma shellTile_cases nb x y :
  shellTile nb x y = 0 \/ shellTile nb x y = 1 \/ shellTile nb x y = 3.
Proof.
  unfold shellTile.
  repeat lazymatch goal with
         | |- context [if ?c then _ else _] => destruct c
         end; auto.
Qed.

Lemma isSolidAtPoint_outside wx wy room :
  ~ cell (toInt32 (wx / TILE)) (toInt32 (wy / TILE)) ->
  isSolidAtPoint wx wy room = true.
Proof.
  intros Hn. unfold isSolidAtPoint. cbv zeta.
  set (tx := toInt32 (wx / TILE)) in *. set (ty := toInt32 (wy / TILE)) in *.
  destruct ((tx <? 0) || (ty <? 0) || (ROOM_TW <=? tx) || (ROOM_TH <=? ty)) eqn:E;
    [reflexivity|].
  exfalso. apply Hn. unfold cell.
  repeat (apply orb_false_iff in E as [E ?]).
  rewrite Z.ltb_ge in *. rewrite Z.leb_gt in *. lia.
Qed.

Lemma isSolidAtPoint_tile wx wy room t :
  cell (toInt32 (wx / TILE)) (toInt32 (wy / TILE)) ->
  arrGet (tileIndex (toInt32 (wx / TILE)) (toInt32 (wy / TILE))) (room_g room)
  = Some t ->
  t = 0 \/ t = 1 \/ t = 3 ->
  isSolidAtPoint wx wy room = (t =? 0).
Proof.
  intros Hc Ht Hcases. unfold isSolidAtPoint. cbv zeta.
  set (tx := toInt32 (wx / TILE)) in *. set (ty := toInt32 (wy / TILE)) in *.
  replace ((tx <? 0) || (ty <? 0) || (ROOM_TW <=? tx) || (ROOM_TH <=? ty))
    with false.
  - rewrite Ht. destruct Hcases as [-> | [-> | ->]]; reflexivity.
  - symmetry. unfold cell in Hc.
    rewrite !orb_false_iff, !Z.ltb_ge, !Z.leb_gt. lia.
Qed.

(** Collision against a generated room: every point outside the grid is
    solid; on the border and on the ring inside it a point is solid exactly
    where the shell has a wall tile, that is everywhere on the border but
    in the door openings and nowhere on the inner ring; the 3 x 3 centre is
    never solid. *)
Theorem only_door_openings_break_the_wall :
  forall node w,
    exists r,
      rooms (exec (genRoomTiles node) w) !! node_id node = Some r
      /\ forall wx wy,
           let tx := toInt32 (wx / TILE) in
           let ty := toInt32 (wy / TILE) in
           (~ cell tx ty -> isSolidAtPoint wx wy r = true)
           /\ (cell tx ty -> ~ inner tx ty ->
                isSolidAtPoint wx wy r = (shellTile (neighbors r) tx ty =? 0))
           /\ (9 <= tx <= 11 -> 5 <= ty <= 7 -> isSolidAtPoint wx wy r = false).
Proof.
  intros node w.
  destruct (genRoomTiles_spec node w) as (r & Hr & Hnb & Hl & Hs & Hc).
  exists r. split; [exact Hr|]. intros wx wy tx ty. rewrite Hnb.
  split; [| split].
  - apply isSolidAtPoint_outside.
  - intros Hxy Hn. apply isSolidAtPoint_tile;
      [exact Hxy | apply Hs; assumption | apply shellTile_cases].
  - intros Hx Hy.
    apply (isSolidAtPoint_tile wx wy r 1); [cells | apply Hc; assumption | auto].
Qed.

End NMjsTiles.

Section NMjsNeighbours.
Context `{Env}.
Local Open Scope Z_scope.

(** The cell behind the door [d] of the cell [(x, y)], and the door of
    that cell that leads back. *)
Definition stepTo (x y : Z) (d : Dir) : Z * Z :=
  match d with
  | dN => (x, y - 1) | dS => (x, y + 1) | dW => (x - 1, y) | dE => (x + 1, y)
  end.

Definition facing (d : Dir) : Dir :=
  match d with dN => dS | dS => dN | dW => dE | dE => dW end.

Definition withinDepth (p : Z * Z) : bool :=
  Z.abs (fst p) + Z.abs (snd p) <=? MAX_DEPTH.

Definition keyOf (p : Z * Z) : string := roomKey (fst p) (snd p).

(** The neighbour flag [d] of the room [i]; [false] when there is no such
    room yet. *)
Definition flag (m : gmap string Room) (i : string) (d : Dir) : bool :=
  from_option (fun r => getDoor (neighbors r) d) false (m !! i).

(** The room table after [ensureRoom(i)]. *)
Definition ensured (i : string) (m : gmap string Room) : gmap string Room :=
  match m !! i with Some _ => m | None => <[i := newRoom i]> m end.

(** The room table after a [link] that is not cut off by [MAX_DEPTH]. *)
Definition linked (id nid : string) (dA dB : Dir) (m : gmap string Room)
  : gmap string Room :=
  alter (fun r => set_neighbors (setDoor (neighbors r) dB true) r) nid
    (ensured nid
       (alter (fun r => set_neighbors (setDoor (neighbors r) dA true) r) id m)).

Lemma getDoor_setDoor n dA d :
  getDoor (setDoor n dA true) d = bool_decide (d = dA) || getDoor n d.
Proof. destruct d, dA; reflexivity. Qed.

Lemma flag_ensured i m j d : flag (ensured i m) j d = flag m j d.
Proof.
  unfold flag, ensured. destruct (m !! i) eqn:E; [reflexivity|].
  destruct (decide (j = i)) as [->|Hn].
  - rewrite lookup_insert_eq, E. destruct d; reflexivity.
  - rewrite lookup_insert_ne by congruence. reflexivity.
Qed.

Lemma ensured_some i m j : is_Some (m !! j) -> is_Some (ensured i m !! j).
Proof.
  unfold ensured. destruct (m !! i) eqn:E; [auto|].
  intros Hj. destruct (decide (j = i)) as [->|Hn].
  - rewrite lookup_insert_eq. eauto.
  - rewrite lookup_insert_ne by congruence. exact Hj.
Qed.

Lemma ensured_own i m : is_Some (ensured i m !! i).
Proof.
  unfold ensured. destruct (m !! i) eqn:E; [rewrite E; eauto|].
  rewrite lookup_insert_eq. eauto.
Qed.

Lemma flag_alter f i m j d :
  flag (alter f i m) j d
  = if decide (j = i) then from_option (fun r => getDoor (neighbors (f r)) d) false (m !! i)
    else flag m j d.
Proof.
  unfold flag. destruct (decide (j = i)) as [->|Hn].
  - rewrite lookup_alter_eq. destruct (m !! i); reflexivity.
  - rewrite lookup_alter_ne by congruence. reflexivity.
Qed.

Lemma alter_some (f : Room -> Room) i (m : gmap string Room) j :
  is_Some (alter f i m !! j) <-> is_Some (m !! j).
Proof.
  destruct (decide (j = i)) as [->|Hn].
  - rewrite lookup_alter_eq. rewrite fmap_is_Some. reflexivity.
  - rewrite lookup_alter_ne by congruence. reflexivity.
Qed.

Lemma linked_some id nid dA dB m j :
  is_Some (m !! j) -> is_Some (linked id nid dA dB m !! j).
Proof.
  intros Hj. unfold linked. apply alter_some, ensured_some, alter_some, Hj.
Qed.

(** A link only ever sets flags. *)
Lemma flag_linked_mono id nid dA dB m j d :
  flag m j d = true -> flag (linked id nid dA dB m) j d = true.
Proof.
  intros Hf. unfold linked. rewrite flag_alter.
  assert (H1 : flag (ensured nid
            (alter (fun r => set_neighbors (setDoor (neighbors r) dA true) r) id m))
            j d = true).
  { rewrite flag_ensured, flag_alter. destruct (decide (j = id)) as [->|]; [| exact Hf].
    unfold flag in Hf. destruct (m !! id); [| discriminate Hf].
    cbn in *. rewrite getDoor_setDoor, Hf. apply orb_true_r. }
  destruct (decide (j = nid)) as [->|]; [| exact H1].
  unfold flag in H1. destruct (ensured nid _ !! nid); [| discriminate H1].
  cbn in *. rewrite getDoor_setDoor, H1. apply orb_true_r.
Qed.

Lemma flag_linked_there id nid dA dB m :
  flag (linked id nid dA dB m) nid dB = true.
Proof.
  unfold linked. rewrite flag_alter. rewrite decide_True by reflexivity.
  destruct (ensured_own nid
    (alter (fun r => set_neighbors (setDoor (neighbors r) dA true) r) id m))
    as [r Hr].
  rewrite Hr. cbn. rewrite getDoor_setDoor.
  rewrite bool_decide_eq_true_2 by reflexivity. reflexivity.
Qed.

Lemma flag_linked_here id nid dA dB m :
  is_Some (m !! id) -> flag (linked id nid dA dB m) id dA = true.
Proof.
  intros [r Hr].
  assert (H1 : flag (ensured nid
            (alter (fun r => set_neighbors (setDoor (neighbors r) dA true) r) id m))
            id dA = true).
  { rewrite flag_ensured, flag_alter, decide_True by reflexivity.
    rewrite Hr. cbn. rewrite getDoor_setDoor.
    rewrite bool_decide_eq_true_2 by reflexivity. reflexivity. }
  unfold linked. rewrite flag_alter.
  destruct (decide (id = nid)) as [<-|]; [| exact H1].
  unfold flag in H1. destruct (ensured id _ !! id); [| discriminate H1].
  cbn in *. rewrite getDoor_setDoor, H1. apply orb_true_r.
Qed.

(** A link leaves alone the flags of a third room, and the other flags of
    the room it starts from. *)
Lemma flag_linked_other id nid dA dB m j d :
  j <> nid -> (j <> id \/ d <> dA) ->
  flag (linked id nid dA dB m) j d = flag m j d.
Proof.
  intros Hn Hor. unfold linked.
  rewrite flag_alter, decide_False by exact Hn.
  rewrite flag_ensured, flag_alter.
  destruct (decide (j = id)) as [->|]; [| reflexivity].
  destruct Hor as [Hc | Hd]; [congruence|].
  unfold flag. destruct (m !! id); [| reflexivity].
  cbn. rewrite getDoor_setDoor.
  rewrite bool_decide_eq_false_2 by exact Hd. reflexivity.
Qed.

(** *** The monadic steps *)

Lemma ensureNode_rooms i w : rooms (snd (ensureNode i w)) = rooms w.
Proof. unfold ensureNode. destruct (roomMap w !! i); reflexivity. Qed.

Lemma ensureNode_map i j w :
  j <> i -> roomMap (snd (ensureNode i w)) !! j = roomMap w !! j.
Proof.
  intros Hj. unfold ensureNode. destruct (roomMap w !! i); cbn; [reflexivity|].
  apply lookup_insert_ne. congruence.
Qed.

Lemma ensureRoom_rooms i w : rooms (snd (ensureRoom i w)) = ensured i (rooms w).
Proof. unfold ensureRoom, ensured. destruct (rooms w !! i); reflexivity. Qed.

Lemma ensureRoom_map i w : roomMap (snd (ensureRoom i w)) = roomMap w.
Proof. unfold ensureRoom. destruct (rooms w !! i); reflexivity. Qed.

Lemma link_rooms id nx ny dA dB w :
  rooms (snd (link id nx ny dA dB w))
  = if withinDepth (nx, ny) then linked id (roomKey nx ny) dA dB (rooms w)
    else rooms w.
Proof.
  unfold link, withinDepth. cbn [fst snd]. rewrite Z.ltb_antisym.
  destruct (Z.abs nx + Z.abs ny <=? MAX_DEPTH); cbn [negb]; [| reflexivity].
  unfold updRoom at 1. rewrite bind_modify. cbv beta zeta.
  set (w0 := set_rooms _ w).
  pose proof (ensureNode_rooms (roomKey nx ny) w0) as H1.
  destruct (ensureNode (roomKey nx ny) w0) as [n1 w1] eqn:E1.
  rewrite (bind_run _ _ _ _ _ E1).
  pose proof (ensureRoom_rooms (roomKey nx ny) w1) as H2.
  destruct (ensureRoom (roomKey nx ny) w1) as [r2 w2] eqn:E2.
  rewrite (bind_run _ _ _ _ _ E2).
  unfold updRoom, modify. cbn [snd rooms set_rooms] in *.
  rewrite H2, H1. reflexivity.
Qed.

Lemma link_map id nx ny dA dB w j :
  j <> roomKey nx ny ->
  roomMap (snd (link id nx ny dA dB w)) !! j = roomMap w !! j.
Proof.
  intros Hj. unfold link.
  destruct (MAX_DEPTH <? Z.abs nx + Z.abs ny); [reflexivity|].
  unfold updRoom at 1. rewrite bind_modify. cbv beta zeta.
  set (w0 := set_rooms _ w).
  pose proof (ensureNode_map (roomKey nx ny) j w0 Hj) as H1.
  destruct (ensureNode (roomKey nx ny) w0) as [n1 w1] eqn:E1.
  rewrite (bind_run _ _ _ _ _ E1).
  pose proof (ensureRoom_map (roomKey nx ny) w1) as H2.
  destruct (ensureRoom (roomKey nx ny) w1) as [r2 w2] eqn:E2.
  rewrite (bind_run _ _ _ _ _ E2).
  unfold updRoom, modify. cbn [snd roomMap set_rooms] in *.
  rewrite H2, H1. reflexivity.
Qed.

(** One of the four [link] calls of [buildNeighborsAround], on the room
    table. *)
Definition layer (x y : Z) (d : Dir) (m : gmap string Room) : gmap string Room :=
  if withinDepth (stepTo x y d)
  then linked (roomKey x y) (keyOf (stepTo x y d)) d (facing d) m
  else m.

(** The room table after the four links around [(x, y)]. *)
Definition around (x y : Z) (m : gmap string Room) : gmap string Room :=
  layer x y dE (layer x y dW (layer x y dS (layer x y dN
    (ensured (roomKey x y) m)))).

Lemma step_elsewhere x y d : roomKey x y <> keyOf (stepTo x y d).
Proof.
  intros E. apply roomKey_inj in E as [E1 E2]. destruct d; cbn in *; lia.
Qed.

Lemma layer_mono x y d m j e :
  flag m j e = true -> flag (layer x y d m) j e = true.
Proof.
  unfold layer. destruct (withinDepth _); [apply flag_linked_mono | auto].
Qed.

Lemma layer_some x y d m j : is_Some (m !! j) -> is_Some (layer x y d m !! j).
Proof.
  unfold layer. destruct (withinDepth _); [apply linked_some | auto].
Qed.

Lemma layer_sets x y d m :
  withinDepth (stepTo x y d) = true -> is_Some (m !! roomKey x y) ->
  flag (layer x y d m) (roomKey x y) d = true
  /\ flag (layer x y d m) (keyOf (stepTo x y d)) (facing d) = true.
Proof.
  intros Hd Hs. unfold layer. rewrite Hd. split.
  - apply flag_linked_here, Hs.
  - apply flag_linked_there.
Qed.

Lemma layer_other x y d m e :
  e <> d -> flag (layer x y d m) (roomKey x y) e = flag m (roomKey x y) e.
Proof.
  intros He. unfold layer. destruct (withinDepth _); [| reflexivity].
  apply flag_linked_other; [apply step_elsewhere | right; exact He].
Qed.

Lemma layer_cut x y d m j e :
  withinDepth (stepTo x y d) = false -> flag (layer x y d m) j e = flag m j e.
Proof. intros Hd. unfold layer. rewrite Hd. reflexivity. Qed.

Lemma around_flags x y m d :
  is_Some (around x y m !! roomKey x y)
  /\ if withinDepth (stepTo x y d)
     then flag (around x y m) (roomKey x y) d = true
          /\ flag (around x y m) (keyOf (stepTo x y d)) (facing d) = true
     else flag (around x y m) (roomKey x y) d = flag m (roomKey x y) d.
Proof.
  unfold around.
  pose proof (ensured_own (roomKey x y) m) as H0.
  set (m0 := ensured (roomKey x y) m) in *.
  pose proof (layer_some x y dN _ _ H0) as H1.
  pose proof (layer_some x y dS _ _ H1) as H2.
  pose proof (layer_some x y dW _ _ H2) as H3.
  pose proof (layer_some x y dE _ _ H3) as H4.
  split; [exact H4|].
  destruct (withinDepth (stepTo x y d)) eqn:Hd.
  - destruct d.
    + destruct (layer_sets x y dN m0 Hd H0) as [Ha Hb].
      split; do 3 apply layer_mono; assumption.
    + destruct (layer_sets x y dS _ Hd H1) as [Ha Hb].
      split; do 2 apply layer_mono; assumption.
    + destruct (layer_sets x y dW _ Hd H2) as [Ha Hb].
      split; apply layer_mono; assumption.
    + destruct (layer_sets x y dE _ Hd H3) as [Ha Hb].
      split; assumption.
  - rewrite <- (flag_ensured (roomKey x y) m (roomKey x y) d). fold m0.
    destruct d;
      repeat first [ rewrite (layer_cut _ _ _ _ _ _ Hd)
                   | rewrite layer_other by discriminate ];
      reflexivity.
Qed.

(** The node stored for the cell [(x, y)], if any, is the one
    [ensureNode] made for it. *)
Definition knownAt (x y : Z) (w : World) : Prop :=
  forall n, roomMap w !! roomKey x y = Some n ->
    node_id n = roomKey x y /\ node_x n = x /\ node_y n = y.

Lemma ensureNode_known x y w :
  knownAt x y w ->
  node_id (fst (ensureNode (roomKey x y) w)) = roomKey x y
  /\ node_x (fst (ensureNode (roomKey x y) w)) = x
  /\ node_y (fst (ensureNode (roomKey x y) w)) = y
  /\ roomMap (snd (ensureNode (roomKey x y) w)) !! roomKey x y
     = Some (fst (ensureNode (roomKey x y) w)).
Proof.
  intros Hk. unfold ensureNode.
  destruct (roomMap w !! roomKey x y) as [n|] eqn:E; cbn [fst snd].
  - destruct (Hk n E) as (H1 & H2 & H3). auto.
  - unfold newNode. rewrite parseRoom_roomKey. cbn.
    repeat split; try reflexivity. apply lookup_insert_eq.
Qed.

Lemma buildNeighborsAround_spec x y w :
  knownAt x y w ->
  exists r,
    rooms (exec (buildNeighborsAround (roomKey x y)) w) !! roomKey x y = Some r
    /\ finished (neighbors r) (room_g r)
    /\ (forall d, getDoor (neighbors r) d = flag (around x y (rooms w)) (roomKey x y) d)
    /\ (forall j, j <> roomKey x y ->
          rooms (exec (buildNeighborsAround (roomKey x y)) w) !! j
          = around x y (rooms w) !! j).
Proof.
  intros Hk. unfold exec, buildNeighborsAround.
  set (rid := roomKey x y) in *.
  destruct (ensureNode_known x y w Hk) as (Hid & Hx & Hy & Hmap).
  fold rid in Hid, Hx, Hy, Hmap.
  pose proof (ensureNode_rooms rid w) as Hr1.
  destruct (ensureNode rid w) as [n w1] eqn:E1.
  rewrite (bind_run _ _ _ _ _ E1). cbn [fst snd] in *.
  pose proof (ensureRoom_rooms rid w1) as Hr2.
  pose proof (ensureRoom_map rid w1) as Hm2.
  destruct (ensureRoom rid w1) as [r0 w2] eqn:E2.
  rewrite (bind_run _ _ _ _ _ E2). cbn [snd] in *.
  cbv zeta. rewrite Hx, Hy.
  pose proof (link_rooms rid x (y - 1) dN dS w2) as Hr3.
  pose proof (link_map rid x (y - 1) dN dS w2 rid (step_elsewhere x y dN)) as Hm3.
  destruct (link rid x (y - 1) dN dS w2) as [u3 w3] eqn:E3.
  rewrite (bind_run _ _ _ _ _ E3). cbn [snd] in *.
  pose proof (link_rooms rid x (y + 1) dS dN w3) as Hr4.
  pose proof (link_map rid x (y + 1) dS dN w3 rid (step_elsewhere x y dS)) as Hm4.
  destruct (link rid x (y + 1) dS dN w3) as [u4 w4] eqn:E4.
  rewrite (bind_run _ _ _ _ _ E4). cbn [snd] in *.
  pose proof (link_rooms rid (x - 1) y dW dE w4) as Hr5.
  pose proof (link_map rid (x - 1) y dW dE w4 rid (step_elsewhere x y dW)) as Hm5.
  destruct (link rid (x - 1) y dW dE w4) as [u5 w5] eqn:E5.
  rewrite (bind_run _ _ _ _ _ E5). cbn [snd] in *.
  pose proof (link_rooms rid (x + 1) y dE dW w5) as Hr6.
  pose proof (link_map rid (x + 1) y dE dW w5 rid (step_elsewhere x y dE)) as Hm6.
  destruct (link rid (x + 1) y dE dW w5) as [u6 w6] eqn:E6.
  rewrite (bind_run _ _ _ _ _ E6). cbn [snd] in *.
  assert (Hrooms : rooms w6 = around x y (rooms w)).
  { rewrite Hr6, Hr5, Hr4, Hr3, Hr2, Hr1. reflexivity. }
  assert (Hnode : roomMap w6 !! rid = Some n).
  { rewrite Hm6, Hm5, Hm4, Hm3, Hm2. exact Hmap. }
  unfold setKind, updNode. rewrite bind_modify. cbv beta.
  set (n' := set_node_kind (assignRoomKind n) n).
  set (w7 := set_roomMap _ w6).
  assert (E7 : ensureNode rid w7 = (n', w7)).
  { unfold ensureNode, w7. cbn [roomMap set_roomMap].
    rewrite lookup_alter_eq, Hnode. reflexivity. }
  rewrite (bind_run _ _ _ _ _ E7).
  assert (Hid' : node_id n' = rid) by exact Hid.
  destruct (genRoomTiles_spec n' w7) as (r & Hr & Hnb & Hfin).
  rewrite Hid' in Hr, Hnb, Hfin.
  assert (Hfl : forall d, getDoor (flagsOf rid w7) d
                          = flag (around x y (rooms w)) rid d).
  { intros d. unfold flagsOf, flag, w7. cbn [rooms set_roomMap]. rewrite Hrooms.
    destruct (around x y (rooms w) !! rid); [reflexivity | destruct d; reflexivity]. }
  exists r. split; [exact Hr|]. split; [rewrite Hnb; exact Hfin|].
  split.
  - intros d. rewrite Hnb. apply Hfl.
  - intros j Hj.
    pose proof (genRoomTiles_others n' w7 j) as Ho. rewrite Hid' in Ho.
    unfold exec in Ho. rewrite (Ho Hj). unfold w7. cbn [rooms set_roomMap].
    rewrite Hrooms. reflexivity.
Qed.

(** [buildNeighborsAround] gives the room of the cell [(x, y)] a door to
    every adjacent cell within [MAX_DEPTH] of the origin: the neighbour
    flag is set on both sides of the door, and the tiles generated for the
    room have the opening and the door marker exactly at the flagged
    sides.  A side whose adjacent cell is too deep keeps the flag it had
    ([false] for a room that is new). *)
Theorem doors_lead_to_every_cell_within_max_depth :
  forall x y w,
    knownAt x y w ->
    exists r,
      rooms (exec (buildNeighborsAround (roomKey x y)) w) !! roomKey x y = Some r
      /\ finished (neighbors r) (room_g r)
      /\ forall d,
           if withinDepth (stepTo x y d)
           then getDoor (neighbors r) d = true
                /\ flag (rooms (exec (buildNeighborsAround (roomKey x y)) w))
                     (keyOf (stepTo x y d)) (facing d) = true
           else getDoor (neighbors r) d = flag (rooms w) (roomKey x y) d.
Proof.
  intros x y w Hk.
  destruct (buildNeighborsAround_spec x y w Hk) as (r & Hr & Hfin & Hfl & Ho).
  exists r. split; [exact Hr|]. split; [exact Hfin|].
  intros d. rewrite Hfl.
  destruct (around_flags x y (rooms w) d) as [_ Ha].
  destruct (withinDepth (stepTo x y d)); [| exact Ha].
  destruct Ha as [Ha Hb]. split; [exact Ha|].
  unfold flag in *. rewrite Ho; [exact Hb|].
  intros E. symmetry in E. exact (step_elsewhere x y d E).
Qed.

End NMjsNeighbours.

Lemma doors_witness :
  knownAt 0 0 NMjsExamples.startWorld
  /\ exists r,
       rooms (exec (buildNeighborsAround (H:=NMjsExamples.demoEnv) (roomKey 0 0))
                NMjsExamples.startWorld) !! roomKey 0 0 = Some r
       /\ finished (neighbors r) (room_g r)
       /\ forall d,
            if withinDepth (stepTo 0 0 d)
            then getDoor (neighbors r) d = true
                 /\ flag (rooms (exec (buildNeighborsAround (H:=NMjsExamples.demoEnv)
                                        (roomKey 0 0)) NMjsExamples.startWorld))
                      (keyOf (stepTo 0 0 d)) (facing d) = true
            else getDoor (neighbors r) d
                 = flag (rooms NMjsExamples.startWorld) (roomKey 0 0) d.
Proof.
  assert (Hk : knownAt 0 0 NMjsExamples.startWorld).
  { intros n Hn. vm_compute in Hn. injection Hn as <-. vm_compute. auto. }
  split; [exact Hk |].
  exact (doors_lead_to_every_cell_within_max_depth (H:=NMjsExamples.demoEnv)
           0 0 NMjsExamples.startWorld Hk).
Defined.

End NMjsRooms.

(** * [src/n.mjs]: what a room is populated with *)

Module NMjsSpawn.
Import NMjs.
Local Open Scope Q_scope.


Section NMjsPopulation.
Context `{Env}.

(** An ordinary enemy as [spawnRoomContents] places it in a room of depth
    [depth]: a chaser or a shooter with the hit points of its kind, at
    least 80 pixels away from every wall. *)
Definition grunt (depth : Z) (e : Enemy) : Prop :=
  (e_type e = chaser /\ e_r e = 19
   /\ e_hp e = 9 + inject_Z (toInt32 (inject_Z depth / 3))
   \/ e_type e = shooter /\ e_r e = 18
      /\ e_hp e = 10 + inject_Z (toInt32 (inject_Z depth / 3)))
  /\ 80 <= e_x e /\ e_x e < ROOM_W - 80
  /\ 80 <= e_y e /\ e_y e < ROOM_H - 80.

(** The body of the spawn loop. *)
Definition spawnGrunt (depth : Z) : M World unit :=
  px <- randf ;;
  let px := 80 + px * (ROOM_W - 160) in
  py <- randf ;;
  let py := 80 + py * (ROOM_H - 160) in
  c <- chance 0.30 ;;
  spawnEnemy (if c then shooter else chaser) px py depth.

(** What a step adds to the lists of live objects. *)
Definition adds (es : list Enemy) (ps : list Pickup) (s s' : World) : Prop :=
  enemies s' = enemies s ++ es /\ pickups s' = pickups s ++ ps
  /\ bullets s' = bullets s /\ fx s' = fx s.

Lemma adds_nothing s : adds [] [] s s.
Proof. unfold adds. rewrite !app_nil_r. auto. Qed.

Lemma adds_trans es1 ps1 es2 ps2 s1 s2 s3 :
  adds es1 ps1 s1 s2 -> adds es2 ps2 s2 s3 -> adds (es1 ++ es2) (ps1 ++ ps2) s1 s3.
Proof.
  intros (A1 & A2 & A3 & A4) (B1 & B2 & B3 & B4). unfold adds.
  rewrite B1, B2, B3, B4, A1, A2, A3, A4, !app_assoc. auto.
Qed.

Lemma spawnGrunt_adds depth s :
  exists e, grunt depth e /\ adds [e] [] s (snd (spawnGrunt depth s)).
Proof.
  unfold spawnGrunt, chance, spawnEnemy, pushEnemy, randf, bind, ret, modify.
  cbn [fst snd draws set_draws].
  destruct (random_unit (draws s)) as [Ha0 Ha1].
  destruct (random_unit (S (draws s))) as [Hb0 Hb1].
  eexists. split; [| unfold adds; cbn; rewrite ?app_nil_r; auto].
  unfold grunt. cbn [e_type e_r e_hp e_x e_y].
  split.
  - destruct (Qltb _ _); cbn; auto.
  - unfold ROOM_W, ROOM_H. repeat split; lra.
Qed.

Lemma randi_quiet (n : Z) s :
  (1 <= n < 2 ^ 31)%Z ->
  (0 <= fst (randi (inject_Z n) s) < n)%Z
  /\ enemies (snd (randi (inject_Z n) s)) = enemies s
  /\ pickups (snd (randi (inject_Z n) s)) = pickups s
  /\ bullets (snd (randi (inject_Z n) s)) = bullets s
  /\ fx (snd (randi (inject_Z n) s)) = fx s.
Proof.
  intros Hn. split; [| repeat split; reflexivity].
  unfold randi, randf, bind, ret. cbn [fst snd].
  destruct (random_unit (draws s)) as [H0 H1].
  apply toInt32_times; assumption.
Qed.

Lemma spawnLoop_adds depth l s :
  exists es,
    length es = length l /\ Forall (grunt depth) es
    /\ adds es [] s (snd (forM_ l (fun _ : nat => spawnGrunt depth) s)).
Proof.
  revert s. induction l as [|x l IH]; intros s; cbn [forM_].
  - exists []. split; [reflexivity|]. split; [constructor | apply adds_nothing].
  - unfold bind at 1. cbv zeta.
    destruct (spawnGrunt_adds depth s) as (e & He & Ha).
    destruct (IH (snd (spawnGrunt depth s))) as (es & Hl & Hf & Hb).
    exists (e :: es). split; [cbn; rewrite Hl; reflexivity|].
    split; [constructor; assumption|].
    exact (adds_trans [e] [] es [] _ _ _ Ha Hb).
Qed.

Lemma ensureNode_stored i s :
  roomMap (snd (ensureNode i s)) !! i = Some (fst (ensureNode i s)).
Proof.
  unfold ensureNode. destruct (roomMap s !! i) eqn:E; cbn [fst snd]; [exact E|].
  apply lookup_insert_eq.
Qed.

Lemma spawnBoss_adds x y depth s :
  exists e,
    e_type e = boss /\ e_hp e = 140 + inject_Z depth * 6
    /\ e_x e = x /\ e_y e = y /\ e_r e = 30
    /\ adds [e] [] s (snd (spawnBoss x y depth s)).
Proof.
  unfold spawnBoss, randi, randf, pushEnemy, say, shake, updCam, bind, ret, modify.
  cbn [fst snd].
  refine (ex_intro _ (mkEnemy boss x y 30 (140 + inject_Z depth * 6) 0 0 0 0 0%Z
                        _ _ _) _).
  repeat (split; [reflexivity|]).
  unfold adds. cbn. rewrite ?app_nil_r. repeat split; reflexivity.
Qed.

(** The part of [spawnRoomContents] after the lists have been emptied,
    for the node as it is then. *)
Definition populate (rid : string) (node : Node) : M World unit :=
  if bool_decide (node_kind node = start) || bool_decide (node_kind node = shop)
  then
    updNode rid (set_node_cleared true) ;;;
    lockDoors rid false ;;;
    when (bool_decide (node_kind node = start))
      (pushPickup (mkPickup (ROOM_W / 2 + 60) (ROOM_H / 2) coin 6 10))
  else if negb (node_cleared node) then
    (if shouldSpawnBoss node then
       spawnBoss (ROOM_W * 0.5) (ROOM_H * 0.5) (node_depth node)
     else
       r <- randi 4 ;;
       let n := (4 + r + toInt32 (inject_Z (node_depth node) / 4))%Z in
       forM_ (seq 0 (Z.to_nat n)) (fun _ => spawnGrunt (node_depth node))) ;;;
    lockDoors rid true
  else lockDoors rid false.

(** The state in which [populate] starts. *)
Definition emptied (rid : string) (w : World) : World :=
  set_fx [] (set_pickups [] (set_bullets [] (set_enemies []
    (set_roomMap (alter (fun n => set_node_kind (assignRoomKind n) n) rid
                    (roomMap (snd (ensureRoom rid (snd (ensureNode rid w))))))
       (snd (ensureRoom rid (snd (ensureNode rid w)))))))).

Lemma spawnRoomContents_unfold rid w :
  spawnRoomContents rid w
  = populate rid (set_node_kind (assignRoomKind (fst (ensureNode rid w)))
                    (fst (ensureNode rid w)))
      (emptied rid w).
Proof.
  unfold spawnRoomContents, emptied.
  pose proof (ensureNode_stored rid w) as Hn.
  destruct (ensureNode rid w) as [n w1] eqn:E1.
  rewrite (bind_run _ _ _ _ _ E1). cbn [fst snd] in *.
  assert (Hm2 : roomMap (snd (ensureRoom rid w1)) = roomMap w1).
  { unfold ensureRoom. destruct (rooms w1 !! rid); reflexivity. }
  destruct (ensureRoom rid w1) as [r0 w2] eqn:E2.
  rewrite (bind_run _ _ _ _ _ E2). cbn [snd] in *.
  unfold setKind, updNode at 1, clearLive. rewrite !bind_modify.
  cbv beta.
  set (k := set_node_kind (assignRoomKind n) n).
  set (w4 := set_fx [] _).
  assert (E5 : ensureNode rid w4 = (k, w4)).
  { unfold ensureNode.
    assert (Hk : roomMap w4 !! rid = Some k).
    { unfold w4. cbn [roomMap set_fx set_pickups set_bullets set_enemies set_roomMap].
      rewrite lookup_alter_eq, Hm2, Hn. reflexivity. }
    rewrite Hk. reflexivity. }
  rewrite (bind_run _ _ _ _ _ E5). reflexivity.
Qed.

Lemma emptied_lists rid w :
  enemies (emptied rid w) = [] /\ pickups (emptied rid w) = []
  /\ bullets (emptied rid w) = [] /\ fx (emptied rid w) = [].
Proof. repeat split; reflexivity. Qed.

Lemma lockDoors_adds rid b s : adds [] [] s (snd (lockDoors rid b s)).
Proof. unfold adds. rewrite !app_nil_r. repeat split; reflexivity. Qed.

Lemma populate_start rid node s :
  node_kind node = start ->
  adds [] [mkPickup (ROOM_W / 2 + 60) (ROOM_H / 2) coin 6 10] s
    (snd (populate rid node s)).
Proof.
  intros Ek. unfold populate. rewrite Ek.
  unfold adds. rewrite !app_nil_r. repeat split; reflexivity.
Qed.

Lemma populate_shop rid node s :
  node_kind node = shop -> adds [] [] s (snd (populate rid node s)).
Proof.
  intros Ek. unfold populate. rewrite Ek.
  unfold adds. rewrite !app_nil_r. repeat split; reflexivity.
Qed.

Lemma populate_cleared rid node s :
  node_kind node = combat -> node_cleared node = true ->
  adds [] [] s (snd (populate rid node s)).
Proof.
  intros Ek Ec. unfold populate. rewrite Ek, Ec. apply lockDoors_adds.
Qed.

Lemma populate_boss rid node s :
  node_kind node = combat -> node_cleared node = false ->
  shouldSpawnBoss node = true ->
  exists e, e_type e = boss /\ e_hp e = 140 + inject_Z (node_depth node) * 6
            /\ adds [e] [] s (snd (populate rid node s)).
Proof.
  intros Ek Ec Eb. unfold populate. rewrite Ek, Ec, Eb.
  replace (bool_decide (combat = start) || bool_decide (combat = shop)) with false
    by reflexivity.
  cbn [negb]. unfold bind at 1. cbv zeta.
  destruct (spawnBoss_adds (ROOM_W * 0.5) (ROOM_H * 0.5) (node_depth node) s)
    as (e & He1 & He2 & _ & _ & _ & Ha).
  exists e. split; [exact He1|]. split; [exact He2|].
  pose proof (adds_trans _ _ _ _ _ _ _ Ha (lockDoors_adds rid true _)) as Hall.
  cbn [app] in Hall. exact Hall.
Qed.

Lemma populate_grunts rid node s :
  node_kind node = combat -> node_cleared node = false ->
  shouldSpawnBoss node = false ->
  exists r es,
    (0 <= r < 4)%Z
    /\ length es = Z.to_nat (4 + r + toInt32 (inject_Z (node_depth node) / 4))
    /\ Forall (grunt (node_depth node)) es
    /\ adds es [] s (snd (populate rid node s)).
Proof.
  intros Ek Ec Eb. unfold populate. rewrite Ek, Ec, Eb.
  replace (bool_decide (combat = start) || bool_decide (combat = shop)) with false
    by reflexivity.
  cbn [negb]. unfold bind at 1. cbv zeta. unfold bind at 1. cbv zeta.
  destruct (randi_quiet 4 s ltac:(lia)) as (Hr & B1 & B2 & B3 & B4).
  change (inject_Z 4) with 4 in *.
  set (r := fst (randi 4 s)) in *. set (s1 := snd (randi 4 s)) in *.
  destruct (spawnLoop_adds (node_depth node)
              (seq 0 (Z.to_nat (4 + r + toInt32 (inject_Z (node_depth node) / 4)))) s1)
    as (es & Hl & Hf & Ha).
  exists r, es. split; [exact Hr|]. split; [rewrite Hl; apply length_seq|].
  split; [exact Hf|].
  assert (A0 : adds [] [] s s1).
  { unfold adds. rewrite B1, B2, B3, B4, !app_nil_r. auto. }
  pose proof (adds_trans _ _ _ _ _ _ _ (adds_trans _ _ _ _ _ _ _ A0 Ha)
                (lockDoors_adds rid true _)) as Hall.
  cbn [app] in Hall. rewrite !app_nil_r in Hall. exact Hall.
Qed.

(** What a room holds once [spawnRoomContents] has run.  The kind is the
    one [assignRoomKind] gives the node; bullets and particles are gone.
    The start room holds the six-coin pickup, a shop nothing, a cleared
    combat room nothing; an uncleared combat room at a depth that is a
    positive multiple of 10 holds exactly the boss, with 140 + 6 * depth
    hit points, any other one between 4 and 7 chasers and shooters plus one
    more for every four levels of depth, all at least 80 pixels from the
    walls. *)
Theorem room_population :
  forall rid w,
    let n := eval (ensureNode rid) w in
    let k := set_node_kind (assignRoomKind n) n in
    let w' := exec (spawnRoomContents rid) w in
    bullets w' = [] /\ fx w' = []
    /\ match node_kind k with
       | start =>
           enemies w' = []
           /\ pickups w' = [mkPickup (ROOM_W / 2 + 60) (ROOM_H / 2) coin 6 10]
       | shop => enemies w' = [] /\ pickups w' = []
       | combat =>
           pickups w' = []
           /\ if node_cleared n then enemies w' = []
              else if shouldSpawnBoss k then
                exists e, enemies w' = [e] /\ e_type e = boss
                          /\ e_hp e = 140 + inject_Z (node_depth n) * 6
              else
                exists r, (0 <= r < 4)%Z
                  /\ length (enemies w')
                     = Z.to_nat (4 + r + toInt32 (inject_Z (node_depth n) / 4))
                  /\ Forall (grunt (node_depth n)) (enemies w')
       end.
Proof.
  intros rid w n k w'. subst w'. unfold exec.
  rewrite spawnRoomContents_unfold. fold (eval (ensureNode rid) w). fold n. fold k.
  destruct (emptied_lists rid w) as (Le & Lp & Lb & Lf).
  generalize dependent (emptied rid w). intros s Le Lp Lb Lf.
  assert (Hd : node_depth k = node_depth n) by reflexivity.
  assert (Hc : node_cleared k = node_cleared n) by reflexivity.
  rewrite <- Hd, <- Hc. clearbody k. clear Hd Hc.
  destruct (node_kind k) eqn:Ek.
  - destruct (node_cleared k) eqn:Ecl.
    + destruct (populate_cleared rid k s Ek Ecl) as (A1 & A2 & A3 & A4).
      rewrite A1, A2, A3, A4, Le, Lp, Lb, Lf. auto.
    + destruct (shouldSpawnBoss k) eqn:Eb.
      * destruct (populate_boss rid k s Ek Ecl Eb) as (e & He1 & He2 & A1 & A2 & A3 & A4).
        rewrite A1, A2, A3, A4, Le, Lp, Lb, Lf.
        repeat split; try reflexivity. exists e. auto.
      * destruct (populate_grunts rid k s Ek Ecl Eb)
          as (r & es & Hr & Hl & Hf & A1 & A2 & A3 & A4).
        rewrite A1, A2, A3, A4, Le, Lp, Lb, Lf.
        repeat split; try reflexivity. exists r. auto.
  - destruct (populate_shop rid k s Ek) as (A1 & A2 & A3 & A4).
    rewrite A1, A2, A3, A4, Le, Lp, Lb, Lf. auto.
  - destruct (populate_start rid k s Ek) as (A1 & A2 & A3 & A4).
    rewrite A1, A2, A3, A4, Le, Lp, Lb, Lf. auto.
Qed.

End NMjsPopulation.

End NMjsSpawn.

(** * [src/n.mjs]: restarting *)

Module NMjsRestart.
Import NMjs.
Local Open Scope Q_scope.


Section NMjsReset.
Context `{Env}.

(** A weapon with its unlock flag as [resetGame] sets it. *)
Definition relock (y : Weapon) : Weapon :=
  mkWeapon (w_id y) (w_name y) (w_id y =? 0)%nat (w_dmg y) (w_fire y) (w_speed y)
    (w_spread y) (w_pellets y) (w_burstStep y).

(** Two worlds that differ at most in what a run of the game changes: the
    window, the camera, the constants of the player and of the weapons and
    the position in the random stream are the same. *)
Definition sameSetup (w w' : World) : Prop :=
  running w = running w' /\ cam w = cam w'
  /\ pl_r (player w) = pl_r (player w')
  /\ pl_speed (player w) = pl_speed (player w')
  /\ map relock (WEAPONS w) = map relock (WEAPONS w')
  /\ VIEW_W w = VIEW_W w' /\ VIEW_H w = VIEW_H w'
  /\ VIEW_OX w = VIEW_OX w' /\ VIEW_OY w = VIEW_OY w'
  /\ draws w = draws w'.

(** The assignments at the head of [resetGame]. *)
Definition wiped (w : World) : World :=
  mkWorld (running w) false false "" 0 0 "0,0" (cam w) ∅ ∅ [] [] [] []
    (mkPlayer (ROOM_W / 2) (ROOM_H / 2) (pl_r (player w)) 8 8 0 0 0 0 0
       (pl_speed (player w)) 0 0 0 0)
    (map relock (WEAPONS w)) (VIEW_W w) (VIEW_H w) (VIEW_OX w) (VIEW_OY w) (draws w).

Lemma resetGame_wiped w :
  resetGame w
  = (_ <- ensureNode "0,0" ;; _ <- ensureRoom "0,0" ;;
     loadRoom "0,0" ;;; snapCameraToPlayer) (wiped w).
Proof. reflexivity. Qed.

Lemma wiped_same w w' : sameSetup w w' -> wiped w = wiped w'.
Proof.
  intros (H1 & H2 & H3 & H4 & H5 & H6 & H7 & H8 & H9 & H10). unfold wiped.
  rewrite H1, H2, H3, H4, H5, H6, H7, H8, H9, H10. reflexivity.
Qed.

(** A restart forgets the run before it: whatever the coins, the map, the
    rooms, the live objects, the player's state, the unlocked weapons, the
    pause and shop flags and the message were, [resetGame] leads to the
    same world. *)
Theorem restart_forgets_the_run :
  forall w w', sameSetup w w' -> exec resetGame w = exec resetGame w'.
Proof.
  intros w w' Hs. unfold exec. rewrite !resetGame_wiped, (wiped_same w w' Hs).
  reflexivity.
Qed.

End NMjsReset.

Lemma restart_witness :
  sameSetup NMjsExamples.lastEnemyWorld
    (set_draws (draws NMjsExamples.lastEnemyWorld)
       (set_cam (cam NMjsExamples.lastEnemyWorld) (set_coins 99 NMjsExamples.startWorld)))
  /\ exec (resetGame (H:=NMjsExamples.demoEnv)) NMjsExamples.lastEnemyWorld
     = exec (resetGame (H:=NMjsExamples.demoEnv))
         (set_draws (draws NMjsExamples.lastEnemyWorld)
       (set_cam (cam NMjsExamples.lastEnemyWorld) (set_coins 99 NMjsExamples.startWorld))).
Proof.
  assert (Hs : sameSetup NMjsExamples.lastEnemyWorld
                 (set_draws (draws NMjsExamples.lastEnemyWorld)
       (set_cam (cam NMjsExamples.lastEnemyWorld) (set_coins 99 NMjsExamples.startWorld)))).
  { unfold sameSetup. repeat split; vm_compute; reflexivity. }
  split; [exact Hs | exact (restart_forgets_the_run _ _ Hs)].
Defined.

End NMjsRestart.

(** * Properties shared by the programs *)

Section CrossProgram.
Context `{Env}.



(** The player-damage routine of either program does nothing at all while
    the invulnerability timer is positive. *)
Theorem player_damage_ignored_while_invulnerable :
  (forall dmg w, 0 < NMjs.pl_invT (NMjs.player w) -> NMjs.hurtPlayer dmg w = (tt, w))
  /\
  (forall dmg src s,
     0 < Freedom.pl_invT (Freedom.player s) -> Freedom.damagePlayer dmg src s = (tt, s)).
Proof.
  split.
  - intros dmg w. apply NMjsProps.hurtPlayer_invulnerable.
  - intros dmg src s. apply FreedomProps.damagePlayer_invulnerable.
Qed.

End CrossProgram.


Lemma invulnerable_witness :
  Freedom.damagePlayer (H:=NMjsExamples.demoEnv) 500 None FreedomExamples.flashing
  = (tt, FreedomExamples.flashing).
Proof.
  apply (proj2 (player_damage_ignored_while_invulnerable (H:=NMjsExamples.demoEnv))).
  reflexivity.
Defined.

(** * Utilities and placement rules *)


Section Utilities.



(** A function of the cell that singles out one cell on every ring
    [|x| + |y| = d], [d >= 1]. *)
Definition oneCellPerRing (f : Z -> Z -> bool) : Prop :=
  forall d, (1 <= d)%Z ->
    exists x y, (Z.abs x + Z.abs y = d)%Z /\ f x y = true
      /\ forall x' y', (Z.abs x' + Z.abs y' = d)%Z -> f x' y' = true ->
           x' = x /\ y' = y.

Lemma shop_ring_spec x y :
  Fountain.isShopCoord x y = true <->
  let d := (Z.abs x + Z.abs y)%Z in
  (1 <= d /\
  ((d mod 4 = 0 /\ x = d /\ y = 0) \/ (d mod 4 = 1 /\ x = 0 /\ y = d) \/
   (d mod 4 = 2 /\ x = - d /\ y = 0) \/ (d mod 4 = 3 /\ x = 0 /\ y = - d)))%Z.
Proof. apply isShopCoord_spec. Qed.

Lemma shop_ring : oneCellPerRing Fountain.isShopCoord.
Proof.
  intros d Hd.
  pose proof (Z.mod_pos_bound d 4 ltac:(lia)) as Hm.
  assert (Hc : (d mod 4 = 0 \/ d mod 4 = 1 \/ d mod 4 = 2 \/ d mod 4 = 3)%Z) by lia.
  destruct Hc as [Hc|[Hc|[Hc|Hc]]];
    [exists d, 0%Z | exists 0%Z, d | exists (- d)%Z, 0%Z | exists 0%Z, (- d)%Z];
    (split; [lia|]; split;
     [apply shop_ring_spec; cbv zeta;
      replace (Z.abs _ + Z.abs _)%Z with d by lia; split; [lia|]; lia
     | intros x' y' Hd' Hs; apply shop_ring_spec in Hs; cbv zeta in Hs;
       rewrite Hd' in Hs; lia]).
Qed.

(** The three programs that place shops by [isShopCoord] use the same
    function, and it marks exactly one cell on every ring of depth
    [d >= 1]. *)
Theorem one_shop_cell_per_ring :
  oneCellPerRing NMjs.isShopCoord
  /\ oneCellPerRing Part000.isShopCoord
  /\ oneCellPerRing Fountain.isShopCoord.
Proof.
  split; [|split]; exact shop_ring.
Qed.

(** The trigger bands of the four doors do not overlap, in [src/n.mjs]
    and in [part_000]: a position lies in the band of one door at most. *)
Theorem door_bands_are_disjoint :
  (forall d d' x y,
     NMjs.inDoorBand d x y = true -> NMjs.inDoorBand d' x y = true -> d = d')
  /\
  (forall d d' x y,
     Part000.inDoorBand d x y = true -> Part000.inDoorBand d' x y = true -> d = d').
Proof.
  split.
  - intros d d' x y. apply NMjsProps.inDoorBand_unique.
  - intros d d' x y.
    unfold Part000.inDoorBand, Part000.ROOM_W, Part000.ROOM_H, Part000.DOOR_SPAN,
      Part000.DOOR_THICK, Part000.ROOM_TW, Part000.ROOM_TH, Part000.TILE.
    destruct d, d'; try reflexivity; cbv zeta;
      rewrite !andb_true_iff, !Qle_bool_iff;
      intros [Ha Hb] [Hc Hd];
      apply Qabs_Qle_condition in Ha; apply Qabs_Qle_condition in Hc;
      exfalso; unfold inject_Z in *; lra.
Qed.

End Utilities.

Lemma shop_ring_witness :
  exists x y, (Z.abs x + Z.abs y = 5)%Z /\ NMjs.isShopCoord x y = true.
Proof.
  destruct (proj1 one_shop_cell_per_ring 5%Z ltac:(lia)) as (x & y & Hd & Hs & _).
  exists x, y. split; assumption.
Defined.



(** * The generated rooms of [src/unnamed/part_000] and [src/n.js] *)

Module Part000Rooms.
Import Part000.
Local Open Scope Q_scope.


Section Part000Tiles.
Context `{Env}.
Local Open Scope Z_scope.

Definition cell (x y : Z) : Prop := 0 <= x < ROOM_TW /\ 0 <= y < ROOM_TH.
Definition inner (x y : Z) : Prop :=
  2 <= x <= ROOM_TW - 3 /\ 2 <= y <= ROOM_TH - 3.

(** The tile on the two outermost rings of a generated room whose
    neighbour flags are [nb]. *)
Definition shellTile (nb : Doors) (x y : Z) : Z :=
  if atE nb && (x =? 19) && (y =? 6) then 3
  else if atE nb && (x =? 20) && (y =? 6) then 1
  else if atW nb && (x =? 1) && (y =? 6) then 3
  else if atW nb && (x =? 0) && (y =? 6) then 1
  else if atS nb && (x =? 10) && (y =? 11) then 3
  else if atS nb && (x =? 10) && (y =? 12) then 1
  else if atN nb && (x =? 10) && (y =? 1) then 3
  else if atN nb && (x =? 10) && (y =? 0) then 1
  else if isEdge x y then 0 else 1.

(** The grid is the one of [src/n.mjs]: the same size, the same first
    loop, the same cells cleared in the centre (the bounds of the loop are
    written differently) and the same doors. *)
Lemma borderAndFloor_same : borderAndFloor = NMjs.borderAndFloor.
Proof. vm_compute. reflexivity. Qed.

Lemma clearCentre_same g : clearCentre g = NMjs.clearCentre g.
Proof. reflexivity. Qed.

Lemma carveDoor_same d g : carveDoor d g = NMjs.carveDoor d g.
Proof. destruct d; reflexivity. Qed.

Lemma randi_bounds0 (n : Z) w :
  1 <= n < 2 ^ 31 -> 0 <= fst (randi (inject_Z n) w) < n.
Proof.
  intros Hn. unfold randi, randf, bind, ret. cbn [fst snd].
  destruct (random_unit (draws w)) as [H0 H1].
  apply toInt32_times; assumption.
Qed.

Lemma pits_shell0 g w : NMjsRooms.shell0 g -> NMjsRooms.shell0 (fst (pits g w)).
Proof.
  unfold pits. apply NMjsRooms.foldM_value. clear g w.
  intros g _ w _ Hg.
  unfold bind at 1. cbv zeta.
  pose proof (randi_bounds0 (ROOM_TW - 4) w ltac:(unfold ROOM_TW; lia)) as Hpx.
  set (px := fst (randi (inject_Z (ROOM_TW - 4)) w)) in *.
  set (w1 := snd (randi (inject_Z (ROOM_TW - 4)) w)).
  unfold bind at 1. cbv zeta.
  pose proof (randi_bounds0 (ROOM_TH - 4) w1 ltac:(unfold ROOM_TH; lia)) as Hpy.
  set (py := fst (randi (inject_Z (ROOM_TH - 4)) w1)) in *.
  set (w2 := snd (randi (inject_Z (ROOM_TH - 4)) w1)).
  unfold bind at 1. cbv zeta. unfold ret. cbn [fst].
  destruct (fst (chance 0.25%Q w2)); [| exact Hg].
  apply (NMjsRooms.shell0_set (2 + px) (2 + py)); [| exact Hg].
  unfold NMjsRooms.inner, NMjs.ROOM_TW, NMjs.ROOM_TH, ROOM_TW, ROOM_TH in *. lia.
Qed.

Lemma pillars_shell0 d g w :
  NMjsRooms.shell0 g -> NMjsRooms.shell0 (fst (pillars d g w)).
Proof.
  unfold pillars. apply NMjsRooms.foldM_value. clear g w.
  intros g y w Hy Hg. apply NMjsRooms.foldM_value; [| exact Hg]. clear g w Hg.
  intros g x w Hx Hg.
  apply list_elem_of_In, elem_of_seqZ in Hx, Hy.
  destruct (negb (bool_decide (arrGet (tileIndex x y) g = Some 1))); [exact Hg|].
  unfold bind, ret. cbn [fst]. destruct (fst (chance d w)); [| exact Hg].
  apply (NMjsRooms.shell0_set x y); [| exact Hg].
  unfold NMjsRooms.inner, NMjs.ROOM_TW, NMjs.ROOM_TH, ROOM_TW, ROOM_TH in *. lia.
Qed.

Lemma randf_rooms0 R : preserves (fun s => rooms s = R) randf.
Proof. intros s Hs. exact Hs. Qed.

Lemma chance_rooms0 R p : preserves (fun s => rooms s = R) (chance p).
Proof. unfold chance. pres. apply randf_rooms0. Qed.

Lemma randi_rooms0 R n : preserves (fun s => rooms s = R) (randi n).
Proof. unfold randi. pres. apply randf_rooms0. Qed.

Lemma pits_rooms0 R g : preserves (fun s => rooms s = R) (pits g).
Proof. unfold pits. pres; first [apply randi_rooms0 | apply chance_rooms0]. Qed.

Lemma pillars_rooms0 R d g : preserves (fun s => rooms s = R) (pillars d g).
Proof. unfold pillars. pres. apply chance_rooms0. Qed.

(** The neighbour flags [genRoomTiles] reads for the room [id]. *)
Definition flagsOf (id : string) (w : World) : Doors :=
  from_option neighbors (allDoors false) (rooms w !! id).

Lemma ensureRoom_flags0 id w :
  exists r, rooms (snd (ensureRoom id w)) !! id = Some r
            /\ neighbors r = flagsOf id w.
Proof.
  unfold ensureRoom, flagsOf. destruct (rooms w !! id) as [r|] eqn:E; cbn.
  - exists r. split; [exact E | reflexivity].
  - exists (newRoom id). split; [apply lookup_insert_eq | reflexivity].
Qed.

Lemma ensureNode_rooms0 id w : rooms (snd (ensureNode id w)) = rooms w.
Proof. unfold ensureNode. destruct (roomMap w !! id); reflexivity. Qed.

Lemma genRoomTiles_spec0 id w :
  let rid := node_id (fst (ensureNode id w)) in
  exists r,
    rooms (exec (genRoomTiles id) w) !! rid = Some r
    /\ neighbors r = flagsOf rid w
    /\ NMjsRooms.finished (flagsOf rid w) (room_g r).
Proof.
  intros rid. unfold exec, genRoomTiles. subst rid.
  pose proof (ensureNode_rooms0 id w) as Hr0.
  destruct (ensureNode id w) as [node w0] eqn:E0.
  rewrite (bind_run _ _ _ _ _ E0). cbn [fst snd] in *.
  destruct (ensureRoom_flags0 (node_id node) w0) as (r1 & Hr1 & Hnb).
  destruct (ensureRoom (node_id node) w0) as [r0 w1] eqn:E1.
  rewrite (bind_run _ _ _ _ _ E1). cbn [snd] in Hr1.
  assert (Hb : NMjsRooms.shell0 borderAndFloor)
    by (rewrite borderAndFloor_same; apply NMjsRooms.shell0_border).
  lazymatch goal with
  | |- context [bind ?m _ w1] =>
      assert (Hm1 : NMjsRooms.shell0 (fst (m w1)))
        by (destruct (bool_decide (node_kind node = shop));
            [exact Hb |
             destruct (bool_decide (node_kind node = combat));
             [apply pits_shell0, Hb | exact Hb]]);
      assert (Hm2 : rooms (snd (m w1)) = rooms w1)
        by (destruct (bool_decide (node_kind node = shop));
            [reflexivity |
             destruct (bool_decide (node_kind node = combat));
             [apply (pits_rooms0 (rooms w1)); reflexivity | reflexivity]]);
      destruct (m w1) as [g1 w2] eqn:E2
  end.
  rewrite (bind_run _ _ _ _ _ E2). cbn [fst snd] in Hm1, Hm2.
  lazymatch goal with
  | |- context [bind (pillars ?d g1) _ w2] =>
      pose proof (pillars_shell0 d g1 w2 Hm1) as Hg2;
      pose proof (pillars_rooms0 (rooms w2) d g1 w2 eq_refl) as Hw3;
      destruct (pillars d g1 w2) as [g2 w3] eqn:E3
  end.
  rewrite (bind_run _ _ _ _ _ E3). cbn [fst snd] in Hg2, Hw3.
  rewrite bind_gets.
  destruct (NMjsRooms.clearCentre_shell g2 Hg2) as [Hs Hc].
  rewrite <- clearCentre_same in Hs, Hc.
  assert (Hfl0 : flagsOf (node_id node) w0 = flagsOf (node_id node) w).
  { unfold flagsOf. rewrite Hr0. reflexivity. }
  assert (Hfl : from_option neighbors (allDoors false) (rooms w3 !! node_id node)
                = flagsOf (node_id node) w).
  { rewrite Hw3, Hm2, Hr1. cbn. rewrite Hnb. exact Hfl0. }
  rewrite Hfl.
  pose proof (NMjsRooms.carved_finished (flagsOf (node_id node) w) _ Hs Hc) as Hfin.
  unfold NMjsRooms.carved in Hfin. rewrite <- !carveDoor_same in Hfin.
  eexists. split; [| split].
  - unfold updRoom, modify. cbn [snd rooms set_rooms].
    rewrite lookup_alter_eq, Hw3, Hm2, Hr1. reflexivity.
  - cbn. rewrite Hnb. exact Hfl0.
  - exact Hfin.
Qed.

(** [genRoomTiles] of [part_000] always leaves the room enclosed, whatever
    the random draws: 21 x 13 tiles; wall all along the border except for
    a one-tile opening in the middle of each side that has a neighbour;
    floor on the ring inside the border except for the door marker behind
    each opening; floor on the 3 x 3 centre, which the clearing loop hits
    exactly although its bounds are written [y <= (ROOM_TH / 2 + 1) | 0]. *)
Theorem part000_room_is_enclosed :
  forall id w,
    exists r,
      rooms (exec (genRoomTiles id) w) !! node_id (eval (ensureNode id) w) = Some r
      /\ neighbors r = flagsOf (node_id (eval (ensureNode id) w)) w
      /\ length (room_g r) = 273%nat
      /\ (forall x y, cell x y -> ~ inner x y ->
            arrGet (tileIndex x y) (room_g r) = Some (shellTile (neighbors r) x y))
      /\ (forall x y, 9 <= x <= 11 -> 5 <= y <= 7 ->
            arrGet (tileIndex x y) (room_g r) = Some 1).
Proof.
  intros id w.
  destruct (genRoomTiles_spec0 id w) as (r & Hr & Hnb & Hl & Hs & Hc).
  exists r. rewrite Hnb. unfold eval. repeat split; assumption.
Qed.

End Part000Tiles.

End Part000Rooms.

Module NJsRooms.
Import NJs.
Local Open Scope Q_scope.


Section NJsTiles.
Context `{Env}.
Local Open Scope Z_scope.

Definition cell (x y : Z) : Prop := 0 <= x < ROOM_TW /\ 0 <= y < ROOM_TH.
Definition inner (x y : Z) : Prop :=
  2 <= x <= ROOM_TW - 3 /\ 2 <= y <= ROOM_TH - 3.

(** The tile on the two outermost rings of a generated room whose
    neighbour flags are [nb]. *)
Definition shellTile (nb : Doors) (x y : Z) : Z :=
  if atE nb && (x =? 19) && (y =? 6) then 3
  else if atE nb && (x =? 20) && (y =? 6) then 1
  else if atW nb && (x =? 1) && (y =? 6) then 3
  else if atW nb && (x =? 0) && (y =? 6) then 1
  else if atS nb && (x =? 10) && (y =? 11) then 3
  else if atS nb && (x =? 10) && (y =? 12) then 1
  else if atN nb && (x =? 10) && (y =? 1) then 3
  else if atN nb && (x =? 10) && (y =? 0) then 1
  else if isEdge x y then 0 else 1.

(** The grid is the one of [src/n.mjs] again. *)
Lemma borderAndFloor_same1 : borderAndFloor = NMjs.borderAndFloor.
Proof. vm_compute. reflexivity. Qed.

Lemma clearCentre_same1 g : clearCentre g = NMjs.clearCentre g.
Proof. reflexivity. Qed.

Lemma carveDoor_same1 d g : carveDoor d g = NMjs.carveDoor d g.
Proof. destruct d; reflexivity. Qed.

Lemma randi_bounds1 (n : Z) w :
  1 <= n < 2 ^ 31 -> 0 <= fst (randi (inject_Z n) w) < n.
Proof.
  intros Hn. unfold randi, randf, bind, ret. cbn [fst snd].
  destruct (random_unit (draws w)) as [H0 H1].
  apply toInt32_times; assumption.
Qed.

Lemma pits_shell1 g w : NMjsRooms.shell0 g -> NMjsRooms.shell0 (fst (pits g w)).
Proof.
  unfold pits. apply NMjsRooms.foldM_value. clear g w.
  intros g _ w _ Hg.
  unfold bind at 1. cbv zeta.
  pose proof (randi_bounds1 (ROOM_TW - 4) w ltac:(unfold ROOM_TW; lia)) as Hpx.
  set (px := fst (randi (inject_Z (ROOM_TW - 4)) w)) in *.
  set (w1 := snd (randi (inject_Z (ROOM_TW - 4)) w)).
  unfold bind at 1. cbv zeta.
  pose proof (randi_bounds1 (ROOM_TH - 4) w1 ltac:(unfold ROOM_TH; lia)) as Hpy.
  set (py := fst (randi (inject_Z (ROOM_TH - 4)) w1)) in *.
  set (w2 := snd (randi (inject_Z (ROOM_TH - 4)) w1)).
  unfold bind at 1. cbv zeta. unfold ret. cbn [fst].
  destruct (fst (chance 0.25%Q w2)); [| exact Hg].
  apply (NMjsRooms.shell0_set (2 + px) (2 + py)); [| exact Hg].
  unfold NMjsRooms.inner, NMjs.ROOM_TW, NMjs.ROOM_TH, ROOM_TW, ROOM_TH in *. lia.
Qed.

Lemma pillars_shell1 d g w :
  NMjsRooms.shell0 g -> NMjsRooms.shell0 (fst (pillars d g w)).
Proof.
  unfold pillars. apply NMjsRooms.foldM_value. clear g w.
  intros g y w Hy Hg. apply NMjsRooms.foldM_value; [| exact Hg]. clear g w Hg.
  intros g x w Hx Hg.
  apply list_elem_of_In, elem_of_seqZ in Hx, Hy.
  destruct (negb (bool_decide (arrGet (tileIndex x y) g = Some 1))); [exact Hg|].
  unfold bind, ret. cbn [fst]. destruct (fst (chance d w)); [| exact Hg].
  apply (NMjsRooms.shell0_set x y); [| exact Hg].
  unfold NMjsRooms.inner, NMjs.ROOM_TW, NMjs.ROOM_TH, ROOM_TW, ROOM_TH in *. lia.
Qed.

Lemma randf_rooms1 R : preserves (fun s => rooms s = R) randf.
Proof. intros s Hs. exact Hs. Qed.

Lemma chance_rooms1 R p : preserves (fun s => rooms s = R) (chance p).
Proof. unfold chance. pres. apply randf_rooms1. Qed.

Lemma randi_rooms1 R n : preserves (fun s => rooms s = R) (randi n).
Proof. unfold randi. pres. apply randf_rooms1. Qed.

Lemma pits_rooms1 R g : preserves (fun s => rooms s = R) (pits g).
Proof. unfold pits. pres; first [apply randi_rooms1 | apply chance_rooms1]. Qed.

Lemma pillars_rooms1 R d g : preserves (fun s => rooms s = R) (pillars d g).
Proof. unfold pillars. pres. apply chance_rooms1. Qed.

(** The neighbour flags [genRoomTiles] reads for the room [id]. *)
Definition flagsOf (id : string) (w : World) : Doors :=
  from_option neighbors (allDoors false) (rooms w !! id).

Lemma ensureRoom_flags1 id w :
  exists r, rooms (snd (ensureRoom id w)) !! id = Some r
            /\ neighbors r = flagsOf id w.
Proof.
  unfold ensureRoom, flagsOf. destruct (rooms w !! id) as [r|] eqn:E; cbn.
  - exists r. split; [exact E | reflexivity].
  - exists (newRoom id). split; [apply lookup_insert_eq | reflexivity].
Qed.

Lemma ensureNode_rooms1 id w : rooms (snd (ensureNode id w)) = rooms w.
Proof. unfold ensureNode. destruct (roomMap w !! id); reflexivity. Qed.

Lemma genRoomTiles_spec1 id w :
  let rid := node_id (fst (ensureNode id w)) in
  exists r,
    rooms (exec (genRoomTiles id) w) !! rid = Some r
    /\ neighbors r = flagsOf rid w
    /\ NMjsRooms.finished (flagsOf rid w) (room_g r).
Proof.
  intros rid. unfold exec, genRoomTiles. subst rid.
  pose proof (ensureNode_rooms1 id w) as Hr0.
  destruct (ensureNode id w) as [node w0] eqn:E0.
  rewrite (bind_run _ _ _ _ _ E0). cbn [fst snd] in *.
  destruct (ensureRoom_flags1 (node_id node) w0) as (r1 & Hr1 & Hnb).
  destruct (ensureRoom (node_id node) w0) as [r0 w1] eqn:E1.
  rewrite (bind_run _ _ _ _ _ E1). cbn [snd] in Hr1.
  assert (Hb : NMjsRooms.shell0 borderAndFloor)
    by (rewrite borderAndFloor_same1; apply NMjsRooms.shell0_border).
  lazymatch goal with
  | |- context [bind ?m _ w1] =>
      assert (Hm1 : NMjsRooms.shell0 (fst (m w1)))
        by (destruct (bool_decide (node_kind node = combat));
            [apply pits_shell1, Hb | exact Hb]);
      assert (Hm2 : rooms (snd (m w1)) = rooms w1)
        by (destruct (bool_decide (node_kind node = combat));
            [apply (pits_rooms1 (rooms w1)); reflexivity | reflexivity]);
      destruct (m w1) as [g1 w2] eqn:E2
  end.
  rewrite (bind_run _ _ _ _ _ E2). cbn [fst snd] in Hm1, Hm2.
  lazymatch goal with
  | |- context [bind (pillars ?d g1) _ w2] =>
      pose proof (pillars_shell1 d g1 w2 Hm1) as Hg2;
      pose proof (pillars_rooms1 (rooms w2) d g1 w2 eq_refl) as Hw3;
      destruct (pillars d g1 w2) as [g2 w3] eqn:E3
  end.
  rewrite (bind_run _ _ _ _ _ E3). cbn [fst snd] in Hg2, Hw3.
  rewrite bind_gets.
  destruct (NMjsRooms.clearCentre_shell g2 Hg2) as [Hs Hc].
  rewrite <- clearCentre_same1 in Hs, Hc.
  assert (Hfl0 : flagsOf (node_id node) w0 = flagsOf (node_id node) w).
  { unfold flagsOf. rewrite Hr0. reflexivity. }
  assert (Hfl : from_option neighbors (allDoors false) (rooms w3 !! node_id node)
                = flagsOf (node_id node) w).
  { rewrite Hw3, Hm2, Hr1. cbn. rewrite Hnb. exact Hfl0. }
  rewrite Hfl.
  pose proof (NMjsRooms.carved_finished (flagsOf (node_id node) w) _ Hs Hc) as Hfin.
  unfold NMjsRooms.carved in Hfin. rewrite <- !carveDoor_same1 in Hfin.
  eexists. split; [| split].
  - unfold updRoom, modify. cbn [snd rooms set_rooms].
    rewrite lookup_alter_eq, Hw3, Hm2, Hr1. reflexivity.
  - cbn. rewrite Hnb. exact Hfl0.
  - exact Hfin.
Qed.

(** [genRoomTiles] of [n.js] always leaves the room enclosed, whatever the
    random draws: 21 x 13 tiles; wall all along the border except for a
    one-tile opening in the middle of each side that has a neighbour; floor
    on the ring inside the border except for the door marker behind each
    opening; floor on the 3 x 3 centre, which the clearing loop hits exactly
    although its bounds are written [y <= (ROOM_TH / 2 + 1) | 0]. *)
Theorem njs_room_is_enclosed :
  forall id w,
    exists r,
      rooms (exec (genRoomTiles id) w) !! node_id (eval (ensureNode id) w) = Some r
      /\ neighbors r = flagsOf (node_id (eval (ensureNode id) w)) w
      /\ length (room_g r) = 273%nat
      /\ (forall x y, cell x y -> ~ inner x y ->
            arrGet (tileIndex x y) (room_g r) = Some (shellTile (neighbors r) x y))
      /\ (forall x y, 9 <= x <= 11 -> 5 <= y <= 7 ->
            arrGet (tileIndex x y) (room_g r) = Some 1).
Proof.
  intros id w.
  destruct (genRoomTiles_spec1 id w) as (r & Hr & Hnb & Hl & Hs & Hc).
  exists r. rewrite Hnb. unfold eval. repeat split; assumption.
Qed.

End NJsTiles.

End NJsRooms.
